(* ===== verification/_CoqProject ===== *)
-Q . S2P
Prelude.v
CString.v
Memory.v
MemorySpec.v
MemoryProps.v
MemWords.v
ProcQueue.v
QueueSpec.v
QueueProps.v
Process.v
SchedSpec.v
SchedProps.v
ProcSpec.v
ProcProps.v
ForkSpec.v
ForkProps.v
WaitSpec.v
WaitProps.v
ExitProps.v
FamilyProps.v
Filesystem.v
FsWf.v
FsSpec.v
FsData.v
FsLoops.v
FsRefine.v
FsProps.v
FsTheorems.v
Convert.v
Vga.v
Keyboard.v
Strtok.v
Serial.v
Interrupts.v
RbTree.v
RbSpec.v
RbInsert.v
RbErase.v
RbRemove.v
Cfs.v
Cli.v
CliSpec.v
CliRefine.v
Boot.v
System.v
SystemProps.v
