(* ===== verification/Prelude.v ===== *)
(** * ApnaOS: a verification library

    ApnaOS is a small 32-bit kernel in C.  This library models its C code and
    proves what makes each part correct, up to a statement about the whole
    kernel.

    ** The program and its model

    A computation of the kernel is a value of [res]: a result, or an error for
    what C gives no meaning to (an access outside an object, a bad pointer), or
    fuel that was too small.  Integers are [Z], brought back to their width where
    an operation can leave it ([u8], [u16], [u32], [i32]).  Arrays are lists with
    checked access ([aget], [aset]); loops are [for_loop], [iter] or structural
    recursion; state is passed explicitly.

    - This file: results, machine integers, arrays, loops, and the lemmas on
      them that all parts share.
    - [CString], [Strtok]: [keyboard/string.c].  A [char *] is the list of the
      bytes from it to the end of its object; [strtok], which cuts the buffer up
      and keeps a static pointer, has indices into the buffer.
    - [Memory] ([memory/memory.c]): the page allocator, [kmalloc], [kfree],
      [copy_memory] on the bytes of [kernel_memory].  [MemorySpec] has the heap
      invariant, [MemWords] words at addresses, [MemoryProps] the properties.
    - [ProcQueue]: the ready queues of [process/process.c], linked through the
      PCBs in kernel memory.  [QueueSpec] relates them to lists, [QueueProps]
      has the properties.
    - [RbTree] ([process/rbtree.c], [process/rbtree.h], and [cfs_enqueue] and
      [cfs_dequeue_min] of [process/process.c]): red-black trees of nodes with
      parent pointers; a PCB and the [vr_node] in it are one node.  [RbSpec] has trees and zippers in memory, [RbInsert],
      [RbErase] and [RbRemove] the balancing, [Cfs] the queue.
    - [Process] ([process/process.c], [process/syscall.c]): [schedule],
      [create_process], and the calls fork, wait, exit and yield on the globals
      and the heap.  A switch of stacks ends the C function; it is a result.
      [SchedSpec] and [SchedProps] have the invariant and the scheduler,
      [ProcSpec] and [ProcProps] the creation of a process, [ForkSpec] and
      [ForkProps] fork, [WaitSpec] and [WaitProps] wait, [ExitProps] exit, and
      [FamilyProps] the calls of a parent and its child together.
    - [Filesystem] ([filesystem/filesystem.c]): the file system on its five
      tables.  [FsWf] has the invariant, [FsSpec] the abstract file system,
      [FsData], [FsLoops] and [FsRefine] the refinement, [FsProps] and
      [FsTheorems] the properties.
    - [Convert], [Vga], [Cli] ([kernel.c]): the number conversions, the text
      screen, and the command line, one iteration of [cli_loop] at a time.
      [CliSpec] has the commands as a language with a parser and an abstract
      console, [CliRefine] the proof that the code implements it.
    - [Keyboard] ([keyboard/keyboard.c], [read_line] of [kernel.c]): the
      interrupt handler and the line editor it implements.
    - [Interrupts] ([keyboard/gdt.c], [interrupts/idt.c],
      [interrupts/interrupts.c], [interrupts/pic.c]): descriptor tables, the
      table of handlers, the controllers.
    - [Serial] ([serial.c], [keyboard/io.h]): the debug line.
    - [Boot]: [kernel_main] and the whole machine.  [System] and [SystemProps]
      put the parts together.

    The parts interact as in the code: the scheduler calls the queues and the
    heap; the system calls call the scheduler; the keyboard interrupt goes
    through the table of handlers and prints on the screen; the command line
    reads the keyboard's line, cuts it with [strtok], and calls the file system,
    [create_process], [schedule] and the screen.

    ** What is proved

    - The whole kernel ([SystemProps]): it boots, and every session at the
      command line is that of the abstract console; a file that is typed in is
      shown again; a long file overruns a local buffer.
    - The file system refines a list of named files ([FsProps]); reads return
      what was written, files do not disturb each other, permissions hold, the
      counters are exact; two ways in which the code falls short of that are
      stated as they are ([FsTheorems]).
    - The heap ([MemoryProps]): allocations are disjoint and first fit, freeing
      undoes allocating; blocks can wrap around and sizes can overflow.
    - Both queues are stable priority queues ([QueueProps], [Cfs]); red-black
      trees stay balanced and searches are logarithmic.
    - Scheduling ([SchedProps]): who runs next, starvation, turns among equals.
      Processes: [create_process] and [fork_syscall] fail exactly when the heap
      has no room ([ProcProps], [ForkProps]); a zombie child is collected, and a
      missing parent is followed ([WaitProps]); a child's exit status reaches
      its parent ([ExitProps]), from the fork on ([FamilyProps]).
    - The keyboard driver is a line editor ([Keyboard]), the screen a window on a
      terminal that keeps every row ([Vga]), tokens are words ([Strtok]),
      decimals are read back, and negative numbers come out as they do
      ([Convert]), interrupts reach their handlers
      ([Interrupts]), serial output arrives ([Serial]).

    ** Fuel

    Loops over lists of PCBs get one step for each page, since every PCB has a
    page of its own; loops over a red-black tree one step for each node of the
    store and two more, and the height lemmas show that twice the logarithm
    suffices; the copy loops of the file system one step for each of the four
    blocks; [strtok] and the copies of lines one step for each byte of the
    buffer.  Theorems about these loops state a result, so the fuel is enough.

    ** Not modelled

    - Assembly: the boot code, the stubs that save registers, [lgdt], [lidt], and
      the instructions of a stack switch.  Addresses and register values that C
      code gets from them are arguments; return addresses and frame pointers that
      the compiler pushes are not in the model, except for the two words a switch
      pops.
    - Debug output on the serial line inside the other parts: it changes no state
      of the kernel.
    - The test programs under [test_processes/], which only call modelled
      functions; what a process does once it runs.
    - Interrupts between the statements of a function: in [Boot], keys arrive
      while the command line waits for a line.
    - The command line after [process schedule]: a session ends at the first
      call of [schedule], with what it did as its result.  The code goes on with
      its loop when the call returns, and an empty ready queue makes [schedule]
      enter a second [cli_loop].
    - The offset of [vr_node] in a PCB: [rb_entry] and [&p->vr_node] are the
      identity in [RbTree], where nothing depends on it.
    - The two loops of [memory_init] one step at a time: both arrays are zero
      when they end, and this is its definition.

    A [wait_syscall] blocks when no child of the caller is a zombie and every
    entry of the process table has a parent (the lemma [wait_blocks]); since
    the first process has none and stays in the table, a call that finds no
    zombie reads through [NULL] before it gets there. *)
From stdpp Require Export base tactics list gmap strings numbers relations.

Global Open Scope Z_scope.

#[global] Arguments Z.to_nat : simpl never.
#[global] Arguments Z.of_nat : simpl never.
#[global] Arguments Z.modulo : simpl never.
#[global] Arguments Z.div : simpl never.
#[global] Arguments Z.pow : simpl never.

Declare Scope kernel_scope.
Delimit Scope kernel_scope with K.

(** ** Results of C code

    A computation of the kernel either returns a value or stops in a way the
    C standard gives no meaning to: an access outside an object, a
    dereference of an address at which no object lives, or (only for loops
    run with fuel) fuel that was too small. *)

Inductive err :=
| OutOfBounds
| BadPointer
| OutOfFuel.

#[export] Instance err_eq_dec : EqDecision err.
Proof. solve_decision. Defined.

Inductive res (A : Type) :=
| Ok (a : A)
| Err (e : err).
Arguments Ok {A} a.
Arguments Err {A} e.

#[export] Instance res_eq_dec `{EqDecision A} : EqDecision (res A).
Proof. solve_decision. Defined.

#[export] Instance res_ret : MRet res := @Ok.
#[export] Instance res_bind : MBind res := λ A B f m,
  match m with Ok a => f a | Err e => Err e end.
#[export] Instance res_fmap : FMap res := λ A B f m,
  match m with Ok a => Ok (f a) | Err e => Err e end.

Definition of_option {A} (e : err) (o : option A) : res A :=
  match o with Some a => Ok a | None => Err e end.

Lemma bind_ok {A B} (a : A) (f : A → res B) : (Ok a ≫= f) = f a.
Proof. reflexivity. Qed.

Lemma bind_err {A B} (e : err) (f : A → res B) : (Err e ≫= f) = Err e.
Proof. reflexivity. Qed.

Lemma bind_ok_inv {A B} (m : res A) (f : A → res B) (b : B) :
  (m ≫= f) = Ok b → ∃ a, m = Ok a ∧ f a = Ok b.
Proof. destruct m as [a|e]; [intros H; by exists a|done]. Qed.

Lemma of_option_ok {A} e (o : option A) a : of_option e o = Ok a ↔ o = Some a.
Proof. destruct o; simpl; split; congruence. Qed.

Create HintDb kernel discriminated.


(** [res_inv] opens every successful bind among the hypotheses. *)
Ltac res_inv :=
  repeat match goal with
  | H : (_ ≫= _) = Ok _ |- _ =>
      let a := fresh "a" in let Ha := fresh "Ha" in
      apply bind_ok_inv in H as (a & Ha & H)
  | H : Ok _ = Ok _ |- _ => injection H as H; try subst
  | H : Err _ = Ok _ |- _ => discriminate H
  | H : Ok _ = Err _ |- _ => discriminate H
  | H : mret _ = Ok _ |- _ => unfold mret, res_ret in H
  end.

(** ** Machine integers

    Values are [Z]; an arithmetic result is brought back to its width at the
    operation that can leave it. *)

Definition u8 (z : Z) : Z := z `mod` 2 ^ 8.
Definition u16 (z : Z) : Z := z `mod` 2 ^ 16.
Definition u32 (z : Z) : Z := z `mod` 2 ^ 32.
Definition u64 (z : Z) : Z := z `mod` 2 ^ 64.
Definition i32 (z : Z) : Z := (z + 2 ^ 31) `mod` 2 ^ 32 - 2 ^ 31.

(** [0xFFFFFFFF]: the value of [-1] once converted to [uint32_t]/[size_t]. *)
Definition U32_MAX : Z := 4294967295.

Lemma u32_range z : 0 ≤ u32 z < 2 ^ 32.
Proof. by apply Z.mod_pos_bound. Qed.

Lemma u32_small z : 0 ≤ z < 2 ^ 32 → u32 z = z.
Proof. apply Z.mod_small. Qed.

Lemma u16_small z : 0 ≤ z < 2 ^ 16 → u16 z = z.
Proof. apply Z.mod_small. Qed.

Lemma u8_small z : 0 ≤ z < 2 ^ 8 → u8 z = z.
Proof. apply Z.mod_small. Qed.

Lemma u8_range z : 0 ≤ u8 z < 2 ^ 8.
Proof. by apply Z.mod_pos_bound. Qed.

Lemma u16_range z : 0 ≤ u16 z < 2 ^ 16.
Proof. by apply Z.mod_pos_bound. Qed.

Lemma u32_minus_one : u32 (-1) = U32_MAX.
Proof. reflexivity. Qed.

Lemma i32_range z : -2 ^ 31 ≤ i32 z < 2 ^ 31.
Proof. unfold i32. pose proof (Z.mod_pos_bound (z + 2 ^ 31) (2 ^ 32)). lia. Qed.

Lemma i32_small z : (-2 ^ 31) ≤ z < 2 ^ 31 → i32 z = z.
Proof. intros. unfold i32. rewrite Z.mod_small; lia. Qed.

Lemma u32_dec z : 0 < z < 2 ^ 32 → u32 (z - 1) = z - 1.
Proof. intros. apply u32_small. lia. Qed.

(** [u32_norm] removes wrap-arounds that [lia] can show to be idle. *)
Ltac u32_norm :=
  repeat match goal with
  | |- context [u32 ?z] => rewrite (u32_small z) by lia
  | H : context [u32 ?z] |- _ => rewrite (u32_small z) in H by lia
  end.

Ltac i32_norm :=
  repeat match goal with
  | |- context [i32 ?z] => rewrite (i32_small z) by lia
  | H : context [i32 ?z] |- _ => rewrite (i32_small z) in H by lia
  end.

(** ** C arrays

    An array is a list; an index outside it is an error, for reads and for
    writes. *)

Definition aget {A} (l : list A) (i : Z) : res A :=
  if bool_decide (0 ≤ i) then of_option OutOfBounds (l !! Z.to_nat i)
  else Err OutOfBounds.

Definition aset {A} (l : list A) (i : Z) (x : A) : res (list A) :=
  if bool_decide (0 ≤ i < Z.of_nat (length l)) then Ok (<[Z.to_nat i := x]> l)
  else Err OutOfBounds.

Lemma aget_ok {A} (l : list A) i x :
  aget l i = Ok x ↔ 0 ≤ i ∧ l !! Z.to_nat i = Some x.
Proof.
  unfold aget. case_bool_decide; rewrite ?of_option_ok; naive_solver.
Qed.

Lemma aget_lookup {A} (l : list A) i x :
  0 ≤ i → l !! Z.to_nat i = Some x → aget l i = Ok x.
Proof. intros. by apply aget_ok. Qed.

Lemma aget_nat {A} (l : list A) (i : nat) x :
  l !! i = Some x → aget l (Z.of_nat i) = Ok x.
Proof. intros. apply aget_ok. rewrite Nat2Z.id. split; [lia|done]. Qed.

Lemma aget_bound {A} (l : list A) i x :
  aget l i = Ok x → 0 ≤ i < Z.of_nat (length l).
Proof. intros [? Hl%lookup_lt_Some]%aget_ok. lia. Qed.

Lemma aget_is_ok {A} (l : list A) i :
  0 ≤ i < Z.of_nat (length l) → ∃ x, aget l i = Ok x ∧ l !! Z.to_nat i = Some x.
Proof.
  intros ?. destruct (lookup_lt_is_Some_2 l (Z.to_nat i)) as [x Hx]; [lia|].
  exists x. split; [by apply aget_lookup; [lia|]|done].
Qed.

Lemma aget_err {A} (l : list A) i :
  ¬ (0 ≤ i < Z.of_nat (length l)) → aget l i = Err OutOfBounds.
Proof.
  intros. unfold aget. case_bool_decide; [|done].
  rewrite lookup_ge_None_2; [done|lia].
Qed.

Lemma aset_ok {A} (l : list A) i x :
  0 ≤ i < Z.of_nat (length l) → aset l i x = Ok (<[Z.to_nat i := x]> l).
Proof. intros. unfold aset. by rewrite bool_decide_eq_true_2. Qed.

Lemma aset_err {A} (l : list A) i x :
  ¬ (0 ≤ i < Z.of_nat (length l)) → aset l i x = Err OutOfBounds.
Proof. intros. unfold aset. by rewrite bool_decide_eq_false_2. Qed.

Lemma aset_inv {A} (l : list A) i x l' :
  aset l i x = Ok l' →
  0 ≤ i < Z.of_nat (length l) ∧ l' = <[Z.to_nat i := x]> l.
Proof. unfold aset. case_bool_decide; naive_solver. Qed.

(** ** Loops

    [for_loop n i body s] is [for (k = i; k < i + n; k++) s = body(k, s)];
    [find_first n i p] is a [for] loop over [i .. i + n - 1] that returns the
    first index satisfying [p]; [iter fuel step s] is a [while] loop whose
    [step] either goes on with a new state ([inl]) or leaves with a result
    ([inr]). *)

Fixpoint for_loop {S} (n : nat) (i : Z) (body : Z → S → res S) (s : S) : res S :=
  match n with
  | O => Ok s
  | Datatypes.S n' => s' ← body i s; for_loop n' (i + 1) body s'
  end.

Fixpoint find_first (n : nat) (i : Z) (p : Z → res bool) : res (option Z) :=
  match n with
  | O => Ok None
  | S n' => b ← p i; if (b : bool) then Ok (Some i) else find_first n' (i + 1) p
  end.

Fixpoint iter {S R} (fuel : nat) (step : S → res (S + R)) (s : S) : res R :=
  match fuel with
  | O => Err OutOfFuel
  | Datatypes.S fuel' =>
      x ← step s;
      match x with inl s' => iter fuel' step s' | inr r => Ok r end
  end.

Lemma for_loop_0 {S} i (body : Z → S → res S) s : for_loop 0 i body s = Ok s.
Proof. reflexivity. Qed.

Lemma for_loop_S {S} n i (body : Z → S → res S) s :
  for_loop (Datatypes.S n) i body s = (s' ← body i s; for_loop n (i + 1) body s').
Proof. reflexivity. Qed.

Lemma iter_S {S R} fuel (step : S → res (S + R)) s :
  iter (Datatypes.S fuel) step s =
    (x ← step s; match x with inl s' => iter fuel step s' | inr r => Ok r end).
Proof. reflexivity. Qed.

(** Total correctness of a counted loop from an invariant of its body. *)
Lemma for_loop_inv {S} (P : Z → S → Prop) n i (body : Z → S → res S) s :
  P i s →
  (∀ k s, i ≤ k < i + Z.of_nat n → P k s → ∃ s', body k s = Ok s' ∧ P (k + 1) s') →
  ∃ s', for_loop n i body s = Ok s' ∧ P (i + Z.of_nat n) s'.
Proof.
  revert i s. induction n as [|n IH]; intros i s HP Hb.
  - exists s. split; [done|]. by replace (i + Z.of_nat 0) with i by lia.
  - destruct (Hb i s) as (s1 & H1 & HP1); [lia|done|].
    destruct (IH (i + 1) s1 HP1) as (s2 & H2 & HP2).
    { intros k s' Hk. apply Hb. lia. }
    exists s2. simpl. rewrite H1, bind_ok. split; [done|].
    by replace (i + Z.of_nat (Datatypes.S n)) with (i + 1 + Z.of_nat n) by lia.
Qed.

(** The same for a loop whose final state is a known function of the index. *)
Lemma for_loop_fun {S} (f : Z → S) n i (body : Z → S → res S) s :
  s = f i →
  (∀ k, i ≤ k < i + Z.of_nat n → body k (f k) = Ok (f (k + 1))) →
  for_loop n i body s = Ok (f (i + Z.of_nat n)).
Proof.
  intros -> Hb.
  destruct (for_loop_inv (λ k s, s = f k) n i body (f i)) as (s' & -> & ->);
    [done| |done].
  intros k ? ? ->. eauto.
Qed.

(** Total correctness of a [while] loop from an invariant and a measure. *)
Lemma iter_inv {S R} (I : S → Prop) (Q : R → Prop) (m : S → nat)
    (step : S → res (S + R)) fuel s :
  I s → (m s < fuel)%nat →
  (∀ s, I s →
    (∃ s', step s = Ok (inl s') ∧ I s' ∧ (m s' < m s)%nat) ∨
    (∃ r, step s = Ok (inr r) ∧ Q r)) →
  ∃ r, iter fuel step s = Ok r ∧ Q r.
Proof.
  revert s. induction fuel as [|fuel IH]; intros s HI Hm Hstep; [lia|].
  destruct (Hstep s HI) as [(s' & Hs & HI' & Hm')|(r & Hs & HQ)];
    simpl; rewrite Hs, bind_ok.
  - apply IH; [done|lia|done].
  - by exists r.
Qed.

(** More fuel changes nothing once a loop has left. *)
Lemma iter_mono {S R} (step : S → res (S + R)) fuel fuel' s r :
  iter fuel step s = Ok r → (fuel ≤ fuel')%nat → iter fuel' step s = Ok r.
Proof.
  revert fuel' s. induction fuel as [|fuel IH]; intros fuel' s H Hle; [done|].
  destruct fuel' as [|fuel']; [lia|]. simpl in *.
  destruct (step s) as [[s'|r']|]; simpl in *; [|done|done].
  apply IH; [done|lia].
Qed.

(** What [find_first] returns when the tests it makes all have a value. *)
Lemma find_first_some n i (p : Z → res bool) k :
  i ≤ k < i + Z.of_nat n →
  (∀ j, i ≤ j < k → p j = Ok false) → p k = Ok true →
  find_first n i p = Ok (Some k).
Proof.
  revert i. induction n as [|n IH]; intros i Hk Hlt Hp; [lia|]. simpl.
  destruct (decide (i = k)) as [->|Hne]; [by rewrite Hp|].
  rewrite Hlt by lia. rewrite bind_ok. apply IH; [lia| |done].
  intros j Hj. apply Hlt. lia.
Qed.

Lemma find_first_none n i (p : Z → res bool) :
  (∀ j, i ≤ j < i + Z.of_nat n → p j = Ok false) →
  find_first n i p = Ok None.
Proof.
  revert i. induction n as [|n IH]; intros i Hlt; [done|]. simpl.
  rewrite Hlt by lia. rewrite bind_ok. apply IH. intros j Hj. apply Hlt. lia.
Qed.

Lemma find_first_inv n i (p : Z → res bool) r :
  find_first n i p = Ok r →
  match r with
  | Some k => i ≤ k < i + Z.of_nat n ∧ p k = Ok true ∧
              ∀ j, i ≤ j < k → p j = Ok false
  | None => ∀ j, i ≤ j < i + Z.of_nat n → p j = Ok false
  end.
Proof.
  revert i. induction n as [|n IH]; intros i H; simpl in H.
  { injection H as <-. intros; lia. }
  apply bind_ok_inv in H as ([] & Hp & H).
  - injection H as <-. split_and!; [lia..|done|intros; lia].
  - apply IH in H. destruct r as [k|].
    + destruct H as (? & ? & Hlt). split_and!; [lia..|done|].
      intros j Hj. destruct (decide (j = i)) as [->|]; [done|]. apply Hlt. lia.
    + intros j Hj. destruct (decide (j = i)) as [->|]; [done|]. apply H. lia.
Qed.

(** A search whose tests are all defined has a result. *)
Lemma find_first_total n i (p : Z → res bool) (b : Z → bool) :
  (∀ j, i ≤ j < i + Z.of_nat n → p j = Ok (b j)) →
  ∃ r, find_first n i p = Ok r.
Proof.
  revert i. induction n as [|n IH]; intros i H; simpl; [by eexists|].
  rewrite H by lia. rewrite bind_ok. destruct (b i); [by eexists|].
  apply IH. intros j Hj. apply H. lia.
Qed.

Lemma find_first_ext n i (p q : Z → res bool) :
  (∀ j, i ≤ j < i + Z.of_nat n → p j = q j) →
  find_first n i p = find_first n i q.
Proof.
  revert i. induction n as [|n IH]; intros i H; simpl; [done|].
  rewrite H by lia. destruct (q i) as [[]|]; [done| |done].
  rewrite !bind_ok. apply IH. intros j Hj. apply H. lia.
Qed.

(** ** Overwriting a segment of an array *)

Definition splice {A} (l : list A) (i : nat) (x : list A) : list A :=
  take i l ++ x ++ drop (i + length x) l.

Section splice.
  Context {A : Type}.
  Implicit Types l x : list A.

Lemma splice_nil l i : splice l i [] = l.
Proof. unfold splice. simpl. by rewrite Nat.add_0_r, take_drop. Qed.

Lemma length_splice l i x :
  (i + length x ≤ length l)%nat → length (splice l i x) = length l.
Proof. intros. unfold splice. rewrite !length_app, length_take, length_drop. lia. Qed.

Lemma splice_cons l i c x :
  (i < length l)%nat → splice (<[i := c]> l) (S i) x = splice l i (c :: x).
Proof.
  intros Hi. unfold splice. simpl. rewrite Nat.add_succ_r.
  rewrite (take_S_r _ _ c) by (by apply list_lookup_insert_eq).
  rewrite take_insert_ge by lia. rewrite drop_insert_lt by lia.
  by rewrite <-app_assoc.
Qed.

Lemma splice_snoc l i x c :
  (i + length x < length l)%nat →
  <[(i + length x)%nat := c]> (splice l i x) = splice l i (x ++ [c]).
Proof.
  intros Hi. unfold splice. rewrite insert_app_r_alt by (rewrite length_take; lia).
  rewrite length_take, Nat.min_l by lia.
  rewrite insert_app_r_alt by lia.
  replace (i + length x - i - length x)%nat with 0%nat by lia.
  destruct (lookup_lt_is_Some_2 l (i + length x)) as [y Hy]; [lia|].
  rewrite (drop_S _ y) by done. simpl. rewrite length_app. simpl.
  rewrite Nat.add_assoc, Nat.add_1_r. by rewrite <-app_assoc.
Qed.

Lemma lookup_splice_lt l i x j :
  (j < i)%nat → (i ≤ length l)%nat → splice l i x !! j = l !! j.
Proof.
  intros. unfold splice. rewrite lookup_app_l by (rewrite length_take; lia).
  by apply lookup_take_lt.
Qed.

Lemma lookup_splice_in l i x j :
  (i ≤ j < i + length x)%nat → (i ≤ length l)%nat →
  splice l i x !! j = x !! (j - i)%nat.
Proof.
  intros. unfold splice. rewrite lookup_app_r by (rewrite length_take; lia).
  rewrite length_take, Nat.min_l by lia. apply lookup_app_l. lia.
Qed.

Lemma lookup_splice_ge l i x j :
  (i + length x ≤ j)%nat → (i ≤ length l)%nat → splice l i x !! j = l !! j.
Proof.
  intros. unfold splice. rewrite lookup_app_r by (rewrite length_take; lia).
  rewrite length_take, Nat.min_l by lia. rewrite lookup_app_r by lia.
  rewrite lookup_drop. f_equal. lia.
Qed.

Lemma take_splice l i x :
  (i ≤ length l)%nat → take (i + length x) (splice l i x) = take i l ++ x.
Proof.
  intros. unfold splice. rewrite app_assoc, take_app_le.
  - apply take_ge. rewrite length_app, length_take. lia.
  - rewrite length_app, length_take. lia.
Qed.

Lemma drop_splice l i x :
  (i ≤ length l)%nat → drop (i + length x) (splice l i x) = drop (i + length x) l.
Proof.
  intros. unfold splice. rewrite app_assoc, drop_app_length'; [done|].
  rewrite length_app, length_take. lia.
Qed.

Lemma take_drop_splice l i x :
  (i ≤ length l)%nat → take (length x) (drop i (splice l i x)) = x.
Proof.
  intros. unfold splice. rewrite drop_app_length' by (rewrite length_take; lia).
  by rewrite take_app_length.
Qed.

Lemma splice_app l i x y :
  (i + length x + length y ≤ length l)%nat →
  splice (splice l i x) (i + length x) y = splice l i (x ++ y).
Proof.
  intros. unfold splice at 1. rewrite take_splice by lia.
  unfold splice. rewrite length_app, <-!app_assoc. do 3 f_equal.
  rewrite app_assoc, drop_app_ge by (rewrite length_app, length_take; lia).
  rewrite length_app, length_take, Nat.min_l, drop_drop by lia. f_equal. lia.
Qed.
(** Overwriting inside the middle part of a concatenation. *)
Lemma splice_middle l1 l2 l3 i x :
  (i + length x ≤ length l2)%nat →
  splice (l1 ++ l2 ++ l3) (length l1 + i) x = l1 ++ splice l2 i x ++ l3.
Proof.
  intros. unfold splice. rewrite take_app_add, take_app_le by lia.
  rewrite <-!app_assoc. do 3 f_equal.
  rewrite <-Nat.add_assoc, drop_app_add, drop_app_le by lia. done.
Qed.

(** The part of a concatenation that lies inside its middle. *)
Lemma take_drop_middle_part l1 l2 l3 i n :
  (i + n ≤ length l2)%nat →
  take n (drop (length l1 + i) (l1 ++ l2 ++ l3)) = take n (drop i l2).
Proof.
  intros. rewrite drop_app_add, drop_app_le by lia.
  by rewrite take_app_le by (rewrite length_drop; lia).
Qed.

Lemma take_extend l n k : take n l ++ take k (drop n l) = take (n + k) l.
Proof. by rewrite take_take_drop. Qed.
End splice.


Lemma replicate_0 {A} (x : A) : replicate 0 x = [].
Proof. reflexivity. Qed.

(** ** Parts of a list *)

Lemma elem_of_take_in {A} (x : A) n l : x ∈ take n l → x ∈ l.
Proof. rewrite <-(take_drop n l) at 2. rewrite elem_of_app. by left. Qed.

Lemma elem_of_drop_in {A} (x : A) n l : x ∈ drop n l → x ∈ l.
Proof. rewrite <-(take_drop n l) at 2. rewrite elem_of_app. by right. Qed.

Lemma NoDup_take_in {A} n (l : list A) : NoDup l → NoDup (take n l).
Proof. rewrite <-(take_drop n l) at 1. by intros [? _]%NoDup_app. Qed.

(** ** Filters *)

Lemma list_filter_all {A} (P : A → Prop) `{!∀ x, Decision (P x)} (l : list A) :
  Forall P l → filter P l = l.
Proof.
  induction 1 as [|x l Hx _ IH]; [done|].
  by rewrite filter_cons, decide_True, IH.
Qed.

Lemma list_filter_none {A} (P : A → Prop) `{!∀ x, Decision (P x)} (l : list A) :
  Forall (λ x, ¬ P x) l → filter P l = [].
Proof.
  induction 1 as [|x l Hx _ IH]; [done|].
  by rewrite filter_cons, decide_False, IH.
Qed.

(** Changing one element of a list changes the count of a property by the
    difference of that element. *)
Lemma filter_insert_count {A} (P : A → Prop) `{!∀ x, Decision (P x)} l i (x y : A) :
  l !! i = Some x →
  (length (filter P (<[i := y]> l)) + (if decide (P x) then 1 else 0) =
   length (filter P l) + (if decide (P y) then 1 else 0))%nat.
Proof.
  intros Hi. rewrite insert_take_drop by by eapply lookup_lt_Some.
  rewrite <-(take_drop_middle l i x Hi) at 3.
  rewrite !filter_app, !filter_cons, !length_app.
  repeat case_decide; simpl; lia.
Qed.

(** Loops with large constant bounds must not be unrolled by [simpl]. *)
#[global] Arguments replicate : simpl never.
#[global] Arguments for_loop : simpl never.
#[global] Arguments iter : simpl never.
#[global] Arguments find_first : simpl never.
