(* ===== verification/CString.v ===== *)
(** * The C string library of the kernel ([keyboard/string.c], [string.h])

    A pointer to characters is the list of the bytes from the pointed one to
    the end of the object it points into; reading past that end is
    [OutOfBounds].  A destination buffer is a list written in place.
    Characters are bytes, [0 ≤ c < 256]: every comparison of the library goes
    through [unsigned char]. *)
From S2P Require Import Prelude.

(** [*s] *)
Definition deref (s : list Z) : res Z :=
  match s with [] => Err OutOfBounds | c :: _ => Ok c end.

(** [size_t strlen(const char* str)] *)
Fixpoint strlen (str : list Z) : res Z :=
  match str with
  | [] => Err OutOfBounds
  | c :: t => if c =? 0 then Ok 0 else (len ← strlen t; Ok (len + 1))
  end.

(** [void* memcpy(void* dest, const void* src, size_t n)]: [dest] is the
    object [d] from index [di] on, [n] counts down to [0]. *)
Fixpoint memcpy (d : list Z) (di : Z) (src : list Z) (n : nat) : res (list Z) :=
  match n with
  | O => Ok d
  | S n' => c ← deref src; d' ← aset d di c; memcpy d' (di + 1) (tail src) n'
  end.

(** [void* memset(void* s, int c, size_t n)] *)
Fixpoint memset (s : list Z) (si : Z) (c : Z) (n : nat) : res (list Z) :=
  match n with
  | O => Ok s
  | S n' => s' ← aset s si (u8 c); memset s' (si + 1) c n'
  end.

(** [memset(words, c, sizeof(words))] on an array of [uint32_t]: four bytes
    [c] in every word. *)
Definition memset_u32 (words : list Z) (c : Z) : list Z :=
  (λ _, u8 c * 16843009) <$> words.

(** [int strcmp(const char *s1, const char *s2)] *)
Fixpoint strcmp (s1 s2 : list Z) : res Z :=
  c1 ← deref s1;
  if c1 =? 0 then c2 ← deref s2; Ok (c1 - c2)
  else
    c2 ← deref s2;
    if c1 =? c2 then
      match s1 with [] => Err OutOfBounds | _ :: t1 => strcmp t1 (tail s2) end
    else Ok (c1 - c2).

(** [int strncmp(const char* s1, const char* s2, size_t n)].  [n--] is
    evaluated before the characters are looked at, so after the loop [n] is
    [(size_t)-1] exactly when it was exhausted. *)
Fixpoint strncmp (s1 s2 : list Z) (n : Z) : res Z :=
  let n' := u32 (n - 1) in
  let finish :=
    if n' =? U32_MAX then Ok 0
    else c1 ← deref s1; c2 ← deref s2; Ok (c1 - c2) in
  if n =? 0 then finish
  else
    match s1 with
    | [] => Err OutOfBounds
    | c1 :: t1 =>
        if c1 =? 0 then finish
        else
          c2 ← deref s2;
          if c2 =? 0 then finish
          else if negb (c1 =? c2) then Ok (c1 - c2)
          else strncmp t1 (tail s2) n'
    end.

(** The first loop of [strncpy]: [while (n-- && ( *d++ = *src++));].  It
    returns the buffer, the index [d] has reached and the value left in [n]. *)
Fixpoint strncpy_copy (dest : list Z) (d : Z) (src : list Z) (n : Z)
    : res (list Z * Z * Z) :=
  let n' := u32 (n - 1) in
  if n =? 0 then Ok (dest, d, n')
  else
    match src with
    | [] => Err OutOfBounds
    | c :: t =>
        dest' ← aset dest d c;
        if c =? 0 then Ok (dest', d + 1, n') else strncpy_copy dest' (d + 1) t n'
    end.

(** The second loop: [while (n-- > 0) *d++ = '\0';].  Every turn writes one
    byte of [dest], so [length dest] turns reach its end. *)
Definition strncpy_pad (dest : list Z) (d n : Z) : res (list Z) :=
  iter (S (length dest))
    (λ '(dest, d, n),
      if 0 <? n then dest' ← aset dest d 0; Ok (inl (dest', d + 1, u32 (n - 1)))
      else Ok (inr dest))
    (dest, d, n).

(** [char* strncpy(char* dest, const char* src, size_t n)] *)
Definition strncpy (dest src : list Z) (n : Z) : res (list Z) :=
  '(dest', d, n') ← strncpy_copy dest 0 src n;
  strncpy_pad dest' d n'.

(** [char *strchr(const char *s, int c)]: whether [c] occurs in [s] before
    its terminator (the callers only test the result against [NULL]). *)
Fixpoint strchr (s : list Z) (c : Z) : res (option (list Z)) :=
  match s with
  | [] => Err OutOfBounds
  | x :: t => if x =? 0 then Ok None else if x =? c then Ok (Some s) else strchr t c
  end.

(** ** The string a pointer denotes *)

(** The characters before the terminator, if there is one in the object. *)
Fixpoint cstr (s : list Z) : option (list Z) :=
  match s with
  | [] => None
  | c :: t => if c =? 0 then Some [] else cons c <$> cstr t
  end.

(** The bytes of a string constant. *)
Definition c_string (x : list Z) : list Z := x ++ [0].

Lemma cstr_app x rest : 0 ∉ x → cstr (x ++ 0 :: rest) = Some x.
Proof.
  induction x as [|c x IH]; intros H; [done|].
  apply not_elem_of_cons in H as [? ?]. simpl.
  destruct (Z.eqb_spec c 0); [congruence|]. by rewrite IH.
Qed.

Lemma cstr_inv s x : cstr s = Some x → 0 ∉ x ∧ ∃ rest, s = x ++ 0 :: rest.
Proof.
  revert x. induction s as [|c s IH]; intros x H; [done|]. simpl in H.
  destruct (Z.eqb_spec c 0) as [->|Hc].
  - injection H as <-. split; [apply not_elem_of_nil|by exists s].
  - destruct (cstr s) as [y|] eqn:E; [|done]. injection H as <-.
    destruct (IH y) as (Hy & rest & ->); [done|].
    split; [by apply not_elem_of_cons|by exists rest].
Qed.

Lemma cstr_length s x : cstr s = Some x → (length x < length s)%nat.
Proof. intros (_ & rest & ->)%cstr_inv. rewrite length_app. simpl. lia. Qed.

Lemma cstr_has_zero s : 0 ∈ s → ∃ x, cstr s = Some x.
Proof.
  induction s as [|c s IH]; [by intros ?%not_elem_of_nil|].
  intros [<-|H]%elem_of_cons; [by exists []|]. destruct (IH H) as [x Hx]. simpl.
  destruct (c =? 0); [by exists []|]. rewrite Hx. by exists (c :: x).
Qed.

Lemma cstr_c_string x : 0 ∉ x → cstr (c_string x) = Some x.
Proof. apply cstr_app. Qed.

(** A string that was padded with zeros. *)
Lemma cstr_prefix_pad x k rest :
  0 ∉ x → (0 < k)%nat → cstr (x ++ replicate k 0 ++ rest) = Some x.
Proof. intros Hx Hk. destruct k as [|k]; [lia|]. by apply cstr_app. Qed.

(** [cstr_step H] splits the first character of the string of [H]. *)
Ltac cstr_step H :=
  match type of H with
  | cstr ?s = Some _ =>
      destruct s as [|? ?]; [discriminate H|]; simpl in H;
      match type of H with
      | context [?c =? 0] =>
          let E := fresh "E" in
          destruct (Z.eqb_spec c 0) as [E|E];
          [ try subst c; injection H as <-
          | match type of H with
            | context [cstr ?t] =>
                destruct (cstr t) eqn:?; [injection H as <-|discriminate H]
            end ]
      end
  end.

Lemma strlen_spec s x : cstr s = Some x → strlen s = Ok (Z.of_nat (length x)).
Proof.
  revert x. induction s as [|c s IH]; intros x H; [done|]. simpl in *.
  destruct (Z.eqb_spec c 0).
  - by injection H as <-.
  - destruct (cstr s) as [y|]; [|done]. injection H as <-.
    rewrite (IH y), bind_ok by done. simpl. f_equal. lia.
Qed.

Lemma strlen_unterminated s : cstr s = None → strlen s = Err OutOfBounds.
Proof.
  induction s as [|c s IH]; intros H; [done|]. simpl in *.
  destruct (c =? 0); [done|]. destruct (cstr s); [done|]. by rewrite IH.
Qed.

Lemma strcmp_spec s1 s2 x1 x2 :
  cstr s1 = Some x1 → cstr s2 = Some x2 →
  ∃ r, strcmp s1 s2 = Ok r ∧ (r = 0 ↔ x1 = x2).
Proof.
  revert s2 x1 x2. induction s1 as [|c1 s1 IH]; intros s2 x1 x2 H1 H2; [done|].
  destruct s2 as [|c2 s2]; [done|]. simpl in *.
  destruct (Z.eqb_spec c1 0) as [->|N1], (Z.eqb_spec c2 0) as [->|N2]; simplify_eq.
  - by exists 0.
  - destruct (cstr s2); simplify_eq/=. exists (0 - c2). split; [done|].
    split; [lia|done].
  - destruct (cstr s1); simplify_eq/=. destruct (Z.eqb_spec c1 0); [done|].
    exists (c1 - 0). split; [done|]. split; [lia|done].
  - destruct (cstr s1) as [y1|] eqn:E1; simplify_eq/=.
    destruct (cstr s2) as [y2|] eqn:E2; simplify_eq/=.
    destruct (Z.eqb_spec c1 c2) as [->|N].
    + destruct (IH s2 y1 y2) as (r & -> & Hr); [done..|]. exists r.
      split; [done|]. rewrite Hr. split; congruence.
    + exists (c1 - c2). split; [done|]. split; [lia|congruence].
Qed.

(** On terminated strings [strncmp] compares the first [n] characters. *)
Lemma strncmp_spec s1 s2 x1 x2 n :
  cstr s1 = Some x1 → cstr s2 = Some x2 → 0 ≤ n < 2 ^ 32 →
  ∃ r, strncmp s1 s2 n = Ok r ∧
       (r = 0 ↔ take (Z.to_nat n) x1 = take (Z.to_nat n) x2).
Proof.
  revert s2 x1 x2 n. induction s1 as [|c1 s1 IH]; intros s2 x1 x2 n H1 H2 Hn; [done|].
  destruct s2 as [|c2 s2]; [done|]. simpl in *.
  destruct (Z.eqb_spec n 0) as [->|Hn0]; [by exists 0|].
  rewrite u32_dec by lia.
  destruct (Z.eqb_spec (n - 1) U32_MAX) as [HU|_]; [unfold U32_MAX in HU; lia|].
  replace (Z.to_nat n) with (S (Z.to_nat (n - 1))) by lia.
  destruct (Z.eqb_spec c1 0) as [->|N1], (Z.eqb_spec c2 0) as [->|N2]; simplify_eq.
  - by exists 0.
  - destruct (cstr s2); simplify_eq/=. exists (0 - c2). split; [done|].
    split; [lia|done].
  - destruct (cstr s1); simplify_eq/=. exists (c1 - 0). split; [done|].
    split; [lia|done].
  - destruct (cstr s1) as [y1|] eqn:E1; simplify_eq/=.
    destruct (cstr s2) as [y2|] eqn:E2; simplify_eq/=.
    destruct (Z.eqb_spec c1 c2) as [->|N]; simpl.
    + destruct (IH s2 y1 y2 (n - 1)) as (r & -> & Hr); [done..|lia|]. exists r.
      split; [done|]. rewrite Hr. split; congruence.
    + exists (c1 - c2). split; [done|]. split; [lia|congruence].
Qed.

(** ** Copies *)

Lemma memcpy_spec d di src n :
  0 ≤ di → di + Z.of_nat n ≤ Z.of_nat (length d) → (n ≤ length src)%nat →
  memcpy d di src n = Ok (splice d (Z.to_nat di) (take n src)).
Proof.
  revert d di src. induction n as [|n IH]; intros d di src Hdi Hd Hs; simpl.
  { by rewrite take_0, splice_nil. }
  destruct src as [|c src]; simpl in *; [lia|].
  rewrite aset_ok, bind_ok by lia.
  rewrite IH by (rewrite ?length_insert; lia).
  replace (Z.to_nat (di + 1)) with (S (Z.to_nat di)) by lia.
  by rewrite splice_cons by lia.
Qed.

Lemma memset_spec s si c n :
  0 ≤ si → si + Z.of_nat n ≤ Z.of_nat (length s) →
  memset s si c n = Ok (splice s (Z.to_nat si) (replicate n (u8 c))).
Proof.
  revert s si. induction n as [|n IH]; intros s si Hsi Hs; simpl.
  { by rewrite replicate_0, splice_nil. }
  rewrite replicate_S.
  rewrite aset_ok, bind_ok by lia.
  rewrite IH by (rewrite ?length_insert; lia).
  replace (Z.to_nat (si + 1)) with (S (Z.to_nat si)) by lia.
  by rewrite splice_cons by lia.
Qed.

(** A [memset] of a whole object. *)
Lemma memset_all s c n :
  length s = n → memset s 0 c n = Ok (replicate n (u8 c)).
Proof.
  intros <-. rewrite memset_spec by lia. unfold splice.
  rewrite length_replicate, drop_ge by lia. by rewrite app_nil_r.
Qed.

Lemma memset_u32_replicate words c :
  memset_u32 words c = replicate (length words) (u8 c * 16843009).
Proof. induction words as [|w ws IH]; [done|]. simpl. by rewrite replicate_S, <-IH. Qed.

(** The copy loop stops after the terminator when [n] leaves room for it. *)
Lemma strncpy_copy_spec dest d src x n :
  cstr src = Some x → 0 ≤ d → Z.of_nat (length x) < n < 2 ^ 32 →
  d + Z.of_nat (length x) < Z.of_nat (length dest) →
  strncpy_copy dest d src n =
    Ok (splice dest (Z.to_nat d) (x ++ [0]), d + Z.of_nat (length x) + 1,
        n - Z.of_nat (length x) - 1).
Proof.
  revert dest d x n. induction src as [|c src IH]; intros dest d x n Hx Hd Hn Hdest;
    [done|]. simpl in *.
  destruct (Z.eqb_spec n 0); [lia|]. rewrite u32_dec by lia.
  rewrite aset_ok, bind_ok by lia.
  destruct (Z.eqb_spec c 0) as [->|Hc].
  - injection Hx as <-. simpl. rewrite <-splice_cons, splice_nil by lia.
    do 2 f_equal; [f_equal|]; lia.
  - destruct (cstr src) as [y|]; simplify_eq/=.
    rewrite (IH _ _ y) by (rewrite ?length_insert; done || lia).
    replace (Z.to_nat (d + 1)) with (S (Z.to_nat d)) by lia.
    rewrite splice_cons by lia. do 2 f_equal; [f_equal|]; lia.
Qed.

Lemma strncpy_pad_spec dest d n :
  0 ≤ d → 0 ≤ n < 2 ^ 32 → d + n ≤ Z.of_nat (length dest) →
  strncpy_pad dest d n = Ok (splice dest (Z.to_nat d) (replicate (Z.to_nat n) 0)).
Proof.
  intros Hd Hn Hle. unfold strncpy_pad.
  set (I := λ '(b, i, k), 0 ≤ k ∧ i + k = d + n ∧ d ≤ i ∧
    b = splice dest (Z.to_nat d) (replicate (Z.to_nat (i - d)) 0)).
  destruct (iter_inv I
    (λ r, r = splice dest (Z.to_nat d) (replicate (Z.to_nat n) 0))
    (λ '(_, _, k), Z.to_nat k)
    (λ '(dest, d, n),
      if 0 <? n then dest' ← aset dest d 0; Ok (inl (dest', d + 1, u32 (n - 1)))
      else Ok (inr dest)) (S (length dest)) (dest, d, n)) as (r & -> & ->);
    [ | lia | | done].
  { split_and!; [lia..|]. rewrite Z.sub_diag. by rewrite replicate_0, splice_nil. }
  intros [[b i] k] (Hk & Hik & Hi & ->). destruct (Z.ltb_spec 0 k).
  - left. rewrite aset_ok by (rewrite length_splice; rewrite ?length_replicate; lia).
    rewrite bind_ok. eexists. split; [done|]. rewrite u32_small by lia. simpl.
    split_and!; try lia.
    replace (Z.to_nat (i + 1 - d)) with (Z.to_nat (i - d) + 1)%nat by lia.
    rewrite replicate_add, replicate_S, replicate_0, <-splice_snoc
      by (rewrite length_replicate; lia).
    rewrite length_replicate. f_equal. lia.
  - right. eexists. split; [done|]. do 2 f_equal. lia.
Qed.

(** What [strncpy] does for a string shorter than [n]: the string, then zeros
    up to [n], the rest of the buffer unchanged. *)
Lemma strncpy_fits dest src x n :
  cstr src = Some x → Z.of_nat (length x) < n < 2 ^ 32 →
  n ≤ Z.of_nat (length dest) →
  strncpy dest src n =
    Ok (x ++ replicate (Z.to_nat n - length x) 0 ++ drop (Z.to_nat n) dest).
Proof.
  intros Hx Hn Hd. unfold strncpy.
  rewrite (strncpy_copy_spec _ _ _ x) by (done || lia). rewrite bind_ok.
  rewrite strncpy_pad_spec by (rewrite ?length_splice; rewrite ?length_app; simpl; lia).
  replace (Z.to_nat (0 + Z.of_nat (length x) + 1))
    with (Z.to_nat 0 + length (x ++ [0%Z]))%nat by (rewrite length_app; simpl; lia).
  rewrite splice_app by (rewrite length_app, length_replicate; simpl; lia).
  unfold splice. simpl. rewrite !length_app, length_replicate, <-!app_assoc. simpl.
  f_equal. rewrite app_comm_cons. do 2 f_equal; [|f_equal; lia].
  replace (Z.to_nat n - length x)%nat
    with (S (Z.to_nat (n - Z.of_nat (length x) - 1))) by lia. done.
Qed.

(** The pad loop with more bytes to clear than the buffer has left. *)
Lemma strncpy_pad_overrun dest d n :
  0 ≤ d ≤ Z.of_nat (length dest) → n < 2 ^ 32 →
  Z.of_nat (length dest) - d < n → strncpy_pad dest d n = Err OutOfBounds.
Proof.
  unfold strncpy_pad. intros Hd Hn Hlt.
  assert (Hf : Z.of_nat (length dest) - d < Z.of_nat (S (length dest))) by lia.
  revert Hf. generalize (S (length dest)). intros fuel.
  revert dest d n Hd Hn Hlt. induction fuel as [|fuel IH];
    intros dest d n Hd Hn Hlt Hf; [lia|]. rewrite iter_S.
  destruct (Z.ltb_spec 0 n); [|lia].
  destruct (decide (d = Z.of_nat (length dest))) as [->|Hne].
  { by rewrite aset_err by lia. }
  rewrite aset_ok by lia. simpl. rewrite u32_dec by lia.
  apply IH; rewrite ?length_insert; lia.
Qed.

(** The copy loop when the terminator does not come within [n] characters:
    [n] leaves the loop as [(size_t)-1]. *)
Lemma strncpy_copy_full dest d src x n :
  cstr src = Some x → 0 ≤ d → 0 ≤ n ≤ Z.of_nat (length x) →
  d + n ≤ Z.of_nat (length dest) → Z.of_nat (length dest) < 2 ^ 32 →
  strncpy_copy dest d src n =
    Ok (splice dest (Z.to_nat d) (take (Z.to_nat n) x), d + n, U32_MAX).
Proof.
  revert dest d x n. induction src as [|c src IH]; intros dest d x n Hx Hd Hn Hle Hlt;
    [done|]. simpl in *.
  destruct (Z.eqb_spec n 0) as [->|Hn0].
  { rewrite take_0, splice_nil. do 2 f_equal. f_equal. lia. }
  destruct (Z.eqb_spec c 0) as [->|Hc]; [injection Hx as <-; simpl in *; lia|].
  destruct (cstr src) as [y|]; simplify_eq/=.
  rewrite aset_ok, bind_ok by lia. rewrite u32_dec by lia.
  rewrite (IH _ _ y) by (rewrite ?length_insert; done || lia).
  replace (Z.to_nat (d + 1)) with (S (Z.to_nat d)) by lia.
  rewrite splice_cons by lia.
  replace (Z.to_nat n) with (S (Z.to_nat (n - 1))) by lia.
  do 2 f_equal. f_equal. lia.
Qed.

(** [strncpy] of a string that does not fit in [n] characters, terminator
    included, always runs off the destination: the second loop starts from
    [(size_t)-1]. *)
Lemma strncpy_overrun dest src x n :
  cstr src = Some x → 0 ≤ n ≤ Z.of_nat (length x) →
  n ≤ Z.of_nat (length dest) → Z.of_nat (length dest) < U32_MAX →
  strncpy dest src n = Err OutOfBounds.
Proof.
  intros Hx Hn Hd Hlt. unfold strncpy, U32_MAX in *.
  rewrite (strncpy_copy_full _ _ _ x) by (done || lia). rewrite bind_ok.
  assert (length (take (Z.to_nat n) x) = Z.to_nat n) as Hl
    by (rewrite length_take; lia).
  apply strncpy_pad_overrun; unfold U32_MAX;
    rewrite ?length_splice by lia; lia.
Qed.
