(* ===== verification/Memory.v ===== *)
(** * The page allocator and the kernel heap ([memory/memory.c])

    [memory] is the state of the file: the bytes of [kernel_memory] (sparse, a
    byte that was never written is 0), the [page_table] with one entry per
    page (0 free, 1 head of an allocation, 2 rest of one) and
    [last_page_index].  Pointers are addresses; [kernel_memory_at] is the
    address the linker gives to [kernel_memory]. *)
From S2P Require Import Prelude.

Notation KERNEL_MEMORY_SIZE := 16777216.
Notation PAGE_SIZE := 4096.
Notation NUM_PAGES := 4096.
(** [sizeof(memory_block_t)]: [size_t size; uint8_t is_free;] padded. *)
Notation BLOCK_HEADER := 8.

Record memory := Memory {
  kernel_memory : gmap Z Z;
  page_table : list Z;
  last_page_index : Z;
}.

Definition set_page_table (f : list Z → list Z) (m : memory) : memory :=
  Memory m.(kernel_memory) (f m.(page_table)) m.(last_page_index).
Definition set_kernel_memory (f : gmap Z Z → gmap Z Z) (m : memory) : memory :=
  Memory (f m.(kernel_memory)) m.(page_table) m.(last_page_index).

(** [void memory_init(uint32_t multiboot_info)] *)
Definition memory_init (m : memory) : memory :=
  Memory ∅ (replicate (Z.to_nat NUM_PAGES) 0) 0.

Section memory.
Context (kernel_memory_at : Z).

(** Reading and writing [kernel_memory] through an address. *)
Definition load8 (m : memory) (a : Z) : res Z :=
  let o := a - kernel_memory_at in
  if bool_decide (0 ≤ o < KERNEL_MEMORY_SIZE)
  then Ok (default 0 (m.(kernel_memory) !! o)) else Err OutOfBounds.

Definition store8 (m : memory) (a v : Z) : res memory :=
  let o := a - kernel_memory_at in
  if bool_decide (0 ≤ o < KERNEL_MEMORY_SIZE)
  then Ok (set_kernel_memory <[o := u8 v]> m) else Err OutOfBounds.

(** A 32-bit little-endian store. *)
Definition store32 (m : memory) (a v : Z) : res memory :=
  m ← store8 m a v;
  m ← store8 m (a + 1) (Z.shiftr v 8);
  m ← store8 m (a + 2) (Z.shiftr v 16);
  store8 m (a + 3) (Z.shiftr v 24).

Definition load32 (m : memory) (a : Z) : res Z :=
  b0 ← load8 m a; b1 ← load8 m (a + 1);
  b2 ← load8 m (a + 2); b3 ← load8 m (a + 3);
  Ok (b0 + b1 * 2 ^ 8 + b2 * 2 ^ 16 + b3 * 2 ^ 24).

(** One turn of the search loop of [allocate_pages]; the state holds [i],
    [count] and [found_start], the last [(size_t)-1] outside a run. *)
Definition allocate_pages_step (pt : list Z) (start num_pages : Z)
    (st : Z * Z * Z) : res ((Z * Z * Z) + option Z) :=
  let '(i, count, found_start) := st in
  if i <? NUM_PAGES then
    let index := u32 (start + i) `mod` NUM_PAGES in
    v ← aget pt index;
    if v =? 0 then
      let found_start := if found_start =? U32_MAX then index else found_start in
      let count := u32 (count + 1) in
      if count =? num_pages then Ok (inr (Some found_start))
      else Ok (inl (i + 1, count, found_start))
    else Ok (inl (i + 1, 0, U32_MAX))
  else Ok (inr None).

(** [void* allocate_pages(size_t num_pages)]; [NULL] is 0. *)
Definition allocate_pages (m : memory) (num_pages : Z) : res (Z * memory) :=
  let start := m.(last_page_index) in
  r ← iter (S (Z.to_nat NUM_PAGES))
        (allocate_pages_step m.(page_table) start num_pages) (0, 0, U32_MAX);
  match r with
  | None => Ok (0, m)
  | Some found_start =>
      pt ← aset m.(page_table) found_start 1;
      pt ← for_loop (Z.to_nat (num_pages - 1)) 1
             (λ j pt, aset pt (u32 (found_start + j) `mod` NUM_PAGES) 2) pt;
      Ok (kernel_memory_at + found_start * PAGE_SIZE,
          Memory m.(kernel_memory) pt (u32 (found_start + num_pages) `mod` NUM_PAGES))
  end.

(** [void* kmalloc(size_t size)] *)
Definition kmalloc (m : memory) (size : Z) : res (Z * memory) :=
  let total_size := u32 (size + BLOCK_HEADER) in
  let num_pages := u32 (total_size + PAGE_SIZE - 1) `div` PAGE_SIZE in
  '(mem, m) ← allocate_pages m num_pages;
  if mem =? 0 then Ok (0, m)
  else
    m ← store32 m mem size;
    m ← store8 m (mem + 4) 0;
    Ok (mem + BLOCK_HEADER, m).

(** The loop of [kfree] over the pages that follow the head. *)
Definition kfree_step (st : Z * list Z) : res ((Z * list Z) + list Z) :=
  let '(i, pt) := st in
  if i <? NUM_PAGES then
    v ← aget pt i;
    if v =? 2 then pt ← aset pt i 0; Ok (inl (i + 1, pt)) else Ok (inr pt)
  else Ok (inr pt).

(** [void kfree(void* ptr)] *)
Definition kfree (m : memory) (ptr : Z) : res memory :=
  if ptr =? 0 then Ok m
  else
    let block := ptr - BLOCK_HEADER in
    m ← store8 m (block + 4) 1;
    let offset := u32 (block - kernel_memory_at) in
    let start_page := offset `div` PAGE_SIZE in
    v ← aget m.(page_table) start_page;
    if v =? 1 then
      pt ← aset m.(page_table) start_page 0;
      pt ← iter (S (Z.to_nat NUM_PAGES)) kfree_step (start_page + 1, pt);
      Ok (Memory m.(kernel_memory) pt m.(last_page_index))
    else Ok m.

(** [void copy_memory(void* dest, void* src, size_t size)] *)
Definition copy_memory (m : memory) (dest src size : Z) : res memory :=
  for_loop (Z.to_nat size) 0
    (λ i m, b ← load8 m (src + i); store8 m (dest + i) b) m.

(** [void copy_page_tables(uint32_t parent_cr3, uint32_t child_cr3)] *)
Definition copy_page_tables (m : memory) (parent_cr3 child_cr3 : Z) : res memory :=
  copy_memory m child_cr3 parent_cr3 PAGE_SIZE.
End memory.
