(* ===== verification/MemorySpec.v ===== *)
(** * Correctness of the page allocator

    The search of [allocate_pages] is characterised by the first window of
    free pages in scan order; [kmalloc] and [kfree] refine an abstract heap, a
    finite map from the first page of each block to its length. *)
From S2P Require Import Prelude Memory.

#[local] Ltac Zify.zify_post_hook ::= Z.to_euclidean_division_equations.

(** ** The search *)

Section search.
Context (pt : list Z) (start n : Z).

(** The page the scan looks at in turn [j] is free. *)
Definition scan_free (j : Z) : Prop := aget pt ((start + j) `mod` NUM_PAGES) = Ok 0.

(** [n] consecutive free pages from turn [k] on, within one scan. *)
Definition window (k : Z) : Prop :=
  0 ≤ k ∧ k + n ≤ NUM_PAGES ∧ ∀ j, k ≤ j < k + n → scan_free j.

Context (Hlen : length pt = Z.to_nat NUM_PAGES).
Context (Hstart : 0 ≤ start < NUM_PAGES) (Hn : 1 ≤ n < 2 ^ 32).

Lemma scan_index j :
  0 ≤ j < NUM_PAGES → ∃ v, aget pt (u32 (start + j) `mod` NUM_PAGES) = Ok v ∧
    (v = 0 ↔ scan_free j).
Proof.
  intros Hj. unfold scan_free. rewrite u32_small by lia.
  destruct (aget_is_ok pt ((start + j) `mod` NUM_PAGES)) as (v & Hv & _); [lia|].
  exists v. rewrite Hv. split; [done|]. split; congruence.
Qed.

(** What the loop knows before turn [i]: the last [count] pages are free and
    are a maximal run, and no window ends before [i]. *)
Definition search_inv (st : Z * Z * Z) : Prop :=
  let '(i, count, found_start) := st in
  0 ≤ count ≤ i ∧ i ≤ NUM_PAGES ∧ count < n ∧
  (count = 0 → found_start = U32_MAX) ∧
  (0 < count → found_start = (start + (i - count)) `mod` NUM_PAGES) ∧
  (∀ j, i - count ≤ j < i → scan_free j) ∧
  (count < i → ¬ scan_free (i - count - 1)) ∧
  (∀ k, window k → i < k + n).

Definition search_post (r : option Z) : Prop :=
  match r with
  | Some fs => ∃ k, window k ∧ fs = (start + k) `mod` NUM_PAGES ∧
                    ∀ k', window k' → k ≤ k'
  | None => ∀ k, ¬ window k
  end.

Lemma search_step st :
  search_inv st →
  (∃ st', allocate_pages_step pt start n st = Ok (inl st') ∧ search_inv st' ∧
     (Z.to_nat (NUM_PAGES - st'.1.1) < Z.to_nat (NUM_PAGES - st.1.1))%nat) ∨
  (∃ r, allocate_pages_step pt start n st = Ok (inr r) ∧ search_post r).
Proof.
  destruct st as [[i c] f]. intros (Hc & Hi & Hcn & Hf0 & Hf & Hfree & Hmax & Hno).
  unfold allocate_pages_step. destruct (Z.ltb_spec i NUM_PAGES) as [Hlt|Hge].
  2:{ right. eexists. split; [done|]. intros k Hk. specialize (Hno k Hk).
      destruct Hk as (? & ? & _). lia. }
  destruct (scan_index i) as (v & -> & Hv); [lia|]. rewrite bind_ok.
  destruct (Z.eqb_spec v 0) as [H0|H0]; rewrite Hv in H0.
  - set (f' := if f =? U32_MAX then u32 (start + i) `mod` NUM_PAGES else f).
    assert (f' = (start + (i - c)) `mod` NUM_PAGES) as Hf'.
    { subst f'. destruct (decide (c = 0)) as [->|].
      - rewrite Hf0, Z.eqb_refl, u32_small by lia. f_equal. lia.
      - rewrite Hf by lia. destruct (Z.eqb_spec ((start + (i - c)) `mod` NUM_PAGES) U32_MAX)
          as [E|]; [unfold U32_MAX in E; lia|done]. }
    rewrite u32_small by lia. destruct (Z.eqb_spec (c + 1) n) as [He|Hne].
    + right. eexists. split; [done|]. exists (i - c). split_and!; [|done|].
      * split_and!; [lia..|]. intros j Hj.
        destruct (decide (j = i)) as [->|]; [done|]. apply Hfree. lia.
      * intros k' Hk'. specialize (Hno k' Hk'). lia.
    + left. eexists. split; [done|]. split; [|simpl; lia].
      split_and!; try lia.
      * intros j Hj. destruct (decide (j = i)) as [->|]; [done|]. apply Hfree. lia.
      * intros Hci. replace (i + 1 - (c + 1) - 1) with (i - c - 1) by lia.
        apply Hmax. lia.
      * intros k Hk. specialize (Hno k Hk).
        destruct (decide (i + 1 < k + n)) as [|Hk2]; [done|exfalso].
        destruct Hk as (? & ? & Hrun). apply (Hmax ltac:(lia)), Hrun. lia.
  - left. eexists. split; [done|]. split; [|simpl; lia].
    split_and!; try lia; [by replace (i + 1 - 0 - 1) with i by lia|].
    intros k Hk. specialize (Hno k Hk).
    destruct (decide (i + 1 < k + n)) as [|Hk2]; [done|exfalso].
    destruct Hk as (? & ? & Hrun). apply H0, Hrun. lia.
Qed.

Lemma search_spec :
  ∃ r, iter (S (Z.to_nat NUM_PAGES)) (allocate_pages_step pt start n)
         (0, 0, U32_MAX) = Ok r ∧ search_post r.
Proof.
  eapply (iter_inv search_inv _ (λ st, Z.to_nat (NUM_PAGES - st.1.1))).
  - split_and!; try lia. intros k (? & ? & _). lia.
  - simpl. lia.
  - apply search_step.
Qed.
End search.

(** No window has length 0: the count is compared only after it grew. *)
Lemma search_zero pt start :
  length pt = Z.to_nat NUM_PAGES → 0 ≤ start < NUM_PAGES →
  iter (S (Z.to_nat NUM_PAGES)) (allocate_pages_step pt start 0)
    (0, 0, U32_MAX) = Ok None.
Proof.
  intros Hlen Hstart.
  destruct (iter_inv (λ '(i, c, _), 0 ≤ c ≤ i ∧ i ≤ NUM_PAGES) (λ r, r = None)
    (λ st : Z * Z * Z, Z.to_nat (NUM_PAGES - st.1.1))
    (allocate_pages_step pt start 0) (S (Z.to_nat NUM_PAGES)) (0, 0, U32_MAX))
    as (r & -> & ->); [lia|simpl; lia| |done].
  intros [[i c] f] Hinv. unfold allocate_pages_step.
  destruct (Z.ltb_spec i NUM_PAGES); [left|right; by eexists].
  destruct (scan_index pt start Hlen Hstart i) as (v & -> & _); [lia|].
  rewrite bind_ok. rewrite u32_small by lia.
  destruct (v =? 0); [destruct (Z.eqb_spec (c + 1) 0); [lia|]|];
    (eexists; split; [done|]; simpl; lia).
Qed.

(** ** Marking the pages of a block *)

(** Page [p] belongs to the block of [l] pages that starts at [s]; a block
    may wrap around the end of the page table. *)
Definition covers (s l p : Z) : Prop := (p - s) `mod` NUM_PAGES < l.

#[export] Instance covers_dec s l p : Decision (covers s l p).
Proof. unfold covers. apply _. Defined.

Lemma covers_self s l : 1 ≤ l → covers s l s.
Proof. unfold covers. lia. Qed.

(** A page of a block other than its head follows a page of that block. *)
Lemma covers_pred s l p :
  0 ≤ s < NUM_PAGES → 0 ≤ p < NUM_PAGES → covers s l p → p ≠ s →
  covers s l ((p - 1) `mod` NUM_PAGES).
Proof. unfold covers. lia. Qed.

Lemma mark_spec pt fs n :
  length pt = Z.to_nat NUM_PAGES → 0 ≤ fs < NUM_PAGES → 1 ≤ n ≤ NUM_PAGES →
  ∃ pt1 pt', aset pt fs 1 = Ok pt1 ∧
    for_loop (Z.to_nat (n - 1)) 1
      (λ j pt, aset pt (u32 (fs + j) `mod` NUM_PAGES) 2) pt1 = Ok pt' ∧
    length pt' = Z.to_nat NUM_PAGES ∧
    ∀ p, 0 ≤ p < NUM_PAGES → aget pt' p =
      if decide (p = fs) then Ok 1
      else if decide (covers fs n p) then Ok 2 else aget pt p.
Proof.
  intros Hlen Hfs Hn. eexists. rewrite aset_ok by lia.
  destruct (for_loop_inv (λ j q, length q = Z.to_nat NUM_PAGES ∧
    ∀ p, 0 ≤ p < NUM_PAGES → aget q p =
      if decide (p = fs) then Ok 1
      else if decide (covers fs j p) then Ok 2 else aget pt p)
    (Z.to_nat (n - 1)) 1 (λ j pt, aset pt (u32 (fs + j) `mod` NUM_PAGES) 2)
    (<[Z.to_nat fs := 1]> pt)) as (pt' & Hpt' & Hlen' & Hp).
  - split; [by rewrite length_insert|]. intros p Hp. unfold covers, aget.
    rewrite !bool_decide_eq_true_2 by lia. case_decide as Hpf.
    + subst. by rewrite list_lookup_insert_eq by lia.
    + rewrite list_lookup_insert_ne by lia. rewrite decide_False by lia. done.
  - intros k q Hk (Hq & Hqp). rewrite u32_small by lia.
    rewrite aset_ok by lia. eexists. split; [done|].
    split; [by rewrite length_insert|]. intros p Hp. unfold covers, aget.
    rewrite !bool_decide_eq_true_2 by lia.
    destruct (decide (p = (fs + k) `mod` NUM_PAGES)) as [->|Hne].
    + rewrite list_lookup_insert_eq by lia.
      rewrite decide_False by lia. by rewrite decide_True by lia.
    + rewrite list_lookup_insert_ne by lia. specialize (Hqp p Hp).
      unfold aget, covers in Hqp. rewrite !bool_decide_eq_true_2 in Hqp by lia.
      rewrite Hqp. repeat case_decide; done || lia.
  - exists pt'. split_and!; [done|done|done|].
    intros p Hp'. rewrite Hp by done.
    replace (1 + Z.of_nat (Z.to_nat (n - 1))) with n by lia. done.
Qed.

(** ** The abstract heap *)

(** [B] maps the first page of every live block to its length; the pages
    below [r] belong to no block and are never given out again. *)
Record heap_ok (m : memory) (B : gmap Z Z) (r : Z) : Prop := {
  ok_length : length m.(page_table) = Z.to_nat NUM_PAGES;
  ok_last : 0 ≤ m.(last_page_index) < NUM_PAGES;
  ok_leaked : 0 ≤ r < NUM_PAGES;
  ok_block : ∀ s l, B !! s = Some l → 0 ≤ s < NUM_PAGES ∧ 1 ≤ l ≤ NUM_PAGES;
  ok_disjoint : ∀ s1 l1 s2 l2 p, B !! s1 = Some l1 → B !! s2 = Some l2 →
    0 ≤ p < NUM_PAGES → covers s1 l1 p → covers s2 l2 p → s1 = s2;
  ok_not_leaked : ∀ s l p, B !! s = Some l → 0 ≤ p < r → ¬ covers s l p;
  ok_page : ∀ p, 0 ≤ p < NUM_PAGES →
    (is_Some (B !! p) ∧ aget m.(page_table) p = Ok 1) ∨
    (∃ s l, B !! s = Some l ∧ covers s l p ∧ p ≠ s ∧
            aget m.(page_table) p = Ok 2) ∨
    (p < r ∧ aget m.(page_table) p = Ok 2) ∨
    (r ≤ p ∧ (∀ s l, B !! s = Some l → ¬ covers s l p) ∧
     aget m.(page_table) p = Ok 0);
}.

Lemma memory_init_ok m : heap_ok (memory_init m) ∅ 0.
Proof.
  split; cbn [page_table last_page_index memory_init];
    try (intros *; rewrite lookup_empty; done); try apply length_replicate; try lia.
  intros p Hp. right; right; right. split_and!; [lia| |].
  - intros s l. by rewrite lookup_empty.
  - apply aget_lookup; [lia|]. apply lookup_replicate_2. lia.
Qed.

Section heap_ok.
Context (m : memory) (B : gmap Z Z) (r : Z) (Hok : heap_ok m B r).

Lemma heap_head s l : B !! s = Some l → aget m.(page_table) s = Ok 1.
Proof.
  intros Hs. destruct (ok_block _ _ _ Hok s l Hs) as [Hs' Hl].
  pose proof (covers_self s l ltac:(lia)) as Hc.
  destruct (ok_page _ _ _ Hok s Hs')
    as [[_ ?]|[(s' & l' & Hs2 & Hc' & Hne & _)|[[Hr _]|(_ & Hno & _)]]].
  - done.
  - by destruct Hne, (ok_disjoint _ _ _ Hok s l s' l' s Hs Hs2 Hs' Hc Hc').
  - by destruct (ok_not_leaked _ _ _ Hok s l s Hs ltac:(lia)).
  - by destruct (Hno s l Hs).
Qed.

Lemma heap_tail s l p :
  B !! s = Some l → 0 ≤ p < NUM_PAGES → covers s l p → p ≠ s →
  aget m.(page_table) p = Ok 2.
Proof.
  intros Hs Hp Hc Hps. destruct (ok_page _ _ _ Hok p Hp)
    as [[[l' Hl'] ?]|[(s' & l' & _ & _ & _ & ?)|[[Hr _]|(_ & Hno & _)]]].
  - destruct (ok_block _ _ _ Hok p l' Hl') as [_ Hl2].
    by destruct Hps, (ok_disjoint _ _ _ Hok s l p l' p Hs Hl' Hp Hc
      (covers_self p l' ltac:(lia))).
  - done.
  - by destruct (ok_not_leaked _ _ _ Hok s l p Hs ltac:(lia)).
  - by destruct (Hno s l Hs).
Qed.

Lemma heap_free p :
  aget m.(page_table) p = Ok 0 →
  0 ≤ p < NUM_PAGES ∧ r ≤ p ∧ B !! p = None ∧
  ∀ s l, B !! s = Some l → ¬ covers s l p.
Proof.
  intros Hp. pose proof (aget_bound _ _ _ Hp) as Hb.
  rewrite (ok_length _ _ _ Hok) in Hb.
  destruct (ok_page _ _ _ Hok p ltac:(lia))
    as [[? ?]|[(s' & l' & _ & _ & _ & ?)|[[Hr ?]|(? & Hno & _)]]]; try congruence.
  split_and!; try done; try lia.
  destruct (B !! p) as [l|] eqn:E; [exfalso|done]. apply (Hno p l E), covers_self.
  destruct (ok_block _ _ _ Hok p l E). lia.
Qed.
End heap_ok.

(** ** [allocate_pages] *)

(** The page table after a block was given out. *)
Lemma heap_ok_alloc m B r km pt' fs n last :
  heap_ok m B r → 0 ≤ fs < NUM_PAGES → 1 ≤ n ≤ NUM_PAGES → 0 ≤ last < NUM_PAGES →
  (∀ p, 0 ≤ p < NUM_PAGES → covers fs n p → aget m.(page_table) p = Ok 0) →
  length pt' = Z.to_nat NUM_PAGES →
  (∀ p, 0 ≤ p < NUM_PAGES → aget pt' p =
     if decide (p = fs) then Ok 1
     else if decide (covers fs n p) then Ok 2 else aget m.(page_table) p) →
  B !! fs = None ∧ heap_ok (Memory km pt' last) (<[fs := n]> B) r.
Proof.
  intros Hok Hfs Hn Hlast Hfree Hlen Hpt.
  pose proof (covers_self fs n ltac:(lia)) as Hself.
  destruct (heap_free m B r Hok fs (Hfree fs Hfs Hself)) as (_ & Hr & HB & _).
  split; [done|].
  assert (∀ s l p, B !! s = Some l → 0 ≤ p < NUM_PAGES → covers fs n p →
    ¬ covers s l p) as Hdis.
  { intros s l p Hs Hp Hc.
    by apply (heap_free m B r Hok p (Hfree p Hp Hc)). }
  split; cbn [page_table last_page_index]; [done|done|by apply (ok_leaked _ _ _ Hok)|..].
  - intros s l [[-> ->]|[_ Hs]]%lookup_insert_Some; [done|].
    by apply (ok_block _ _ _ Hok).
  - intros s1 l1 s2 l2 p [[-> ->]|[_ H1]]%lookup_insert_Some
      [[-> ->]|[_ H2]]%lookup_insert_Some Hp C1 C2; [done|..].
    + by destruct (Hdis s2 l2 p).
    + by destruct (Hdis s1 l1 p).
    + by apply (ok_disjoint _ _ _ Hok s1 l1 s2 l2 p).
  - intros s l p [[-> ->]|[_ Hs]]%lookup_insert_Some Hp Hc.
    + destruct (ok_leaked _ _ _ Hok).
      destruct (heap_free m B r Hok p (Hfree p ltac:(lia) Hc)) as (_ & ? & _). lia.
    + by apply (ok_not_leaked _ _ _ Hok s l p).
  - intros p Hp. rewrite Hpt by done. destruct (decide (p = fs)) as [->|Hne].
    { left. by rewrite lookup_insert_eq. }
    rewrite lookup_insert_ne by done.
    destruct (decide (covers fs n p)) as [Hc|Hc].
    { right; left. exists fs, n. by rewrite lookup_insert_eq. }
    destruct (ok_page _ _ _ Hok p Hp)
      as [?|[(s & l & Hs & Hcs & Hps & ?)|[?|(? & Hno & ?)]]]; [by left| |by auto|].
    + right; left. exists s, l. rewrite lookup_insert_ne by congruence. done.
    + right; right; right. split_and!; [done| |done].
      intros s l [[-> ->]|[_ Hs]]%lookup_insert_Some; [done|by apply Hno].
Qed.

Section heap.
Context (base : Z) (Hbase : 0 < base).

(** [allocate_pages] returns [NULL], and changes nothing, exactly when no
    window of the scan is free; otherwise it gives out the first one. *)
Lemma allocate_pages_spec m B r n :
  heap_ok m B r → 0 ≤ n < 2 ^ 32 →
  (allocate_pages base m n = Ok (0, m) ∧
     (1 ≤ n → ∀ k, ¬ window m.(page_table) m.(last_page_index) n k)) ∨
  (∃ k pt', let fs := (m.(last_page_index) + k) `mod` NUM_PAGES in
     window m.(page_table) m.(last_page_index) n k ∧ 1 ≤ n ∧
     (∀ k', window m.(page_table) m.(last_page_index) n k' → k ≤ k') ∧
     let m' := Memory m.(kernel_memory) pt' ((fs + n) `mod` NUM_PAGES) in
     allocate_pages base m n = Ok (base + fs * PAGE_SIZE, m') ∧
     B !! fs = None ∧
     ∀ km, heap_ok (Memory km pt' ((fs + n) `mod` NUM_PAGES)) (<[fs := n]> B) r).
Proof.
  intros Hok Hn. pose proof (ok_length _ _ _ Hok) as Hlen.
  pose proof (ok_last _ _ _ Hok) as Hlast. unfold allocate_pages.
  destruct (decide (n = 0)) as [->|Hn0].
  { left. rewrite search_zero by done. split; [done|lia]. }
  destruct (search_spec m.(page_table) m.(last_page_index) n) as (res & -> & Hres);
    [done|done|lia|]. rewrite bind_ok.
  destruct res as [fs|]; [right|left; split; [done|intros _; exact Hres]].
  destruct Hres as (k & Hk & -> & Hleast).
  set (fs := (m.(last_page_index) + k) `mod` NUM_PAGES).
  assert (0 ≤ fs < NUM_PAGES) as Hfs by (subst fs; lia).
  destruct Hk as (Hk0 & Hkn & Hrun).
  destruct (mark_spec m.(page_table) fs n) as (pt1 & pt' & -> & Hpt' & Hlen' & Hp);
    [done|done|lia|].
  rewrite bind_ok, Hpt', bind_ok. rewrite u32_small by lia.
  assert (∀ p, 0 ≤ p < NUM_PAGES → covers fs n p →
    aget m.(page_table) p = Ok 0) as Hfree.
  { intros p Hp' Hc. unfold covers in Hc.
    assert (p = (m.(last_page_index) + (k + (p - fs) `mod` NUM_PAGES)) `mod` NUM_PAGES)
      as -> by (subst fs; lia).
    apply Hrun. lia. }
  assert (∀ km, B !! fs = None ∧
    heap_ok (Memory km pt' ((fs + n) `mod` NUM_PAGES)) (<[fs := n]> B) r) as Halloc.
  { intros km. eapply heap_ok_alloc; try done; lia. }
  exists k, pt'. cbn zeta. split; [by split_and!|]. split; [lia|].
  split; [done|]. split; [done|]. split; [apply (Halloc ∅)|].
  intros km. apply Halloc.
Qed.

(** ** Stores and loads *)

Lemma store8_ok m a v :
  0 ≤ a - base < KERNEL_MEMORY_SIZE →
  store8 base m a v = Ok (set_kernel_memory <[a - base := u8 v]> m).
Proof. intros. unfold store8. by rewrite bool_decide_eq_true_2. Qed.

Lemma load8_ok m a :
  0 ≤ a - base < KERNEL_MEMORY_SIZE →
  load8 base m a = Ok (default 0 (m.(kernel_memory) !! (a - base))).
Proof. intros. unfold load8. by rewrite bool_decide_eq_true_2. Qed.

Definition put32 (o v : Z) (km : gmap Z Z) : gmap Z Z :=
  <[o + 3 := u8 (Z.shiftr v 24)]> (<[o + 2 := u8 (Z.shiftr v 16)]>
    (<[o + 1 := u8 (Z.shiftr v 8)]> (<[o := u8 v]> km))).

Lemma store32_ok m a v :
  0 ≤ a - base → a - base + 3 < KERNEL_MEMORY_SIZE →
  store32 base m a v = Ok (set_kernel_memory (put32 (a - base) v) m).
Proof.
  intros. unfold store32. do 4 (rewrite store8_ok, ?bind_ok by lia).
  unfold put32, set_kernel_memory. cbn [kernel_memory page_table last_page_index].
  repeat f_equal; lia.
Qed.

Lemma bytes_of_u32 v :
  0 ≤ v < 2 ^ 32 →
  u8 v + u8 (Z.shiftr v 8) * 2 ^ 8 + u8 (Z.shiftr v 16) * 2 ^ 16 +
    u8 (Z.shiftr v 24) * 2 ^ 24 = v.
Proof. intros. unfold u8. rewrite !Z.shiftr_div_pow2 by lia. lia. Qed.

Lemma load32_put32 m a v :
  0 ≤ v < 2 ^ 32 → 0 ≤ a - base → a - base + 3 < KERNEL_MEMORY_SIZE →
  load32 base (set_kernel_memory (put32 (a - base) v) m) a = Ok v.
Proof.
  intros Hv H0 H3. unfold load32, set_kernel_memory, put32.
  do 4 (rewrite load8_ok, ?bind_ok by lia). cbn [kernel_memory].
  replace (a + 1 - base) with (a - base + 1) by lia.
  replace (a + 2 - base) with (a - base + 2) by lia.
  replace (a + 3 - base) with (a - base + 3) by lia.
  do 3 (rewrite lookup_insert_ne by lia). rewrite lookup_insert_eq.
  do 2 (rewrite lookup_insert_ne by lia). rewrite lookup_insert_eq.
  do 1 (rewrite lookup_insert_ne by lia). rewrite lookup_insert_eq.
  rewrite lookup_insert_eq. simpl. by rewrite bytes_of_u32.
Qed.

(** ** [kmalloc] *)

Definition kmalloc_pages (size : Z) : Z :=
  u32 (u32 (size + BLOCK_HEADER) + PAGE_SIZE - 1) `div` PAGE_SIZE.

Lemma kmalloc_pages_enough size :
  0 ≤ size ≤ 2 ^ 32 - 4104 →
  size + BLOCK_HEADER ≤ kmalloc_pages size * PAGE_SIZE < size + BLOCK_HEADER + PAGE_SIZE.
Proof. intros. unfold kmalloc_pages. u32_norm. lia. Qed.

Lemma kmalloc_pages_range size : 0 ≤ kmalloc_pages size < 2 ^ 32.
Proof.
  unfold kmalloc_pages. pose proof (u32_range (u32 (size + BLOCK_HEADER) + PAGE_SIZE - 1)).
  lia.
Qed.

(** The bytes of [m'] are those of [m] outside the header at [p]. *)
Definition same_but_header (m m' : memory) (p : Z) : Prop :=
  ∀ a, ¬ (p ≤ a < p + BLOCK_HEADER) → load8 base m' a = load8 base m a.

(** The head of the first window of [n] free pages in scan order. *)
Definition first_fit (m : memory) (n fs : Z) : Prop :=
  ∃ k, window m.(page_table) m.(last_page_index) n k ∧
    (∀ k', window m.(page_table) m.(last_page_index) n k' → k ≤ k') ∧
    fs = (m.(last_page_index) + k) `mod` NUM_PAGES.

Lemma kmalloc_cases m B r size :
  heap_ok m B r → 0 ≤ size < 2 ^ 32 →
  (kmalloc base m size = Ok (0, m) ∧
     (1 ≤ kmalloc_pages size →
      ∀ k, ¬ window m.(page_table) m.(last_page_index) (kmalloc_pages size) k)) ∨
  (∃ fs m', B !! fs = None ∧ 0 ≤ fs < NUM_PAGES ∧
     kmalloc base m size = Ok (base + fs * PAGE_SIZE + BLOCK_HEADER, m') ∧
     heap_ok m' (<[fs := kmalloc_pages size]> B) r ∧
     load32 base m' (base + fs * PAGE_SIZE) = Ok size ∧
     load8 base m' (base + fs * PAGE_SIZE + 4) = Ok 0 ∧
     same_but_header m m' (base + fs * PAGE_SIZE) ∧
     1 ≤ kmalloc_pages size ∧ first_fit m (kmalloc_pages size) fs ∧
     m'.(last_page_index) = (fs + kmalloc_pages size) `mod` NUM_PAGES).
Proof.
  intros Hok Hsize. unfold kmalloc. fold (kmalloc_pages size).
  destruct (allocate_pages_spec m B r (kmalloc_pages size) Hok (kmalloc_pages_range _))
    as [[-> Hno]|(k & pt' & Hw & Hn & Hleast & -> & HB & Hok')].
  { left. by rewrite bind_ok, Z.eqb_refl. }
  right. set (fs := (m.(last_page_index) + k) `mod` NUM_PAGES) in *.
  assert (0 ≤ fs < NUM_PAGES) as Hfs by (subst fs; lia).
  rewrite bind_ok. destruct (Z.eqb_spec (base + fs * PAGE_SIZE) 0); [lia|].
  rewrite store32_ok, bind_ok by lia. rewrite store8_ok, bind_ok by lia.
  eexists fs, _. split; [done|]. split; [done|]. split; [done|]. split; [apply Hok'|].
  unfold set_kernel_memory. cbn [kernel_memory page_table last_page_index].
  split; [|split; [|split; [|split; [done|split; [by exists k|done]]]]].
  - erewrite <-(load32_put32 m (base + fs * PAGE_SIZE) size) by lia.
    unfold load32. do 8 (rewrite load8_ok by lia). unfold set_kernel_memory.
    cbn [kernel_memory]. do 4 (rewrite lookup_insert_ne by lia). done.
  - rewrite load8_ok by lia. cbn [kernel_memory]. by rewrite lookup_insert_eq.
  - intros a Ha. unfold load8. case_bool_decide; [|done]. cbn [kernel_memory].
    unfold put32. do 5 (rewrite lookup_insert_ne by lia). done.
Qed.

(** ** [kfree] *)

(** The page just after a block that does not wrap is not the rest of any
    block: it is free, a head, or the end of the table. *)
Lemma page_after_block m B r s l :
  heap_ok m B r → B !! s = Some l → s + l < NUM_PAGES →
  aget m.(page_table) (s + l) ≠ Ok 2.
Proof.
  intros Hok Hs Hend E. destruct (ok_block _ _ _ Hok s l Hs) as [Hs' Hl].
  destruct (ok_page _ _ _ Hok (s + l) ltac:(lia))
    as [[_ ?]|[(s2 & l2 & Hs2 & Hc & Hne & _)|[[Hr _]|(_ & _ & ?)]]]; try congruence.
  - destruct (ok_block _ _ _ Hok s2 l2 Hs2) as [Hs2' _].
    pose proof (covers_pred s2 l2 (s + l) Hs2' ltac:(lia) Hc Hne) as Hp.
    rewrite Z.mod_small in Hp by lia.
    assert (s = s2) as <-.
    { eapply (ok_disjoint _ _ _ Hok s l s2 l2 (s + l - 1)); try done; try lia.
      unfold covers. lia. }
    assert (l2 = l) as -> by congruence. unfold covers in Hc. lia.
  - apply (ok_not_leaked _ _ _ Hok s l s Hs); [lia|]. apply covers_self. lia.
Qed.

(** The loop of [kfree] clears the rest of the block, up to the end of the
    page table. *)
Lemma kfree_loop m B r s l :
  heap_ok m B r → B !! s = Some l →
  let e := Z.min (s + l) NUM_PAGES in
  ∃ pt', iter (S (Z.to_nat NUM_PAGES)) kfree_step
           (s + 1, <[Z.to_nat s := 0]> m.(page_table)) = Ok pt' ∧
    length pt' = Z.to_nat NUM_PAGES ∧
    ∀ p, 0 ≤ p < NUM_PAGES → aget pt' p =
      if decide (s ≤ p < e) then Ok 0 else aget m.(page_table) p.
Proof.
  intros Hok Hs e. destruct (ok_block _ _ _ Hok s l Hs) as [Hs' Hl].
  pose proof (ok_length _ _ _ Hok) as Hlen.
  assert (∀ q i j, length q = Z.to_nat NUM_PAGES → s ≤ i < NUM_PAGES → j = i + 1 →
    (∀ p, 0 ≤ p < NUM_PAGES → aget q p =
      if decide (s ≤ p < i) then Ok 0 else aget m.(page_table) p) →
    ∀ p, 0 ≤ p < NUM_PAGES → aget (<[Z.to_nat i := 0]> q) p =
      if decide (s ≤ p < j) then Ok 0 else aget m.(page_table) p) as Hset.
  { intros q i j Hq Hi -> Hqp p Hp. specialize (Hqp p Hp). unfold aget in *.
    rewrite !bool_decide_eq_true_2 in * by lia. destruct (decide (p = i)) as [->|].
    - rewrite list_lookup_insert_eq by lia. by rewrite decide_True by lia.
    - rewrite list_lookup_insert_ne, Hqp by lia. repeat case_decide; done || lia. }
  apply (iter_inv (λ '(i, q), s + 1 ≤ i ≤ e ∧ length q = Z.to_nat NUM_PAGES ∧
    ∀ p, 0 ≤ p < NUM_PAGES → aget q p =
      if decide (s ≤ p < i) then Ok 0 else aget m.(page_table) p)
    _ (λ '(i, _), Z.to_nat (e - i))); [|lia|].
  { split; [lia|]. split; [by rewrite length_insert|].
    apply (Hset _ s); try done; try lia. intros p Hp. by rewrite decide_False by lia. }
  intros [i q] (Hi & Hq & Hqp). unfold kfree_step.
  destruct (Z.ltb_spec i NUM_PAGES) as [Hlt|Hge].
  2:{ right. eexists. split; [done|]. split; [done|]. by replace e with i by lia. }
  rewrite Hqp, decide_False by lia. destruct (decide (i = e)) as [->|Hne].
  - right. destruct (aget_is_ok m.(page_table) e) as (v & Hv & _); [lia|].
    rewrite Hv, bind_ok. destruct (Z.eqb_spec v 2) as [->|]; [|by eexists].
    replace e with (s + l) in Hv by lia.
    by destruct (page_after_block m B r s l Hok Hs ltac:(lia)).
  - left. rewrite (heap_tail m B r Hok s l), bind_ok by (unfold covers; done || lia).
    simpl. rewrite aset_ok, bind_ok by lia. eexists. split; [done|].
    split; [|lia]. split; [lia|]. split; [by rewrite length_insert|].
    apply (Hset _ i); done || lia.
Qed.

(** The pages of the heap after a block was taken back. *)
Definition leaked_after (r s l : Z) : Z :=
  if decide (s + l ≤ NUM_PAGES) then r else s + l - NUM_PAGES.

Lemma leaked_after_facts m B r s l :
  heap_ok m B r → B !! s = Some l →
  0 ≤ r ≤ leaked_after r s l ∧ leaked_after r s l ≤ s ∧
  ∀ p, 0 ≤ p < leaked_after r s l → p < r ∨ covers s l p.
Proof.
  intros Hok Hs. destruct (ok_block _ _ _ Hok s l Hs) as [Hs' Hl].
  destruct (ok_leaked _ _ _ Hok). pose proof (covers_self s l ltac:(lia)) as Hself.
  assert (r ≤ s) as Hrs.
  { destruct (decide (s < r)); [|lia].
    by destruct (ok_not_leaked _ _ _ Hok s l s Hs ltac:(lia)). }
  unfold leaked_after. case_decide as Hw; [split_and!; lia|].
  assert (r = 0) as ->.
  { destruct (decide (r = 0)); [done|].
    destruct (ok_not_leaked _ _ _ Hok s l 0 Hs ltac:(lia)). unfold covers. lia. }
  split_and!; try lia. intros p Hp. right. unfold covers. lia.
Qed.

Lemma heap_ok_free m B r s l km pt' :
  heap_ok m B r → B !! s = Some l → length pt' = Z.to_nat NUM_PAGES →
  (∀ p, 0 ≤ p < NUM_PAGES → aget pt' p =
     if decide (s ≤ p < Z.min (s + l) NUM_PAGES) then Ok 0
     else aget m.(page_table) p) →
  heap_ok (Memory km pt' m.(last_page_index)) (delete s B) (leaked_after r s l).
Proof.
  intros Hok Hs Hlen Hpt. destruct (ok_block _ _ _ Hok s l Hs) as [Hs' Hl].
  destruct (leaked_after_facts m B r s l Hok Hs) as (Hr & Hrs & Hleak).
  assert (∀ s2 l2 p, delete s B !! s2 = Some l2 → 0 ≤ p < NUM_PAGES →
    covers s l p → ¬ covers s2 l2 p) as Hdis.
  { intros s2 l2 p [Hne H2]%lookup_delete_Some Hp C1 C2.
    by destruct Hne, (ok_disjoint _ _ _ Hok s l s2 l2 p). }
  split; cbn [page_table last_page_index]; [done|by apply (ok_last _ _ _ Hok)|lia|..].
  - intros s2 l2 [_ H2]%lookup_delete_Some. by apply (ok_block _ _ _ Hok).
  - intros s1 l1 s2 l2 p [_ H1]%lookup_delete_Some [_ H2]%lookup_delete_Some.
    by apply (ok_disjoint _ _ _ Hok s1 l1 s2 l2 p).
  - intros s2 l2 p H2 Hp. destruct (Hleak p Hp) as [?|?]; [|by eapply Hdis; [|lia|]].
    apply lookup_delete_Some in H2 as [_ H2]. apply (ok_not_leaked _ _ _ Hok s2 l2 p H2). lia.
  - intros p Hp. rewrite Hpt by done. case_decide as Hpe.
    { right; right; right. split_and!; [lia| |done].
      intros s2 l2 H2. apply (Hdis s2 l2 p H2 Hp). unfold covers. lia. }
    assert (p ≠ s) as Hps by lia.
    destruct (ok_page _ _ _ Hok p Hp)
      as [[? ?]|[(s2 & l2 & H2 & Hc & Hne & ?)|[[? ?]|(? & Hno & ?)]]].
    + left. by rewrite lookup_delete_ne.
    + destruct (decide (s2 = s)) as [->|Hs2].
      * right; right; left. split; [|done]. assert (l2 = l) as -> by congruence.
        unfold covers in Hc. unfold leaked_after. case_decide; lia.
      * right; left. exists s2, l2. by rewrite lookup_delete_ne.
    + right; right; left. split; [lia|done].
    + right; right; right. split_and!; [|by intros s2 l2 [_ ?]%lookup_delete_Some; apply Hno|done].
      destruct (decide (p < leaked_after r s l)) as [Hlt|]; [|lia].
      destruct (Hleak p ltac:(lia)); [lia|]. by destruct (Hno s l Hs).
Qed.

(** Freeing a live block removes it from the heap.  A block that wraps around
    the end of the page table only gives back the part before the end: its
    pages from 0 on stay marked, for ever. *)
Lemma kfree_cases m B r s l :
  heap_ok m B r → B !! s = Some l →
  ∃ m', kfree base m (base + s * PAGE_SIZE + BLOCK_HEADER) = Ok m' ∧
    heap_ok m' (delete s B) (leaked_after r s l) ∧
    same_but_header m m' (base + s * PAGE_SIZE).
Proof.
  intros Hok Hs. destruct (ok_block _ _ _ Hok s l Hs) as [Hs' Hl].
  pose proof (ok_length _ _ _ Hok) as Hlen. unfold kfree.
  destruct (Z.eqb_spec (base + s * PAGE_SIZE + BLOCK_HEADER) 0); [lia|].
  rewrite store8_ok, bind_ok by lia. unfold set_kernel_memory.
  cbn [kernel_memory page_table last_page_index].
  rewrite u32_small by lia.
  replace ((base + s * PAGE_SIZE + BLOCK_HEADER - BLOCK_HEADER - base) `div` PAGE_SIZE)
    with s by lia.
  rewrite (heap_head m B r Hok s l Hs), bind_ok, Z.eqb_refl.
  rewrite aset_ok, bind_ok by lia.
  destruct (kfree_loop m B r s l Hok Hs) as (pt' & -> & Hlen' & Hpt). rewrite bind_ok.
  eexists. split; [done|]. split.
  2:{ intros a Ha. unfold load8. case_bool_decide; [|done]. cbn [kernel_memory].
      by rewrite lookup_insert_ne by lia. }
  eapply heap_ok_free; done.
Qed.
End heap.
