(* ===== verification/MemoryProps.v ===== *)
(** * What a client of the kernel heap may rely on

    [heap_inv] ties the state of [memory.c] to the set of live allocations (a
    map from the pointers [kmalloc] returned to the sizes it was asked for);
    [heap_reach] is the runs of [kmalloc] and [kfree] on live pointers.  The
    theorems: every run is safe, live allocations never overlap, allocation
    is first fit from the last position, [kfree] undoes [kmalloc]; and two ways
    in which [kmalloc] returns a block that is too small. *)
From S2P Require Import Prelude Memory MemorySpec.

#[local] Ltac Zify.zify_post_hook ::= Z.to_euclidean_division_equations.

Section heap.
Context (base : Z) (Hbase : 0 < base).

(** The pointer to the block whose header is at page [fs]. *)
Definition ptr_of (fs : Z) : Z := base + fs * PAGE_SIZE + BLOCK_HEADER.

(** Live allocations and the blocks of the page table. *)
Record heap_inv (m : memory) (live : gmap Z Z) : Prop := {
  hi_heap : ∃ B r, heap_ok m B r ∧
    (∀ p sz, live !! p = Some sz → ∃ fs, p = ptr_of fs ∧ B !! fs = Some (kmalloc_pages sz)) ∧
    (∀ fs l, B !! fs = Some l → is_Some (live !! ptr_of fs));
  hi_size : ∀ p sz, live !! p = Some sz → 0 ≤ sz < 2 ^ 32;
}.

(** Runs of the heap from [memory_init]. *)
Inductive heap_reach : memory → gmap Z Z → Prop :=
| heap_start m : heap_reach (memory_init m) ∅
| heap_kmalloc m live size p m' :
    heap_reach m live → 0 ≤ size < 2 ^ 32 → kmalloc base m size = Ok (p, m') →
    heap_reach m' (if decide (p = 0) then live else <[p := size]> live)
| heap_kfree m live p size m' :
    heap_reach m live → live !! p = Some size → kfree base m p = Ok m' →
    heap_reach m' (delete p live).

Lemma ptr_of_inj a b : ptr_of a = ptr_of b → a = b.
Proof. unfold ptr_of. lia. Qed.

Lemma ptr_of_nonzero fs : 0 ≤ fs → ptr_of fs ≠ 0.
Proof. unfold ptr_of. lia. Qed.

Lemma heap_inv_kmalloc m live size :
  heap_inv m live → 0 ≤ size < 2 ^ 32 →
  ∃ p m', kmalloc base m size = Ok (p, m') ∧
    heap_inv m' (if decide (p = 0) then live else <[p := size]> live) ∧
    (p = 0 ∨ live !! p = None).
Proof.
  intros [(B & r & Hok & Hlive & HB) Hsz] Hsize.
  destruct (kmalloc_cases base Hbase m B r size Hok Hsize)
    as [[Hk _]|(fs & m' & Hfs & Hr & Hk & Hok' & _)].
  { exists 0, m. rewrite decide_True by done. split; [done|]. split; [|by left].
    split; [by exists B, r|done]. }
  exists (ptr_of fs), m'. split; [done|].
  assert (live !! ptr_of fs = None) as Hnone.
  { destruct (live !! ptr_of fs) eqn:E; [|done].
    destruct (Hlive _ _ E) as (fs' & ->%ptr_of_inj & H'). congruence. }
  split; [|by right]. rewrite decide_False by (apply ptr_of_nonzero; lia).
  split.
  - exists (<[fs := kmalloc_pages size]> B), r. split; [done|]. split.
    + intros p sz [[<- <-]|[Hne Hp]]%lookup_insert_Some.
      * exists fs. by rewrite lookup_insert_eq.
      * destruct (Hlive p sz Hp) as (fs' & -> & H'). exists fs'. split; [done|].
        rewrite lookup_insert_ne; [done|congruence].
    + intros fs' l [[<- <-]|[Hne H']]%lookup_insert_Some.
      * by rewrite lookup_insert_eq.
      * rewrite lookup_insert_ne; [by eapply HB|]. by intros ?%ptr_of_inj.
  - intros p sz [[<- <-]|[Hne Hp]]%lookup_insert_Some; [done|by eapply Hsz].
Qed.

Lemma heap_inv_kfree m live p size :
  heap_inv m live → live !! p = Some size →
  ∃ m', kfree base m p = Ok m' ∧ heap_inv m' (delete p live).
Proof.
  intros [(B & r & Hok & Hlive & HB) Hsz] Hp.
  destruct (Hlive p size Hp) as (fs & -> & Hfs).
  destruct (kfree_cases base Hbase m B r fs _ Hok Hfs) as (m' & Hk & Hok' & _).
  exists m'. split; [done|]. split.
  - eexists _, _. split; [done|]. split.
    + intros q sz [Hne Hq]%lookup_delete_Some.
      destruct (Hlive q sz Hq) as (fs' & -> & H'). exists fs'. split; [done|].
      rewrite lookup_delete_ne; [done|congruence].
    + intros fs' l [Hne H']%lookup_delete_Some.
      rewrite lookup_delete_ne; [by eapply HB|]. by intros ?%ptr_of_inj.
  - intros q sz [Hne Hq]%lookup_delete_Some. by eapply Hsz.
Qed.

Lemma heap_reach_inv m live : heap_reach m live → heap_inv m live.
Proof.
  induction 1 as [m|m live size p m' _ IH Hsz Hk|m live p size m' _ IH Hp Hk].
  - split; [|intros p sz; by rewrite lookup_empty].
    exists ∅, 0. split; [apply memory_init_ok|].
    split; intros *; by rewrite lookup_empty.
  - destruct (heap_inv_kmalloc m live size IH Hsz) as (p' & m2 & Hk' & Hinv & _).
    rewrite Hk in Hk'. by injection Hk' as <- <-.
  - destruct (heap_inv_kfree m live p size IH Hp) as (m2 & Hk' & Hinv).
    rewrite Hk in Hk'. by injection Hk' as <-.
Qed.

(** Live allocations lie apart, headers included. *)
Lemma live_disjoint m live p1 sz1 p2 sz2 a :
  heap_inv m live → live !! p1 = Some sz1 → live !! p2 = Some sz2 →
  sz1 ≤ 2 ^ 32 - 4104 → sz2 ≤ 2 ^ 32 - 4104 →
  p1 - BLOCK_HEADER ≤ a < p1 + sz1 → p2 - BLOCK_HEADER ≤ a < p2 + sz2 → p1 = p2.
Proof.
  intros Hinv H1 H2 L1 L2 Ha1 Ha2.
  destruct Hinv as [(B & r & Hok & Hlive & _) Hsz].
  destruct (Hlive p1 sz1 H1) as (f1 & -> & HB1), (Hlive p2 sz2 H2) as (f2 & -> & HB2).
  pose proof (kmalloc_pages_enough sz1 ltac:(specialize (Hsz _ _ H1); lia)) as K1.
  pose proof (kmalloc_pages_enough sz2 ltac:(specialize (Hsz _ _ H2); lia)) as K2.
  destruct (ok_block _ _ _ Hok _ _ HB1) as [R1 N1], (ok_block _ _ _ Hok _ _ HB2) as [R2 N2].
  set (page := (a - base) `div` PAGE_SIZE).
  set (q := if decide (page < NUM_PAGES) then page else NUM_PAGES - 1).
  unfold ptr_of in *. f_equal. f_equal. f_equal.
  apply (ok_disjoint _ _ _ Hok f1 (kmalloc_pages sz1) f2 (kmalloc_pages sz2) q);
    [done|done|unfold q, page; case_decide; lia|..];
    unfold covers, q, page; case_decide; lia.
Qed.

(** C14: the heap is safe.  In every state that [kmalloc] and [kfree] (of
    live pointers) reach from [memory_init], every further request is served
    without leaving an array and every live pointer can be freed; a pointer
    that [kmalloc] returns is [NULL] or not one of the live ones; and the byte
    ranges of two live allocations, headers included, never meet. *)
Theorem heap_safe m live :
  heap_reach m live →
  (∀ size, 0 ≤ size < 2 ^ 32 → ∃ p m', kmalloc base m size = Ok (p, m') ∧
     heap_reach m' (if decide (p = 0) then live else <[p := size]> live) ∧
     (p = 0 ∨ live !! p = None)) ∧
  (∀ p size, live !! p = Some size →
     ∃ m', kfree base m p = Ok m' ∧ heap_reach m' (delete p live)) ∧
  (∀ p1 sz1 p2 sz2 a, live !! p1 = Some sz1 → live !! p2 = Some sz2 →
     sz1 ≤ 2 ^ 32 - 4104 → sz2 ≤ 2 ^ 32 - 4104 →
     p1 - BLOCK_HEADER ≤ a < p1 + sz1 → p2 - BLOCK_HEADER ≤ a < p2 + sz2 → p1 = p2).
Proof.
  intros Hreach. pose proof (heap_reach_inv m live Hreach) as Hinv. split; [|split].
  - intros size Hsize.
    destruct (heap_inv_kmalloc m live size Hinv Hsize) as (p & m' & Hk & _ & Hp).
    exists p, m'. split; [done|]. split; [by eapply heap_kmalloc|done].
  - intros p size Hp. destruct (heap_inv_kfree m live p size Hinv Hp) as (m' & Hk & _).
    exists m'. split; [done|]. by eapply heap_kfree.
  - intros p1 sz1 p2 sz2 a H1 H2 L1 L2 Ha1 Ha2.
    by eapply (live_disjoint m live p1 sz1 p2 sz2 a).
Qed.

(** ** First fit *)

(** C15: [kmalloc] is first fit from the last position.  With [n] the number
    of pages that hold the request and its header, it returns [NULL], and changes
    nothing, exactly when one scan of the page table finds no [n] consecutive
    free pages; otherwise the pointer behind the header at the first such run,
    and the header holds the size while no other byte changes. *)
Theorem kmalloc_first_fit m live size :
  heap_reach m live → 0 ≤ size ≤ 2 ^ 32 - 4104 →
  let n := kmalloc_pages size in
  size + BLOCK_HEADER ≤ n * PAGE_SIZE < size + BLOCK_HEADER + PAGE_SIZE ∧
  ((∀ k, ¬ window m.(page_table) m.(last_page_index) n k) →
     kmalloc base m size = Ok (0, m)) ∧
  (∀ k, window m.(page_table) m.(last_page_index) n k →
     ∃ fs m', first_fit m n fs ∧ kmalloc base m size = Ok (ptr_of fs, m') ∧
       load32 base m' (ptr_of fs - BLOCK_HEADER) = Ok size ∧
       load8 base m' (ptr_of fs - BLOCK_HEADER + 4) = Ok 0 ∧
       same_but_header base m m' (ptr_of fs - BLOCK_HEADER) ∧
       m'.(last_page_index) = (fs + n) `mod` NUM_PAGES).
Proof.
  intros Hreach Hsize n. pose proof (kmalloc_pages_enough size Hsize) as Hn. fold n in Hn.
  destruct (heap_reach_inv m live Hreach) as [(B & r & Hok & _) _].
  destruct (kmalloc_cases base Hbase m B r size Hok ltac:(lia))
    as [[Hk Hno]|(fs & m' & _ & _ & Hk & _ & H1 & H2 & H3 & _ & Hff & Hlast)];
    (split; [done|split]).
  - done.
  - intros k Hw. destruct (Hno ltac:(fold n; lia) k Hw).
  - intros Hno. destruct Hff as (k & Hw & _). by destruct (Hno k).
  - intros _ _. exists fs, m'. unfold ptr_of.
    replace (base + fs * PAGE_SIZE + BLOCK_HEADER - BLOCK_HEADER)
      with (base + fs * PAGE_SIZE) by lia. done.
Qed.

(** ** Freeing what was just allocated *)

(** The page table is determined by the heap. *)
Lemma heap_ok_page_table m m' B r :
  heap_ok m B r → heap_ok m' B r → m.(page_table) = m'.(page_table).
Proof.
  intros H H'. apply list_eq. intros i.
  pose proof (ok_length _ _ _ H) as L. pose proof (ok_length _ _ _ H') as L'.
  destruct (decide (i < Z.to_nat NUM_PAGES)%nat) as [Hi|Hi];
    [|by rewrite !lookup_ge_None_2 by lia].
  assert (aget m.(page_table) (Z.of_nat i) = aget m'.(page_table) (Z.of_nat i)) as E.
  { destruct (ok_page _ _ _ H (Z.of_nat i) ltac:(lia))
      as [[[l Hl] ->]|[(s & l & Hs & Hc & Hne & ->)|[[Hr ->]|(Hr & Hno & ->)]]].
    - by rewrite (heap_head m' B r H' _ l Hl).
    - by rewrite (heap_tail m' B r H' s l) by (done || lia).
    - destruct (ok_page _ _ _ H' (Z.of_nat i) ltac:(lia))
        as [[[l Hl] _]|[(s & l & _ & _ & _ & ?)|[[_ ?]|(? & _)]]]; try done; [|lia].
      destruct (ok_not_leaked _ _ _ H _ _ (Z.of_nat i) Hl ltac:(lia)).
      apply covers_self. apply (ok_block _ _ _ H _ _ Hl).
    - destruct (ok_page _ _ _ H' (Z.of_nat i) ltac:(lia))
        as [[[l Hl] _]|[(s & l & Hs & Hc & _)|[[? _]|(_ & _ & ?)]]]; try done; [| |lia].
      + destruct (Hno _ _ Hl). apply covers_self. apply (ok_block _ _ _ H _ _ Hl).
      + by destruct (Hno _ _ Hs). }
  unfold aget in E. rewrite !bool_decide_eq_true_2, Nat2Z.id in E by lia.
  destruct (page_table m !! i) eqn:E1, (page_table m' !! i) eqn:E2; simpl in E; congruence.
Qed.

(** C16: [kfree] undoes [kmalloc].  Freeing the pointer that the last
    [kmalloc] returned restores the whole page table, and no byte of the heap has
    changed outside the header, provided that the block does not run past the
    end of the kernel memory. *)
Theorem kfree_undoes_kmalloc m live size p m' :
  heap_reach m live → 0 ≤ size < 2 ^ 32 → kmalloc base m size = Ok (p, m') → p ≠ 0 →
  p - BLOCK_HEADER + kmalloc_pages size * PAGE_SIZE ≤ base + KERNEL_MEMORY_SIZE →
  ∃ m'', kfree base m' p = Ok m'' ∧ m''.(page_table) = m.(page_table) ∧
    same_but_header base m m'' (p - BLOCK_HEADER).
Proof.
  intros Hreach Hsize Hk Hp Hend.
  destruct (heap_reach_inv m live Hreach) as [(B & r & Hok & _) _].
  destruct (kmalloc_cases base Hbase m B r size Hok Hsize)
    as [[Hk' _]|(fs & m1 & HB & Hr & Hk' & Hok' & _ & _ & Hsame & _)];
    rewrite Hk in Hk'; [by injection Hk' as ->|]. injection Hk' as -> ->.
  destruct (kfree_cases base Hbase m1 _ r fs (kmalloc_pages size) Hok')
    as (m2 & Hf & Hok2 & Hsame2); [apply lookup_insert_eq|].
  rewrite delete_insert_id in Hok2 by done.
  unfold leaked_after in Hok2. rewrite decide_True in Hok2 by lia.
  exists m2. split; [done|]. split; [by eapply heap_ok_page_table|].
  replace (base + fs * PAGE_SIZE + BLOCK_HEADER - BLOCK_HEADER)
    with (base + fs * PAGE_SIZE) by lia.
  intros a Ha. by rewrite Hsame2, Hsame.
Qed.

(** ** Two ways to get too small a block *)

Lemma kfree_last m p m' :
  kfree base m p = Ok m' → m'.(last_page_index) = m.(last_page_index).
Proof.
  unfold kfree. intros H. destruct (p =? 0); [by injection H as <-|].
  apply bind_ok_inv in H as (m1 & Hs & H). unfold store8 in Hs.
  case_bool_decide; [|done]. injection Hs as <-.
  apply bind_ok_inv in H as (v & _ & H). destruct (v =? 1); [|by injection H as <-].
  apply bind_ok_inv in H as (pt & _ & H). apply bind_ok_inv in H as (pt' & _ & H).
  by injection H as <-.
Qed.

(** The next block goes to the last position when the pages there are free. *)
Lemma kmalloc_here m B r size :
  heap_ok m B r → 0 ≤ size < 2 ^ 32 → 1 ≤ kmalloc_pages size ≤ NUM_PAGES →
  (∀ j, 0 ≤ j < kmalloc_pages size →
     aget m.(page_table) ((m.(last_page_index) + j) `mod` NUM_PAGES) = Ok 0) →
  ∃ m', kmalloc base m size = Ok (ptr_of m.(last_page_index), m') ∧
    heap_ok m' (<[m.(last_page_index) := kmalloc_pages size]> B) r ∧
    m'.(last_page_index) = (m.(last_page_index) + kmalloc_pages size) `mod` NUM_PAGES.
Proof.
  intros Hok Hsize Hn Hfree. pose proof (ok_last _ _ _ Hok).
  assert (window m.(page_table) m.(last_page_index) (kmalloc_pages size) 0) as Hw.
  { split; [lia|]. split; [lia|]. intros j Hj. apply Hfree. lia. }
  destruct (kmalloc_cases base Hbase m B r size Hok Hsize)
    as [[_ Hno]|(fs & m1 & _ & _ & Hk & Hok' & _ & _ & _ & _ & Hff & Hlast)];
    [by destruct (Hno ltac:(lia) 0)|].
  assert (fs = m.(last_page_index)) as ->.
  { destruct Hff as (k & (Hk0 & _) & Hl & ->). pose proof (Hl 0 Hw).
    replace k with 0 by lia. rewrite Z.add_0_r. by apply Z.mod_small. }
  by exists m1.
Qed.

(** All pages from [k] on, where the next search starts, are free. *)
Definition roomy (m : memory) (k : Z) : Prop :=
  m.(last_page_index) = k ∧ (∀ p, k ≤ p < NUM_PAGES → aget m.(page_table) p = Ok 0) ∧
  ∃ B r, heap_ok m B r.

Lemma roomy_bytes m m' k :
  roomy m k → m'.(page_table) = m.(page_table) → m'.(last_page_index) = m.(last_page_index) →
  roomy m' k.
Proof.
  intros (Hl & Hf & B & r & Hok) Hpt Hlast. split; [congruence|]. split; [by rewrite Hpt|].
  exists B, r. destruct m, m'. simpl in *. subst. by destruct Hok.
Qed.

Lemma roomy_kmalloc m k size :
  roomy m k → 0 ≤ size < 2 ^ 32 → 1 ≤ kmalloc_pages size → k + kmalloc_pages size < NUM_PAGES →
  ∃ m', kmalloc base m size = Ok (ptr_of k, m') ∧ roomy m' (k + kmalloc_pages size).
Proof.
  intros (Hl & Hf & B & r & Hok) Hsz Hn1 Hn2. pose proof (ok_last _ _ _ Hok).
  destruct (kmalloc_here m B r size Hok Hsz) as (m' & Hk & Hok' & Hl'); [lia| |].
  { intros j Hj. rewrite Hl, Z.mod_small by lia. apply Hf. lia. }
  rewrite Hl in Hk, Hok', Hl'. exists m'. split; [done|].
  split; [rewrite Hl'; apply Z.mod_small; lia|]. split; [|by eexists _, _].
  intros p Hp. destruct (heap_free m B r Hok p (Hf p ltac:(lia))) as (_ & Hr & HB & Hno).
  destruct (ok_page _ _ _ Hok' p ltac:(lia))
    as [[[l Hs] _]|[(s & l & Hs & Hc & _)|[[? _]|(_ & _ & ?)]]]; [..|lia|done].
  - apply lookup_insert_Some in Hs as [[? _]|[_ Hs]]; [lia|congruence].
  - apply lookup_insert_Some in Hs as [[<- <-]|[_ Hs]]; [unfold covers in Hc; lia|].
    by destruct (Hno s l).
Qed.

Lemma empty_heap_free m p :
  heap_ok m ∅ 0 → 0 ≤ p < NUM_PAGES → aget m.(page_table) p = Ok 0.
Proof.
  intros Hok Hp. destruct (ok_page _ _ _ Hok p Hp)
    as [[[l Hl] _]|[(s & l & Hl & _)|[[? _]|(_ & _ & ?)]]]; [..|lia|done];
    by rewrite lookup_empty in Hl.
Qed.

Lemma fresh_heap m : heap_ok (memory_init m) ∅ 0 ∧ (memory_init m).(last_page_index) = 0.
Proof. split; [apply memory_init_ok|done]. Qed.

(** C17: the search for free pages wraps around the end of the page table, so
    a block can run past the end of [kernel_memory].  One allocation of 4095 pages
    that is freed again is enough: the next request of 4096 bytes gets the last
    page and the first one, and its last byte lies outside the array. *)
Theorem kmalloc_can_wrap m :
  ∃ m1 m2 m3, kmalloc base (memory_init m) (4095 * PAGE_SIZE - BLOCK_HEADER) =
      Ok (ptr_of 0, m1) ∧
    kfree base m1 (ptr_of 0) = Ok m2 ∧
    kmalloc base m2 PAGE_SIZE = Ok (ptr_of 4095, m3) ∧
    base + KERNEL_MEMORY_SIZE < ptr_of 4095 + PAGE_SIZE ∧
    ∀ v, store8 base m3 (ptr_of 4095 + PAGE_SIZE - 1) v = Err OutOfBounds.
Proof.
  destruct (fresh_heap m) as [H0 L0]. revert H0 L0. generalize (memory_init m).
  clear m. intros m H0 L0.
  assert (kmalloc_pages (4095 * PAGE_SIZE - BLOCK_HEADER) = 4095) as E1 by done.
  assert (kmalloc_pages PAGE_SIZE = 2) as E2 by done.
  destruct (kmalloc_here _ _ _ (4095 * PAGE_SIZE - BLOCK_HEADER) H0)
    as (m1 & Hk1 & H1 & L1); [lia|lia| |].
  { intros j Hj. apply empty_heap_free; [done|lia]. }
  rewrite E1 in H1, L1. rewrite L0 in H1, L1, Hk1.
  destruct (kfree_cases base Hbase m1 _ 0 0 4095 H1) as (m2 & Hf & H2 & _);
    [apply lookup_insert_eq|].
  rewrite delete_insert_id in H2 by apply lookup_empty.
  unfold leaked_after in H2. rewrite decide_True in H2 by lia.
  pose proof (kfree_last _ _ _ Hf) as L2. rewrite L1 in L2.
  destruct (kmalloc_here m2 _ _ PAGE_SIZE H2) as (m3 & Hk3 & _ & _); [lia|lia| |].
  { intros j Hj. apply empty_heap_free; [done|lia]. }
  rewrite L2 in Hk3. change ((0 + 4095) `mod` NUM_PAGES) with 4095 in Hk3.
  exists m1, m2, m3. split; [exact Hk1|]. split; [exact Hf|]. split; [exact Hk3|].
  unfold ptr_of. split; [lia|]. intros v. unfold store8.
  by rewrite bool_decide_eq_false_2 by lia.
Qed.

(** C18: the size of a block is computed modulo 2^32.  A request within the
    header's 8 bytes of 4 GB gets a single page, and the next allocation lies
    inside the range that the first caller was promised. *)
Theorem kmalloc_size_overflow m size :
  2 ^ 32 - BLOCK_HEADER < size < 2 ^ 32 →
  ∃ m1 p2 m2, kmalloc base (memory_init m) size = Ok (ptr_of 0, m1) ∧
    kmalloc base m1 1 = Ok (p2, m2) ∧ p2 ≠ 0 ∧ ptr_of 0 < p2 < ptr_of 0 + size.
Proof.
  intros Hsize. destruct (fresh_heap m) as [H0 L0]. revert H0 L0. generalize (memory_init m).
  clear m. intros m H0 L0.
  assert (kmalloc_pages size = 1) as E1.
  { unfold kmalloc_pages. assert (1 ≤ u32 (size + BLOCK_HEADER) < 8) by (unfold u32; lia).
    rewrite u32_small; lia. }
  assert (kmalloc_pages 1 = 1) as E2 by done.
  destruct (kmalloc_here _ _ _ size H0) as (m1 & Hk1 & H1 & L1); [lia|lia| |].
  { intros j Hj. apply empty_heap_free; [done|lia]. }
  rewrite E1 in H1, L1. rewrite L0 in H1, L1, Hk1.
  change ((0 + 1) `mod` NUM_PAGES) with 1 in L1.
  destruct (kmalloc_here m1 _ _ 1 H1) as (m2 & Hk2 & _ & _); [lia|lia| |].
  { intros j Hj. rewrite L1. destruct (ok_page _ _ _ H1 ((1 + j) `mod` NUM_PAGES) ltac:(lia))
      as [[[l Hl] _]|[(s & l & Hl & Hc & Hne & _)|[[? _]|(_ & _ & ?)]]]; [..|lia|done].
    - apply lookup_insert_Some in Hl as [[? _]|[_ Hl]]; [lia|by rewrite lookup_empty in Hl].
    - apply lookup_insert_Some in Hl as [[<- <-]|[_ Hl]]; [|by rewrite lookup_empty in Hl].
      unfold covers in Hc. lia. }
  rewrite L1 in Hk2. exists m1, (ptr_of 1), m2. split; [exact Hk1|]. split; [exact Hk2|].
  unfold ptr_of. lia.
Qed.

(** ** [copy_memory] *)

(** A byte of the source, as a value. *)
Definition source_byte (m : memory) (a : Z) : Prop :=
  ∃ v, load8 base m a = Ok v ∧ 0 ≤ v < 256.

Lemma copy_memory_spec m dest src size :
  0 ≤ size → base ≤ dest → dest + size ≤ base + KERNEL_MEMORY_SIZE →
  dest ≤ src ∨ src + size ≤ dest →
  (∀ i, 0 ≤ i < size → source_byte m (src + i)) →
  ∃ m', copy_memory base m dest src size = Ok m' ∧
    m'.(page_table) = m.(page_table) ∧ m'.(last_page_index) = m.(last_page_index) ∧
    (∀ i, 0 ≤ i < size → load8 base m' (dest + i) = load8 base m (src + i)) ∧
    (∀ a, ¬ (dest ≤ a < dest + size) → load8 base m' a = load8 base m a).
Proof.
  intros Hsz Hd1 Hd2 Hdir Hbytes. unfold copy_memory.
  destruct (for_loop_inv (λ i m', m'.(page_table) = m.(page_table) ∧
      m'.(last_page_index) = m.(last_page_index) ∧
      (∀ j, 0 ≤ j < i → load8 base m' (dest + j) = load8 base m (src + j)) ∧
      (∀ a, ¬ (dest ≤ a < dest + i) → load8 base m' a = load8 base m a))
    (Z.to_nat size) 0 (λ i m, b ← load8 base m (src + i); store8 base m (dest + i) b) m)
    as (m' & Hm' & Hpt & Hlast & Hin & Hout).
  - split; [done|]. split; [done|]. split; [lia|done].
  - intros k m1 Hk (Hpt & Hlast & Hin & Hout). rewrite (Hout (src + k)) by lia.
    destruct (Hbytes k ltac:(lia)) as (v & Hv & Hvr).
    rewrite Hv, bind_ok, store8_ok by lia. eexists. split; [done|].
    rewrite u8_small by lia. split; [done|]. split; [done|]. split.
    + intros j Hj. destruct (decide (j = k)) as [->|Hne].
      * unfold load8 at 1. rewrite bool_decide_eq_true_2 by lia. simpl.
        by rewrite lookup_insert_eq, Hv.
      * rewrite <-(Hin j) by lia. unfold load8. case_bool_decide; [|done]. simpl.
        by rewrite lookup_insert_ne by lia.
    + intros a Ha. rewrite <-Hout by lia. unfold load8. case_bool_decide; [|done]. simpl.
      by rewrite lookup_insert_ne by lia.
  - exists m'. rewrite Z.add_0_l, Z2Nat.id in Hin, Hout by lia. done.
Qed.

(** [copy_memory] copies forward.  When the destination starts at or
    below the source, or behind its end, the destination afterwards holds the
    bytes the source had before, and no other byte changes. *)
Lemma copy_memory_copies m dest src size :
  0 ≤ size → base ≤ src → src + size ≤ base + KERNEL_MEMORY_SIZE →
  base ≤ dest → dest + size ≤ base + KERNEL_MEMORY_SIZE →
  dest ≤ src ∨ src + size ≤ dest →
  (∀ o v, m.(kernel_memory) !! o = Some v → 0 ≤ v < 256) →
  ∃ m', copy_memory base m dest src size = Ok m' ∧
    m'.(page_table) = m.(page_table) ∧
    (∀ i, 0 ≤ i < size → load8 base m' (dest + i) = load8 base m (src + i)) ∧
    (∀ a, ¬ (dest ≤ a < dest + size) → load8 base m' a = load8 base m a).
Proof.
  intros Hsz Hs1 Hs2 Hd1 Hd2 Hdir Hbytes.
  destruct (copy_memory_spec m dest src size Hsz Hd1 Hd2 Hdir)
    as (m' & Hm' & Hpt & _ & Hin & Hout); [|by exists m'].
  intros i Hi. unfold source_byte. rewrite load8_ok by lia. eexists. split; [done|].
  destruct (kernel_memory m !! _) eqn:E; simpl; [by eapply Hbytes|lia].
Qed.
End heap.

(** ** The theorems at a concrete heap *)

(** [kernel_memory] at one megabyte, just after [memory_init]. *)
Definition demo_base : Z := 1048576.
Definition demo_memory : memory := memory_init (Memory ∅ [] 0).

Lemma demo_reach : heap_reach demo_base demo_memory ∅.
Proof. apply heap_start. Qed.

Lemma demo_fresh : heap_ok demo_memory ∅ 0 ∧ demo_memory.(last_page_index) = 0.
Proof. apply fresh_heap. Qed.

Lemma demo_roomy : roomy demo_memory 0.
Proof.
  destruct (fresh_heap (Memory ∅ [] 0)) as [H0 L0]. split; [done|]. split; [|by eexists _, _].
  intros p Hp. by apply empty_heap_free.
Qed.

Lemma demo_load8 a :
  demo_base ≤ a < demo_base + KERNEL_MEMORY_SIZE → load8 demo_base demo_memory a = Ok 0.
Proof. intros Ha. rewrite load8_ok by lia. unfold demo_memory. simpl. by rewrite lookup_empty. Qed.

#[global] Opaque demo_memory.

Lemma demo_kmalloc :
  ∃ m', kmalloc demo_base demo_memory 100 = Ok (ptr_of demo_base 0, m').
Proof.
  destruct demo_fresh as [H0 L0].
  destruct (kmalloc_here demo_base ltac:(done) demo_memory _ _ 100 H0) as (m' & Hk & _);
    [lia|by split| |rewrite L0 in Hk; by exists m'].
  intros j Hj. apply empty_heap_free; [done|lia].
Qed.

Lemma heap_safe_witness :
  ∃ m, let live := <[ptr_of demo_base 0 := 100]> (∅ : gmap Z Z) in
  (∀ size, 0 ≤ size < 2 ^ 32 → ∃ p m', kmalloc demo_base m size = Ok (p, m') ∧
     heap_reach demo_base m' (if decide (p = 0) then live else <[p := size]> live) ∧
     (p = 0 ∨ live !! p = None)) ∧
  (∀ p size, live !! p = Some size →
     ∃ m', kfree demo_base m p = Ok m' ∧ heap_reach demo_base m' (delete p live)) ∧
  (∀ p1 sz1 p2 sz2 a, live !! p1 = Some sz1 → live !! p2 = Some sz2 →
     sz1 ≤ 2 ^ 32 - 4104 → sz2 ≤ 2 ^ 32 - 4104 →
     p1 - BLOCK_HEADER ≤ a < p1 + sz1 → p2 - BLOCK_HEADER ≤ a < p2 + sz2 → p1 = p2).
Proof.
  destruct demo_kmalloc as (m & Hk). exists m. cbn zeta.
  apply (heap_safe demo_base ltac:(done) m (<[ptr_of demo_base 0 := 100]> ∅)).
  apply (heap_kmalloc demo_base demo_memory ∅ 100 (ptr_of demo_base 0) m demo_reach);
    [lia|exact Hk].
Defined.

Lemma kmalloc_first_fit_witness :
  let n := kmalloc_pages 100 in
  100 + BLOCK_HEADER ≤ n * PAGE_SIZE < 100 + BLOCK_HEADER + PAGE_SIZE ∧
  ((∀ k, ¬ window demo_memory.(page_table) demo_memory.(last_page_index) n k) →
     kmalloc demo_base demo_memory 100 = Ok (0, demo_memory)) ∧
  (∀ k, window demo_memory.(page_table) demo_memory.(last_page_index) n k →
     ∃ fs m', first_fit demo_memory n fs ∧
       kmalloc demo_base demo_memory 100 = Ok (ptr_of demo_base fs, m') ∧
       load32 demo_base m' (ptr_of demo_base fs - BLOCK_HEADER) = Ok 100 ∧
       load8 demo_base m' (ptr_of demo_base fs - BLOCK_HEADER + 4) = Ok 0 ∧
       same_but_header demo_base demo_memory m' (ptr_of demo_base fs - BLOCK_HEADER) ∧
       m'.(last_page_index) = (fs + n) `mod` NUM_PAGES).
Proof.
  apply (kmalloc_first_fit demo_base ltac:(done) demo_memory ∅ 100 demo_reach). lia.
Defined.

Lemma kfree_undoes_kmalloc_witness :
  ∃ m' m'', kmalloc demo_base demo_memory 100 = Ok (ptr_of demo_base 0, m') ∧
    kfree demo_base m' (ptr_of demo_base 0) = Ok m'' ∧
    m''.(page_table) = demo_memory.(page_table) ∧
    same_but_header demo_base demo_memory m'' (ptr_of demo_base 0 - BLOCK_HEADER).
Proof.
  destruct demo_kmalloc as (m' & Hk).
  destruct (kfree_undoes_kmalloc demo_base ltac:(done) demo_memory ∅ 100 (ptr_of demo_base 0)
    m' demo_reach ltac:(lia) Hk) as (m'' & H); [done|by vm_compute|].
  exists m', m''. split; [exact Hk|exact H].
Defined.

Lemma kmalloc_can_wrap_witness :
  ∃ m1 m2 m3,
    kmalloc demo_base (memory_init (Memory ∅ [] 0)) (4095 * PAGE_SIZE - BLOCK_HEADER) =
      Ok (ptr_of demo_base 0, m1) ∧
    kfree demo_base m1 (ptr_of demo_base 0) = Ok m2 ∧
    kmalloc demo_base m2 PAGE_SIZE = Ok (ptr_of demo_base 4095, m3) ∧
    demo_base + KERNEL_MEMORY_SIZE < ptr_of demo_base 4095 + PAGE_SIZE ∧
    ∀ v, store8 demo_base m3 (ptr_of demo_base 4095 + PAGE_SIZE - 1) v = Err OutOfBounds.
Proof. exact (kmalloc_can_wrap demo_base eq_refl (Memory ∅ [] 0)). Defined.

Lemma kmalloc_size_overflow_witness :
  ∃ m1 p2 m2,
    kmalloc demo_base (memory_init (Memory ∅ [] 0)) (2 ^ 32 - 1) =
      Ok (ptr_of demo_base 0, m1) ∧
    kmalloc demo_base m1 1 = Ok (p2, m2) ∧ p2 ≠ 0 ∧
    ptr_of demo_base 0 < p2 < ptr_of demo_base 0 + (2 ^ 32 - 1).
Proof.
  apply (kmalloc_size_overflow demo_base ltac:(done) (Memory ∅ [] 0) (2 ^ 32 - 1)). lia.
Defined.

Lemma copy_memory_copies_witness :
  let m := Memory {[8 := 7]} [] 0 in
  ∃ m', copy_memory demo_base m (demo_base + 4) (demo_base + 8) 16 = Ok m' ∧
    m'.(page_table) = m.(page_table) ∧
    (∀ i, 0 ≤ i < 16 →
       load8 demo_base m' (demo_base + 4 + i) = load8 demo_base m (demo_base + 8 + i)) ∧
    (∀ a, ¬ (demo_base + 4 ≤ a < demo_base + 4 + 16) →
       load8 demo_base m' a = load8 demo_base m a).
Proof.
  intros m.
  apply (copy_memory_copies demo_base m (demo_base + 4) (demo_base + 8) 16);
    unfold demo_base; try lia.
  intros o v Hv. cbn in Hv. apply (lookup_singleton_Some 8 o 7 v) in Hv as [_ <-]. lia.
Defined.
