(* ===== verification/MemWords.v ===== *)
(** * Words of the kernel heap

    Objects in allocated memory are read and written through 32-bit words.
    [word] and [poke] are the total versions of [load32] and [store32] for
    addresses inside [kernel_memory], with the laws the components above the
    heap use.  [HeapSpec] is the interface of the allocator for its clients;
    [heap_spec] shows that [memory.c] implements it. *)
From S2P Require Import Prelude Memory MemorySpec MemoryProps.

#[local] Ltac Zify.zify_post_hook ::= Z.to_euclidean_division_equations.

Section words.
Context (base : Z).

(** The four bytes at [a] lie in [kernel_memory]. *)
Definition valid_word (a : Z) : Prop := base ≤ a ∧ a + 4 ≤ base + KERNEL_MEMORY_SIZE.

Definition word (m : memory) (a : Z) : Z :=
  match load32 base m a with Ok v => v | Err _ => 0 end.

Definition poke (m : memory) (a v : Z) : memory :=
  set_kernel_memory (put32 (a - base) v) m.

(** Two words that do not overlap. *)
Definition apart (a b : Z) : Prop := a + 4 ≤ b ∨ b + 4 ≤ a.

Lemma load32_valid m a : valid_word a → load32 base m a = Ok (word m a).
Proof.
  intros [? ?]. unfold word, load32. by do 4 (rewrite load8_ok, ?bind_ok by lia).
Qed.

Lemma load32_invalid m a : a < base → load32 base m a = Err OutOfBounds.
Proof.
  intros Ha. unfold load32. assert (load8 base m a = Err OutOfBounds) as ->; [|done].
  unfold load8. by rewrite bool_decide_eq_false_2 by lia.
Qed.

Lemma store32_valid m a v : valid_word a → store32 base m a v = Ok (poke m a v).
Proof. intros [? ?]. apply store32_ok; lia. Qed.

Lemma store32_invalid m a v : a < base → store32 base m a v = Err OutOfBounds.
Proof.
  intros Ha. unfold store32. assert (store8 base m a v = Err OutOfBounds) as ->; [|done].
  unfold store8. by rewrite bool_decide_eq_false_2 by lia.
Qed.

Lemma u32_bytes v :
  u8 v + u8 (Z.shiftr v 8) * 2 ^ 8 + u8 (Z.shiftr v 16) * 2 ^ 16 +
    u8 (Z.shiftr v 24) * 2 ^ 24 = u32 v.
Proof. unfold u8, u32. rewrite !Z.shiftr_div_pow2 by lia. lia. Qed.

Lemma word_poke_eq m a v : valid_word a → word (poke m a v) a = u32 v.
Proof.
  intros [? ?]. unfold word, poke, load32, set_kernel_memory, put32.
  do 4 (rewrite load8_ok, ?bind_ok by lia). cbn [kernel_memory].
  replace (a + 1 - base) with (a - base + 1) by lia.
  replace (a + 2 - base) with (a - base + 2) by lia.
  replace (a + 3 - base) with (a - base + 3) by lia.
  do 3 (rewrite lookup_insert_ne by lia). rewrite lookup_insert_eq.
  do 2 (rewrite lookup_insert_ne by lia). rewrite lookup_insert_eq.
  do 1 (rewrite lookup_insert_ne by lia). rewrite lookup_insert_eq.
  rewrite lookup_insert_eq. simpl. apply u32_bytes.
Qed.

Lemma load8_poke_ne m a v b :
  ¬ (a ≤ b < a + 4) → load8 base (poke m a v) b = load8 base m b.
Proof.
  intros Hne. unfold load8, poke, set_kernel_memory, put32. cbn [kernel_memory].
  case_bool_decide; [|done]. by do 4 (rewrite lookup_insert_ne by lia).
Qed.

(** The words of two memories agree where their bytes do. *)
Lemma word_same m m' a :
  (∀ b, a ≤ b < a + 4 → load8 base m' b = load8 base m b) → word m' a = word m a.
Proof. intros H. unfold word, load32. by rewrite !H by lia. Qed.

Lemma word_poke_ne m a v b : apart a b → word (poke m a v) b = word m b.
Proof.
  intros Hab. apply word_same. intros c Hc. apply load8_poke_ne. unfold apart in Hab. lia.
Qed.

Lemma poke_page_table m a v : (poke m a v).(page_table) = m.(page_table).
Proof. done. Qed.

Lemma poke_last m a v : (poke m a v).(last_page_index) = m.(last_page_index).
Proof. done. Qed.

(** A byte stored into the header of a block does not reach a word outside. *)
Lemma word_same_header m m' p a :
  same_but_header base m m' p → a + 4 ≤ p ∨ p + BLOCK_HEADER ≤ a → word m' a = word m a.
Proof. intros H Ha. apply word_same. intros b Hb. apply H. lia. Qed.
End words.

(** ** The interface of the allocator *)

(** What the allocator promises to a client that keeps track of its live
    blocks: they lie in the kernel memory (their first page at least), apart
    from each other, headers included; [kmalloc] returns [NULL] and changes
    nothing, or adds a block and writes only its header; [kfree] removes one;
    and the contents of the blocks are of no concern to the allocator. *)
Class HeapSpec (base : Z) (inv : memory → gmap Z Z → Prop) := {
  hs_range : ∀ m live p sz, inv m live → live !! p = Some sz →
    base + BLOCK_HEADER ≤ p ∧ p + PAGE_SIZE - BLOCK_HEADER ≤ base + KERNEL_MEMORY_SIZE;
  hs_apart : ∀ m live p q sz sz', inv m live → live !! p = Some sz → live !! q = Some sz' →
    p ≠ q → sz ≤ 2 ^ 32 - 4104 → sz' ≤ 2 ^ 32 - 4104 →
    p + sz ≤ q - BLOCK_HEADER ∨ q + sz' ≤ p - BLOCK_HEADER;
  hs_kmalloc : ∀ m live size, inv m live → 0 ≤ size ≤ 2 ^ 32 - 4104 →
    kmalloc base m size = Ok (0, m) ∨
    ∃ p m', kmalloc base m size = Ok (p, m') ∧ inv m' (<[p := size]> live) ∧
      live !! p = None ∧ same_but_header base m m' (p - BLOCK_HEADER);
  hs_kfree : ∀ m live p size, inv m live → live !! p = Some size →
    ∃ m', kfree base m p = Ok m' ∧ inv m' (delete p live) ∧
      same_but_header base m m' (p - BLOCK_HEADER);
  hs_bytes : ∀ m m' live, inv m live → m'.(page_table) = m.(page_table) →
    m'.(last_page_index) = m.(last_page_index) → inv m' live;
}.

Section impl.
Context (base : Z) (Hbase : 0 < base).

Lemma heap_ok_bytes km m B r :
  heap_ok m B r → heap_ok (Memory km m.(page_table) m.(last_page_index)) B r.
Proof. by intros []. Qed.

#[export] Instance heap_spec : HeapSpec base (heap_inv base).
Proof.
  split.
  - intros m live p sz [(B & r & Hok & Hlive & _) _] Hp.
    destruct (Hlive p sz Hp) as (fs & -> & Hfs). destruct (ok_block _ _ _ Hok _ _ Hfs).
    unfold ptr_of. lia.
  - intros m live p q sz sz' Hinv Hp Hq Hne Hsz Hsz'.
    destruct (decide (p + sz ≤ q - BLOCK_HEADER)); [by left|].
    destruct (decide (q + sz' ≤ p - BLOCK_HEADER)); [by right|exfalso]. apply Hne.
    pose proof (hi_size _ _ _ Hinv _ _ Hp). pose proof (hi_size _ _ _ Hinv _ _ Hq).
    apply (live_disjoint base m live p sz q sz' (Z.max (p - BLOCK_HEADER) (q - BLOCK_HEADER)));
      done || lia.
  - intros m live size Hinv Hsize. pose proof Hinv as [(B & r & Hok & _) _].
    destruct (kmalloc_cases base Hbase m B r size Hok ltac:(lia))
      as [[Hk _]|(fs & m1 & _ & Hfs & Hk & _ & _ & _ & Hsame & _)]; [by left|right].
    destruct (heap_inv_kmalloc base Hbase m live size Hinv ltac:(lia))
      as (p & m2 & Hk2 & Hinv2 & Hp).
    rewrite Hk in Hk2. injection Hk2 as <- <-.
    rewrite decide_False in Hinv2 by lia. destruct Hp as [?|Hp]; [lia|].
    eexists _, m1. split; [done|]. split; [done|]. split; [done|].
    by replace (base + fs * PAGE_SIZE + BLOCK_HEADER - BLOCK_HEADER)
      with (base + fs * PAGE_SIZE) by lia.
  - intros m live p size Hinv Hp. pose proof Hinv as [(B & r & Hok & Hlive & _) _].
    destruct (Hlive p size Hp) as (fs & -> & Hfs).
    destruct (heap_inv_kfree base Hbase m live _ size Hinv Hp) as (m' & Hk & Hinv').
    destruct (kfree_cases base Hbase m B r fs _ Hok Hfs) as (m2 & Hk2 & _ & Hsame).
    unfold ptr_of in *. rewrite Hk in Hk2. injection Hk2 as <-. exists m'.
    split; [done|]. split; [done|].
    by replace (base + fs * PAGE_SIZE + BLOCK_HEADER - BLOCK_HEADER)
      with (base + fs * PAGE_SIZE) by lia.
  - intros m [km pt last] live [(B & r & Hok & Hl) Hsz] Hpt Hlast. simpl in Hpt, Hlast. subst.
    split; [|done]. exists B, r. split; [|done]. by apply heap_ok_bytes.
Qed.
End impl.

(** ** The client's side of the interface *)

Section client.
Context (base : Z) (Hbase : 0 < base).
Context {inv : memory → gmap Z Z → Prop} {HS : HeapSpec base inv}.

(** The bytes of the live blocks are the same in both memories. *)
Definition blocks_kept (m m' : memory) (live : gmap Z Z) : Prop :=
  ∀ q sz b, live !! q = Some sz → sz ≤ 2 ^ 32 - 4104 → q ≤ b < q + sz →
    load8 base m' b = load8 base m b.

(** A block that [kmalloc] handed out. *)
Record fresh_block (live : gmap Z Z) (p size : Z) : Prop := {
  fb_low : base + BLOCK_HEADER ≤ p;
  fb_high : p + PAGE_SIZE - BLOCK_HEADER ≤ base + KERNEL_MEMORY_SIZE;
  fb_new : live !! p = None;
  fb_apart : ∀ q sz, live !! q = Some sz → sz ≤ 2 ^ 32 - 4104 →
    p + size ≤ q - BLOCK_HEADER ∨ q + sz ≤ p - BLOCK_HEADER;
}.

Lemma hs_poke m live a v : inv m live → inv (poke base m a v) live.
Proof. intros H. by eapply hs_bytes. Qed.

Lemma blocks_kept_word m m' live q sz a :
  blocks_kept m m' live → live !! q = Some sz → sz ≤ 2 ^ 32 - 4104 →
  q ≤ a → a + 4 ≤ q + sz → word base m' a = word base m a.
Proof. intros H Hq Hs H1 H2. apply word_same. intros b Hb. apply (H q sz); [done|done|lia]. Qed.

Lemma kmalloc_client m live size :
  inv m live → 0 ≤ size ≤ 2 ^ 32 - 4104 →
  kmalloc base m size = Ok (0, m) ∨
  ∃ p m', kmalloc base m size = Ok (p, m') ∧ p ≠ 0 ∧ inv m' (<[p := size]> live) ∧
    fresh_block live p size ∧ blocks_kept m m' live ∧
    (∀ b, p ≤ b → load8 base m' b = load8 base m b).
Proof.
  intros Hinv Hsize. destruct (hs_kmalloc m live size Hinv Hsize)
    as [H|(p & m' & Hk & Hinv' & Hnew & Hsame)]; [by left|right].
  pose proof (hs_range m' _ p size Hinv' (lookup_insert_eq _ _ _)) as [Hlow Hhigh].
  exists p, m'. split; [done|]. split; [lia|]. split; [done|].
  assert (fresh_block live p size) as Hf.
  { split; [done|done|done|]. intros q sz Hq Hsz.
    apply (hs_apart m' (<[p := size]> live)); try done; try lia.
    - apply lookup_insert_eq.
    - rewrite lookup_insert_ne; [done|congruence].
    - congruence. }
  split; [done|]. split.
  - intros q sz b Hq Hsz Hb. apply Hsame. destruct (fb_apart _ _ _ Hf q sz Hq Hsz); lia.
  - intros b Hb. apply Hsame. lia.
Qed.
End client.

(** ** Heaps no page of which was used before

    Concrete states are built from such a heap: it holds the blocks [live], the
    pages from [k] on are free, and every byte but the headers is zero. *)
Record clean_heap (base : Z) (m : memory) (live : gmap Z Z) (k : Z) : Prop := {
  ch_inv : heap_inv base m live;
  ch_roomy : roomy m k;
  ch_blocks : ∀ q sz b, live !! q = Some sz → q ≤ b < q + sz → load8 base m b = Ok 0;
  ch_sizes : ∀ q sz, live !! q = Some sz → sz ≤ 2 ^ 32 - 4104;
  ch_above : ∀ b, ptr_of base k ≤ b < base + KERNEL_MEMORY_SIZE → load8 base m b = Ok 0;
}.

Lemma clean_heap_alloc base m live k size :
  0 < base → clean_heap base m live k → 0 ≤ k → 0 < size ≤ 2 ^ 32 - 4104 →
  k + kmalloc_pages size < NUM_PAGES →
  ∃ m', kmalloc base m size = Ok (ptr_of base k, m') ∧
    clean_heap base m' (<[ptr_of base k := size]> live) (k + kmalloc_pages size).
Proof.
  intros Hb [Hinv Hr Hz Hs Ha] Hk Hsize Hfit.
  pose proof (kmalloc_pages_enough size ltac:(lia)) as Hpages.
  destruct (roomy_kmalloc base Hb m k size Hr) as (m' & Hk' & Hr'); [lia|lia|done|].
  destruct (kmalloc_client base Hb (HS := heap_spec base Hb) m live size Hinv ltac:(lia))
    as [E|(p & m1 & E & _ & Hinv' & _ & Hkept & Habove)].
  { rewrite Hk' in E. injection E as E _. by destruct (ptr_of_nonzero base Hb k Hk). }
  rewrite Hk' in E. injection E as <- <-. exists m'. split; [done|].
  assert (∀ b, ptr_of base k ≤ b < base + KERNEL_MEMORY_SIZE → load8 base m' b = Ok 0) as Hz'.
  { intros b Hb'. rewrite Habove by lia. by apply Ha. }
  split; [done|done| | |].
  - intros q sz b [[<- <-]|[Hne Hq]]%lookup_insert_Some Hbq.
    + apply Hz'. unfold ptr_of in *. lia.
    + rewrite (Hkept q sz b) by eauto. by apply (Hz q sz).
  - intros q sz [[<- <-]|[Hne Hq]]%lookup_insert_Some; [lia|by eapply Hs].
  - intros b Hb'. apply Hz'. unfold ptr_of in *. lia.
Qed.

Lemma clean_heap_word base m live k q sz o :
  clean_heap base m live k → live !! q = Some sz → 0 ≤ o → o + 4 ≤ sz → word base m (q + o) = 0.
Proof.
  intros H Hq Ho Hsz. unfold word, load32.
  by rewrite !(ch_blocks _ _ _ _ H q sz) by (done || lia).
Qed.

Lemma demo_clean : clean_heap demo_base demo_memory ∅ 0.
Proof.
  split; [apply (heap_reach_inv demo_base eq_refl), demo_reach|apply demo_roomy|done|done|].
  intros b Hb. apply demo_load8. unfold ptr_of, demo_base in *. lia.
Qed.

(** [copy_memory] writes only bytes. *)
Lemma copy_memory_heap base m dest src size m' :
  copy_memory base m dest src size = Ok m' →
  m'.(page_table) = m.(page_table) ∧ m'.(last_page_index) = m.(last_page_index).
Proof.
  unfold copy_memory. generalize 0. revert m.
  induction (Z.to_nat size) as [|n IH]; intros m i H.
  - rewrite for_loop_0 in H. by injection H as <-.
  - rewrite for_loop_S in H. apply bind_ok_inv in H as (m1 & H1 & H).
    apply bind_ok_inv in H1 as (v & _ & H1). unfold store8 in H1. case_bool_decide; [|done].
    injection H1 as <-. by destruct (IH _ _ H) as [-> ->].
Qed.
