(* ===== verification/ProcQueue.v ===== *)
(** * Process control blocks and the ready queue ([process/process.[ch]])

    A [PCB] is an object of the kernel heap; a field is the word at its offset
    from the pointer, as the i386 ABI lays the struct out.  A [ProcessQueue] is
    the pair of its two pointers.  [NULL] is 0; an access through it is outside
    [kernel_memory] and therefore an error. *)
From S2P Require Import Prelude Memory.

(** [offsetof(PCB, ...)] and [sizeof(PCB)]. *)
Notation PCB_pid := 0.
Notation PCB_state := 4.
Notation PCB_user_stack_ptr := 8.
Notation PCB_cr3 := 12.
Notation PCB_priority := 16.
Notation PCB_deadline := 20.
Notation PCB_time_to_run := 24.
Notation PCB_next := 28.
Notation PCB_next_in_table := 32.
Notation PCB_parent := 36.
Notation PCB_exit_status := 40.
Notation PCB_is_new_child := 44.
Notation PCB_user_stack_base := 80.
Notation PCB_kernel_stack_base := 84.
Notation PCB_kernel_stack_ptr := 88.
Notation SIZEOF_PCB := 92.

Notation KERNEL_STACK_SIZE := 4096.
Notation STATE_READY := 0.
Notation STATE_RUNNING := 1.
Notation STATE_BLOCKED := 2.
Notation STATE_NEW := 3.
Notation STATE_EXIT := 4.
Notation STATE_ZOMBIE := 5.

Record ProcessQueue := MkQueue { q_front : Z; q_rear : Z }.

(** [void initialize_queue(ProcessQueue* queue)] *)
Definition initialize_queue (q : ProcessQueue) : ProcessQueue := MkQueue 0 0.

(** [bool is_queue_empty(ProcessQueue* queue)] *)
Definition is_queue_empty (q : ProcessQueue) : bool := q.(q_front) =? 0.

Section queue.
Context (base : Z).

(** [process->field] of type [uint32_t] or pointer, and of type [int]. *)
Definition get_field (m : memory) (p field : Z) : res Z := load32 base m (p + field).
Definition get_int (m : memory) (p field : Z) : res Z :=
  v ← get_field m p field; Ok (i32 v).
(** [process->field = v] *)
Definition set_field (m : memory) (p field v : Z) : res memory := store32 base m (p + field) v.

(** One turn of the loop that looks for the place of [process]:
    [current->next && current->next->key <= process->key]. *)
Definition enqueue_step (key : Z) (m : memory) (process current : Z) : res (Z + Z) :=
  next ← get_field m current PCB_next;
  if next =? 0 then Ok (inr current)
  else
    nk ← get_int m next key;
    pk ← get_int m process key;
    if nk <=? pk then Ok (inl next) else Ok (inr current).

(** The body the three [enqueue_process] functions share; they differ in the
    field they compare.  A list of more PCBs than there are pages is a cycle. *)
Definition enqueue_by (key : Z) (m : memory) (q : ProcessQueue) (process : Z)
    : res (memory * ProcessQueue) :=
  m ← set_field m process PCB_next 0;
  if is_queue_empty q then Ok (m, MkQueue process process)
  else
    pk ← get_int m process key;
    fk ← get_int m q.(q_front) key;
    if pk <? fk then
      m ← set_field m process PCB_next q.(q_front);
      Ok (m, MkQueue process q.(q_rear))
    else
      current ← iter (S (Z.to_nat NUM_PAGES)) (enqueue_step key m process) q.(q_front);
      next ← get_field m current PCB_next;
      m ← set_field m process PCB_next next;
      m ← set_field m current PCB_next process;
      next ← get_field m process PCB_next;
      if next =? 0 then Ok (m, MkQueue q.(q_front) process) else Ok (m, q).

(** [void enqueue_process(ProcessQueue* queue, PCB* process)] *)
Definition enqueue_process := enqueue_by PCB_priority.
(** [void enqueue_process_edf(ProcessQueue* queue, PCB* process)] *)
Definition enqueue_process_edf := enqueue_by PCB_deadline.
(** [void enqueue_process_sjf(ProcessQueue* queue, PCB* process)] *)
Definition enqueue_process_sjf := enqueue_by PCB_time_to_run.

(** [PCB* dequeue_process(ProcessQueue* queue)] *)
Definition dequeue_process (m : memory) (q : ProcessQueue) : res (Z * memory * ProcessQueue) :=
  if is_queue_empty q then Ok (0, m, q)
  else
    let process := q.(q_front) in
    front ← get_field m q.(q_front) PCB_next;
    let rear := if front =? 0 then 0 else q.(q_rear) in
    m ← set_field m process PCB_next 0;
    _ ← get_field m process PCB_pid;
    Ok (process, m, MkQueue front rear).
End queue.
