(* ===== verification/QueueSpec.v ===== *)
(** * The ready queue is a stable priority queue

    [queue_rep] relates the linked PCBs to the list of their addresses;
    insertion refines [insert_by], removal takes the head. *)
From S2P Require Import Prelude Memory MemorySpec MemWords ProcQueue.

#[local] Ltac Zify.zify_post_hook ::= Z.to_euclidean_division_equations.

(** ** Stable insertion *)

(** Before the first element whose key is strictly larger. *)
Fixpoint insert_by (key : Z → Z) (p : Z) (l : list Z) : list Z :=
  match l with
  | [] => [p]
  | x :: t => if key x <=? key p then x :: insert_by key p t else p :: l
  end.

Lemma insert_by_split key p l :
  ∃ l1 l2, l = l1 ++ l2 ∧ insert_by key p l = l1 ++ p :: l2 ∧
    Forall (λ x, key x ≤ key p) l1 ∧ (∀ x, head l2 = Some x → key p < key x).
Proof.
  induction l as [|x l IH]; [by exists [], []|]. simpl. destruct (Z.leb_spec (key x) (key p)).
  - destruct IH as (l1 & l2 & -> & -> & H1 & H2). exists (x :: l1), l2.
    split; [done|]. split; [done|]. split; [by constructor|done].
  - exists [], (x :: l). split; [done|]. split; [done|]. split; [done|].
    intros y [= <-]. done.
Qed.

Lemma insert_by_perm key p l : insert_by key p l ≡ₚ p :: l.
Proof.
  destruct (insert_by_split key p l) as (l1 & l2 & -> & -> & _).
  by rewrite Permutation_middle.
Qed.

Lemma insert_by_ext key key' p l :
  (∀ x, x ∈ p :: l → key x = key' x) → insert_by key p l = insert_by key' p l.
Proof.
  induction l as [|x l IH]; intros H; [done|]. simpl.
  rewrite (H x), (H p) by set_solver. rewrite IH; [done|]. intros y Hy. apply H. set_solver.
Qed.

(** Ascending keys. *)
Definition key_sorted (key : Z → Z) (l : list Z) : Prop :=
  ∀ i j x y, (i < j)%nat → l !! i = Some x → l !! j = Some y → key x ≤ key y.

Lemma key_sorted_cons key x l :
  key_sorted key (x :: l) ↔ (∀ y, y ∈ l → key x ≤ key y) ∧ key_sorted key l.
Proof.
  split.
  - intros H. split.
    + intros y [i Hi]%list_elem_of_lookup. by apply (H 0%nat (S i)); [lia| |].
    + intros i j a b Hij Ha Hb. by apply (H (S i) (S j)); [lia| |].
  - intros [Hx H] [|i] [|j] a b Hij Ha Hb; simpl in *; simplify_eq; try lia.
    + apply Hx. by eapply list_elem_of_lookup_2.
    + apply (H i j); [lia|done|done].
Qed.

Lemma insert_by_sorted key p l : key_sorted key l → key_sorted key (insert_by key p l).
Proof.
  induction l as [|x l IH]; intros H.
  { by intros [|i] [|j] a b Hij Ha Hb; simpl in *; simplify_eq; try lia. }
  simpl. destruct (Z.leb_spec (key x) (key p)) as [Hle|Hlt].
  - apply key_sorted_cons in H as [Hx H]. apply key_sorted_cons. split; [|by apply IH].
    intros y Hy. rewrite insert_by_perm in Hy. apply elem_of_cons in Hy as [->|Hy]; [done|].
    by apply Hx.
  - apply key_sorted_cons. split; [|done].
    intros y [->|Hy]%elem_of_cons; [lia|]. apply key_sorted_cons in H as [Hx _].
    specialize (Hx y Hy). lia.
Qed.

Section queue.
Context (base : Z) (Hbase : 0 < base) (Hfit : base + KERNEL_MEMORY_SIZE ≤ 2 ^ 32).

Local Abbreviation word := (word base).
Local Abbreviation poke := (poke base).

(** ** PCBs in memory *)

(** The object at [p] lies in [kernel_memory]. *)
Definition pcb_ok (p : Z) : Prop := base ≤ p ∧ p + SIZEOF_PCB ≤ base + KERNEL_MEMORY_SIZE.

Definition pcbs_ok (l : list Z) : Prop :=
  (∀ p, p ∈ l → pcb_ok p) ∧ NoDup l ∧
  (∀ p q, p ∈ l → q ∈ l → p ≠ q → p + SIZEOF_PCB ≤ q ∨ q + SIZEOF_PCB ≤ p).

Lemma pcbs_ok_perm l l' : l ≡ₚ l' → pcbs_ok l → pcbs_ok l'.
Proof.
  intros HP (H1 & H2 & H3). split; [|split].
  - intros p Hp. apply H1. by rewrite HP.
  - by rewrite <-HP.
  - intros p q Hp Hq. apply H3; by rewrite HP.
Qed.

Lemma pcbs_ok_app l l' : pcbs_ok (l ++ l') → pcbs_ok l ∧ pcbs_ok l'.
Proof.
  clear. intros (H1 & (N1 & _ & N2)%NoDup_app & H3).
  split; (split; [|split; [done|]]); intros p; intros; first [apply H1|apply H3]; set_solver.
Qed.

Lemma pcb_word p o : pcb_ok p → 0 ≤ o ≤ 88 → valid_word base (p + o).
Proof. unfold pcb_ok, valid_word. lia. Qed.

Lemma get_field_ok m p o :
  pcb_ok p → 0 ≤ o ≤ 88 → get_field base m p o = Ok (word m (p + o)).
Proof. intros Hp Ho. by apply load32_valid, pcb_word. Qed.

Lemma get_int_ok m p o :
  pcb_ok p → 0 ≤ o ≤ 88 → get_int base m p o = Ok (i32 (word m (p + o))).
Proof. intros Hp Ho. unfold get_int. by rewrite get_field_ok. Qed.

Lemma set_field_ok m p o v :
  pcb_ok p → 0 ≤ o ≤ 88 → set_field base m p o v = Ok (poke m (p + o) v).
Proof. intros Hp Ho. by apply store32_valid, pcb_word. Qed.

Lemma word_pointer m p o q :
  pcb_ok p → pcb_ok q → 0 ≤ o ≤ 88 → word (poke m (p + o) q) (p + o) = q.
Proof.
  intros Hp Hq Ho. rewrite word_poke_eq by by apply pcb_word.
  apply u32_small. unfold pcb_ok in *. lia.
Qed.

(** Different fields, of one PCB or of two. *)
Lemma fields_apart p q o o' :
  (p = q ∧ (o + 4 ≤ o' ∨ o' + 4 ≤ o)) ∨ (p + SIZEOF_PCB ≤ q ∨ q + SIZEOF_PCB ≤ p) →
  0 ≤ o ≤ 88 → 0 ≤ o' ≤ 88 → apart (p + o) (q + o').
Proof. unfold apart. lia. Qed.

(** ** Frames *)

(** Only the words at [ws] may differ. *)
Definition only_words (m m' : memory) (ws : list Z) : Prop :=
  m'.(page_table) = m.(page_table) ∧ m'.(last_page_index) = m.(last_page_index) ∧
  ∀ b, (∀ w, w ∈ ws → ¬ (w ≤ b < w + 4)) → load8 base m' b = load8 base m b.

Lemma only_words_refl m ws : only_words m m ws.
Proof. done. Qed.

Lemma only_words_poke m a v ws : a ∈ ws → only_words m (poke m a v) ws.
Proof. intros Ha. split; [done|]. split; [done|]. intros b Hb. apply load8_poke_ne. auto. Qed.

Lemma only_words_trans m1 m2 m3 ws :
  only_words m1 m2 ws → only_words m2 m3 ws → only_words m1 m3 ws.
Proof.
  intros (P1 & L1 & H1) (P2 & L2 & H2). split; [congruence|]. split; [congruence|].
  intros b Hb. by rewrite H2, H1.
Qed.

Lemma only_words_mono m m' ws ws' :
  (∀ w, w ∈ ws → w ∈ ws') → only_words m m' ws → only_words m m' ws'.
Proof. intros Hs (P & L & H). split; [done|]. split; [done|]. intros b Hb. auto. Qed.

Lemma only_words_word m m' ws a :
  only_words m m' ws → (∀ w, w ∈ ws → apart w a) → word m' a = word m a.
Proof.
  intros (_ & _ & H) Ha. apply word_same. intros b Hb. apply H. intros w Hw.
  specialize (Ha w Hw). unfold apart in Ha. lia.
Qed.

(** ** Linked lists *)

(** The PCBs of [l] are linked through [field]; the last one holds [e]. *)
Fixpoint links (field : Z) (m : memory) (l : list Z) (e : Z) : Prop :=
  match l with
  | [] => True
  | p :: t => word m (p + field) = default e (head t) ∧ links field m t e
  end.

Lemma links_app f m l1 l2 e :
  links f m (l1 ++ l2) e ↔ links f m l1 (default e (head l2)) ∧ links f m l2 e.
Proof.
  induction l1 as [|p l1 IH]; [simpl; tauto|]. simpl. rewrite IH.
  destruct l1; simpl; tauto.
Qed.

Lemma links_frame f m m' l e :
  (∀ p, p ∈ l → word m' (p + f) = word m (p + f)) → links f m l e → links f m' l e.
Proof.
  induction l as [|p l IH]; [done|]. simpl. intros H [H1 H2]. split.
  - by rewrite H by by left.
  - apply IH; [|done]. intros q Hq. apply H. by right.
Qed.

Record queue_rep (m : memory) (q : ProcessQueue) (l : list Z) : Prop := {
  qr_front : q.(q_front) = default 0 (head l);
  qr_rear : q.(q_rear) = default 0 (last l);
  qr_links : links PCB_next m l 0;
  qr_pcbs : pcbs_ok l;
  qr_length : (length l ≤ Z.to_nat NUM_PAGES)%nat;
}.

Lemma queue_rep_nil m : queue_rep m (MkQueue 0 0) [].
Proof. clear. split; try done; [|simpl; lia]. split; [|split]; [|constructor|]; set_solver. Qed.

Lemma pcb_nonnull p : pcb_ok p → p ≠ 0.
Proof. unfold pcb_ok. lia. Qed.

(** Whether the queue is empty, and its first PCB. *)
Lemma queue_empty m q l : queue_rep m q l → is_queue_empty q = bool_decide (l = []).
Proof.
  intros H. unfold is_queue_empty. rewrite (qr_front _ _ _ H). destruct l as [|p l]; [done|].
  simpl. apply Z.eqb_neq, pcb_nonnull.
  apply (proj1 (qr_pcbs _ _ _ H)). by left.
Qed.

(** The words a queue operation writes. *)
Definition next_words (l : list Z) : list Z := (λ p, p + PCB_next) <$> l.

Lemma next_words_in l p : p ∈ l → p + PCB_next ∈ next_words l.
Proof. intros H. apply list_elem_of_fmap. by exists p. Qed.

(** Distinct fields of PCBs of one list. *)
Lemma pcb_fields_apart l p q o o' :
  pcbs_ok l → p ∈ l → q ∈ l → p ≠ q ∨ o + 4 ≤ o' ∨ o' + 4 ≤ o → 0 ≤ o ≤ 88 → 0 ≤ o' ≤ 88 →
  apart (p + o) (q + o').
Proof.
  intros (_ & _ & Hap) Hp Hq Hne Ho Ho'. apply fields_apart; [|lia|lia].
  destruct (decide (p = q)) as [->|Hpq]; [left; split; [done|lia]|right; by apply Hap].
Qed.

Lemma next_words_other l o :
  pcbs_ok l → 0 ≤ o ≤ 88 → (o + 4 ≤ PCB_next ∨ PCB_next + 4 ≤ o) →
  ∀ w, w ∈ next_words l → ∀ q, q ∈ l → apart w (q + o).
Proof.
  intros Hok Ho Hne w (x & -> & Hx)%list_elem_of_fmap q Hq.
  apply (pcb_fields_apart l); [done..|right; lia|lia|lia].
Qed.

(** The same field of two PCBs. *)
Lemma pcbs_apart l x y o :
  pcbs_ok l → x ∈ l → y ∈ l → x ≠ y → 0 ≤ o ≤ 88 → apart (x + o) (y + o).
Proof. intros (_ & _ & H) Hx Hy Hne Ho. apply fields_apart; [right; auto|lia|lia]. Qed.

(** [p->next = cur->next; cur->next = p] puts [p] behind [cur]. *)
Lemma links_insert m p pre cur l2 :
  pcbs_ok (p :: pre ++ cur :: l2) → links PCB_next m (pre ++ cur :: l2) 0 →
  let m' := poke (poke m (p + PCB_next) (word m (cur + PCB_next))) (cur + PCB_next) p in
  links PCB_next m' (pre ++ cur :: p :: l2) 0 ∧ word m' (p + PCB_next) = default 0 (head l2).
Proof.
  intros Hok Hlinks m'. pose proof Hok as (Hpcb & Hnd & _).
  apply links_app in Hlinks as [Ha [Hn Hb]].
  apply NoDup_cons in Hnd as [Hp Hnd]. apply NoDup_app in Hnd as (_ & Hn1 & Hn2).
  apply NoDup_cons in Hn2 as [Hn2 _].
  assert (cur ∈ p :: pre ++ cur :: l2) as Hcin by (clear; set_solver).
  assert (p ∈ p :: pre ++ cur :: l2) as Hpin by by left.
  assert (p ≠ cur) as Hpc by (intros ->; apply Hp; clear; set_solver).
  assert (word m' (p + PCB_next) = default 0 (head l2)) as Hwp.
  { unfold m'. rewrite word_poke_ne by (eapply pcbs_apart; [exact Hok|done..|lia]).
    rewrite Hn, word_poke_eq by (apply pcb_word; [by apply Hpcb|lia]). apply u32_small.
    destruct l2 as [|y l2]; simpl; [lia|].
    assert (pcb_ok y) as Hy by (apply Hpcb; clear; set_solver). unfold pcb_ok in Hy. lia. }
  assert (∀ x, x ∈ pre ++ l2 → x ≠ cur → word m' (x + PCB_next) = word m (x + PCB_next))
    as Hother.
  { intros x Hx Hxc. assert (x ∈ p :: pre ++ cur :: l2) as Hxin by (clear -Hx; set_solver).
    assert (p ≠ x) by (intros ->; apply Hp; clear -Hx; set_solver).
    unfold m'. rewrite !word_poke_ne; [done|..]; (eapply pcbs_apart; [exact Hok|done..|lia]). }
  split; [|done]. apply links_app. split; [|split; [|split; [done|]]].
  - eapply links_frame; [|exact Ha]. intros x Hx. apply Hother; [clear -Hx; set_solver|].
    intros ->. apply (Hn1 cur Hx). by left.
  - unfold m'. apply word_pointer; [by apply Hpcb|by apply Hpcb|lia].
  - eapply links_frame; [|exact Hb]. intros x Hx. apply Hother; [clear -Hx; set_solver|].
    by intros ->.
Qed.

(** ** Insertion *)

Section enqueue.
Context (key : Z) (Hkey : 0 ≤ key ≤ PCB_time_to_run).

Definition key_of (m : memory) (p : Z) : Z := i32 (word m (p + key)).

(** The loop stops at the last PCB whose key is not larger. *)
Lemma enqueue_walk m p pre cur l1 l2 fuel :
  pcb_ok p → (∀ x, x ∈ cur :: l1 ++ l2 → pcb_ok x) →
  links PCB_next m (pre ++ cur :: l1 ++ l2) 0 →
  Forall (λ x, key_of m x ≤ key_of m p) l1 →
  (∀ x, head l2 = Some x → key_of m p < key_of m x) →
  (length l1 < fuel)%nat →
  iter fuel (enqueue_step base key m p) cur = Ok (default cur (last l1)).
Proof.
  intros Hp. revert pre cur fuel.
  induction l1 as [|x l1 IH]; intros pre cur fuel Hok Hl Hle Hgt Hf;
    (destruct fuel as [|fuel]; [simpl in Hf; lia|]); rewrite iter_S;
    pose proof Hl as [_ [Hn _]]%links_app;
    assert (get_field base m cur PCB_next = Ok (word m (cur + PCB_next))) as Hg
      by (apply get_field_ok; [apply Hok; by left|lia]).
  - assert (enqueue_step base key m p cur = Ok (inr cur)) as ->; [|done].
    unfold enqueue_step. rewrite Hg, bind_ok, Hn.
    destruct l2 as [|y l2]; [done|]. simpl.
    pose proof (Hok y ltac:(set_solver)) as Hy.
    rewrite (proj2 (Z.eqb_neq _ _) (pcb_nonnull y Hy)).
    rewrite !get_int_ok, !bind_ok by (done || lia).
    specialize (Hgt y eq_refl). unfold key_of in Hgt. by rewrite (proj2 (Z.leb_gt _ _) Hgt).
  - apply Forall_cons in Hle as [Hle1 Hle].
    assert (enqueue_step base key m p cur = Ok (inl x)) as ->.
    { unfold enqueue_step. rewrite Hg, bind_ok, Hn. simpl.
      pose proof (Hok x ltac:(set_solver)) as Hx.
      rewrite (proj2 (Z.eqb_neq _ _) (pcb_nonnull x Hx)).
      rewrite !get_int_ok, !bind_ok by (done || lia).
      unfold key_of in Hle1. by rewrite (proj2 (Z.leb_le _ _) Hle1). }
    rewrite bind_ok, (IH (pre ++ [cur]) x);
      [rewrite last_cons; by destruct (last l1)|set_solver|by rewrite <-(assoc_L (++))|done|done|simpl in Hf; lia].
Qed.

(** An urgent PCB is linked in front of the list. *)
Lemma enqueue_front_ok m p f l :
  pcbs_ok (p :: f :: l) → links PCB_next m (f :: l) 0 →
  (length (f :: l) < Z.to_nat NUM_PAGES)%nat →
  set_field base m p PCB_next f = Ok (poke m (p + PCB_next) f) ∧
  queue_rep (poke m (p + PCB_next) f) (MkQueue p (default 0 (last (f :: l)))) (p :: f :: l).
Proof.
  intros Hok Hl Hlen. pose proof Hok as (Hpcb & [Hpl _]%NoDup_cons & Hap).
  split; [apply set_field_ok; [apply Hpcb; by left|lia]|].
  split; [done|done| |done|simpl in *; lia].
  simpl. split; [apply word_pointer; [apply Hpcb; by left|apply Hpcb; by right; left|lia]|].
  apply (links_frame _ m _ (f :: l)); [|done]. intros x Hx.
  apply word_poke_ne, fields_apart; [|lia|lia]. right. apply Hap; set_solver.
Qed.

(** Any other one behind the last PCB that may go first. *)
Lemma enqueue_behind_ok m p f l1 l2 :
  pcbs_ok (p :: f :: l1 ++ l2) → links PCB_next m (f :: l1 ++ l2) 0 →
  Forall (λ x, key_of m x ≤ key_of m p) l1 →
  (∀ x, head l2 = Some x → key_of m p < key_of m x) →
  (length (f :: l1 ++ l2) < Z.to_nat NUM_PAGES)%nat →
  ∃ cur m1 m2, iter (S (Z.to_nat NUM_PAGES)) (enqueue_step base key m p) f = Ok cur ∧
    get_field base m cur PCB_next = Ok (word m (cur + PCB_next)) ∧
    set_field base m p PCB_next (word m (cur + PCB_next)) = Ok m1 ∧
    set_field base m1 cur PCB_next p = Ok m2 ∧
    get_field base m2 p PCB_next = Ok (default 0 (head l2)) ∧
    links PCB_next m2 ((f :: l1) ++ p :: l2) 0 ∧
    only_words m m2 (next_words (p :: f :: l1 ++ l2)).
Proof.
  intros Hok Hlinks Hle Hgt Hlen. pose proof Hok as (Hpcb & _).
  assert (pcb_ok p) as Hp by (apply Hpcb; by left). set (cur := default f (last l1)).
  assert (∃ pre, f :: l1 = pre ++ [cur]) as [pre Epre].
  { subst cur. destruct l1 as [|y l1' _] using rev_ind; [by exists []|].
    rewrite last_snoc. by exists (f :: l1'). }
  assert (f :: l1 ++ l2 = pre ++ cur :: l2) as EL
    by (rewrite app_comm_cons, Epre, <-(assoc_L (++)); done).
  assert (cur ∈ p :: f :: l1 ++ l2) as Hcin by (rewrite EL; clear; set_solver).
  pose proof (Hpcb cur Hcin) as Hcok.
  assert (iter (S (Z.to_nat NUM_PAGES)) (enqueue_step base key m p) f = Ok cur) as Hwalk.
  { apply (enqueue_walk m p [] f l1 l2); try done.
    - intros x Hx. apply Hpcb. by right.
    - simpl in Hlen. rewrite length_app in Hlen. lia. }
  rewrite EL in Hlinks, Hok |- *. destruct (links_insert m p pre cur l2 Hok Hlinks) as [Hl Hn].
  exists cur. eexists _, _. split; [exact Hwalk|]. split; [by apply get_field_ok|].
  split; [by apply set_field_ok|]. split; [by apply set_field_ok|].
  split; [by rewrite get_field_ok, Hn by (done || lia)|].
  split; [by rewrite Epre, <-(assoc_L (++))|].
  eapply only_words_trans; apply only_words_poke; apply next_words_in;
    [by left|clear; set_solver].
Qed.

(** [process->next = NULL] leaves the other PCBs and every key alone. *)
Lemma enqueue_clear_ok m q l p :
  queue_rep m q l → pcbs_ok (p :: l) → let m1 := poke m (p + PCB_next) 0 in
  word m1 (p + PCB_next) = 0 ∧ links PCB_next m1 l 0 ∧
  (∀ x, x ∈ p :: l → key_of m1 x = key_of m x) ∧ only_words m m1 (next_words (p :: l)).
Proof.
  intros Hq Hok m1. pose proof Hok as (Hpcb & [Hpl _]%NoDup_cons & Hap).
  assert (only_words m m1 (next_words (p :: l))) as Hm1 by (apply only_words_poke; set_solver).
  split; [|split; [|split; [|done]]].
  - unfold m1. rewrite word_poke_eq by (apply pcb_word; [apply Hpcb; by left|lia]). done.
  - eapply links_frame; [|apply (qr_links _ _ _ Hq)]. intros x Hx.
    apply word_poke_ne, fields_apart; [|lia|lia]. right. apply Hap; set_solver.
  - intros x Hx. unfold key_of. f_equal. eapply only_words_word; [exact Hm1|].
    intros w Hw. by eapply next_words_other; [|lia|lia|..].
Qed.

(** [rear] moves only when the new PCB is the last. *)
Lemma enqueue_rear m m' q p f l1 l2 :
  queue_rep m q (f :: l1 ++ l2) → pcbs_ok (p :: f :: l1 ++ l2) →
  (length (f :: l1 ++ l2) < Z.to_nat NUM_PAGES)%nat → links PCB_next m' ((f :: l1) ++ p :: l2) 0 →
  only_words m m' (next_words (p :: f :: l1 ++ l2)) →
  ∃ m1 q1, (if default 0 (head l2) =? 0 then Ok (m', MkQueue f p) else Ok (m', q)) = Ok (m1, q1) ∧
    queue_rep m1 q1 (f :: l1 ++ p :: l2) ∧ only_words m m1 (next_words (p :: f :: l1 ++ l2)).
Proof.
  intros Hq Hok Hlen Hl Hm.
  assert (p :: f :: l1 ++ l2 ≡ₚ f :: l1 ++ p :: l2) as Hperm
    by (rewrite !app_comm_cons; apply Permutation_middle).
  assert (pcbs_ok (f :: l1 ++ p :: l2)) as Hok' by (eapply pcbs_ok_perm; [exact Hperm|done]).
  assert (length (f :: l1 ++ p :: l2) ≤ Z.to_nat NUM_PAGES)%nat as Hlen'
    by (rewrite <-Hperm; simpl in *; lia).
  destruct l2 as [|y l2].
  - exists m', (MkQueue f p). split; [done|]. split; [|done].
    split; [done| |done|done|done]. simpl. by rewrite app_comm_cons, last_snoc.
  - assert (pcb_ok y) as Hy by (apply Hok; clear; set_solver). simpl (default 0 _).
    rewrite (proj2 (Z.eqb_neq _ _) (pcb_nonnull y Hy)). exists m', q. split; [done|]. split; [|done].
    split; [apply (qr_front _ _ _ Hq)| |done|done|done].
    rewrite (qr_rear _ _ _ Hq). simpl.
    rewrite !app_comm_cons, !last_app. simpl. by destruct (last (y :: l2)) eqn:?.
Qed.

Lemma enqueue_by_spec m q l p :
  queue_rep m q l → pcbs_ok (p :: l) → (length l < Z.to_nat NUM_PAGES)%nat →
  ∃ m' q', enqueue_by base key m q p = Ok (m', q') ∧
    queue_rep m' q' (insert_by (key_of m) p l) ∧ only_words m m' (next_words (p :: l)).
Proof.
  intros Hq Hok Hlen. pose proof Hok as (Hpcb & _).
  destruct (enqueue_clear_ok m q l p Hq Hok) as (Hp1 & Hl1 & Hk1 & Hm1).
  assert (pcb_ok p) as Hp by (apply Hpcb; by left).
  unfold enqueue_by. rewrite (set_field_ok m p), bind_ok by (done || lia).
  set (m1 := poke m (p + PCB_next) 0) in *.
  rewrite (queue_empty m q l Hq). destruct l as [|f l].
  { exists m1, (MkQueue p p). split; [done|]. split; [|done].
    split; [done|done|by split|done|simpl; lia]. }
  rewrite bool_decide_eq_false_2, (qr_front _ _ _ Hq) by done. simpl (default _ _).
  assert (pcb_ok f) as Hfok by (apply Hpcb; by right; left).
  rewrite (get_int_ok m1 p), bind_ok, (get_int_ok m1 f), bind_ok by (done || lia).
  fold (key_of m1 p) (key_of m1 f). rewrite (Hk1 p), (Hk1 f) by set_solver.
  destruct (Z.ltb_spec (key_of m p) (key_of m f)) as [Hlt|Hge]; simpl (insert_by _ _ _).
  - rewrite (proj2 (Z.leb_gt _ _) Hlt), (qr_rear _ _ _ Hq).
    destruct (enqueue_front_ok m1 p f l Hok Hl1 Hlen) as [-> Hq']. rewrite bind_ok.
    eexists _, _. split; [done|]. split; [done|]. eapply only_words_trans; [exact Hm1|].
    apply only_words_poke; set_solver.
  - rewrite (proj2 (Z.leb_le _ _) Hge).
    destruct (insert_by_split (key_of m) p l) as (l1 & l2 & -> & -> & Hle & Hgt).
    destruct (enqueue_behind_ok m1 p f l1 l2) as (cur & m2 & m3 & -> & Hg & Hs1 & Hs2 & Hn & Hl3 & Hm3);
      [done|done|..|done|].
    { rewrite Forall_forall in Hle |- *. intros x Hx. rewrite !Hk1 by set_solver. by apply Hle. }
    { intros x Hx. rewrite !Hk1; [by apply Hgt| |by left].
      destruct l2 as [|y l2]; [done|]. injection Hx as ->. clear. set_solver. }
    rewrite bind_ok, Hg, bind_ok, Hs1, bind_ok, Hs2, bind_ok, Hn, bind_ok.
    eapply enqueue_rear; [done|done|done|done|]. by eapply only_words_trans.
Qed.
End enqueue.

(** ** Removal *)

Lemma dequeue_spec m q l :
  queue_rep m q l →
  match l with
  | [] => dequeue_process base m q = Ok (0, m, q)
  | p :: t => ∃ m' q', dequeue_process base m q = Ok (p, m', q') ∧ queue_rep m' q' t ∧
      only_words m m' [p + PCB_next]
  end.
Proof.
  intros Hq. unfold dequeue_process. rewrite (queue_empty m q l Hq).
  destruct l as [|p t]; [done|]. rewrite bool_decide_eq_false_2 by done.
  pose proof (qr_pcbs _ _ _ Hq) as (Hpcb & Hnd & Hap).
  pose proof (Hpcb p ltac:(by left)) as Hp. rewrite (qr_front _ _ _ Hq). simpl (default 0 _).
  pose proof (qr_links _ _ _ Hq) as [Hn Hl].
  rewrite get_field_ok, bind_ok, Hn by (done || lia).
  rewrite set_field_ok, bind_ok by (done || lia).
  rewrite get_field_ok, bind_ok by (done || lia).
  eexists _, _. split; [done|]. split; [|apply only_words_poke; by left].
  destruct (pcbs_ok_app [p] t (qr_pcbs _ _ _ Hq)) as [_ Ht].
  pose proof (qr_length _ _ _ Hq) as Hlen. simpl in Hlen.
  split; [done| | |done|lia].
  - simpl. rewrite (qr_rear _ _ _ Hq). destruct t as [|y t]; simpl; [done|].
    pose proof (Hpcb y ltac:(set_solver)) as Hy.
    by rewrite (proj2 (Z.eqb_neq _ _) (pcb_nonnull y Hy)).
  - eapply links_frame; [|exact Hl]. intros x Hx. apply word_poke_ne, fields_apart; [|lia|lia].
    right. apply NoDup_cons in Hnd as [Hnd _]. apply Hap; set_solver.
Qed.
End queue.
