(* ===== verification/QueueProps.v ===== *)
(** * What the ready queue guarantees

    The three [enqueue_process] functions insert stably by the field they
    compare, and a queue that is filled and then emptied gives its processes
    back in the order of a stable sort. *)
From S2P Require Import Prelude Memory MemorySpec MemWords ProcQueue QueueSpec.

(** ** Filling and emptying a queue *)

Section runs.
Context (base : Z).

(** A sequence of calls of one of the [enqueue_process] functions. *)
Fixpoint enqueue_all (key : Z) (m : memory) (q : ProcessQueue) (ps : list Z)
    : res (memory * ProcessQueue) :=
  match ps with
  | [] => Ok (m, q)
  | p :: ps => '(m, q) ← enqueue_by base key m q p; enqueue_all key m q ps
  end.

(** [n] calls of [dequeue_process], with the pointers they return. *)
Fixpoint dequeue_all (n : nat) (m : memory) (q : ProcessQueue)
    : res (list Z * memory * ProcessQueue) :=
  match n with
  | O => Ok ([], m, q)
  | S n =>
      '(p, m, q) ← dequeue_process base m q;
      '(ps, m, q) ← dequeue_all n m q; Ok (p :: ps, m, q)
  end.
End runs.

Lemma key_sorted_ext key key' l :
  (∀ x, x ∈ l → key x = key' x) → key_sorted key l → key_sorted key' l.
Proof.
  intros H Hs i j x y Hij Hx Hy.
  rewrite <-(H x), <-(H y) by by eapply list_elem_of_lookup_2. by eapply Hs.
Qed.

Lemma filter_key_ext (key key' : Z → Z) (l : list Z) k :
  (∀ x, x ∈ l → key x = key' x) →
  filter (λ x, key x = k) l = filter (λ x, key' x = k) l.
Proof.
  induction l as [|x l IH]; intros H; [done|]. rewrite !filter_cons.
  rewrite IH by (intros y Hy; apply H; by right). pose proof (H x ltac:(by left)) as Hx.
  destruct (decide (key x = k)); [rewrite decide_True by congruence|rewrite decide_False by congruence];
    done.
Qed.

Lemma filter_larger (key : Z → Z) (l : list Z) k :
  (∀ y, y ∈ l → k < key y) → filter (λ x, key x = k) l = [].
Proof.
  intros H. apply list_filter_none, Forall_forall. intros x Hx Hk.
  specialize (H x Hx). lia.
Qed.

(** Insertion into a sorted list puts the new element behind its equals. *)
Lemma insert_by_stable key p l k :
  key_sorted key l →
  filter (λ x, key x = k) (insert_by key p l) = filter (λ x, key x = k) (l ++ [p]).
Proof.
  induction l as [|x l IH]; intros Hs; [done|]. pose proof Hs as [Hx Hl]%key_sorted_cons. simpl.
  destruct (Z.leb_spec (key x) (key p)) as [Hle|Hlt].
  - rewrite !filter_cons, IH by done. done.
  - rewrite app_comm_cons, filter_app.
    change (p :: x :: l) with ([p] ++ x :: l). rewrite filter_app.
    destruct (decide (key p = k)) as [<-|Hne].
    + rewrite (filter_larger key (x :: l)); [by rewrite app_nil_r|].
      intros y [->|Hy]%elem_of_cons; [done|]. specialize (Hx y Hy). lia.
    + rewrite (filter_cons_False _ _ []) by done. by rewrite app_nil_r.
Qed.

Section props.
Context (base : Z) (Hbase : 0 < base) (Hfit : base + KERNEL_MEMORY_SIZE ≤ 2 ^ 32).

(** The fields that are compared. *)
Definition queue_key (key : Z) : Prop :=
  key = PCB_priority ∨ key = PCB_deadline ∨ key = PCB_time_to_run.

Lemma key_of_frame key m m' l l' x :
  queue_key key → pcbs_ok base l → (∀ y, y ∈ l' → y ∈ l) → x ∈ l →
  only_words base m m' (next_words l') → key_of base key m' x = key_of base key m x.
Proof.
  intros Hk (_ & _ & Hap) Hsub Hx Hm. unfold key_of. f_equal.
  eapply only_words_word; [exact Hm|]. intros w (y & -> & Hy)%list_elem_of_fmap.
  apply fields_apart; [|lia|destruct Hk as [->|[->| ->]]; lia].
  destruct (decide (y = x)) as [->|Hne].
  - left. split; [done|]. destruct Hk as [->|[->| ->]]; lia.
  - right. apply Hap; auto.
Qed.

(** One insertion, in terms of the keys before it. *)
Lemma enqueue_step_ok key m q l p (all : list Z) :
  queue_key key → queue_rep base m q l → pcbs_ok base all → (∀ x, x ∈ p :: l → x ∈ all) →
  p ∉ l → (length l < Z.to_nat NUM_PAGES)%nat →
  ∃ m' q', enqueue_by base key m q p = Ok (m', q') ∧
    queue_rep base m' q' (insert_by (key_of base key m) p l) ∧
    ∀ x, x ∈ all → key_of base key m' x = key_of base key m x.
Proof.
  intros Hk Hq Hall Hsub Hp Hlen.
  destruct (enqueue_by_spec base Hbase Hfit key) with (m := m) (q := q) (l := l) (p := p)
    as (m' & q' & He & Hq' & Hm); [destruct Hk as [->|[->| ->]]; lia|done| |done|].
  - destruct Hall as (H1 & _ & H3). split; [|split].
    + intros x Hx. by apply H1, Hsub.
    + constructor; [done|]. apply (qr_pcbs _ _ _ _ Hq).
    + intros x y Hx Hy. by apply H3; apply Hsub.
  - exists m', q'. split; [done|]. split; [done|]. intros x Hx.
    by eapply key_of_frame with (l' := p :: l).
Qed.

Lemma enqueue_all_ok key m q l ps :
  queue_key key → queue_rep base m q l → pcbs_ok base (l ++ ps) →
  (length (l ++ ps) ≤ Z.to_nat NUM_PAGES)%nat → key_sorted (key_of base key m) l →
  ∃ m' q' l', enqueue_all base key m q ps = Ok (m', q') ∧ queue_rep base m' q' l' ∧
    l' ≡ₚ l ++ ps ∧ key_sorted (key_of base key m) l' ∧
    (∀ k, filter (λ x, key_of base key m x = k) l' =
          filter (λ x, key_of base key m x = k) (l ++ ps)).
Proof.
  intros Hk. revert m q l. induction ps as [|p ps IH]; intros m q l Hq Hok Hlen Hs.
  { exists m, q, l. rewrite app_nil_r. by split_and!. }
  pose proof Hok as (_ & Hnd & _). rewrite length_app in Hlen. simpl in Hlen.
  destruct (enqueue_step_ok key m q l p (l ++ p :: ps)) as (m1 & q1 & He & Hq1 & Hkeys);
    [done|done|done|clear; set_solver| |lia|].
  { apply NoDup_app in Hnd as (_ & Hn & _). intros Hp. apply (Hn p Hp). by left. }
  assert (insert_by (key_of base key m) p l ++ ps ≡ₚ l ++ p :: ps) as HP.
  { rewrite insert_by_perm. simpl. by rewrite Permutation_middle. }
  assert (∀ x, x ∈ insert_by (key_of base key m) p l → x ∈ l ++ p :: ps) as Hin.
  { intros x. rewrite insert_by_perm. clear. set_solver. }
  destruct (IH m1 q1 (insert_by (key_of base key m) p l))
    as (m2 & q2 & l2 & E2 & Hq2 & HP2 & Hs2 & Hf2);
    [done|by eapply pcbs_ok_perm|rewrite HP, length_app; simpl; lia| |].
  { apply (key_sorted_ext (key_of base key m)); [|by apply insert_by_sorted].
    intros x Hx. symmetry. by apply Hkeys, Hin. }
  assert (∀ x, x ∈ l2 → key_of base key m1 x = key_of base key m x) as Hkeys2.
  { intros x. rewrite HP2, HP. apply Hkeys. }
  exists m2, q2, l2. simpl. rewrite He, bind_ok. split; [done|]. split; [done|].
  split; [by rewrite HP2, HP|]. split; [by eapply key_sorted_ext|].
  intros k. specialize (Hf2 k). rewrite (filter_key_ext _ _ _ k Hkeys2) in Hf2.
  rewrite Hf2, (filter_key_ext _ (key_of base key m)) by (intros x; rewrite HP; apply Hkeys).
  rewrite filter_app, insert_by_stable by done. by rewrite <-filter_app, <-(assoc_L (++)).
Qed.

Lemma dequeue_all_ok m q l :
  queue_rep base m q l →
  ∃ m' q', dequeue_all base (length l) m q = Ok (l, m', q') ∧ queue_rep base m' q' [].
Proof.
  revert m q. induction l as [|p l IH]; intros m q Hq; [by exists m, q|].
  destruct (dequeue_spec base Hbase Hfit m q (p :: l) Hq) as (m1 & q1 & Hd & Hq1 & _).
  destruct (IH m1 q1 Hq1) as (m2 & q2 & H2 & Hq2). exists m2, q2. simpl.
  by rewrite Hd, bind_ok, H2.
Qed.

(** C19: the ready queue is a stable priority queue.  Fill an empty queue with
    distinct PCBs by one of the three [enqueue_process] functions, then empty it
    with [dequeue_process]: every PCB comes out once, with ascending keys, and
    PCBs with equal keys in the order in which they went in; then the queue is
    empty and a further call returns [NULL]. *)
Theorem queue_stable_sort key m q ps :
  queue_key key → pcbs_ok base ps → (length ps ≤ Z.to_nat NUM_PAGES)%nat →
  ∃ m1 q1 l m2 q2,
    enqueue_all base key m (initialize_queue q) ps = Ok (m1, q1) ∧
    dequeue_all base (length ps) m1 q1 = Ok (l, m2, q2) ∧
    l ≡ₚ ps ∧ key_sorted (key_of base key m) l ∧
    (∀ k, filter (λ p, key_of base key m p = k) l = filter (λ p, key_of base key m p = k) ps) ∧
    dequeue_process base m2 q2 = Ok (0, m2, q2).
Proof.
  intros Hk Hok Hlen.
  destruct (enqueue_all_ok key m (initialize_queue q) [] ps Hk (queue_rep_nil base m) Hok Hlen)
    as (m1 & q1 & l & He & Hq1 & HP & Hs & Hf); [by intros [|i]|].
  destruct (dequeue_all_ok m1 q1 l Hq1) as (m2 & q2 & Hd & Hq2).
  exists m1, q1, l, m2, q2. split; [done|]. simpl in HP. rewrite <-HP. split; [done|].
  split; [done|]. split; [done|]. split; [done|].
  apply (dequeue_spec base Hbase Hfit m2 q2 [] Hq2).
Qed.
End props.

(** Three PCBs in a heap at one megabyte, with priorities 2, 1 and 2. *)
Definition demo_pcbs : list Z := [1048584; 1052680; 1056776].
Definition demo_mem : memory :=
  Memory {[24 := 2; 4120 := 1; 8216 := 2]} (replicate (Z.to_nat NUM_PAGES) 0) 0.

Lemma demo_pcbs_ok : pcbs_ok 1048576 demo_pcbs.
Proof.
  unfold demo_pcbs, pcbs_ok, pcb_ok. split; [|split].
  - intros p Hp. repeat (apply elem_of_cons in Hp as [->|Hp]; [lia|]).
    by apply not_elem_of_nil in Hp.
  - apply (bool_decide_unpack _). by vm_compute.
  - intros p q Hp Hq.
    repeat (apply elem_of_cons in Hp as [->|Hp];
      [repeat (apply elem_of_cons in Hq as [->|Hq]; [lia|]); by apply not_elem_of_nil in Hq|]).
    by apply not_elem_of_nil in Hp.
Qed.

Lemma queue_stable_sort_witness :
  let key := key_of 1048576 PCB_priority demo_mem in
  ∃ m1 q1 l m2 q2,
    enqueue_all 1048576 PCB_priority demo_mem (initialize_queue (MkQueue 7 7)) demo_pcbs =
      Ok (m1, q1) ∧
    dequeue_all 1048576 (length demo_pcbs) m1 q1 = Ok (l, m2, q2) ∧
    l ≡ₚ demo_pcbs ∧ key_sorted key l ∧
    (∀ k, filter (λ p, key p = k) l = filter (λ p, key p = k) demo_pcbs) ∧
    dequeue_process 1048576 m2 q2 = Ok (0, m2, q2).
Proof.
  apply (queue_stable_sort 1048576 ltac:(lia) ltac:(lia) PCB_priority demo_mem (MkQueue 7 7)
    demo_pcbs); [by left|apply demo_pcbs_ok|unfold demo_pcbs; simpl; lia].
Defined.

(** The order in which they come out. *)
Example demo_pcbs_order :
  ('(m, q) ← enqueue_all 1048576 PCB_priority demo_mem (MkQueue 0 0) demo_pcbs;
   '(l, _, _) ← dequeue_all 1048576 3 m q; Ok l) = Ok [1052680; 1048584; 1056776].
Proof. vm_compute. reflexivity. Qed.
