(* ===== verification/Process.v ===== *)
(** * Scheduling and system calls ([process/process.c], [process/syscall.c])

    [kstate] holds the globals of the two files and the kernel heap, where the
    PCBs and the stacks live.  A switch of stacks ends the C function: [schedule]
    returns what it does to the machine.  The registers that inline assembly
    reads ([ebp], [esp]) are arguments.  The words that calls and returns push
    on the stacks are not modelled, except for the two that a switch pops. *)
From S2P Require Import Prelude Memory ProcQueue.

Record kstate := MkKstate {
  mem : memory;
  current_process : Z;
  ready_queue : ProcessQueue;
  process_table_head : Z;
  next_pid : Z;
}.

Definition set_mem (m : memory) (s : kstate) : kstate :=
  MkKstate m s.(current_process) s.(ready_queue) s.(process_table_head) s.(next_pid).
Definition set_current (p : Z) (s : kstate) : kstate :=
  MkKstate s.(mem) p s.(ready_queue) s.(process_table_head) s.(next_pid).
Definition set_ready (q : ProcessQueue) (s : kstate) : kstate :=
  MkKstate s.(mem) s.(current_process) q s.(process_table_head) s.(next_pid).
Definition set_table (p : Z) (s : kstate) : kstate :=
  MkKstate s.(mem) s.(current_process) s.(ready_queue) p s.(next_pid).

(** How [schedule] leaves: it enters [cli_loop], or it loads [sp] into [esp],
    pops [ebp] and returns, with [eax] cleared for a new child. *)
Inductive outcome :=
| EnterCli
| Resume (sp : Z) (clear_eax : bool).

(** [uint32_t get_new_pid()] *)
Definition get_new_pid (s : kstate) : Z * kstate :=
  (s.(next_pid), MkKstate s.(mem) s.(current_process) s.(ready_queue)
                   s.(process_table_head) (u32 (s.(next_pid) + 1))).

(** [void init_process_management()] *)
Definition init_process_management (s : kstate) : kstate :=
  set_ready (initialize_queue s.(ready_queue)) s.

(** [PCB* get_current_process(void)] *)
Definition get_current_process (s : kstate) : Z := s.(current_process).

Section process.
Context (base : Z).

(** An assignment to a field of a PCB, in the state. *)
Definition assign (s : kstate) (p field v : Z) : res kstate :=
  m ← set_field base s.(mem) p field v; Ok (set_mem m s).

Definition alloc (s : kstate) (size : Z) : res (Z * kstate) :=
  '(p, m) ← kmalloc base s.(mem) size; Ok (p, set_mem m s).

(** [enqueue_process(&ready_queue, process)] *)
Definition enqueue_ready (s : kstate) (process : Z) : res kstate :=
  '(m, q) ← enqueue_process base s.(mem) s.(ready_queue) process;
  Ok (set_ready q (set_mem m s)).

(** [process->is_new_child] is one byte. *)
Definition get_new_child (s : kstate) (p : Z) : res bool :=
  b ← load8 base s.(mem) (p + PCB_is_new_child); Ok (negb (b =? 0)).
Definition set_new_child (s : kstate) (p : Z) (b : bool) : res kstate :=
  m ← store8 base s.(mem) (p + PCB_is_new_child) (if b then 1 else 0); Ok (set_mem m s).

(** What the instructions after a switch to [sp] find: the popped [ebp] and
    the return address. *)
Definition popped (m : memory) (sp : Z) : res (Z * Z) :=
  ebp ← load32 base m sp; eip ← load32 base m (sp + 4); Ok (ebp, eip).

(** [void allocate_kernel_stack(PCB* process)] *)
Definition allocate_kernel_stack (s : kstate) (process : Z) : res kstate :=
  '(b, s) ← alloc s KERNEL_STACK_SIZE;
  s ← assign s process PCB_kernel_stack_base b;
  b ← get_field base s.(mem) process PCB_kernel_stack_base;
  assign s process PCB_kernel_stack_ptr (u32 (b + KERNEL_STACK_SIZE)).

(** The first statement of [schedule]: a running process goes back into the
    ready queue. *)
Definition requeue_current (s : kstate) : res kstate :=
  let current := s.(current_process) in
  if current =? 0 then Ok s
  else
    st ← get_field base s.(mem) current PCB_state;
    if st =? STATE_RUNNING then
      s ← assign s current PCB_state STATE_READY;
      enqueue_ready s current
    else Ok s.

(** [void schedule(void)]; [esp] is the stack pointer it saves. *)
Definition schedule (s : kstate) (esp : Z) : res (outcome * kstate) :=
  s ← requeue_current s;
  '(next_process, m, q) ← dequeue_process base s.(mem) s.(ready_queue);
  let s := set_ready q (set_mem m s) in
  if next_process =? 0 then Ok (EnterCli, s)
  else
    s ← assign s next_process PCB_state STATE_RUNNING;
    _ ← get_field base s.(mem) next_process PCB_pid;
    s ← (if s.(current_process) =? 0 then Ok s
         else assign s s.(current_process) PCB_kernel_stack_ptr esp);
    is_new_child ← get_new_child s next_process;
    s ← (if is_new_child : bool then set_new_child s next_process false else Ok s);
    let s := set_current next_process s in
    sp ← get_field base s.(mem) next_process PCB_user_stack_ptr;
    Ok (Resume sp is_new_child, s).

(** [PCB* create_process(pid, entry_point, priority, deadline, time_to_run)] *)
Definition create_process (s : kstate) (pid entry_point priority deadline time_to_run : Z)
    : res (Z * kstate) :=
  '(new_process, s) ← alloc s SIZEOF_PCB;
  if new_process =? 0 then Ok (0, s)
  else
    '(stack, s) ← alloc s 4096;
    if stack =? 0 then Ok (0, s)
    else
      let stack_top := u32 (stack + 4096) in
      s ← assign s new_process PCB_pid pid;
      s ← assign s new_process PCB_state STATE_NEW;
      s ← assign s new_process PCB_priority priority;
      s ← assign s new_process PCB_deadline deadline;
      s ← assign s new_process PCB_time_to_run time_to_run;
      s ← assign s new_process PCB_user_stack_base (u32 (stack_top - 4 * 1024));
      let stack_top := u32 (stack_top - 4) in
      m ← store32 base s.(mem) stack_top entry_point;
      let stack_top := u32 (stack_top - 4) in
      m ← store32 base m stack_top 0;
      s ← assign (set_mem m s) new_process PCB_user_stack_ptr stack_top;
      s ← assign s new_process PCB_cr3 0;
      s ← assign s new_process PCB_next 0;
      s ← allocate_kernel_stack s new_process;
      s ← assign s new_process PCB_next_in_table s.(process_table_head);
      let s := set_table new_process s in
      s ← assign s new_process PCB_state STATE_READY;
      s ← enqueue_ready s new_process;
      Ok (new_process, s).

(** One turn of the loop of [find_zombie_child]; the state is [current] and
    [prev], the result the child with the memory and the head of the table
    after it was unlinked. *)
Definition find_zombie_step (m : memory) (head parent : Z) (st : Z * Z)
    : res ((Z * Z) + (Z * memory * Z)) :=
  let '(current, prev) := st in
  if current =? 0 then Ok (inr (0, m, head))
  else
    current_parent ← get_field base m current PCB_parent;
    pid ← get_field base m current_parent PCB_pid;
    parent_pid ← get_field base m parent PCB_pid;
    is_zombie ← (if pid =? parent_pid then
                   st ← get_field base m current PCB_state; Ok (st =? STATE_ZOMBIE)
                 else Ok false);
    next_in_table ← get_field base m current PCB_next_in_table;
    if is_zombie : bool then
      if prev =? 0 then Ok (inr (current, m, next_in_table))
      else m ← set_field base m prev PCB_next_in_table next_in_table;
           Ok (inr (current, m, head))
    else Ok (inl (next_in_table, current)).

(** [static PCB* find_zombie_child(PCB* parent)] *)
Definition find_zombie_child (s : kstate) (parent : Z) : res (Z * kstate) :=
  _ ← get_field base s.(mem) parent PCB_pid;
  '(child, m, head) ← iter (S (S (Z.to_nat NUM_PAGES)))
    (find_zombie_step s.(mem) s.(process_table_head) parent) (s.(process_table_head), 0);
  Ok (child, set_table head (set_mem m s)).

(** The page tables of the child, when the parent has some; [false] when their
    allocation fails. *)
Definition fork_page_tables (s : kstate) (parent child : Z) : res (bool * kstate) :=
  parent_cr3 ← get_field base s.(mem) parent PCB_cr3;
  if parent_cr3 =? 0 then Ok (true, s)
  else
    '(cr3, s) ← alloc s 4096;
    s ← assign s child PCB_cr3 cr3;
    if cr3 =? 0 then Ok (false, s)
    else
      m ← copy_page_tables base s.(mem) parent_cr3 cr3;
      Ok (true, set_mem m s).

(** [fork_syscall] once the child's stack is allocated: the copy of the
    stack and everything after it. *)
Definition fork_copy (s : kstate) (parent child child_stack_base : Z) : res (Z * kstate) :=
  usp ← get_field base s.(mem) parent PCB_user_stack_ptr;
  usb ← get_field base s.(mem) parent PCB_user_stack_base;
  let stack_offset := u32 (usp - usb) in
  m ← copy_memory base s.(mem) child_stack_base usb 4096;
  s ← assign (set_mem m s) child PCB_user_stack_ptr (u32 (child_stack_base + stack_offset));
  '(ok, s) ← fork_page_tables s parent child;
  if negb ok then Ok (-1, s)
  else
    s ← allocate_kernel_stack s child;
    s ← assign s child PCB_state STATE_READY;
    s ← set_new_child s child true;
    s ← assign s child PCB_next_in_table s.(process_table_head);
    let s := set_table child s in
    s ← enqueue_ready s child;
    pid ← get_field base s.(mem) child PCB_pid;
    Ok (i32 pid, s).

(** [int fork_syscall(void)]; [ebp] is its frame pointer. *)
Definition fork_syscall (s : kstate) (ebp : Z) : res (Z * kstate) :=
  let parent := get_current_process s in
  if parent =? 0 then Ok (-1, s)
  else
    s ← assign s parent PCB_user_stack_ptr ebp;
    '(child, s) ← alloc s SIZEOF_PCB;
    if child =? 0 then Ok (-1, s)
    else
      let '(pid, s) := get_new_pid s in
      s ← assign s child PCB_pid pid;
      s ← assign s child PCB_parent parent;
      priority ← get_field base s.(mem) parent PCB_priority;
      s ← assign s child PCB_priority priority;
      '(child_stack_base, s) ← alloc s 4096;
      if child_stack_base =? 0 then Ok (-1, s)
      else fork_copy s parent child child_stack_base.

(** [void yield_syscall(void)]; [esp] is what [schedule] will save. *)
Definition yield_syscall (s : kstate) (ebp esp : Z) : res (option outcome * kstate) :=
  let proc := get_current_process s in
  if proc =? 0 then Ok (None, s)
  else
    _ ← get_field base s.(mem) proc PCB_pid;
    s ← assign s proc PCB_user_stack_ptr ebp;
    _ ← get_field base s.(mem) proc PCB_kernel_stack_ptr;
    '(o, s) ← schedule s esp;
    Ok (Some o, s).

(** The end of [wait_syscall] for a zombie child: its status and pid are
    read and its PCB is freed. *)
Definition reap (s : kstate) (status zombie_child : Z) : res (Z * kstate) :=
  m ← (if status =? 0 then Ok s.(mem)
       else es ← get_field base s.(mem) zombie_child PCB_exit_status;
            store32 base s.(mem) status es);
  child_pid ← get_field base m zombie_child PCB_pid;
  m ← kfree base m zombie_child;
  Ok (i32 child_pid, set_mem m s).

(** What a call of [wait_syscall] comes to: it returns a value, or it blocks
    the caller and switches away. *)
Inductive wait_result :=
| WaitReturns (v : Z)
| WaitBlocks (o : option outcome).

(** [int wait_syscall(int* status)], up to the switch; [ebp] is the frame
    pointer of the [yield_syscall] it calls. *)
Definition wait_syscall (s : kstate) (status ebp esp : Z) : res (wait_result * kstate) :=
  let parent := get_current_process s in
  if parent =? 0 then Ok (WaitReturns (-1), s)
  else
    '(zombie_child, s) ← find_zombie_child s parent;
    if negb (zombie_child =? 0) then
      '(pid, s) ← reap s status zombie_child; Ok (WaitReturns pid, s)
    else
      s ← assign s parent PCB_state STATE_BLOCKED;
      _ ← get_field base s.(mem) parent PCB_pid;
      '(o, s) ← yield_syscall s ebp esp;
      Ok (WaitBlocks o, s).

(** The rest of [wait_syscall], after [parent] was resumed. *)
Definition wait_resumed (s : kstate) (parent status : Z) : res (Z * kstate) :=
  _ ← get_field base s.(mem) parent PCB_pid;
  '(zombie_child, s) ← find_zombie_child s parent;
  if negb (zombie_child =? 0) then reap s status zombie_child else Ok (-1, s).

(** [void exit_syscall(int status)] *)
Definition exit_syscall (s : kstate) (status esp : Z) : res (option outcome * kstate) :=
  let proc := get_current_process s in
  if proc =? 0 then Ok (None, s)
  else
    _ ← get_field base s.(mem) proc PCB_pid;
    s ← assign s proc PCB_exit_status status;
    s ← assign s proc PCB_state STATE_ZOMBIE;
    parent ← get_field base s.(mem) proc PCB_parent;
    wake ← (if parent =? 0 then Ok false
            else st ← get_field base s.(mem) parent PCB_state; Ok (st =? STATE_BLOCKED));
    s ← (if wake : bool then
           s ← assign s parent PCB_state STATE_READY; enqueue_ready s parent
         else Ok s);
    '(o, s) ← schedule s esp;
    Ok (Some o, s).
End process.
