(* ===== verification/SchedSpec.v ===== *)
(** * What [schedule] does

    [sched_ok] is the shape of the scheduler's data between two operations:
    a well-formed ready queue that does not hold the current process.
    [schedule_spec] describes a whole call of [schedule]. *)
From S2P Require Import Prelude Memory MemorySpec MemWords ProcQueue QueueSpec QueueProps Process.

Section sched.
Context (base : Z) (Hbase : 0 < base) (Hfit : base + KERNEL_MEMORY_SIZE ≤ 2 ^ 32).

Local Abbreviation word := (word base).
Local Abbreviation poke := (poke base).

(** ** Assignments *)

Lemma assign_ok s p o v :
  pcb_ok base p → 0 ≤ o ≤ 88 → assign base s p o v = Ok (set_mem (poke s.(mem) (p + o) v) s).
Proof. intros Hp Ho. unfold assign. by rewrite set_field_ok. Qed.

(** Whether the byte [is_new_child] is set. *)
Definition new_child (m : memory) (p : Z) : bool :=
  match load8 base m (p + PCB_is_new_child) with Ok b => negb (b =? 0) | Err _ => false end.

Lemma get_new_child_ok s p :
  pcb_ok base p → get_new_child base s p = Ok (new_child s.(mem) p).
Proof. intros [? ?]. unfold get_new_child, new_child. by rewrite load8_ok by lia. Qed.

Definition poke8 (m : memory) (a v : Z) : memory := set_kernel_memory <[a - base := u8 v]> m.

Lemma set_new_child_ok s p b :
  pcb_ok base p → set_new_child base s p b =
    Ok (set_mem (poke8 s.(mem) (p + PCB_is_new_child) (if b then 1 else 0)) s).
Proof. intros [? ?]. unfold set_new_child. by rewrite store8_ok by lia. Qed.

Lemma new_child_poke8 m p b :
  pcb_ok base p → new_child (poke8 m (p + PCB_is_new_child) (if b : bool then 1 else 0)) p = b.
Proof.
  intros [? ?]. unfold new_child, poke8, set_kernel_memory. rewrite load8_ok by lia.
  cbn [kernel_memory]. rewrite lookup_insert_eq. by destruct b.
Qed.

Lemma only_words_poke8 m a v ws : a ∈ ws → only_words base m (poke8 m a v) ws.
Proof.
  intros Ha. split; [done|]. split; [done|]. intros b Hb. specialize (Hb a Ha).
  unfold load8, poke8, set_kernel_memory. cbn [kernel_memory].
  case_bool_decide; [|done]. by rewrite lookup_insert_ne by lia.
Qed.

(** ** Frames *)

(** Some fields of some PCBs: those that scheduling may change, and those
    that a change of the ready queue may change. *)
Definition sched_fields : list Z :=
  [PCB_state; PCB_next; PCB_is_new_child; PCB_kernel_stack_ptr].
Definition queue_fields : list Z := [PCB_state; PCB_next].
Definition field_words (fs l : list Z) : list Z := l ≫= λ p, (λ o, p + o) <$> fs.

Lemma field_words_in fs l p o : p ∈ l → o ∈ fs → p + o ∈ field_words fs l.
Proof.
  intros Hp Ho. apply list_elem_of_bind. exists p. split; [|done].
  by apply (list_elem_of_fmap_2 (λ o, p + o)).
Qed.

Lemma field_words_inv fs l w : w ∈ field_words fs l → ∃ p o, p ∈ l ∧ o ∈ fs ∧ w = p + o.
Proof.
  intros (p & Hw & Hp)%list_elem_of_bind. apply list_elem_of_fmap in Hw as (o & -> & Ho). eauto.
Qed.

Lemma field_words_mono fs fs' l l' w :
  (∀ o, o ∈ fs → o ∈ fs') → (∀ p, p ∈ l → p ∈ l') → w ∈ field_words fs l → w ∈ field_words fs' l'.
Proof. intros H1 H2 (p & o & Hp & Ho & ->)%field_words_inv. apply field_words_in; auto. Qed.

Lemma sched_fields_range o : o ∈ sched_fields → 4 ≤ o ≤ 88.
Proof. intros Ho. repeat (apply elem_of_cons in Ho as [->|Ho]; [lia|]). by apply not_elem_of_nil in Ho. Qed.

Lemma queue_sched_fields o : o ∈ queue_fields → o ∈ sched_fields.
Proof. clear. unfold queue_fields, sched_fields. set_solver. Qed.

Lemma next_words_queue l w : w ∈ next_words l → w ∈ field_words queue_fields l.
Proof.
  clear. intros (p & -> & Hp)%list_elem_of_fmap. apply field_words_in; [done|].
  unfold queue_fields. set_solver.
Qed.

(** Queue operations leave the other fields of a PCB alone. *)
Lemma queue_words_apart l p w b :
  pcbs_ok base l → p ∈ l → w ∈ field_words queue_fields l →
  p + PCB_next_in_table ≤ b < p + SIZEOF_PCB → ¬ (w ≤ b < w + 4).
Proof.
  intros (_ & _ & Hap) Hp (q & o & Hq & Ho & ->)%field_words_inv Hb.
  assert (o ≤ 28 ∧ 0 ≤ o).
  { repeat (apply elem_of_cons in Ho as [->|Ho]; [lia|]). by apply not_elem_of_nil in Ho. }
  destruct (decide (q = p)) as [->|Hne]; [lia|]. destruct (Hap q p Hq Hp Hne); lia.
Qed.

(** A field that scheduling does not change. *)
Definition other_field (o : Z) : Prop :=
  0 ≤ o ≤ 88 ∧ ∀ o', o' ∈ sched_fields → o + 4 ≤ o' ∨ o' + 4 ≤ o.

Lemma other_field_kept m m' l p o :
  pcbs_ok base l → p ∈ l → other_field o → only_words base m m' (field_words sched_fields l) →
  word m' (p + o) = word m (p + o).
Proof.
  intros Hok Hp [Ho Hne] Hm. eapply only_words_word; [exact Hm|].
  intros w (q & o' & Hq & Ho' & ->)%field_words_inv.
  pose proof (sched_fields_range _ Ho'). destruct (Hne o' Ho');
    (apply (pcb_fields_apart base l); [done..|right; lia|lia|lia]).
Qed.

Lemma other_fields :
  other_field PCB_pid ∧ other_field PCB_user_stack_ptr ∧ other_field PCB_priority ∧
  other_field PCB_next_in_table ∧ other_field PCB_parent ∧ other_field PCB_exit_status ∧
  other_field PCB_user_stack_base.
Proof.
  split_and!; (split; [lia|]); intros o Ho;
    repeat (apply elem_of_cons in Ho as [->|Ho]; [lia|]); by apply not_elem_of_nil in Ho.
Qed.

(** One word of a PCB after a store into another. *)
Lemma poke_other m l p q o o' v :
  pcbs_ok base l → p ∈ l → q ∈ l → 0 ≤ o ≤ 88 → 0 ≤ o' ≤ 88 →
  p ≠ q ∨ o + 4 ≤ o' ∨ o' + 4 ≤ o → word (poke m (p + o) v) (q + o') = word m (q + o').
Proof.
  intros Hok Hp Hq Ho Ho' Hne. by apply word_poke_ne, (pcb_fields_apart base l).
Qed.

Lemma poke8_other m l p q o v :
  pcbs_ok base l → p ∈ l → q ∈ l → 0 ≤ o ≤ 88 →
  PCB_is_new_child + 1 ≤ o ∨ o + 4 ≤ PCB_is_new_child →
  word (poke8 m (p + PCB_is_new_child) v) (q + o) = word m (q + o).
Proof.
  intros (_ & _ & Hap) Hp Hq Ho Hne. apply word_same. intros b Hb.
  unfold load8, poke8, set_kernel_memory. cbn [kernel_memory].
  case_bool_decide; [|done]. rewrite lookup_insert_ne; [done|].
  destruct (decide (p = q)) as [->|Hpq]; [lia|]. destruct (Hap p q Hp Hq Hpq); lia.
Qed.

(** [is_new_child] after a store into another field. *)
Lemma new_child_poke m l p q o v :
  pcbs_ok base l → p ∈ l → q ∈ l → 0 ≤ o ≤ 88 →
  p ≠ q ∨ o + 4 ≤ PCB_is_new_child ∨ PCB_is_new_child < o →
  new_child (poke m (p + o) v) q = new_child m q.
Proof.
  intros (_ & _ & Hap) Hp Hq Ho Hne. unfold new_child. rewrite load8_poke_ne; [done|].
  destruct (decide (p = q)) as [->|Hpq]; [lia|]. destruct (Hap p q Hp Hq Hpq); lia.
Qed.

Lemma queue_rep_frame m m' q l :
  queue_rep base m q l → (∀ p, p ∈ l → word m' (p + PCB_next) = word m (p + PCB_next)) →
  queue_rep base m' q l.
Proof. intros [] H. split; try done. by eapply links_frame. Qed.

(** ** The state between two operations *)

Record sched_ok (s : kstate) (l : list Z) : Prop := {
  so_queue : queue_rep base s.(mem) s.(ready_queue) l;
  so_current : s.(current_process) = 0 ∨ pcbs_ok base (s.(current_process) :: l);
  so_length : (length l < Z.to_nat NUM_PAGES)%nat;
}.

(** The current process is in the state [RUNNING]. *)
Definition running (s : kstate) : bool :=
  negb (s.(current_process) =? 0) &&
  (word s.(mem) (s.(current_process) + PCB_state) =? STATE_RUNNING).

Definition priority_of (s : kstate) (p : Z) : Z := key_of base PCB_priority s.(mem) p.

(** The ready queue once the running process is back in it. *)
Definition candidates (s : kstate) (l : list Z) : list Z :=
  if running s then insert_by (priority_of s) s.(current_process) l else l.

(** The PCBs a call of [schedule] may touch. *)
Definition sched_pcbs (s : kstate) (l : list Z) : list Z :=
  if s.(current_process) =? 0 then l else s.(current_process) :: l.

Lemma sched_pcbs_ok s l : sched_ok s l → pcbs_ok base (sched_pcbs s l).
Proof.
  intros [Hq [Hc|Hc] _]; unfold sched_pcbs.
  - rewrite Hc. apply (qr_pcbs _ _ _ _ Hq).
  - destruct (Z.eqb_spec s.(current_process) 0); [apply (qr_pcbs _ _ _ _ Hq)|done].
Qed.

Lemma candidates_in s l p : p ∈ candidates s l → p ∈ sched_pcbs s l.
Proof.
  unfold candidates, running, sched_pcbs. destruct (s.(current_process) =? 0); [done|]. simpl.
  case_match; [by rewrite insert_by_perm|by right].
Qed.

Lemma candidates_ok s l : sched_ok s l → pcbs_ok base (candidates s l).
Proof.
  intros H. pose proof (sched_pcbs_ok s l H) as Hok.
  unfold candidates, running, sched_pcbs in *.
  destruct (Z.eqb_spec s.(current_process) 0); simpl; [done|]. case_match.
  - eapply pcbs_ok_perm; [symmetry; apply insert_by_perm|done].
  - apply (qr_pcbs _ _ _ _ (so_queue _ _ H)).
Qed.

Lemma requeue_spec s l :
  sched_ok s l →
  ∃ m1 q1, requeue_current base s = Ok (set_ready q1 (set_mem m1 s)) ∧
    queue_rep base m1 q1 (candidates s l) ∧
    only_words base s.(mem) m1 (field_words queue_fields (sched_pcbs s l)) ∧
    (running s = true → word m1 (s.(current_process) + PCB_state) = STATE_READY) ∧
    (running s = false → m1 = s.(mem) ∧ q1 = s.(ready_queue)).
Proof.
  intros Hs. pose proof (sched_pcbs_ok s l Hs) as Hall. destruct Hs as [Hq Hc Hlen].
  unfold requeue_current, candidates, running, sched_pcbs in *.
  set (c := s.(current_process)) in *.
  destruct (Z.eqb_spec c 0) as [E|Hc0]; cbn [negb andb].
  { exists s.(mem), s.(ready_queue). split; [by destruct s|]. by split_and!. }
  pose proof Hall as (Hpcb & Hnd & _). pose proof (Hpcb c ltac:(by left)) as Hcok.
  apply NoDup_cons in Hnd as [Hcl _].
  rewrite get_field_ok, bind_ok by (done || lia).
  destruct (word (mem s) (c + PCB_state) =? STATE_RUNNING).
  2:{ exists s.(mem), s.(ready_queue). split; [by destruct s|]. by split_and!. }
  rewrite assign_ok, bind_ok by (done || lia). unfold enqueue_ready.
  set (m0 := poke (mem s) (c + PCB_state) STATE_READY). simpl mem. simpl ready_queue.
  assert (only_words base s.(mem) m0 (field_words queue_fields (c :: l))) as Hm0.
  { apply only_words_poke, field_words_in; [by left|unfold queue_fields; by left]. }
  assert (queue_rep base m0 s.(ready_queue) l) as Hq0.
  { eapply queue_rep_frame; [exact Hq|]. intros p Hp.
    apply (poke_other _ (c :: l)); [done|by left|by right|lia|lia|].
    left. intros ->. done. }
  destruct (enqueue_by_spec base Hbase Hfit PCB_priority ltac:(lia) m0 s.(ready_queue) l c
    Hq0 Hall Hlen) as (m1 & q1 & He & Hq1 & Hm1).
  unfold enqueue_process. rewrite He, bind_ok. exists m1, q1. split; [done|].
  split; [|split; [|split; [|done]]].
  - erewrite insert_by_ext; [exact Hq1|]. intros x Hx. unfold priority_of, key_of. f_equal.
    symmetry. apply (poke_other _ (c :: l)); [done|by left|done|lia|lia|right; lia].
  - eapply only_words_trans; [exact Hm0|]. eapply only_words_mono; [|exact Hm1].
    intros w. apply next_words_queue.
  - intros _. transitivity (word m0 (c + PCB_state)).
    + eapply only_words_word; [exact Hm1|]. intros w Hw.
      eapply next_words_other; [exact Hall|lia|lia|done|by left].
    + unfold m0. by rewrite word_poke_eq by (apply pcb_word; [done|lia]).
Qed.

(** ** A whole call *)

(** What [schedule] leaves behind when it switches to [n], the rest of the
    queue being [t]. *)
Record switched (s s' : kstate) (l : list Z) (n : Z) (t : list Z) : Prop := {
  sw_current : s'.(current_process) = n;
  sw_ok : sched_ok s' t;
  sw_table : s'.(process_table_head) = s.(process_table_head);
  sw_pid : s'.(next_pid) = s.(next_pid);
  sw_running : word s'.(mem) (n + PCB_state) = STATE_RUNNING;
  sw_ready : running s = true → s.(current_process) ≠ n →
    word s'.(mem) (s.(current_process) + PCB_state) = STATE_READY;
  sw_states : running s = false → ∀ x, x ∈ sched_pcbs s l → x ≠ n →
    word s'.(mem) (x + PCB_state) = word s.(mem) (x + PCB_state);
  sw_new_child : new_child s'.(mem) n = false;
  sw_frame : only_words base s.(mem) s'.(mem) (field_words sched_fields (sched_pcbs s l));
}.

Lemma pcbs_ok_tail n t : pcbs_ok base (n :: t) → pcbs_ok base t.
Proof. intros H. by apply (pcbs_ok_app base [n] t). Qed.

Lemma new_child_frame m m' l p :
  pcbs_ok base l → p ∈ l → only_words base m m' (field_words queue_fields l) →
  new_child m' p = new_child m p.
Proof.
  intros Hl Hp (_ & _ & Hm). unfold new_child. rewrite Hm; [done|].
  intros w Hw. eapply queue_words_apart; [done..|]. lia.
Qed.

(** The stores of [schedule] for the chosen process [n]. *)
Definition dispatch_saved (s : kstate) (n esp : Z) : memory :=
  let m := poke s.(mem) (n + PCB_state) STATE_RUNNING in
  if s.(current_process) =? 0 then m
  else poke m (s.(current_process) + PCB_kernel_stack_ptr) esp.
Definition dispatch_memory (s : kstate) (n esp : Z) : memory :=
  let m := dispatch_saved s n esp in
  if new_child s.(mem) n then poke8 m (n + PCB_is_new_child) 0 else m.

Section dispatch.
Context (s : kstate) (all : list Z) (n esp : Z) (Hall : pcbs_ok base all) (Hn : n ∈ all).
Context (Hc : s.(current_process) = 0 ∨ s.(current_process) ∈ all).

Lemma dispatch_saved_word x o :
  x ∈ all → 0 ≤ o ≤ 84 →
  word (dispatch_saved s n esp) (x + o) =
  word (poke s.(mem) (n + PCB_state) STATE_RUNNING) (x + o).
Proof.
  intros Hx Ho. unfold dispatch_saved. destruct (Z.eqb_spec s.(current_process) 0); [done|].
  destruct Hc as [?|Hin]; [done|]. apply (poke_other _ all); [done..|lia|lia|lia].
Qed.

Lemma dispatch_saved_new_child : new_child (dispatch_saved s n esp) n = new_child s.(mem) n.
Proof.
  unfold dispatch_saved.
  assert (new_child (poke s.(mem) (n + PCB_state) STATE_RUNNING) n = new_child s.(mem) n) as E
    by (apply (new_child_poke _ all); [done..|lia|lia]).
  destruct (Z.eqb_spec s.(current_process) 0); [done|]. destruct Hc as [?|Hin]; [done|].
  rewrite (new_child_poke _ all); [done..|lia|lia].
Qed.

Lemma dispatch_word x o :
  x ∈ all → 0 ≤ o ≤ 40 →
  word (dispatch_memory s n esp) (x + o) =
  if decide (x = n ∧ o < 8) then word (poke s.(mem) (n + PCB_state) STATE_RUNNING) (x + o)
  else word s.(mem) (x + o).
Proof.
  intros Hx Ho.
  transitivity (word (poke s.(mem) (n + PCB_state) STATE_RUNNING) (x + o)).
  - rewrite <-dispatch_saved_word by (done || lia). unfold dispatch_memory.
    destruct (new_child _ _); [|done]. apply (poke8_other _ all); [done..|lia|lia].
  - case_decide as H; [done|]. apply (poke_other _ all); [done..|lia|lia|].
    destruct (decide (x = n)) as [->|?]; [right; lia|left; congruence].
Qed.

Lemma dispatch_new_child : new_child (dispatch_memory s n esp) n = false.
Proof.
  unfold dispatch_memory. destruct (new_child s.(mem) n) eqn:E.
  - apply (new_child_poke8 _ n false). by apply Hall.
  - by rewrite dispatch_saved_new_child.
Qed.

Lemma dispatch_frame :
  only_words base s.(mem) (dispatch_memory s n esp) (field_words sched_fields all).
Proof.
  assert (∀ x o, x ∈ all → o ∈ sched_fields → x + o ∈ field_words sched_fields all) as Hin
    by (intros; by apply field_words_in).
  assert (only_words base s.(mem) (dispatch_saved s n esp) (field_words sched_fields all)) as H.
  { eapply only_words_trans; [apply only_words_poke, (Hin n PCB_state); [done|by left]|].
    unfold dispatch_saved. destruct (Z.eqb_spec s.(current_process) 0); [done|].
    destruct Hc as [?|?]; [done|].
    apply only_words_poke, Hin; [done|unfold sched_fields; set_solver]. }
  eapply only_words_trans; [exact H|]. unfold dispatch_memory. destruct (new_child _ _); [|done].
  apply only_words_poke8, Hin; [done|unfold sched_fields; set_solver].
Qed.

(** The assignments of [schedule] to the chosen process. *)
Lemma dispatch_eval :
  (s ← assign base s n PCB_state STATE_RUNNING;
   _ ← get_field base s.(mem) n PCB_pid;
   s ← (if s.(current_process) =? 0 then Ok s
        else assign base s s.(current_process) PCB_kernel_stack_ptr esp);
   is_new_child ← get_new_child base s n;
   s ← (if is_new_child : bool then set_new_child base s n false else Ok s);
   let s := set_current n s in
   sp ← get_field base s.(mem) n PCB_user_stack_ptr;
   Ok (Resume sp is_new_child, s)) =
  Ok (Resume (word s.(mem) (n + PCB_user_stack_ptr)) (new_child s.(mem) n),
      set_current n (set_mem (dispatch_memory s n esp) s)).
Proof.
  pose proof (proj1 Hall n Hn) as Hnok. set (c := s.(current_process)) in *.
  rewrite assign_ok, bind_ok by (done || lia). set (m1 := poke (mem s) _ _).
  rewrite get_field_ok, bind_ok by (done || lia). cbn [current_process set_mem]. fold c.
  assert ((if c =? 0 then Ok (set_mem m1 s)
           else assign base (set_mem m1 s) c PCB_kernel_stack_ptr esp) =
    Ok (set_mem (dispatch_saved s n esp) s)) as ->.
  { unfold dispatch_saved. fold c m1. destruct (Z.eqb_spec c 0); [done|].
    destruct Hc as [?|Hin]; [done|].
    by rewrite assign_ok by (apply Hall || lia; done). }
  rewrite bind_ok, get_new_child_ok, bind_ok by done. cbn [mem set_mem].
  rewrite dispatch_saved_new_child.
  assert ((if new_child (mem s) n then set_new_child base (set_mem (dispatch_saved s n esp) s) n false
           else Ok (set_mem (dispatch_saved s n esp) s)) =
    Ok (set_mem (dispatch_memory s n esp) s)) as ->.
  { unfold dispatch_memory. destruct (new_child _ _); [|done]. by rewrite set_new_child_ok. }
  rewrite bind_ok. cbn [mem set_mem set_current].
  rewrite get_field_ok, bind_ok, dispatch_word, decide_False by (done || lia). done.
Qed.
End dispatch.

(** The first half of [schedule]: the running process is put back and the
    first candidate is taken. *)
Lemma take_first_spec s l :
  sched_ok s l →
  ∃ m1 q1, requeue_current base s = Ok (set_ready q1 (set_mem m1 s)) ∧
  match candidates s l with
  | [] => dequeue_process base m1 q1 = Ok (0, m1, q1) ∧ m1 = s.(mem) ∧ q1 = s.(ready_queue)
  | n :: t => ∃ m2 q2, dequeue_process base m1 q1 = Ok (n, m2, q2) ∧ queue_rep base m2 q2 t ∧
      only_words base s.(mem) m2 (field_words queue_fields (sched_pcbs s l)) ∧
      (running s = true → word m2 (s.(current_process) + PCB_state) = STATE_READY) ∧
      (running s = false → ∀ x, x ∈ sched_pcbs s l →
         word m2 (x + PCB_state) = word s.(mem) (x + PCB_state))
  end.
Proof.
  intros Hs. pose proof (sched_pcbs_ok s l Hs) as Hall.
  destruct (requeue_spec s l Hs) as (m1 & q1 & Hr & Hq1 & Hm1 & Hready & Hsame).
  exists m1, q1. split; [done|].
  pose proof (dequeue_spec base Hbase Hfit m1 q1 _ Hq1) as Hd.
  pose proof (candidates_in s l) as Hin.
  destruct (candidates s l) as [|n t] eqn:Ec.
  { split; [done|]. apply Hsame. unfold candidates in Ec. destruct (running s); [|done].
    pose proof (insert_by_perm (priority_of s) s.(current_process) l) as HP.
    rewrite Ec in HP. by apply Permutation_nil_cons in HP. }
  destruct Hd as (m2 & q2 & Hd & Hq2 & Hm2). exists m2, q2. split; [done|]. split; [done|].
  assert (only_words base m1 m2 (next_words (sched_pcbs s l))) as Hm2'.
  { eapply only_words_mono; [|exact Hm2]. intros w ->%list_elem_of_singleton.
    apply next_words_in, Hin. by left. }
  assert (∀ x, x ∈ sched_pcbs s l → word m2 (x + PCB_state) = word m1 (x + PCB_state)) as Hst.
  { intros x Hx. eapply only_words_word; [exact Hm2|]. intros w ->%list_elem_of_singleton.
    apply (pcb_fields_apart base _ _ _ _ _ Hall); [apply Hin; by left|done|right; lia|lia|lia]. }
  split; [|split].
  - eapply only_words_trans; [exact Hm1|]. eapply only_words_mono; [|exact Hm2'].
    intros w. apply next_words_queue.
  - intros Hrun. rewrite Hst; [by apply Hready|]. unfold running in Hrun. unfold sched_pcbs.
    destruct (s.(current_process) =? 0); [done|by left].
  - intros Hrun x Hx. rewrite Hst by done. by destruct (Hsame Hrun) as [-> _].
Qed.

(** A switch to [n] takes it out of at most as many candidates as there are
    pages. *)
Lemma candidates_length s l n t :
  sched_ok s l → candidates s l = n :: t → (length t < Z.to_nat NUM_PAGES)%nat.
Proof.
  intros Hs Ec. pose proof (candidates_ok s l Hs) as (_ & Hnd & _).
  assert (length (n :: t) ≤ length (sched_pcbs s l))%nat as Hle.
  { rewrite <-Ec. apply submseteq_length, NoDup_submseteq; [done|]. apply candidates_in. }
  pose proof (so_length _ _ Hs). unfold sched_pcbs in Hle.
  destruct (current_process s =? 0); simpl in Hle; lia.
Qed.

Lemma schedule_cases s l esp :
  sched_ok s l →
  match candidates s l with
  | [] => schedule base s esp = Ok (EnterCli, s)
  | n :: t => ∃ s', schedule base s esp =
      Ok (Resume (word s.(mem) (n + PCB_user_stack_ptr)) (new_child s.(mem) n), s') ∧
      switched s s' l n t
  end.
Proof.
  intros Hs. pose proof (sched_pcbs_ok s l Hs) as Hall. pose proof (candidates_ok s l Hs) as Hcok.
  pose proof (candidates_in s l) as Hin. pose proof (candidates_length s l) as Hlen.
  destruct (take_first_spec s l Hs) as (m1 & q1 & Hr & Hd).
  unfold schedule. rewrite Hr, bind_ok. cbn [mem ready_queue set_ready set_mem].
  destruct (candidates s l) as [|n t].
  { destruct Hd as (Hd & -> & ->). rewrite Hd, bind_ok. simpl. by destruct s. }
  destruct Hd as (m2 & q2 & -> & Hq2 & Hm & Hready & Hsame). rewrite bind_ok.
  pose proof (proj1 Hcok n ltac:(by left)) as Hnok. pose proof (Hin n ltac:(by left)) as Hn.
  rewrite (proj2 (Z.eqb_neq _ _) (pcb_nonnull base Hbase n Hnok)).
  set (s2 := set_ready q2 (set_mem m2 (set_ready q1 (set_mem m1 s)))).
  assert (only_words base s.(mem) m2 (field_words sched_fields (sched_pcbs s l))) as Hms.
  { eapply only_words_mono; [|exact Hm]. intros w. apply field_words_mono; [|done].
    apply queue_sched_fields. }
  assert (s2.(current_process) = 0 ∨ s2.(current_process) ∈ sched_pcbs s l) as Hc.
  { unfold sched_pcbs. simpl. destruct (Z.eqb_spec s.(current_process) 0); [by left|].
    right. by left. }
  pose proof (dispatch_eval s2 (sched_pcbs s l) n esp Hall Hn Hc) as Heq.
  change (mem s2) with m2 in Heq. rewrite (other_field_kept s.(mem) m2 _ n PCB_user_stack_ptr Hall Hn
    ltac:(apply other_fields) Hms), (new_child_frame s.(mem) m2 _ n Hall Hn Hm) in Heq.
  pose proof (dispatch_word s2 (sched_pcbs s l) n esp Hall Hn Hc) as Hw.
  eexists. split; [exact Heq|].
  split; cbn [mem set_mem set_ready set_current s2 current_process ready_queue
    process_table_head next_pid]; try done.
  - split; cbn [mem set_mem set_ready set_current current_process ready_queue s2];
      [|by right|by apply (Hlen n t Hs)].
    eapply queue_rep_frame; [exact Hq2|]. intros x Hx.
    rewrite Hw, decide_False by (apply Hin || lia; by right). done.
  - rewrite Hw, decide_True by (done || lia). rewrite word_poke_eq; [done|].
    apply pcb_word; [done|lia].
  - intros Hru Hne. assert (s.(current_process) ∈ sched_pcbs s l) as Hcin.
    { destruct Hc as [E|Hc]; [|done]. unfold running in Hru. cbn in E. by rewrite E in Hru. }
    rewrite Hw, decide_False by (done || lia || tauto). by apply Hready.
  - intros Hru x Hx Hne. rewrite Hw, decide_False by (done || lia || tauto). by apply Hsame.
  - by apply (dispatch_new_child s2 (sched_pcbs s l)).
  - eapply only_words_trans; [exact Hms|]. by apply (dispatch_frame s2 (sched_pcbs s l)).
Qed.
End sched.
