(* ===== verification/SchedProps.v ===== *)
(** * What the scheduler guarantees

    The choice of the next process, what happens to processes of equal
    priority, and who never runs. *)
From S2P Require Import Prelude Memory MemorySpec MemWords ProcQueue QueueSpec QueueProps Process SchedSpec.

Section sched.
Context (base : Z) (Hbase : 0 < base) (Hfit : base + KERNEL_MEMORY_SIZE ≤ 2 ^ 32).

(** [k] calls of [schedule], each from the process the one before switched
    to; with the processes switched to. *)
Fixpoint run_schedules (k : nat) (s : kstate) (esp : Z) : res (list Z * kstate) :=
  match k with
  | O => Ok ([], s)
  | S k =>
      '(_, s) ← schedule base s esp;
      '(tr, s') ← run_schedules k s esp; Ok (s.(current_process) :: tr, s')
  end.

Lemma schedule_priorities s s' l n t p :
  sched_ok base s l → switched base s s' l n t → p ∈ sched_pcbs s l →
  priority_of base s' p = priority_of base s p.
Proof.
  intros Hs Hsw Hp. unfold priority_of, key_of. f_equal.
  eapply other_field_kept; [by apply sched_pcbs_ok|done|apply other_fields|apply Hsw].
Qed.

Lemma switched_running s s' l n t :
  pcb_ok base n → switched base s s' l n t → running base s' = true.
Proof.
  intros Hn Hsw. unfold running. rewrite (sw_current _ _ _ _ _ _ Hsw).
  rewrite (proj2 (Z.eqb_neq _ _) (pcb_nonnull base Hbase n Hn)). simpl.
  by rewrite (sw_running _ _ _ _ _ _ Hsw).
Qed.

(** C23: [schedule] runs the first process of highest priority (smallest
    number).  If no process is ready and the current one is not running, it
    enters the command line and changes nothing.  Otherwise it resumes the head
    of the candidates (the ready queue with the running process put back behind
    its equals) at its saved stack pointer, marks it [RUNNING], and leaves the
    rest of the candidates, still in order of priority, in the ready queue. *)
Theorem schedule_picks_first s l esp :
  sched_ok base s l → key_sorted (priority_of base s) l →
  match candidates base s l with
  | [] => schedule base s esp = Ok (EnterCli, s)
  | n :: t => ∃ s', schedule base s esp =
      Ok (Resume (word base s.(mem) (n + PCB_user_stack_ptr)) (new_child base s.(mem) n), s') ∧
      switched base s s' l n t ∧ key_sorted (priority_of base s') t ∧
      ∀ p, p ∈ t → priority_of base s n ≤ priority_of base s p
  end.
Proof.
  intros Hs Hl. pose proof (schedule_cases base Hbase Hfit s l esp Hs) as Hc.
  assert (key_sorted (priority_of base s) (candidates base s l)) as Hcs.
  { unfold candidates. destruct (running base s); [by apply insert_by_sorted|done]. }
  pose proof (candidates_in base s l) as Hin.
  destruct (candidates base s l) as [|n t]; [done|].
  destruct Hc as (s' & Hsch & Hsw). exists s'. apply key_sorted_cons in Hcs as [Hmin Ht].
  split; [done|]. split; [done|]. split; [|done].
  eapply key_sorted_ext; [|exact Ht]. intros x Hx. symmetry.
  eapply schedule_priorities; [done..|]. apply Hin. by right.
Qed.

(** One step when the running process beats, or does not beat, the others. *)
Lemma schedule_running s l esp n t :
  sched_ok base s l → running base s = true →
  insert_by (priority_of base s) s.(current_process) l = n :: t →
  ∃ o s', schedule base s esp = Ok (o, s') ∧ switched base s s' l n t ∧
    running base s' = true.
Proof.
  intros Hs Hr Hi. pose proof (schedule_cases base Hbase Hfit s l esp Hs) as Hc.
  pose proof (candidates_ok base s l Hs) as Hok. unfold candidates in Hc, Hok.
  rewrite Hr, Hi in Hc. rewrite Hr, Hi in Hok. destruct Hc as (s' & Hsch & Hsw).
  eexists _, s'. split; [exact Hsch|]. split; [done|].
  eapply switched_running; [|done]. apply Hok. by left.
Qed.

Lemma running_pcbs s l :
  running base s = true → sched_pcbs s l = s.(current_process) :: l.
Proof.
  unfold running, sched_pcbs. destruct (current_process s =? 0); [done|done].
Qed.

(** C24: a process of strictly highest priority starves all others.  However
    often it gives up the processor, [schedule] resumes it, and the ready queue
    stays as it was. *)
Theorem schedule_starves s l esp k :
  sched_ok base s l → running base s = true →
  (∀ p, p ∈ l → priority_of base s s.(current_process) < priority_of base s p) →
  ∃ s', run_schedules k s esp = Ok (replicate k s.(current_process), s') ∧
    s'.(current_process) = s.(current_process) ∧ sched_ok base s' l.
Proof.
  revert s. induction k as [|k IH]; intros s Hs Hr Hlt; [by exists s|].
  assert (insert_by (priority_of base s) s.(current_process) l = s.(current_process) :: l) as Hi.
  { destruct l as [|x l]; [done|]. simpl. specialize (Hlt x ltac:(by left)).
    by rewrite (proj2 (Z.leb_gt _ _) Hlt). }
  destruct (schedule_running s l esp _ _ Hs Hr Hi) as (o & s1 & Hsch & Hsw & Hr1).
  pose proof (sw_current _ _ _ _ _ _ Hsw) as Hcur.
  destruct (IH s1) as (s2 & H2 & Hc2 & Hs2); [apply Hsw|done| |].
  { intros p Hp. rewrite !(schedule_priorities s s1 l _ _ _ Hs Hsw), Hcur; [by apply Hlt|..];
      rewrite running_pcbs by done; [by right|rewrite Hcur; by left]. }
  exists s2. simpl. rewrite Hsch, bind_ok, H2, bind_ok, Hcur, replicate_S.
  split; [done|]. by rewrite Hc2, Hcur.
Qed.

Lemma insert_by_equal key p l :
  (∀ x, x ∈ l → key x = key p) → insert_by key p l = l ++ [p].
Proof.
  induction l as [|x l IH]; intros H; [done|]. simpl.
  rewrite (H x) by by left. rewrite Z.leb_refl, IH; [done|]. intros y Hy. apply H. by right.
Qed.

Lemma round_robin_steps k c l s esp :
  sched_ok base s l → running base s = true → s.(current_process) = c →
  (∀ p, p ∈ l → priority_of base s p = priority_of base s c) → (k ≤ length l)%nat →
  ∃ s' l', run_schedules k s esp = Ok (take k l, s') ∧ sched_ok base s' l' ∧
    running base s' = true ∧
    s'.(current_process) :: l' = drop k (c :: l) ++ take k (c :: l) ∧
    (∀ p q, p ∈ l' → q ∈ c :: l → priority_of base s' p = priority_of base s' q).
Proof.
  revert c l s. induction k as [|k IH]; intros c l s Hs Hr Hc Heq Hk.
  { exists s, l. rewrite app_nil_r, Hc. split; [done|]. split; [done|]. split; [done|].
    split; [done|]. intros p q Hp [->|Hq]%elem_of_cons; [by apply Heq|].
    by rewrite (Heq p), (Heq q). }
  destruct l as [|n t]; [simpl in Hk; lia|].
  assert (insert_by (priority_of base s) s.(current_process) (n :: t) = n :: (t ++ [c])) as Hi.
  { rewrite Hc. by apply insert_by_equal. }
  destruct (schedule_running s (n :: t) esp n (t ++ [c]) Hs Hr Hi) as (o & s1 & Hsch & Hsw & Hr1).
  pose proof (sw_current _ _ _ _ _ _ Hsw) as Hcur.
  assert (∀ p, p ∈ c :: n :: t → priority_of base s1 p = priority_of base s c) as Hp1.
  { intros p Hp. rewrite (schedule_priorities s s1 _ _ _ _ Hs Hsw) by (by rewrite running_pcbs, Hc).
    apply elem_of_cons in Hp as [->|Hp]; [done|by apply Heq]. }
  destruct (IH n (t ++ [c]) s1) as (s2 & l2 & H2 & Hs2 & Hr2 & Hl2 & Hp2);
    [apply Hsw|done|done| |rewrite length_app; simpl in *; lia|].
  { intros p Hp. rewrite !Hp1; [done|set_solver|]. clear -Hp. set_solver. }
  simpl in Hk. exists s2, l2. simpl. rewrite Hsch, bind_ok, H2, bind_ok, Hcur.
  rewrite take_app_le by lia. split; [done|]. split; [done|]. split; [done|]. split.
  - rewrite Hl2. change (n :: t ++ [c]) with ((n :: t) ++ [c]).
    rewrite drop_app_le, take_app_le by (simpl; lia). rewrite <-(assoc_L (++)). done.
  - intros p q Hp Hq. apply Hp2; [done|]. clear -Hq. set_solver.
Qed.

Lemma run_schedules_snoc k s esp :
  run_schedules (S k) s esp =
    ('(tr, s1) ← run_schedules k s esp;
     '(_, s2) ← schedule base s1 esp; Ok (tr ++ [s2.(current_process)], s2)).
Proof.
  revert s. induction k as [|k IH]; intros s.
  - simpl. by destruct (schedule base s esp) as [[o s1]|].
  - change (run_schedules (S (S k)) s esp) with
      ('(_, s1) ← schedule base s esp;
       '(tr, s') ← run_schedules (S k) s1 esp; Ok (s1.(current_process) :: tr, s')).
    simpl run_schedules at 2.
    destruct (schedule base s esp) as [[o s1]|]; [|done]. rewrite !bind_ok, IH.
    destruct (run_schedules k s1 esp) as [[tr s2]|]; [|done]. rewrite !bind_ok. 
    by destruct (schedule base s2 esp) as [[o' s3]|].
Qed.

(** C25: processes of equal priority take turns.  When the running process
    and all ready ones have the same priority, as many calls of [schedule] as
    there are processes run each of them once, in the order of the queue, and
    come back to the first one with the queue as it was. *)
Theorem schedule_round_robin s l esp :
  sched_ok base s l → running base s = true →
  (∀ p, p ∈ l → priority_of base s p = priority_of base s s.(current_process)) →
  ∃ s', run_schedules (S (length l)) s esp = Ok (l ++ [s.(current_process)], s') ∧
    s'.(current_process) = s.(current_process) ∧ sched_ok base s' l.
Proof.
  intros Hs Hr Heq. set (c := s.(current_process)) in *.
  destruct (round_robin_steps (length l) c l s esp Hs Hr eq_refl Heq (le_n _))
    as (s1 & l1 & H1 & Hs1 & Hr1 & Hl1 & Hp1).
  rewrite firstn_all in H1.
  rewrite run_schedules_snoc, H1, bind_ok.
  pose proof (take_drop (length l) (c :: l)) as Htd.
  assert (length (drop (length l) (c :: l)) = 1%nat) as Hd1 by (rewrite length_drop; simpl; lia).
  destruct (drop (length l) (c :: l)) as [|z [|]]; try done. simpl in Hl1.
  injection Hl1 as Hz Hl1. rewrite <-Hl1 in Htd.
  assert (insert_by (priority_of base s1) s1.(current_process) l1 = c :: l) as Hi.
  { rewrite Hz, <-Htd. apply insert_by_equal. intros x Hx. apply Hp1; [done|].
    rewrite <-Htd. clear. set_solver. }
  destruct (schedule_running s1 l1 esp c l Hs1 Hr1 Hi) as (o & s2 & Hsch & Hsw & _).
  pose proof (sw_current _ _ _ _ _ _ Hsw) as Hcur.
  exists s2. rewrite Hsch, bind_ok, Hcur. split; [done|]. split; [done|apply Hsw].
Qed.
End sched.

(** ** A concrete scheduler state *)

(** The three PCBs of [demo_pcbs]: the first one is running, the other two are
    in the ready queue, and their priorities are 0, [p] and [p]. *)
Definition demo_sched (p : Z) : kstate :=
  MkKstate
    (Memory (list_to_map [(12, 1); (4120, p); (8216, p); (4132, 8); (4133, 32); (4134, 16)])
       (replicate (Z.to_nat NUM_PAGES) 0) 0)
    1048584 (MkQueue 1052680 1056776) 0 4.

Lemma demo_sched_ok p : sched_ok 1048576 (demo_sched p) [1052680; 1056776].
Proof.
  pose proof demo_pcbs_ok as Hok. unfold demo_pcbs in Hok. split.
  - split; [done|done| |by apply (pcbs_ok_app _ [1048584])|simpl; lia].
    vm_compute. by split_and!.
  - right. exact Hok.
  - simpl. lia.
Qed.

Lemma demo_sched_running p : running 1048576 (demo_sched p) = true.
Proof. by vm_compute. Qed.

Lemma schedule_picks_first_witness :
  ∃ s', schedule 1048576 (demo_sched 0) 5000 =
      Ok (Resume (word 1048576 (demo_sched 0).(mem) (1052680 + PCB_user_stack_ptr))
            (new_child 1048576 (demo_sched 0).(mem) 1052680), s') ∧
    switched 1048576 (demo_sched 0) s' [1052680; 1056776] 1052680 [1056776; 1048584] ∧
    key_sorted (priority_of 1048576 s') [1056776; 1048584] ∧
    ∀ p, p ∈ [1056776; 1048584] →
      priority_of 1048576 (demo_sched 0) 1052680 ≤ priority_of 1048576 (demo_sched 0) p.
Proof.
  apply (schedule_picks_first 1048576 ltac:(lia) ltac:(lia) (demo_sched 0)
    [1052680; 1056776] 5000 (demo_sched_ok 0)).
  apply key_sorted_cons. split.
  - intros y Hy. apply list_elem_of_singleton in Hy as ->. vm_compute. discriminate.
  - intros [|i] [|j] a b Hij Ha Hb; simpl in *; simplify_eq; lia.
Defined.

Lemma schedule_starves_witness :
  ∃ s', run_schedules 1048576 10 (demo_sched 1) 5000 = Ok (replicate 10 1048584, s') ∧
    s'.(current_process) = 1048584 ∧ sched_ok 1048576 s' [1052680; 1056776].
Proof.
  apply (schedule_starves 1048576 ltac:(lia) ltac:(lia) (demo_sched 1) [1052680; 1056776]
    5000 10 (demo_sched_ok 1) (demo_sched_running 1)).
  intros p Hp. apply elem_of_cons in Hp as [->|Hp]; [by vm_compute|].
  apply list_elem_of_singleton in Hp as ->. by vm_compute.
Defined.

Lemma schedule_round_robin_witness :
  ∃ s', run_schedules 1048576 3 (demo_sched 0) 5000 =
      Ok ([1052680; 1056776; 1048584], s') ∧
    s'.(current_process) = 1048584 ∧ sched_ok 1048576 s' [1052680; 1056776].
Proof.
  apply (schedule_round_robin 1048576 ltac:(lia) ltac:(lia) (demo_sched 0) [1052680; 1056776]
    5000 (demo_sched_ok 0) (demo_sched_running 0)).
  intros p Hp. apply elem_of_cons in Hp as [->|Hp]; [by vm_compute|].
  apply list_elem_of_singleton in Hp as ->. by vm_compute.
Defined.
