(* ===== verification/ProcSpec.v ===== *)
(** * Creating processes

    [create_process] is described against the interface of the allocator:
    whatever [kmalloc] returns, either the call fails and nothing it can see
    changes, or the new process is ready, is the head of the process table and
    will start at its entry point. *)
From S2P Require Import Prelude Memory MemorySpec MemWords ProcQueue QueueSpec QueueProps Process SchedSpec.

Section proc.
Context (base : Z) (Hbase : 0 < base) (Hfit : base + KERNEL_MEMORY_SIZE < 2 ^ 32).
Context {inv : memory → gmap Z Z → Prop} {HS : HeapSpec base inv}.

Local Abbreviation word := (word base).
Local Abbreviation poke := (poke base).

(** ** PCBs as live blocks *)

Definition pcbs_live (live : gmap Z Z) (l : list Z) : Prop :=
  ∀ p, p ∈ l → live !! p = Some SIZEOF_PCB.

Lemma fresh_pcb live p : fresh_block base live p SIZEOF_PCB → pcb_ok base p.
Proof. intros []. unfold pcb_ok. lia. Qed.

Lemma fresh_pcbs_ok live p l :
  fresh_block base live p SIZEOF_PCB → pcbs_live live l → pcbs_ok base l → pcbs_ok base (p :: l).
Proof.
  intros Hf Hl (H1 & H2 & H3). pose proof (fresh_pcb live p Hf) as Hp. destruct Hf as [_ _ Hn Hap].
  assert (∀ q, q ∈ l → p + SIZEOF_PCB ≤ q ∨ q + SIZEOF_PCB ≤ p) as Hpl.
  { intros q Hq. destruct (Hap q _ (Hl q Hq)); lia. }
  split; [|split].
  - intros q [->|Hq]%elem_of_cons; auto.
  - constructor; [|done]. intros Hp'. specialize (Hl p Hp'). congruence.
  - intros q r [->|Hq]%elem_of_cons [->|Hr]%elem_of_cons Hne; [done|auto| |auto].
    destruct (Hpl q Hq); [by right|by left].
Qed.

(** Distinct fields of two live PCBs do not overlap. *)
Lemma live_fields_apart m live p x o o' :
  inv m live → live !! p = Some SIZEOF_PCB → live !! x = Some SIZEOF_PCB →
  o + 4 ≤ o' ∨ o' + 4 ≤ o → 0 ≤ o ≤ 88 → 0 ≤ o' ≤ 88 → apart (p + o) (x + o').
Proof.
  intros Hinv Hp Hx Hne Ho Ho'. apply fields_apart; [|lia|lia].
  destruct (decide (p = x)) as [<-|Hpx]; [by left|right].
  destruct (hs_apart _ _ p x _ _ Hinv Hp Hx Hpx); lia.
Qed.

Lemma kept_pcb m m' live x o :
  blocks_kept base m m' live → live !! x = Some SIZEOF_PCB → 0 ≤ o ≤ 88 →
  word m' (x + o) = word m (x + o).
Proof. intros Hk Hx Ho. eapply blocks_kept_word; [exact Hk|exact Hx|lia|lia|lia]. Qed.

Lemma queue_rep_kept m m' q l live :
  queue_rep base m q l → pcbs_live live l → blocks_kept base m m' live → queue_rep base m' q l.
Proof.
  intros Hq Hl Hk. eapply queue_rep_frame; [exact Hq|]. intros p Hp.
  eapply kept_pcb; [exact Hk|by apply Hl|lia].
Qed.

(** ** The new PCB and its stack *)

(** The stores between the two allocations of [create_process]. *)
Definition init_pcb (m : memory) (p st pid entry prio dl ttr : Z) : memory :=
  let m := poke m (p + PCB_pid) pid in
  let m := poke m (p + PCB_state) STATE_NEW in
  let m := poke m (p + PCB_priority) prio in
  let m := poke m (p + PCB_deadline) dl in
  let m := poke m (p + PCB_time_to_run) ttr in
  let m := poke m (p + PCB_user_stack_base) st in
  let m := poke m (st + 4092) entry in
  let m := poke m (st + 4088) 0 in
  let m := poke m (p + PCB_user_stack_ptr) (st + 4088) in
  let m := poke m (p + PCB_cr3) 0 in
  poke m (p + PCB_next) 0.

(** The stores of [allocate_kernel_stack] and the rest of [create_process],
    before the process enters the ready queue. *)
Definition publish_pcb (m : memory) (p k head : Z) : memory :=
  let m := poke m (p + PCB_kernel_stack_base) k in
  let m := poke m (p + PCB_kernel_stack_ptr) (u32 (u32 k + KERNEL_STACK_SIZE)) in
  let m := poke m (p + PCB_next_in_table) head in
  poke m (p + PCB_state) STATE_READY.

Lemma init_pcb_frame m p st pid entry prio dl ttr b :
  ¬ (p ≤ b < p + SIZEOF_PCB) → ¬ (st + 4088 ≤ b < st + 4096) →
  load8 base (init_pcb m p st pid entry prio dl ttr) b = load8 base m b.
Proof. intros Hp Hst. unfold init_pcb. by rewrite !load8_poke_ne by lia. Qed.

Lemma publish_pcb_frame m p k head b :
  ¬ (p ≤ b < p + SIZEOF_PCB) → load8 base (publish_pcb m p k head) b = load8 base m b.
Proof. intros Hp. unfold publish_pcb. by rewrite !load8_poke_ne by lia. Qed.

Section new.
Context (p st : Z) (Hp : pcb_ok base p).
Context (Hst : base ≤ st ∧ st + 4096 ≤ base + KERNEL_MEMORY_SIZE).
Context (Hap : p + SIZEOF_PCB ≤ st ∨ st + 4096 ≤ p).

Ltac word_tac := unfold pcb_ok in Hp;
  repeat rewrite word_poke_ne by (unfold apart; lia);
  rewrite ?word_poke_eq by (unfold valid_word; lia).

Lemma init_pcb_words m pid entry prio dl ttr :
  let m' := init_pcb m p st pid entry prio dl ttr in
  word m' (p + PCB_pid) = u32 pid ∧ word m' (p + PCB_priority) = u32 prio ∧
  word m' (p + PCB_user_stack_ptr) = st + 4088 ∧ word m' (p + PCB_user_stack_base) = st ∧
  word m' (p + PCB_cr3) = 0 ∧ word m' (p + PCB_deadline) = u32 dl ∧
  word m' (p + PCB_time_to_run) = u32 ttr ∧
  word m' (st + 4088) = 0 ∧ word m' (st + 4092) = u32 entry ∧
  word m' (p + PCB_parent) = word m (p + PCB_parent).
Proof.
  unfold init_pcb. split_and!; word_tac; try done; by rewrite u32_small by lia.
Qed.

Lemma publish_pcb_words m k head :
  0 ≤ head < 2 ^ 32 →
  let m' := publish_pcb m p k head in
  word m' (p + PCB_state) = STATE_READY ∧ word m' (p + PCB_next_in_table) = head ∧
  (∀ o, o = PCB_pid ∨ o = PCB_priority ∨ o = PCB_user_stack_ptr ∨ o = PCB_user_stack_base ∨
        o = PCB_cr3 ∨ o = PCB_deadline ∨ o = PCB_time_to_run ∨ o = PCB_parent →
     word m' (p + o) = word m (p + o)).
Proof.
  intros Hh. unfold publish_pcb. split_and!.
  - word_tac. done.
  - word_tac. by rewrite u32_small by lia.
  - intros o Ho. word_tac. done.
Qed.

Lemma init_pcb_ok {B} s pid entry prio dl ttr (k : kstate → res B) :
  (s ← assign base s p PCB_pid pid;
   s ← assign base s p PCB_state STATE_NEW;
   s ← assign base s p PCB_priority prio;
   s ← assign base s p PCB_deadline dl;
   s ← assign base s p PCB_time_to_run ttr;
   s ← assign base s p PCB_user_stack_base (u32 (u32 (st + 4096) - 4 * 1024));
   m ← store32 base s.(mem) (u32 (u32 (st + 4096) - 4)) entry;
   m ← store32 base m (u32 (u32 (u32 (st + 4096) - 4) - 4)) 0;
   s ← assign base (set_mem m s) p PCB_user_stack_ptr (u32 (u32 (u32 (st + 4096) - 4) - 4));
   s ← assign base s p PCB_cr3 0;
   s ← assign base s p PCB_next 0; k s) =
  k (set_mem (init_pcb s.(mem) p st pid entry prio dl ttr) s).
Proof.
  do 6 (rewrite assign_ok, bind_ok by (done || lia)).
  rewrite (u32_small (st + 4096)) by lia.
  rewrite (u32_small (st + 4096 - 4)) by lia.
  rewrite (u32_small (st + 4096 - 4 - 4)) by lia.
  rewrite (u32_small (st + 4096 - 4 * 1024)) by lia.
  rewrite store32_valid, bind_ok by (unfold valid_word; lia).
  rewrite store32_valid, bind_ok by (unfold valid_word; lia).
  do 3 (rewrite assign_ok, bind_ok by (done || lia)).
  cbn [mem set_mem]. unfold init_pcb.
  replace (st + 4096 - 4 * 1024) with st by lia. replace (st + 4096 - 4 - 4) with (st + 4088) by lia.
  replace (st + 4096 - 4) with (st + 4092) by lia. done.
Qed.
End new.

Lemma blocks_kept_trans m1 m2 m3 live :
  blocks_kept base m1 m2 live → blocks_kept base m2 m3 live → blocks_kept base m1 m3 live.
Proof. intros H1 H2 q sz b Hq Hsz Hb. rewrite (H2 q sz), (H1 q sz); done. Qed.

Lemma blocks_kept_mono m m' live live' :
  live ⊆ live' → blocks_kept base m m' live' → blocks_kept base m m' live.
Proof. intros Hs H q sz b Hq. apply H. by eapply lookup_weaken. Qed.

Lemma allocate_kernel_stack_ok s live p :
  inv s.(mem) live → pcb_ok base p →
  ∃ k m, allocate_kernel_stack base s p = Ok (set_mem
      (poke (poke m (p + PCB_kernel_stack_base) k) (p + PCB_kernel_stack_ptr)
         (u32 (u32 k + KERNEL_STACK_SIZE))) s) ∧
    blocks_kept base s.(mem) m live ∧ ∃ live', live ⊆ live' ∧ inv m live'.
Proof.
  intros Hinv Hp. unfold allocate_kernel_stack, alloc.
  assert (∃ k m, kmalloc base s.(mem) KERNEL_STACK_SIZE = Ok (k, m) ∧
    blocks_kept base s.(mem) m live ∧ ∃ live', live ⊆ live' ∧ inv m live')
    as (k & m & -> & Hk & Hl).
  { destruct (kmalloc_client base Hbase s.(mem) live KERNEL_STACK_SIZE Hinv ltac:(lia))
      as [->|(k & m & -> & _ & Hinv' & Hf & Hk & _)].
    - exists 0, s.(mem). split; [done|]. split; [done|]. by exists live.
    - exists k, m. split; [done|]. split; [done|]. eexists. split; [|done].
      apply insert_subseteq, Hf. }
  rewrite !bind_ok. rewrite assign_ok, bind_ok by (done || lia).
  cbn [mem set_mem]. rewrite get_field_ok, bind_ok by (done || lia).
  rewrite word_poke_eq by (apply pcb_word; [done|lia]).
  rewrite assign_ok by (done || lia). by exists k, m.
Qed.

Lemma set_mem_mem m s : mem (set_mem m s) = m.
Proof. done. Qed.

Lemma hs_init_pcb m live p st pid entry prio dl ttr :
  inv m live → inv (init_pcb m p st pid entry prio dl ttr) live.
Proof. intros H. unfold init_pcb. repeat apply (hs_poke base). done. Qed.

(** A queue keeps its PCBs when other objects are written. *)
Lemma queue_rep_outside m m' q l :
  queue_rep base m q l →
  (∀ x b, x ∈ l → x ≤ b < x + SIZEOF_PCB → load8 base m' b = load8 base m b) →
  queue_rep base m' q l.
Proof.
  intros Hq H. eapply queue_rep_frame; [exact Hq|]. intros x Hx. apply word_same.
  intros b Hb. apply (H x); [done|lia].
Qed.

(** What a successful [create_process] leaves behind. *)
Record created (s s' : kstate) (l : list Z) (p pid entry prio : Z) : Prop := {
  cr_table : s'.(process_table_head) = p;
  cr_current : s'.(current_process) = s.(current_process);
  cr_pids : s'.(next_pid) = s.(next_pid);
  cr_queue : queue_rep base s'.(mem) s'.(ready_queue)
    (insert_by (λ x, if decide (x = p) then i32 (u32 prio) else priority_of base s x) p l);
  cr_pid : word s'.(mem) (p + PCB_pid) = u32 pid;
  cr_state : word s'.(mem) (p + PCB_state) = STATE_READY;
  cr_next : word s'.(mem) (p + PCB_next_in_table) = s.(process_table_head);
  cr_start : popped base s'.(mem) (word s'.(mem) (p + PCB_user_stack_ptr)) = Ok (0, u32 entry);
  cr_stack : word s'.(mem) (p + PCB_user_stack_ptr) =
             word s'.(mem) (p + PCB_user_stack_base) + 4088;
  cr_parent : word s'.(mem) (p + PCB_parent) = word s.(mem) (p + PCB_parent);
  cr_others : ∀ q o, q ∈ l → other_field o → word s'.(mem) (q + o) = word s.(mem) (q + o);
}.

(** The last part of [create_process], from the finished PCB on. *)
Lemma publish_ok s m l p k :
  pcbs_ok base (p :: l) → (length l < Z.to_nat NUM_PAGES)%nat →
  queue_rep base (publish_pcb m p k s.(process_table_head)) s.(ready_queue) l →
  let s1 := set_mem (poke (poke m (p + PCB_kernel_stack_base) k) (p + PCB_kernel_stack_ptr)
              (u32 (u32 k + KERNEL_STACK_SIZE))) s in
  let m1 := publish_pcb m p k s.(process_table_head) in
  ∃ m2 q2,
    (s1 ← assign base s1 p PCB_next_in_table s1.(process_table_head);
     let s1 := set_table p s1 in
     s1 ← assign base s1 p PCB_state STATE_READY;
     s1 ← enqueue_ready base s1 p;
     Ok (p, s1)) = Ok (p, set_ready q2 (set_mem m2 (set_table p s))) ∧
    queue_rep base m2 q2 (insert_by (key_of base PCB_priority m1) p l) ∧
    only_words base m1 m2 (next_words (p :: l)).
Proof.
  intros Hok Hlen Hq s1 m1. pose proof Hok as (Hpcb & _). pose proof (Hpcb p ltac:(by left)) as Hp.
  rewrite assign_ok, bind_ok by (done || lia). cbn zeta.
  rewrite assign_ok, bind_ok by (done || lia). unfold enqueue_ready, enqueue_process.
  unfold s1. cbn [mem set_mem set_table ready_queue process_table_head].
  fold (publish_pcb m p k s.(process_table_head)). fold m1.
  destruct (enqueue_by_spec base Hbase ltac:(lia) PCB_priority ltac:(lia) m1 s.(ready_queue) l p
    Hq Hok Hlen) as (m2 & q2 & He & Hq2 & Hm2).
  rewrite He, !bind_ok. by exists m2, q2.
Qed.
End proc.
