(* ===== verification/ProcProps.v ===== *)
(** * What process creation, [fork], [wait] and [exit] do

    The theorems follow the life of a process: it is created, scheduled,
    forks, exits and is reaped. *)
From S2P Require Import Prelude Memory MemorySpec MemoryProps MemWords ProcQueue QueueSpec QueueProps Process SchedSpec SchedProps ProcSpec.

Section proc.
Context (base : Z) (Hbase : 0 < base) (Hfit : base + KERNEL_MEMORY_SIZE < 2 ^ 32).
Context {inv : memory → gmap Z Z → Prop} {HS : HeapSpec base inv}.

Local Abbreviation word := (word base).
Local Abbreviation poke := (poke base).

(** The memory just before the new process is enqueued, followed back to the
    memory [m2] the two allocations left. *)
Lemma created_words m2 m m3 m4 live p st k head pid entry prio dl ttr l :
  pcb_ok base p → base ≤ st ∧ st + 4096 ≤ base + KERNEL_MEMORY_SIZE →
  p + SIZEOF_PCB ≤ st ∨ st + 4096 ≤ p → 0 ≤ head < 2 ^ 32 →
  (∀ x, x ∈ p :: l → x + SIZEOF_PCB ≤ st ∨ st + 4096 ≤ x) →
  live !! p = Some SIZEOF_PCB → live !! st = Some 4096 → pcbs_ok base (p :: l) →
  blocks_kept base (init_pcb base m2 p st pid entry prio dl ttr) m live →
  m3 = publish_pcb base m p k head → only_words base m3 m4 (next_words (p :: l)) →
  (word m4 (p + PCB_pid) = u32 pid ∧ word m4 (p + PCB_state) = STATE_READY ∧
   word m4 (p + PCB_next_in_table) = head ∧ word m4 (p + PCB_user_stack_ptr) = st + 4088 ∧
   word m4 (p + PCB_user_stack_base) = st ∧ word m4 (p + PCB_parent) = word m2 (p + PCB_parent)) ∧
  (word m4 (st + 4088) = 0 ∧ word m4 (st + 4092) = u32 entry) ∧
  word m3 (p + PCB_priority) = u32 prio.
Proof.
  intros Hp Hst Hpst Hhead Hlst Hlp Hls Hok Hkept -> Hm4.
  destruct (init_pcb_words base Hbase Hfit p st Hp Hst Hpst m2 pid entry prio dl ttr)
    as (I1 & I2 & I3 & I4 & _ & _ & _ & I5 & I6 & I7).
  destruct (publish_pcb_words base p Hp m k head Hhead) as (P1 & P2 & P3).
  assert (∀ o, 0 ≤ o ≤ 88 → word m (p + o) =
    word (init_pcb base m2 p st pid entry prio dl ttr) (p + o)) as Hk.
  { intros o Ho. eapply blocks_kept_word; [exact Hkept|exact Hlp|lia|lia|lia]. }
  assert (∀ o, o = 4088 ∨ o = 4092 → word m4 (st + o) =
    word (init_pcb base m2 p st pid entry prio dl ttr) (st + o)) as Hks.
  { intros o Ho. transitivity (word m (st + o)).
    - transitivity (word (publish_pcb base m p k head) (st + o)).
      + eapply only_words_word; [exact Hm4|]. intros w (x & -> & Hx)%list_elem_of_fmap.
        specialize (Hlst x Hx). unfold apart. lia.
      + apply word_same. intros b Hb. apply publish_pcb_frame. lia.
    - eapply blocks_kept_word; [exact Hkept|exact Hls|lia|lia|lia]. }
  assert (∀ o, 0 ≤ o ≤ 88 → o + 4 ≤ PCB_next ∨ PCB_next + 4 ≤ o →
    word m4 (p + o) = word (publish_pcb base m p k head) (p + o)) as Hp4.
  { intros o Ho Hne. eapply only_words_word; [exact Hm4|]. intros w Hw.
    eapply next_words_other; [exact Hok|done|done|done|by left]. }
  split_and!.
  - by rewrite Hp4, P3, Hk by lia.
  - by rewrite Hp4 by lia.
  - by rewrite Hp4 by lia.
  - by rewrite Hp4, P3, Hk by lia.
  - by rewrite Hp4, P3, Hk by lia.
  - by rewrite Hp4, P3, Hk by lia.
  - by rewrite Hks by lia.
  - by rewrite Hks by lia.
  - by rewrite P3, Hk by lia.
Qed.

(** The PCBs and the new stack are different live blocks. *)
Lemma fresh_two live l p st :
  fresh_block base live p SIZEOF_PCB → fresh_block base (<[p := SIZEOF_PCB]> live) st 4096 →
  pcbs_live live l → ∀ x, x ∈ p :: l →
  (<[p := SIZEOF_PCB]> live) !! x = Some SIZEOF_PCB ∧
  (<[st := 4096]> (<[p := SIZEOF_PCB]> live)) !! x = Some SIZEOF_PCB ∧
  (x + SIZEOF_PCB ≤ st ∨ st + 4096 ≤ x).
Proof.
  intros Hfp Hfs Hlive x Hx.
  assert ((<[p := SIZEOF_PCB]> live) !! x = Some SIZEOF_PCB) as Hl1.
  { apply elem_of_cons in Hx as [->|Hx]; [apply lookup_insert_eq|].
    rewrite lookup_insert_ne; [by apply Hlive|]. intros ->.
    pose proof (fb_new _ _ _ _ Hfp). by rewrite (Hlive x Hx) in *. }
  split; [done|]. split.
  - rewrite lookup_insert_ne; [done|]. intros ->. pose proof (fb_new _ _ _ _ Hfs). congruence.
  - destruct (fb_apart _ _ _ _ Hfs x _ Hl1); lia.
Qed.

(** A ready process keeps its fields through the stores for the new one. *)
Lemma create_others s m2 m live l p st k pid entry prio dl ttr x o :
  pcbs_ok base (p :: l) →
  (∀ x, x ∈ p :: l → live !! x = Some SIZEOF_PCB ∧ (x + SIZEOF_PCB ≤ st ∨ st + 4096 ≤ x)) →
  blocks_kept base (init_pcb base m2 p st pid entry prio dl ttr) m live →
  x ∈ l → 0 ≤ o ≤ 88 →
  word (publish_pcb base m p k s.(process_table_head)) (x + o) = word m2 (x + o).
Proof.
  intros (_ & [Hn _]%NoDup_cons & Hap) Hl Hkept Hx Ho. apply word_same. intros b Hb.
  destruct (Hl x ltac:(by right)) as [Hlx Hxst].
  assert (¬ (p ≤ b < p + SIZEOF_PCB)) as Hbp.
  { destruct (Hap p x) as [?|?]; [by left|by right|by intros ->|lia|lia]. }
  rewrite publish_pcb_frame by done. rewrite (Hkept x SIZEOF_PCB) by (done || lia).
  apply init_pcb_frame; [done|lia].
Qed.

(** Both allocations succeeded: the rest of [create_process] runs through. *)
Lemma create_process_finish s m2 live l p st pid entry prio dl ttr :
  inv m2 (<[st := 4096]> (<[p := SIZEOF_PCB]> live)) →
  fresh_block base live p SIZEOF_PCB →
  fresh_block base (<[p := SIZEOF_PCB]> live) st 4096 →
  st + 4096 ≤ base + KERNEL_MEMORY_SIZE →
  pcbs_live live l → (length l < Z.to_nat NUM_PAGES)%nat →
  queue_rep base m2 s.(ready_queue) l → 0 ≤ s.(process_table_head) < 2 ^ 32 →
  let s1 := set_mem (init_pcb base m2 p st pid entry prio dl ttr) s in
  ∃ s', (s ← allocate_kernel_stack base s1 p;
         s ← assign base s p PCB_next_in_table s.(process_table_head);
         let s := set_table p s in
         s ← assign base s p PCB_state STATE_READY;
         s ← enqueue_ready base s p;
         Ok (p, s)) = Ok (p, s') ∧
    created base (set_mem m2 s) s' l p pid entry prio ∧
    ∃ live', live ⊆ live' ∧ live' !! p = Some SIZEOF_PCB ∧ inv s'.(mem) live'.
Proof.
  intros Hinv Hfp Hfs Hstk Hlive Hlen Hq Hhead s1.
  set (live2 := <[st := 4096]> (<[p := SIZEOF_PCB]> live)) in *.
  pose proof (fresh_pcb base live p Hfp) as Hp.
  pose proof (fresh_pcbs_ok base live p l Hfp Hlive (qr_pcbs _ _ _ _ Hq)) as Hok.
  pose proof (fresh_two live l p st Hfp Hfs Hlive) as Htwo. fold live2 in Htwo.
  assert (∀ x, x ∈ p :: l → x + SIZEOF_PCB ≤ st ∨ st + 4096 ≤ x) as Hlst by (intros; by apply Htwo).
  assert (∀ x, x ∈ p :: l → live2 !! x = Some SIZEOF_PCB) as Hl2 by (intros; by apply Htwo).
  pose proof (Hlst p ltac:(by left)) as Hpst. pose proof (fb_low _ _ _ _ Hfs) as Hlow.
  destruct (allocate_kernel_stack_ok base Hbase s1 live2 p (hs_init_pcb base _ _ _ _ _ _ _ _ _ Hinv) Hp)
    as (k & m & Hks & Hkept & live3 & Hsub & Hinv3).
  rewrite Hks, bind_ok. unfold s1 in Hkept. rewrite set_mem_mem in Hkept.
  set (m3 := publish_pcb base m p k s.(process_table_head)).
  assert (∀ x o, x ∈ l → 0 ≤ o ≤ 88 → word m3 (x + o) = word m2 (x + o)) as Hother
    by (intros; eapply (create_others s m2 m live2 l); eauto).
  assert (queue_rep base m3 s.(ready_queue) l) as Hq1.
  { eapply queue_rep_frame; [exact Hq|]. intros x Hx. apply Hother; [done|lia]. }
  destruct (publish_ok base Hbase Hfit s1 m l p k Hok Hlen Hq1) as (m4 & q4 & -> & Hq4 & Hm4).
  eexists. split; [done|].
  destruct (created_words m2 m m3 m4 live2 p st k s.(process_table_head) pid entry prio dl ttr l
    Hp ltac:(lia) Hpst Hhead Hlst ltac:(apply Hl2; by left) ltac:(apply lookup_insert_eq) Hok
    Hkept eq_refl Hm4) as ((W1 & W2 & W3 & W4 & W5 & W6) & (W7 & W8) & W9).
  split.
  - split; cbn [mem ready_queue process_table_head current_process next_pid set_ready set_mem set_table];
      try done.
    + erewrite insert_by_ext; [exact Hq4|]. intros x Hx. simpl. fold m3.
      case_decide as Hxp.
      * unfold key_of. by rewrite Hxp, W9.
      * apply elem_of_cons in Hx as [?|Hx]; [done|]. unfold priority_of, key_of.
        by rewrite Hother by (done || lia).
    + unfold popped. rewrite W4.
      rewrite !load32_valid by (unfold valid_word; lia).
      rewrite !bind_ok, W7. replace (st + 4088 + 4) with (st + 4092) by lia. by rewrite W8.
    + lia.
    + intros x o Hx [Ho Hne]. rewrite <-(Hother x o Hx Ho).
      eapply only_words_word; [exact Hm4|]. intros w Hw.
      eapply next_words_other; [exact Hok|done| |done|by right].
      destruct (Hne PCB_next); [unfold sched_fields; set_solver|lia|lia].
  - exists live3. split; [|split].
    + etrans; [|exact Hsub]. unfold live2. etrans; [apply insert_subseteq, Hfp|].
      apply insert_subseteq, Hfs.
    + eapply lookup_weaken; [|exact Hsub]. apply Hl2. by left.
    + destruct Hm4 as (P & L & _). eapply hs_bytes; [exact Hinv3|done|done].
Qed.

(** [create_process] gives up exactly when the allocator has no room for the
    PCB, or none for the stack once the PCB is allocated. *)
Definition create_no_room (m : memory) : Prop :=
  (∃ m1, kmalloc base m SIZEOF_PCB = Ok (0, m1)) ∨
  (∃ p m1 m2, kmalloc base m SIZEOF_PCB = Ok (p, m1) ∧ kmalloc base m1 4096 = Ok (0, m2)).

(** C26: [create_process] fails only when [kmalloc] returns [NULL] for the PCB
    or for the stack; then it returns [NULL] and leaves the ready queue and the
    process table as they were.  When [kmalloc] finds room for both, it returns a
    PCB that was not in use: ready, with its pid, at the head of the process
    table, inserted into the ready queue by its priority, and with a stack from
    which a switch pops 0 as frame pointer and the entry point as return address.
    The field [parent] is not initialised: it keeps what the memory held. *)
Theorem create_process_outcome s live l pid entry prio dl ttr :
  inv s.(mem) live → queue_rep base s.(mem) s.(ready_queue) l → pcbs_live live l →
  (length l < Z.to_nat NUM_PAGES)%nat → 0 ≤ s.(process_table_head) < 2 ^ 32 →
  (∀ p m1 st m2, kmalloc base s.(mem) SIZEOF_PCB = Ok (p, m1) →
     kmalloc base m1 4096 = Ok (st, m2) → st + 4096 ≤ base + KERNEL_MEMORY_SIZE) →
  (create_no_room s.(mem) ∧
   ∃ s', create_process base s pid entry prio dl ttr = Ok (0, s') ∧
     s'.(ready_queue) = s.(ready_queue) ∧ s'.(process_table_head) = s.(process_table_head) ∧
     queue_rep base s'.(mem) s'.(ready_queue) l) ∨
  (¬ create_no_room s.(mem) ∧
   ∃ p s', create_process base s pid entry prio dl ttr = Ok (p, s') ∧ p ≠ 0 ∧
     live !! p = None ∧ created base s s' l p pid entry prio ∧
     ∃ live', live ⊆ live' ∧ live' !! p = Some SIZEOF_PCB ∧ inv s'.(mem) live').
Proof.
  intros Hinv Hq Hlive Hlen Hhead Hwrap. unfold create_process, alloc.
  destruct (kmalloc_client base Hbase s.(mem) live SIZEOF_PCB Hinv ltac:(lia))
    as [E|(p & m1 & Hk1 & Hp0 & Hinv1 & Hfp & Hkept1 & Hbytes1)].
  { left. split; [left; by eexists|]. exists s. rewrite E, !bind_ok. by destruct s. }
  rewrite Hk1, !bind_ok, (proj2 (Z.eqb_neq _ _) Hp0). rewrite set_mem_mem.
  pose proof (queue_rep_kept base _ _ _ _ _ Hq Hlive Hkept1) as Hq1.
  destruct (kmalloc_client base Hbase m1 _ 4096 Hinv1 ltac:(lia))
    as [E|(st & m2 & Hk2 & Hst0 & Hinv2 & Hfs & Hkept2 & _)].
  { left. split; [right; by eexists _, _, _|]. exists (set_mem m1 s). by rewrite E, !bind_ok. }
  right. split.
  { intros [(m1' & E)|(p' & m1' & m2' & E1 & E2)]; simplify_eq; congruence. }
  rewrite Hk2, !bind_ok, (proj2 (Z.eqb_neq _ _) Hst0). cbn zeta.
  pose proof (Hwrap p m1 st m2 Hk1 Hk2) as Hstk. pose proof (fb_low _ _ _ _ Hfs).
  rewrite (init_pcb_ok base Hbase Hfit p st (fresh_pcb base live p Hfp) ltac:(lia)).
  pose proof (queue_rep_kept base _ _ _ _ _ Hq1 Hlive
    (blocks_kept_mono base _ _ _ _ (insert_subseteq _ _ _ (fb_new _ _ _ _ Hfp)) Hkept2)) as Hq2.
  destruct (create_process_finish s m2 live l p st pid entry prio dl ttr Hinv2 Hfp Hfs Hstk
    Hlive Hlen Hq2 Hhead) as (s' & Hs' & Hcr & live' & Hsub & Hlp & Hinv').
  exists p, s'. split; [exact Hs'|]. split; [done|]. split; [apply Hfp|].
  split; [|by exists live'].
  assert (∀ x o, x ∈ l → 0 ≤ o ≤ 88 → word m2 (x + o) = word s.(mem) (x + o)) as Hold.
  { intros x o Hx Ho. transitivity (word m1 (x + o)).
    - eapply kept_pcb; [exact Hkept2| |done].
      rewrite lookup_insert_ne; [by apply Hlive|]. intros ->.
      pose proof (fb_new _ _ _ _ Hfp). by rewrite (Hlive x Hx) in *.
    - eapply kept_pcb; [exact Hkept1|by apply Hlive|done]. }
  destruct Hcr. split; try done.
  - erewrite insert_by_ext; [exact cr_queue|]. intros x Hx. simpl. case_decide; [done|].
    apply elem_of_cons in Hx as [?|Hx]; [done|]. unfold priority_of, key_of. simpl.
    by rewrite Hold by (done || lia).
  - rewrite cr_parent. simpl. transitivity (word m1 (p + PCB_parent)).
    + eapply kept_pcb; [exact Hkept2|apply lookup_insert_eq|lia].
    + apply word_same. intros b Hb. apply Hbytes1. lia.
  - intros x o Hx Ho. rewrite cr_others by done. apply Hold; [done|apply Ho].
Qed.
End proc.

(** ** A kernel without processes *)

Definition demo_kernel : kstate := MkKstate demo_memory 0 (MkQueue 0 0) 0 1.

Lemma demo_no_wrap p m1 st m2 :
  kmalloc demo_base demo_memory SIZEOF_PCB = Ok (p, m1) → kmalloc demo_base m1 4096 = Ok (st, m2) →
  st + 4096 ≤ demo_base + KERNEL_MEMORY_SIZE.
Proof.
  intros H1 H2. assert (0 < demo_base) as Hb by done.
  destruct (roomy_kmalloc demo_base Hb demo_memory 0 SIZEOF_PCB demo_roomy)
    as (m1' & Hk1 & Hr1); [done|done|done|].
  rewrite H1 in Hk1. injection Hk1 as -> <-.
  destruct (roomy_kmalloc demo_base Hb m1 _ 4096 Hr1) as (m2' & Hk2 & _); [done|done|done|].
  rewrite H2 in Hk2. injection Hk2 as -> _. by vm_compute.
Qed.

Lemma demo_room : ¬ create_no_room demo_base demo_memory.
Proof.
  assert (0 < demo_base) as Hb by done.
  destruct (roomy_kmalloc demo_base Hb demo_memory 0 SIZEOF_PCB demo_roomy)
    as (m1 & Hk1 & Hr1); [done|done|done|].
  destruct (roomy_kmalloc demo_base Hb m1 _ 4096 Hr1) as (m2 & Hk2 & _); [done|done|done|].
  intros [(m1' & E)|(p & m1' & m2' & E1 & E2)]; [by rewrite Hk1 in E|].
  rewrite Hk1 in E1. injection E1 as <- <-. by rewrite Hk2 in E2.
Qed.

(** It has room for a process. *)
Lemma create_process_outcome_witness :
  ∃ p s', create_process demo_base demo_kernel 1 5000 3 1 2 = Ok (p, s') ∧ p ≠ 0 ∧
    (∅ : gmap Z Z) !! p = None ∧ created demo_base demo_kernel s' [] p 1 5000 3 ∧
    ∃ live', ∅ ⊆ live' ∧ live' !! p = Some SIZEOF_PCB ∧ heap_inv demo_base s'.(mem) live'.
Proof.
  assert (0 < demo_base) as Hb by done.
  destruct (create_process_outcome demo_base Hb ltac:(by vm_compute) (inv := heap_inv demo_base)
    (HS := heap_spec demo_base Hb) demo_kernel ∅ [] 1 5000 3 1 2) as [[Hno _]|[_ H]].
  - apply (heap_reach_inv demo_base Hb), demo_reach.
  - apply queue_rep_nil.
  - intros q Hq. by apply not_elem_of_nil in Hq.
  - simpl. lia.
  - simpl. lia.
  - apply demo_no_wrap.
  - by destruct (demo_room Hno).
  - exact H.
Defined.
