(* ===== verification/ForkSpec.v ===== *)
(** * [fork]

    The child of [fork_syscall] is followed through the stores of the call:
    a fresh PCB, a byte-wise copy of the parent's stack, and the same two words
    on top of it. *)
From S2P Require Import Prelude Memory MemorySpec MemoryProps MemWords ProcQueue QueueSpec QueueProps Process SchedSpec SchedProps ProcSpec.

Section fork.
Context (base : Z) (Hbase : 0 < base) (Hfit : base + KERNEL_MEMORY_SIZE < 2 ^ 32).
Context {inv : memory → gmap Z Z → Prop} {HS : HeapSpec base inv}.

Local Abbreviation word := (word base).
Local Abbreviation poke := (poke base).
Local Abbreviation poke8 := (poke8 base).

(** The stores into the child's PCB before its stack is allocated. *)
Definition fork_child (m : memory) (c pid parent prio : Z) : memory :=
  poke (poke (poke m (c + PCB_pid) pid) (c + PCB_parent) parent) (c + PCB_priority) prio.

(** The stores after the stack was copied, up to the queue; [k] is the kernel
    stack, [m'] the memory after its allocation. *)
Definition fork_publish (m' : memory) (c k head : Z) : memory :=
  let m := poke m' (c + PCB_kernel_stack_base) k in
  let m := poke m (c + PCB_kernel_stack_ptr) (u32 (u32 k + KERNEL_STACK_SIZE)) in
  let m := poke m (c + PCB_state) STATE_READY in
  let m := poke8 m (c + PCB_is_new_child) 1 in
  poke m (c + PCB_next_in_table) head.

Lemma load8_poke8_ne m a v b : b ≠ a → load8 base (poke8 m a v) b = load8 base m b.
Proof.
  intros Hne. unfold load8, SchedSpec.poke8, set_kernel_memory. cbn [kernel_memory].
  case_bool_decide; [|done]. by rewrite lookup_insert_ne by lia.
Qed.

Lemma fork_publish_frame m c k head b :
  ¬ (c ≤ b < c + SIZEOF_PCB) → load8 base (fork_publish m c k head) b = load8 base m b.
Proof.
  intros Hc. unfold fork_publish. rewrite load8_poke_ne, load8_poke8_ne by lia.
  by rewrite !load8_poke_ne by lia.
Qed.

Lemma fork_child_frame m c pid parent prio b :
  ¬ (c ≤ b < c + SIZEOF_PCB) → load8 base (fork_child m c pid parent prio) b = load8 base m b.
Proof. intros Hc. unfold fork_child. by rewrite !load8_poke_ne by lia. Qed.

Section words.
Context (c : Z) (Hc : pcb_ok base c).

Lemma word_poke8_ne m a v b : ¬ (b ≤ a < b + 4) → word (poke8 m a v) b = word m b.
Proof. intros H. apply word_same. intros x Hx. apply load8_poke8_ne. lia. Qed.

Lemma fork_child_words m pid parent prio :
  let m' := fork_child m c pid parent prio in
  word m' (c + PCB_pid) = u32 pid ∧ word m' (c + PCB_parent) = u32 parent ∧
  word m' (c + PCB_priority) = u32 prio ∧
  (∀ o, o = PCB_user_stack_base ∨ o = PCB_deadline ∨ o = PCB_cr3 →
     word m' (c + o) = word m (c + o)).
Proof.
  unfold fork_child, pcb_ok in *.
  split_and!; try intros o Ho; repeat rewrite word_poke_ne by (unfold apart; lia);
    rewrite ?word_poke_eq by (unfold valid_word; lia); done.
Qed.

Lemma fork_publish_words m k head :
  0 ≤ head < 2 ^ 32 →
  let m' := fork_publish m c k head in
  word m' (c + PCB_state) = STATE_READY ∧ word m' (c + PCB_next_in_table) = head ∧
  new_child base m' c = true ∧
  (∀ o, o = PCB_pid ∨ o = PCB_priority ∨ o = PCB_user_stack_ptr ∨ o = PCB_user_stack_base ∨
        o = PCB_parent ∨ o = PCB_deadline ∨ o = PCB_cr3 → word m' (c + o) = word m (c + o)).
Proof.
  intros Hh. unfold fork_publish, pcb_ok in *. split_and!.
  - rewrite word_poke_ne, word_poke8_ne by (unfold apart; lia).
    by rewrite word_poke_eq by (unfold valid_word; lia).
  - rewrite word_poke_eq by (unfold valid_word; lia). by rewrite u32_small by lia.
  - unfold new_child. rewrite load8_poke_ne by lia. unfold SchedSpec.poke8, set_kernel_memory.
    rewrite load8_ok by lia. cbn [kernel_memory]. by rewrite lookup_insert_eq.
  - intros o Ho. rewrite word_poke_ne, word_poke8_ne by (unfold apart; lia).
    by rewrite !word_poke_ne by (unfold apart; lia).
Qed.

(** The stores of [fork_syscall] after the kernel stack was allocated. *)
Lemma fork_publish_ok {B} s m k (f : kstate → res B) :
  let s1 := set_mem (poke (poke m (c + PCB_kernel_stack_base) k) (c + PCB_kernel_stack_ptr)
              (u32 (u32 k + KERNEL_STACK_SIZE))) s in
  (s ← assign base s1 c PCB_state STATE_READY;
   s ← set_new_child base s c true;
   s ← assign base s c PCB_next_in_table s.(process_table_head); f s) =
  f (set_mem (fork_publish m c k s.(process_table_head)) s).
Proof.
  intros s1. rewrite assign_ok, bind_ok by (done || lia).
  rewrite set_new_child_ok, bind_ok by done.
  rewrite assign_ok, bind_ok by (done || lia). done.
Qed.
End words.

(** ** What [fork] needs and what it leaves behind *)

(** A live block of one page whose bytes can be read. *)
Record page_ready (s : kstate) (live : gmap Z Z) (a : Z) : Prop := {
  pg_live : live !! a = Some 4096;
  pg_room : a + 4096 ≤ base + KERNEL_MEMORY_SIZE;
  pg_bytes : ∀ i, 0 ≤ i < 4096 → source_byte base s.(mem) (a + i);
}.

(** The current process, its stack, its page tables if it has some, and the
    ready queue are live blocks. *)
Record fork_ready (s : kstate) (live : gmap Z Z) (l : list Z) (usb ebp : Z) : Prop := {
  fr_inv : inv s.(mem) live;
  fr_sched : sched_ok base s l;
  fr_live : pcbs_live live l;
  fr_parent : live !! s.(current_process) = Some SIZEOF_PCB;
  fr_base : word s.(mem) (s.(current_process) + PCB_user_stack_base) = usb;
  fr_stack : page_ready s live usb;
  fr_ebp : usb ≤ ebp ∧ ebp + 8 ≤ usb + 4096;
  fr_cr3 : let cr3 := word s.(mem) (s.(current_process) + PCB_cr3) in
           cr3 = 0 ∨ page_ready s live cr3;
  fr_head : 0 ≤ s.(process_table_head) < 2 ^ 32;
  fr_pid : 0 ≤ s.(next_pid) < 2 ^ 32;
}.

(** The page tables of the child [c] are a copy of those of the parent, in a
    block of their own; [m] is the memory before the call and [m'] a later one.
    Without page tables the field of the child keeps what the memory held. *)
Definition tables_copied (live : gmap Z Z) (m m' : memory) (c cr3 : Z) : Prop :=
  if cr3 =? 0 then word m' (c + PCB_cr3) = word m (c + PCB_cr3)
  else ∃ pt, word m' (c + PCB_cr3) = pt ∧ fresh_block base live pt 4096 ∧
    ∀ i, 0 ≤ i < 4096 → load8 base m' (pt + i) = load8 base m (cr3 + i).

Record forked (s s' : kstate) (live : gmap Z Z) (l : list Z) (c usb ebp : Z) : Prop := {
  fk_table : s'.(process_table_head) = c;
  fk_current : s'.(current_process) = s.(current_process);
  fk_pids : s'.(next_pid) = u32 (s.(next_pid) + 1);
  fk_queue : queue_rep base s'.(mem) s'.(ready_queue)
    (insert_by (λ x, priority_of base s (if decide (x = c) then s.(current_process) else x)) c l);
  fk_pid : word s'.(mem) (c + PCB_pid) = s.(next_pid);
  fk_state : word s'.(mem) (c + PCB_state) = STATE_READY;
  fk_parent : word s'.(mem) (c + PCB_parent) = s.(current_process);
  fk_next : word s'.(mem) (c + PCB_next_in_table) = s.(process_table_head);
  fk_priority : priority_of base s' c = priority_of base s s.(current_process);
  fk_new : new_child base s'.(mem) c = true;
  fk_parent_sp : word s'.(mem) (s.(current_process) + PCB_user_stack_ptr) = ebp;
  fk_resume : popped base s'.(mem) (word s'.(mem) (c + PCB_user_stack_ptr)) =
              popped base s.(mem) ebp;
  fk_stack : ∀ i, 0 ≤ i < 4096 →
    load8 base s'.(mem) (word s'.(mem) (c + PCB_user_stack_ptr) - (ebp - usb) + i) =
    load8 base s.(mem) (usb + i);
  fk_stack_base : word s'.(mem) (c + PCB_user_stack_base) = word s.(mem) (c + PCB_user_stack_base);
  fk_tables : tables_copied live s.(mem) s'.(mem) c (word s.(mem) (s.(current_process) + PCB_cr3));
  fk_others : ∀ q o, live !! q = Some SIZEOF_PCB → 0 ≤ o ≤ 88 →
    o + 4 ≤ PCB_next ∨ PCB_next + 4 ≤ o →
    q ≠ s.(current_process) ∨ o + 4 ≤ PCB_user_stack_ptr ∨ PCB_user_stack_ptr + 4 ≤ o →
    word s'.(mem) (q + o) = word s.(mem) (q + o);
}.

(** ** The memories a successful call goes through *)

Section trace.
Context (s : kstate) (live : gmap Z Z) (l : list Z) (usb ebp : Z).
Context (Hready : fork_ready s live l usb ebp).
Context (c st k : Z) (m2 m4 m5 m7 : memory).

Let p := s.(current_process).
Let m1 := poke s.(mem) (p + PCB_user_stack_ptr) ebp.
Let prio := word s.(mem) (p + PCB_priority).
Let m3 := fork_child m2 c s.(next_pid) p prio.
Let live1 := <[c := SIZEOF_PCB]> live.
Let live2 := <[st := 4096]> live1.
Let m6 := poke m5 (c + PCB_user_stack_ptr) (st + (ebp - usb)).
Let m8 := fork_publish m7 c k s.(process_table_head).

(** What is known once the PCB and the stack of the child are allocated. *)
Record alloc_trace : Prop := {
  ft_child : fresh_block base live c SIZEOF_PCB;
  ft_kept1 : blocks_kept base m1 m2 live;
  ft_bytes1 : ∀ b, c ≤ b → load8 base m2 b = load8 base m1 b;
  ft_stack : fresh_block base live1 st 4096;
  ft_room : st + 4096 ≤ base + KERNEL_MEMORY_SIZE;
  ft_kept2 : blocks_kept base m3 m4 live1;
}.

(** The same for the copy of the stack, the page tables and the last
    allocation. *)
Record copy_trace : Prop := {
  ft_copied : ∀ i, 0 ≤ i < 4096 → load8 base m5 (st + i) = load8 base m4 (usb + i);
  ft_rest : ∀ b, ¬ (st ≤ b < st + 4096) → load8 base m5 b = load8 base m4 b;
  ft_kept3 : ∀ q sz b, live2 !! q = Some sz → sz ≤ 2 ^ 32 - 4104 → q ≤ b < q + sz →
    ¬ (c + PCB_cr3 ≤ b < c + PCB_cr3 + 4) → load8 base m7 b = load8 base m6 b;
  ft_tables : tables_copied live2 m6 m7 c (word s.(mem) (p + PCB_cr3));
}.

Context (Ha : alloc_trace).

Lemma live_live1 q sz : live !! q = Some sz → live1 !! q = Some sz ∧ q ≠ c.
Proof.
  intros Hq. assert (q ≠ c) as Hne by (intros ->; by rewrite (fb_new _ _ _ _ (ft_child Ha)) in Hq).
  split; [|done]. unfold live1. by rewrite lookup_insert_ne.
Qed.

Lemma live1_live2 q sz : live1 !! q = Some sz → live2 !! q = Some sz ∧ q ≠ st.
Proof.
  intros Hq. assert (q ≠ st) as Hne by (intros ->; by rewrite (fb_new _ _ _ _ (ft_stack Ha)) in Hq).
  split; [|done]. unfold live2. by rewrite lookup_insert_ne.
Qed.

Lemma child_ok : pcb_ok base c.
Proof. by eapply fresh_pcb, (ft_child Ha). Qed.

Lemma child_stack : c + SIZEOF_PCB ≤ st ∨ st + 4096 ≤ c.
Proof.
  destruct (fb_apart _ _ _ _ (ft_stack Ha) c SIZEOF_PCB); [apply lookup_insert_eq|lia|lia|lia].
Qed.

(** An old block keeps the bytes it has after the first store of the call;
    first up to the copy of the stack. *)
Lemma first_byte4 q sz b :
  live !! q = Some sz → sz ≤ 2 ^ 32 - 4104 → q ≤ b < q + sz →
  load8 base m4 b = load8 base m1 b.
Proof.
  intros Hq Hsz Hb. destruct (live_live1 q sz Hq) as [Hq1 _].
  rewrite (ft_kept2 Ha q sz b) by done. unfold m3.
  rewrite fork_child_frame by (destruct (fb_apart _ _ _ _ (ft_child Ha) q sz Hq Hsz); lia).
  by rewrite (ft_kept1 Ha q sz b) by done.
Qed.

(** Only the parent's stack pointer differs from the memory before the call. *)
Lemma old_byte4 q sz b :
  live !! q = Some sz → sz ≤ 2 ^ 32 - 4104 → q ≤ b < q + sz →
  ¬ (p + PCB_user_stack_ptr ≤ b < p + PCB_user_stack_ptr + 4) →
  load8 base m4 b = load8 base s.(mem) b.
Proof.
  intros Hq Hsz Hb Hne. rewrite (first_byte4 q sz) by done. unfold m1. by rewrite load8_poke_ne.
Qed.

(** The parent's stack pointer, from the first store on. *)
Lemma parent_sp1 : pcb_ok base p → 0 ≤ ebp < 2 ^ 32 → word m1 (p + PCB_user_stack_ptr) = ebp.
Proof.
  intros Hpo He. unfold m1. rewrite word_poke_eq by (apply pcb_word; [done|lia]).
  by apply u32_small.
Qed.

Lemma parent_sp4 :
  live !! p = Some SIZEOF_PCB → pcb_ok base p → 0 ≤ ebp < 2 ^ 32 →
  word m4 (p + PCB_user_stack_ptr) = ebp.
Proof.
  intros Hp Hpo He. rewrite <-(parent_sp1 Hpo He). apply word_same. intros b Hb.
  apply (first_byte4 p SIZEOF_PCB); done || lia.
Qed.

Lemma old_word4 q sz a :
  live !! q = Some sz → sz ≤ 2 ^ 32 - 4104 → q ≤ a → a + 4 ≤ q + sz →
  apart (p + PCB_user_stack_ptr) a → word m4 a = word s.(mem) a.
Proof.
  intros Hq Hsz H1 H2 Hap. unfold apart in Hap. apply word_same. intros b Hb.
  apply (old_byte4 q sz); done || lia.
Qed.

(** The copy of the stack and the child's stack pointer do not reach an old
    block. *)
Lemma copied_byte q sz b :
  (∀ b, ¬ (st ≤ b < st + 4096) → load8 base m5 b = load8 base m4 b) →
  live !! q = Some sz → sz ≤ 2 ^ 32 - 4104 → q ≤ b < q + sz → load8 base m6 b = load8 base m4 b.
Proof.
  intros Hrest Hq Hsz Hb. destruct (live_live1 q sz Hq) as [Hq1 _]. unfold m6.
  rewrite load8_poke_ne by (destruct (fb_apart _ _ _ _ (ft_child Ha) q sz Hq Hsz); lia).
  apply Hrest. destruct (fb_apart _ _ _ _ (ft_stack Ha) q sz Hq1 Hsz); lia.
Qed.

Context (Ht : copy_trace).

Lemma first_byte q sz b :
  live !! q = Some sz → sz ≤ 2 ^ 32 - 4104 → q ≤ b < q + sz →
  load8 base m8 b = load8 base m1 b.
Proof.
  intros Hq Hsz Hb. destruct (live_live1 q sz Hq) as [Hq1 _].
  destruct (live1_live2 q sz Hq1) as [Hq2 _].
  assert (¬ (c ≤ b < c + SIZEOF_PCB)) as Hbc
    by (destruct (fb_apart _ _ _ _ (ft_child Ha) q sz Hq Hsz); lia).
  unfold m8. rewrite fork_publish_frame by done. rewrite (ft_kept3 Ht q sz b) by (done || lia).
  unfold m6. rewrite load8_poke_ne by lia. rewrite (ft_rest Ht); [by apply (first_byte4 q sz)|].
  destruct (fb_apart _ _ _ _ (ft_stack Ha) q sz Hq1 Hsz); lia.
Qed.

Lemma parent_sp :
  live !! p = Some SIZEOF_PCB → pcb_ok base p → 0 ≤ ebp < 2 ^ 32 →
  word m8 (p + PCB_user_stack_ptr) = ebp.
Proof.
  intros Hp Hpo He. rewrite <-(parent_sp1 Hpo He). apply word_same. intros b Hb.
  apply (first_byte p SIZEOF_PCB); done || lia.
Qed.

Lemma old_byte q sz b :
  live !! q = Some sz → sz ≤ 2 ^ 32 - 4104 → q ≤ b < q + sz →
  ¬ (p + PCB_user_stack_ptr ≤ b < p + PCB_user_stack_ptr + 4) →
  load8 base m8 b = load8 base s.(mem) b.
Proof.
  intros Hq Hsz Hb Hne. rewrite (first_byte q sz) by done. unfold m1. by rewrite load8_poke_ne.
Qed.

Lemma old_word q sz a :
  live !! q = Some sz → sz ≤ 2 ^ 32 - 4104 → q ≤ a → a + 4 ≤ q + sz →
  apart (p + PCB_user_stack_ptr) a →
  word m8 a = word s.(mem) a ∧ word m4 a = word s.(mem) a.
Proof.
  intros Hq Hsz H1 H2 Hap. split; [|by apply (old_word4 q sz)]. unfold apart in Hap.
  apply word_same. intros b Hb. apply (old_byte q sz); done || lia.
Qed.

(** The child's stack is the parent's. *)
Lemma stack_byte i :
  p + SIZEOF_PCB ≤ usb ∨ usb + 4096 ≤ p → 0 ≤ i < 4096 →
  load8 base m8 (st + i) = load8 base s.(mem) (usb + i).
Proof.
  intros Hpu Hi. pose proof child_stack. unfold m8. rewrite fork_publish_frame by lia.
  rewrite (ft_kept3 Ht st 4096) by (apply lookup_insert_eq || lia).
  unfold m6. rewrite load8_poke_ne by lia. rewrite (ft_copied Ht) by done.
  apply (old_byte4 usb 4096); [apply (pg_live _ _ _ (fr_stack _ _ _ _ _ Hready))|lia|lia|lia].
Qed.

(** The fields of the child. *)
Lemma child_kept o :
  0 ≤ o ≤ 88 → o + 4 ≤ PCB_cr3 ∨ PCB_cr3 + 4 ≤ o → word m7 (c + o) = word m6 (c + o).
Proof.
  intros Ho Hne. assert (live1 !! c = Some SIZEOF_PCB) as Hc1 by apply lookup_insert_eq.
  apply word_same. intros b Hb.
  apply (ft_kept3 Ht c SIZEOF_PCB); [by apply live1_live2|lia|lia|lia].
Qed.

Lemma child_copied o :
  0 ≤ o ≤ 88 → o + 4 ≤ PCB_user_stack_ptr ∨ PCB_user_stack_ptr + 4 ≤ o →
  word m6 (c + o) = word m3 (c + o).
Proof.
  intros Ho Hne. pose proof child_stack as Hcs.
  assert (live1 !! c = Some SIZEOF_PCB) as Hc1 by apply lookup_insert_eq.
  unfold m6. rewrite word_poke_ne by (unfold apart; lia).
  transitivity (word m4 (c + o)).
  - apply word_same. intros b Hb. apply (ft_rest Ht). lia.
  - apply (kept_pcb base m3 m4 live1); [apply (ft_kept2 Ha)|done|lia].
Qed.

Lemma child_word o :
  o = PCB_pid ∨ o = PCB_priority ∨ o = PCB_user_stack_base ∨ o = PCB_parent →
  word m8 (c + o) = word m3 (c + o).
Proof.
  intros Ho.
  destruct (fork_publish_words c child_ok m7 k s.(process_table_head) (fr_head _ _ _ _ _ Hready))
    as (_ & _ & _ & Hf). unfold m8. rewrite Hf by tauto. by rewrite child_kept, child_copied by lia.
Qed.

(** What the allocator handed out as PCB still holds the old bytes. *)
Lemma child_fresh_word o :
  live !! p = Some SIZEOF_PCB → 0 ≤ o ≤ 88 → word m2 (c + o) = word s.(mem) (c + o).
Proof.
  intros Hp Ho. apply word_same. intros b Hb. rewrite (ft_bytes1 Ha) by lia.
  unfold m1. apply load8_poke_ne. destruct (fb_apart _ _ _ _ (ft_child Ha) p _ Hp); lia.
Qed.

(** The page tables, or the field nothing was stored to. *)
Lemma child_tables :
  let cr3 := word s.(mem) (p + PCB_cr3) in
  live !! p = Some SIZEOF_PCB → cr3 = 0 ∨ page_ready s live cr3 →
  tables_copied live2 s.(mem) m8 c cr3.
Proof.
  intros cr3 Hp Hcr. pose proof child_ok as Hco. pose proof (ft_tables Ht) as H. fold cr3 in H.
  destruct (fork_publish_words c Hco m7 k s.(process_table_head) (fr_head _ _ _ _ _ Hready))
    as (_ & _ & _ & Hf). unfold tables_copied in H |- *. unfold m8.
  rewrite Hf by tauto. destruct (Z.eqb_spec cr3 0) as [E|Hne].
  - rewrite H, child_copied by lia. unfold m3.
    destruct (fork_child_words c Hco m2 s.(next_pid) p prio) as (_ & _ & _ & C).
    rewrite C by tauto. by apply child_fresh_word.
  - destruct Hcr as [?|Hpg]; [done|]. destruct H as (pt & Hpt & Hfr & Hb).
    exists pt. split; [done|]. split; [done|]. intros i Hi.
    assert (live2 !! c = Some SIZEOF_PCB) as Hc2 by (apply live1_live2, lookup_insert_eq).
    rewrite fork_publish_frame by (destruct (fb_apart _ _ _ _ Hfr c _ Hc2); lia).
    rewrite Hb by done. pose proof (pg_live _ _ _ Hpg) as Hcl.
    rewrite (copied_byte cr3 4096) by (apply (ft_rest Ht) || done || lia).
    assert (p ≠ cr3) as Hpc by (intros E; rewrite E in Hp; congruence).
    apply (old_byte4 cr3 4096); [done|lia|lia|].
    destruct (hs_apart _ _ p cr3 _ _ (fr_inv _ _ _ _ _ Hready) Hp Hcl Hpc); lia.
Qed.

Lemma child_sp : word m8 (c + PCB_user_stack_ptr) = st + (ebp - usb).
Proof.
  pose proof child_stack as Hcs. pose proof child_ok as Hc. destruct (fr_ebp _ _ _ _ _ Hready).
  assert (live1 !! c = Some SIZEOF_PCB) as Hc1 by apply lookup_insert_eq.
  pose proof (fb_low _ _ _ _ (ft_stack Ha)). pose proof (ft_room Ha).
  destruct (fork_publish_words c child_ok m7 k s.(process_table_head) (fr_head _ _ _ _ _ Hready))
    as (_ & _ & _ & Hf). unfold m8. rewrite Hf by tauto.
  rewrite child_kept by lia.
  unfold m6. rewrite word_poke_eq by (unfold valid_word, pcb_ok in *; lia).
  apply u32_small. lia.
Qed.
End trace.
End fork.
