(* ===== verification/ForkProps.v ===== *)
(** * [fork_syscall], as a whole *)
From S2P Require Import Prelude Memory MemorySpec MemoryProps MemWords ProcQueue QueueSpec QueueProps Process SchedSpec SchedProps ProcSpec ForkSpec.

#[local] Ltac Zify.zify_post_hook ::= Z.to_euclidean_division_equations.

Lemma i32_u32 z : i32 (u32 z) = i32 z.
Proof. unfold i32, u32. lia. Qed.

Lemma popped_same base m m' sp sp' :
  (∀ o, 0 ≤ o < 8 → load8 base m' (sp' + o) = load8 base m (sp + o)) →
  popped base m' sp' = popped base m sp.
Proof.
  intros H. unfold popped, load32. pose proof (H 0 ltac:(lia)) as H0.
  rewrite !Z.add_0_r in H0. rewrite H0. rewrite <-!Z.add_assoc.
  rewrite (H 1), (H 2), (H 3), (H 4), (H (4 + 1)), (H (4 + 2)), (H (4 + 3)) by lia. done.
Qed.

Section fork.
Context (base : Z) (Hbase : 0 < base) (Hfit : base + KERNEL_MEMORY_SIZE < 2 ^ 32).
Context {inv : memory → gmap Z Z → Prop} {HS : HeapSpec base inv}.

Local Abbreviation word := (word base).
Local Abbreviation poke := (poke base).

(** The memories [fork_syscall] calls [kmalloc] in, for the PCB and for the
    stack of the child. *)
Definition fork_memory (s : kstate) (ebp : Z) : memory :=
  poke s.(mem) (s.(current_process) + PCB_user_stack_ptr) ebp.
Definition fork_child_memory (s : kstate) (m2 : memory) (c : Z) : memory :=
  fork_child base m2 c s.(next_pid) s.(current_process)
    (word s.(mem) (s.(current_process) + PCB_priority)).

(** [fork_syscall] gives up exactly when the allocator has no room for the
    child's PCB, for its stack, or for the page tables that a parent with page
    tables hands on. *)
Definition tables_no_room (cr3 : Z) (m : memory) : Prop :=
  cr3 ≠ 0 ∧ ∃ m', kmalloc base m 4096 = Ok (0, m').
Definition fork_no_room (s : kstate) (usb ebp : Z) : Prop :=
  (∃ m2, kmalloc base (fork_memory s ebp) SIZEOF_PCB = Ok (0, m2)) ∨
  (∃ c m2 m4, kmalloc base (fork_memory s ebp) SIZEOF_PCB = Ok (c, m2) ∧
     kmalloc base (fork_child_memory s m2 c) 4096 = Ok (0, m4)) ∨
  (∃ c m2 st m4 m5, kmalloc base (fork_memory s ebp) SIZEOF_PCB = Ok (c, m2) ∧
     kmalloc base (fork_child_memory s m2 c) 4096 = Ok (st, m4) ∧
     copy_memory base m4 st usb 4096 = Ok m5 ∧
     tables_no_room (word s.(mem) (s.(current_process) + PCB_cr3))
       (poke m5 (c + PCB_user_stack_ptr) (st + (ebp - usb)))).

(** The blocks of the call do not run past the end of the kernel memory. *)
Definition fork_no_wrap (s : kstate) (usb ebp : Z) : Prop :=
  ∀ c m2 st m4, kmalloc base (fork_memory s ebp) SIZEOF_PCB = Ok (c, m2) →
    kmalloc base (fork_child_memory s m2 c) 4096 = Ok (st, m4) →
    st + 4096 ≤ base + KERNEL_MEMORY_SIZE ∧
    ∀ m5 pt m6, copy_memory base m4 st usb 4096 = Ok m5 →
      kmalloc base (poke m5 (c + PCB_user_stack_ptr) (st + (ebp - usb))) 4096 = Ok (pt, m6) →
      pt + 4096 ≤ base + KERNEL_MEMORY_SIZE.

Lemma fresh_block_mono live live' a sz :
  live ⊆ live' → fresh_block base live' a sz → fresh_block base live a sz.
Proof.
  intros Hsub []. split; try done; [by eapply lookup_weaken_None|].
  intros q sz' Hq. apply fb_apart. by eapply lookup_weaken.
Qed.

Section finish.
Context (s : kstate) (live : gmap Z Z) (l : list Z) (usb ebp : Z).
Context (Hr : fork_ready base (inv := inv) s live l usb ebp).
Context (c st : Z) (m2 m4 : memory) (Ha : alloc_trace base s live ebp c st m2 m4).
Context (Hinv4 : inv m4 (<[st := 4096]> (<[c := SIZEOF_PCB]> live))).

Let p := s.(current_process).
Let cr3 := word s.(mem) (p + PCB_cr3).
Let live1 := <[c := SIZEOF_PCB]> live.
Let live2 := <[st := 4096]> live1.
Let s4 := MkKstate m4 p s.(ready_queue) s.(process_table_head) (u32 (s.(next_pid) + 1)).

Lemma parent_ok : pcb_ok base p.
Proof.
  destruct (hs_range _ _ p _ (fr_inv _ _ _ _ _ _ Hr) (fr_parent _ _ _ _ _ _ Hr)).
  unfold pcb_ok. lia.
Qed.

Lemma page_apart a : page_ready base s live a → p + SIZEOF_PCB ≤ a ∨ a + 4096 ≤ p.
Proof.
  intros Hp. pose proof (pg_live _ _ _ _ Hp) as Hl. pose proof (fr_parent _ _ _ _ _ _ Hr) as Hpl.
  fold p in Hpl. assert (p ≠ a) as Hne by (intros ->; congruence).
  destruct (hs_apart _ _ p a _ _ (fr_inv _ _ _ _ _ _ Hr) Hpl Hl Hne); lia.
Qed.

Lemma parent_stack : p + SIZEOF_PCB ≤ usb ∨ usb + 4096 ≤ p.
Proof. apply page_apart, (fr_stack _ _ _ _ _ _ Hr). Qed.

Lemma page_byte4 a i :
  page_ready base s live a → 0 ≤ i < 4096 → load8 base m4 (a + i) = load8 base s.(mem) (a + i).
Proof.
  intros Hp Hi. destruct (page_apart a Hp);
    (apply (old_byte4 base s live ebp c st m2 m4 Ha a 4096);
      [apply (pg_live _ _ _ _ Hp)|lia|lia|fold p; lia]).
Qed.

Lemma live_child2 : live2 !! c = Some SIZEOF_PCB.
Proof. apply (live1_live2 base s live ebp c st m2 m4 Ha), lookup_insert_eq. Qed.

Lemma live_live2 q sz : live !! q = Some sz → live2 !! q = Some sz.
Proof.
  intros Hq. apply (live1_live2 base s live ebp c st m2 m4 Ha).
  by apply (live_live1 base s live ebp c st m2 m4 Ha).
Qed.

(** ** The page tables *)

Section pages.
Context (m5 : memory) (Hout : ∀ b, ¬ (st ≤ b < st + 4096) → load8 base m5 b = load8 base m4 b).
Context (Hinv5 : inv m5 live2).

Let m6 := poke m5 (c + PCB_user_stack_ptr) (st + (ebp - usb)).

Lemma copied_parent o :
  0 ≤ o ≤ 88 → o + 4 ≤ PCB_user_stack_ptr ∨ PCB_user_stack_ptr + 4 ≤ o →
  word m6 (p + o) = word s.(mem) (p + o).
Proof.
  intros Ho Hne. pose proof (fr_parent _ _ _ _ _ _ Hr) as Hp. fold p in Hp.
  transitivity (word m4 (p + o)).
  - apply word_same. intros b Hb.
    apply (copied_byte base s live usb ebp c st m2 m4 m5 Ha p SIZEOF_PCB); done || lia.
  - apply (old_word4 base s live ebp c st m2 m4 Ha p SIZEOF_PCB);
      [done|lia|lia|lia|unfold apart; fold p; lia].
Qed.

Lemma page_byte6 a i :
  page_ready base s live a → 0 ≤ i < 4096 → load8 base m6 (a + i) = load8 base s.(mem) (a + i).
Proof.
  intros Hp Hi. rewrite <-(page_byte4 a i) by done.
  apply (copied_byte base s live usb ebp c st m2 m4 m5 Ha a 4096);
    [done|apply (pg_live _ _ _ _ Hp)|lia|lia].
Qed.

(** A copy of the parent's page tables in a block of its own. *)
Lemma tables_copy pt ma :
  cr3 ≠ 0 → fresh_block base live2 pt 4096 → pt + 4096 ≤ base + KERNEL_MEMORY_SIZE →
  blocks_kept base m6 ma live2 →
  ∃ mp, copy_page_tables base (poke ma (c + PCB_cr3) pt) cr3 pt = Ok mp ∧
    mp.(page_table) = ma.(page_table) ∧ mp.(last_page_index) = ma.(last_page_index) ∧
    (∀ q sz b, live2 !! q = Some sz → sz ≤ 2 ^ 32 - 4104 → q ≤ b < q + sz →
       ¬ (c + PCB_cr3 ≤ b < c + PCB_cr3 + 4) → load8 base mp b = load8 base m6 b) ∧
    word mp (c + PCB_cr3) = pt ∧
    ∀ i, 0 ≤ i < 4096 → load8 base mp (pt + i) = load8 base m6 (cr3 + i).
Proof.
  intros Hcr Hf Hlim Hkept. destruct (fr_cr3 _ _ _ _ _ _ Hr) as [?|Hpg]; [done|]. fold p cr3 in Hpg.
  pose proof (child_ok base s live ebp c st m2 m4 Ha) as Hco. pose proof live_child2 as Hc2.
  pose proof (live_live2 _ _ (pg_live _ _ _ _ Hpg)) as Hcr2. pose proof (fb_low _ _ _ _ Hf).
  set (mb := poke ma (c + PCB_cr3) pt).
  assert (∀ q sz b, live2 !! q = Some sz → sz ≤ 2 ^ 32 - 4104 → q ≤ b < q + sz →
    ¬ (c + PCB_cr3 ≤ b < c + PCB_cr3 + 4) → load8 base mb b = load8 base m6 b) as Hb.
  { intros q sz b Hq Hsz Hb Hne. unfold mb. rewrite load8_poke_ne by done. by apply (Hkept q sz). }
  assert (∀ i, 0 ≤ i < 4096 → load8 base mb (cr3 + i) = load8 base m6 (cr3 + i)) as Hcrb.
  { intros i Hi. apply (Hb cr3 4096); [done|lia|lia|].
    destruct (fb_apart _ _ _ _ (ft_child _ _ _ _ _ _ _ _ Ha) cr3 4096 (pg_live _ _ _ _ Hpg)); lia. }
  destruct (copy_memory_spec base mb pt cr3 4096) as (mp & Hmp & Hpt & Hlast & Hin & Ho); [lia..| | |].
  { destruct (fb_apart _ _ _ _ Hf cr3 4096 Hcr2); lia. }
  { intros i Hi. destruct (pg_bytes _ _ _ _ Hpg i Hi) as (v & Hv & Hrange).
    exists v. split; [|done]. by rewrite Hcrb, page_byte6. }
  exists mp. split; [exact Hmp|]. split; [by rewrite Hpt|]. split; [by rewrite Hlast|].
  split; [|split].
  - intros q sz b Hq Hsz Hbq Hne. rewrite Ho; [by apply (Hb q sz)|].
    destruct (fb_apart _ _ _ _ Hf q sz Hq Hsz); lia.
  - transitivity (word mb (c + PCB_cr3)).
    + apply word_same. intros b Hbb. apply Ho. destruct (fb_apart _ _ _ _ Hf c _ Hc2); lia.
    + unfold mb. rewrite word_poke_eq by (apply pcb_word; [done|lia]). apply u32_small. lia.
  - intros i Hi. by rewrite Hin, Hcrb.
Qed.

Lemma fork_page_tables_ok :
  (∀ pt m', kmalloc base m6 4096 = Ok (pt, m') → pt + 4096 ≤ base + KERNEL_MEMORY_SIZE) →
  (tables_no_room cr3 m6 ∧
   fork_page_tables base (set_mem m6 s4) p c = Ok (false, set_mem (poke m6 (c + PCB_cr3) 0) s4)) ∨
  (¬ tables_no_room cr3 m6 ∧
   ∃ mp live', fork_page_tables base (set_mem m6 s4) p c = Ok (true, set_mem mp s4) ∧
     live2 ⊆ live' ∧ inv mp live' ∧
     (∀ q sz b, live2 !! q = Some sz → sz ≤ 2 ^ 32 - 4104 → q ≤ b < q + sz →
        ¬ (c + PCB_cr3 ≤ b < c + PCB_cr3 + 4) → load8 base mp b = load8 base m6 b) ∧
     tables_copied base live2 m6 mp c cr3 ∧
     (cr3 ≠ 0 → live' !! word mp (c + PCB_cr3) = Some 4096)).
Proof.
  intros Hwrap. pose proof parent_ok as Hpo. pose proof (child_ok base s live ebp c st m2 m4 Ha) as Hco.
  unfold fork_page_tables. cbn [mem set_mem]. rewrite get_field_ok, bind_ok by (done || lia).
  rewrite copied_parent by lia. fold cr3. unfold tables_copied.
  assert (inv m6 live2) as Hinv6 by (by apply (hs_poke base)).
  destruct (Z.eqb_spec cr3 0) as [E|Hcr].
  { right. split; [by intros [? _]|]. exists m6, live2. by split_and!. }
  unfold alloc. cbn [mem set_mem].
  destruct (kmalloc_client base Hbase m6 live2 4096 Hinv6 ltac:(lia))
    as [Ek|(pt & ma & Ek & Hpt0 & Hinva & Hf & Hkept & _)].
  - left. split; [split; [done|by eexists]|]. rewrite Ek, !bind_ok.
    rewrite assign_ok, bind_ok by (done || lia). done.
  - right. split; [intros [_ [m' E]]; congruence|].
    destruct (tables_copy pt ma Hcr Hf (Hwrap pt ma Ek) Hkept)
      as (mp & Hmp & Hp1 & Hp2 & Hk & Hw & Hb).
    exists mp, (<[pt := 4096]> live2). rewrite Ek, !bind_ok.
    rewrite assign_ok, bind_ok, (proj2 (Z.eqb_neq _ _) Hpt0) by (done || lia).
    cbn [mem set_mem]. rewrite Hmp, bind_ok. split; [done|].
    split; [apply insert_subseteq, Hf|]. split; [by eapply hs_bytes|]. split; [done|].
    split; [by exists pt|]. intros _. rewrite Hw. apply lookup_insert_eq.
Qed.
End pages.

(** The copies and the allocations of the call after that of the stack. *)
Lemma fork_copy_trace :
  (∀ m5 pt m', copy_memory base m4 st usb 4096 = Ok m5 →
     kmalloc base (poke m5 (c + PCB_user_stack_ptr) (st + (ebp - usb))) 4096 = Ok (pt, m') →
     pt + 4096 ≤ base + KERNEL_MEMORY_SIZE) →
  ∃ m5, copy_memory base m4 st usb 4096 = Ok m5 ∧
  let m6 := poke m5 (c + PCB_user_stack_ptr) (st + (ebp - usb)) in
  (∀ b, ¬ (st ≤ b < st + 4096) → load8 base m5 b = load8 base m4 b) ∧
  ((tables_no_room cr3 m6 ∧
    fork_page_tables base (set_mem m6 s4) p c = Ok (false, set_mem (poke m6 (c + PCB_cr3) 0) s4)) ∨
   (¬ tables_no_room cr3 m6 ∧
    ∃ mp m7 k live', fork_page_tables base (set_mem m6 s4) p c = Ok (true, set_mem mp s4) ∧
      copy_trace base s live usb ebp c st m4 m5 m7 ∧
      allocate_kernel_stack base (set_mem mp s4) c =
        Ok (set_mem (poke (poke m7 (c + PCB_kernel_stack_base) k) (c + PCB_kernel_stack_ptr)
              (u32 (u32 k + KERNEL_STACK_SIZE))) s4) ∧
      live2 ⊆ live' ∧ inv m7 live')).
Proof.
  intros Hwrap.
  destruct (live_live1 base s live ebp c st m2 m4 Ha usb _
    (pg_live _ _ _ _ (fr_stack _ _ _ _ _ _ Hr))) as [Hu1 Huc].
  pose proof (fb_low _ _ _ _ (ft_stack _ _ _ _ _ _ _ _ Ha)).
  pose proof (ft_room _ _ _ _ _ _ _ _ Ha). pose proof parent_stack.
  destruct (copy_memory_spec base m4 st usb 4096) as (m5 & Hm5 & Hpt & Hlast & Hin & Hout);
    [lia|lia|lia| | |].
  { destruct (fb_apart _ _ _ _ (ft_stack _ _ _ _ _ _ _ _ Ha) usb 4096 Hu1); lia. }
  { intros i Hi. destruct (pg_bytes _ _ _ _ (fr_stack _ _ _ _ _ _ Hr) i Hi) as (v & Hv & Hrange).
    exists v. split; [|done]. rewrite page_byte4; [done|apply (fr_stack _ _ _ _ _ _ Hr)|done]. }
  exists m5. split; [done|]. split; [done|].
  set (m6 := poke m5 (c + PCB_user_stack_ptr) (st + (ebp - usb))).
  assert (inv m5 live2) as Hinv5 by (by eapply hs_bytes).
  destruct (fork_page_tables_ok m5 Hout Hinv5 (λ pt m', Hwrap m5 pt m' Hm5))
    as [?|(Hroom & mp & lp & Hfp & Hsub & Hinvp & Hk & Htab & Hlp)]; [by left|right].
  split; [done|].
  destruct (allocate_kernel_stack_ok base Hbase (set_mem mp s4) lp c Hinvp
    (child_ok base s live ebp c st m2 m4 Ha)) as (k & m7 & Hks & Hkept & live' & Hsub' & Hinv7).
  exists mp, m7, k, live'. split; [done|].
  split; [|split; [exact Hks|split; [by etrans|done]]]. cbn [mem set_mem] in Hkept.
  split; [done|done| |].
  - intros q sz b Hq Hsz Hb Hne. rewrite (Hkept q sz b); [by apply (Hk q sz)| |done|done].
    by eapply lookup_weaken.
  - assert (word m7 (c + PCB_cr3) = word mp (c + PCB_cr3)) as Hw.
    { eapply kept_pcb; [exact Hkept|eapply lookup_weaken; [apply live_child2|done]|lia]. }
    fold p cr3. unfold tables_copied in Htab |- *. destruct (Z.eqb_spec cr3 0) as [E|Hcr].
    + rewrite Hw. exact Htab.
    + destruct Htab as (pt & Hpw & Hf & Hb). exists pt. split; [congruence|]. split; [done|].
      intros i Hi. rewrite <-Hb by done. apply (Hkept pt 4096); [|lia|lia].
      rewrite <-Hpw. by apply Hlp.
Qed.

(** The body of [fork_copy] up to the page tables. *)
Lemma fork_copy_start m5 :
  copy_memory base m4 st usb 4096 = Ok m5 →
  fork_copy base s4 p c st =
    ('(ok, s) ← fork_page_tables base
                  (set_mem (poke m5 (c + PCB_user_stack_ptr) (st + (ebp - usb))) s4) p c;
     if negb ok then Ok (-1, s)
     else
       s ← allocate_kernel_stack base s c;
       s ← assign base s c PCB_state STATE_READY;
       s ← set_new_child base s c true;
       s ← assign base s c PCB_next_in_table s.(process_table_head);
       let s := set_table c s in
       s ← enqueue_ready base s c;
       pid ← get_field base s.(mem) c PCB_pid;
       Ok (i32 pid, s)).
Proof.
  intros Hm5. pose proof parent_ok as Hpo.
  pose proof (child_ok base s live ebp c st m2 m4 Ha) as Hco.
  destruct (fr_ebp _ _ _ _ _ _ Hr). pose proof (pg_room _ _ _ _ (fr_stack _ _ _ _ _ _ Hr)).
  destruct (hs_range _ _ usb _ (fr_inv _ _ _ _ _ _ Hr) (pg_live _ _ _ _ (fr_stack _ _ _ _ _ _ Hr)))
    as [Hul _].
  pose proof (fb_low _ _ _ _ (ft_stack _ _ _ _ _ _ _ _ Ha)).
  pose proof (ft_room _ _ _ _ _ _ _ _ Ha).
  assert (word m4 (p + PCB_user_stack_ptr) = ebp) as Hsp4
    by (apply (parent_sp4 base s live ebp c st m2 m4 Ha); [apply (fr_parent _ _ _ _ _ _ Hr)|done|lia]).
  unfold fork_copy. change (mem s4) with m4.
  rewrite (get_field_ok base m4 p PCB_user_stack_ptr), bind_ok, Hsp4 by (done || lia).
  rewrite (get_field_ok base m4 p PCB_user_stack_base), bind_ok by (done || lia).
  rewrite (old_word4 base s live ebp c st m2 m4 Ha p SIZEOF_PCB)
    by (apply (fr_parent _ _ _ _ _ _ Hr) || lia || (unfold apart; fold p; lia)).
  pose proof (fr_base _ _ _ _ _ _ Hr) as Hub. fold p in Hub. rewrite Hub. cbn zeta.
  rewrite (u32_small (ebp - usb)), (u32_small (st + (ebp - usb))) by lia. rewrite Hm5, bind_ok.
  by rewrite assign_ok, bind_ok by (done || lia).
Qed.

(** ** The copy, the publication and the queue *)

Section copied.
Context (m5 m7 : memory) (k : Z) (Ht : copy_trace base s live usb ebp c st m4 m5 m7).

Let m8 := fork_publish base m7 c k s.(process_table_head).

Lemma parent_old o :
  0 ≤ o ≤ 88 → o + 4 ≤ PCB_user_stack_ptr ∨ PCB_user_stack_ptr + 4 ≤ o →
  word m8 (p + o) = word s.(mem) (p + o) ∧ word m4 (p + o) = word s.(mem) (p + o).
Proof.
  intros Ho Hne. apply (old_word base s live usb ebp c st k m2 m4 m5 m7 Ha Ht p SIZEOF_PCB);
    [apply (fr_parent _ _ _ _ _ _ Hr)|lia|lia|lia|unfold apart; fold p; lia].
Qed.

Lemma ready_old q o :
  q ∈ l → 0 ≤ o ≤ 88 → o + 4 ≤ PCB_user_stack_ptr ∨ PCB_user_stack_ptr + 4 ≤ o →
  word m8 (q + o) = word s.(mem) (q + o).
Proof.
  intros Hq Ho Hne. pose proof (fr_live _ _ _ _ _ _ Hr q Hq) as Hlq.
  apply (old_word base s live usb ebp c st k m2 m4 m5 m7 Ha Ht q SIZEOF_PCB); [done|lia..|].
  eapply (live_fields_apart base);
    [apply (fr_inv _ _ _ _ _ _ Hr)|apply (fr_parent _ _ _ _ _ _ Hr)|done|lia|lia|lia].
Qed.

Lemma queue_old : queue_rep base m8 s.(ready_queue) l.
Proof.
  eapply queue_rep_frame; [apply (so_queue _ _ _ (fr_sched _ _ _ _ _ _ Hr))|].
  intros x Hx. apply ready_old; [done|lia|lia].
Qed.

Lemma child_pcbs : pcbs_ok base (c :: l).
Proof.
  eapply fresh_pcbs_ok; [apply (ft_child _ _ _ _ _ _ _ _ Ha)|apply (fr_live _ _ _ _ _ _ Hr)|].
  apply (qr_pcbs _ _ _ _ queue_old).
Qed.

Lemma child_pid : word m8 (c + PCB_pid) = s.(next_pid).
Proof.
  pose proof (child_ok base s live ebp c st m2 m4 Ha) as Hco. unfold m8.
  rewrite (child_word base s live l usb ebp Hr c st k m2 m4 m5 m7 Ha Ht) by tauto.
  destruct (fork_child_words base c Hco m2 s.(next_pid) p (word s.(mem) (p + PCB_priority)))
    as (E & _). unfold p in E. rewrite E. apply u32_small, (fr_pid _ _ _ _ _ _ Hr).
Qed.

(** The body of [fork_copy] from the page tables on. *)
Lemma fork_copy_eval mp m9 q9 :
  let m6 := poke m5 (c + PCB_user_stack_ptr) (st + (ebp - usb)) in
  copy_memory base m4 st usb 4096 = Ok m5 →
  fork_page_tables base (set_mem m6 s4) p c = Ok (true, set_mem mp s4) →
  allocate_kernel_stack base (set_mem mp s4) c =
    Ok (set_mem (poke (poke m7 (c + PCB_kernel_stack_base) k) (c + PCB_kernel_stack_ptr)
          (u32 (u32 k + KERNEL_STACK_SIZE))) s4) →
  enqueue_by base PCB_priority m8 s.(ready_queue) c = Ok (m9, q9) →
  fork_copy base s4 p c st =
    Ok (i32 (word m9 (c + PCB_pid)), set_ready q9 (set_mem m9 (set_table c s4))).
Proof.
  intros m6 Hm5 Hfp Hks He. pose proof (child_ok base s live ebp c st m2 m4 Ha) as Hco.
  rewrite (fork_copy_start m5 Hm5). fold m6. rewrite Hfp, bind_ok. cbn [negb].
  rewrite Hks, bind_ok, (fork_publish_ok base c Hco). cbn zeta.
  unfold enqueue_ready, enqueue_process.
  cbn [mem set_mem set_table ready_queue s4 process_table_head].
  fold m8. rewrite He, !bind_ok. cbn [mem set_mem set_ready].
  by rewrite get_field_ok, bind_ok by (done || lia).
Qed.

(** The queue only writes [next] fields of [c] and the ready processes. *)
Context (m9 : memory) (q9 : ProcessQueue) (Hm9 : only_words base m8 m9 (next_words (c :: l))).

Lemma enqueued_child o :
  0 ≤ o ≤ 88 → o + 4 ≤ PCB_next ∨ PCB_next + 4 ≤ o → word m9 (c + o) = word m8 (c + o).
Proof.
  intros Ho Hne. eapply only_words_word; [exact Hm9|]. intros w Hw.
  eapply next_words_other; [apply child_pcbs|done|done|done|by left].
Qed.

(** A live block is not touched, its [next] field apart when it is ready. *)
Lemma enqueued_other q sz b :
  <[c := SIZEOF_PCB]> live !! q = Some sz → sz ≤ 2 ^ 32 - 4104 → q ≤ b < q + sz →
  (∀ x, x ∈ c :: l → x = q → b < q + PCB_next ∨ q + PCB_next + 4 ≤ b) →
  load8 base m9 b = load8 base m8 b.
Proof.
  intros Hq Hsz Hb Hne. destruct Hm9 as (_ & _ & Hm). apply Hm.
  intros w (x & -> & Hx)%list_elem_of_fmap. destruct (decide (x = q)) as [E|Hxq].
  { specialize (Hne x Hx E). subst. lia. }
  assert (live1 !! x = Some SIZEOF_PCB) as Hx1.
  { apply elem_of_cons in Hx as [->|Hx]; [apply lookup_insert_eq|].
    apply (live_live1 base s live ebp c st m2 m4 Ha). by apply (fr_live _ _ _ _ _ _ Hr). }
  destruct (decide (x = c)) as [->|Hxc].
  - rewrite lookup_insert_ne in Hq by done.
    destruct (fb_apart _ _ _ _ (ft_child _ _ _ _ _ _ _ _ Ha) q sz Hq Hsz); lia.
  - unfold live1 in Hx1. rewrite lookup_insert_ne in Hx1 by done.
    destruct (decide (q = c)) as [->|Hqc].
    + rewrite lookup_insert_eq in Hq. injection Hq as <-.
      destruct (fb_apart _ _ _ _ (ft_child _ _ _ _ _ _ _ _ Ha) x _ Hx1); lia.
    + rewrite lookup_insert_ne in Hq by done.
      destruct (hs_apart _ _ x q _ _ (fr_inv _ _ _ _ _ _ Hr) Hx1 Hq Hxq); lia.
Qed.

Lemma enqueued_stack i : 0 ≤ i < 4096 → load8 base m9 (st + i) = load8 base s.(mem) (usb + i).
Proof.
  intros Hi. pose proof parent_stack as Hps.
  rewrite <-(stack_byte base s live l usb ebp Hr c st k m2 m4 m5 m7 Ha Ht) by done.
  destruct Hm9 as (_ & _ & Hm). apply Hm. intros w (x & -> & Hx)%list_elem_of_fmap.
  pose proof (child_stack base s live ebp c st m2 m4 Ha).
  apply elem_of_cons in Hx as [->|Hx]; [lia|].
  destruct (live_live1 base s live ebp c st m2 m4 Ha x _ (fr_live _ _ _ _ _ _ Hr x Hx)) as [Hx1 _].
  destruct (fb_apart _ _ _ _ (ft_stack _ _ _ _ _ _ _ _ Ha) x _ Hx1); lia.
Qed.

Lemma enqueued_parent o :
  0 ≤ o ≤ 88 → o + 4 ≤ PCB_next ∨ PCB_next + 4 ≤ o → word m9 (p + o) = word m8 (p + o).
Proof.
  intros Ho Hne. apply word_same. intros b Hb.
  apply (enqueued_other p SIZEOF_PCB); [|lia|lia|lia].
  apply (live_live1 base s live ebp c st m2 m4 Ha), (fr_parent _ _ _ _ _ _ Hr).
Qed.

(** The order of the queue is the one the priorities before the call give. *)
Lemma enqueued_order :
  insert_by (key_of base PCB_priority m8) c l =
  insert_by (λ x, priority_of base s (if decide (x = c) then p else x)) c l.
Proof.
  pose proof (child_ok base s live ebp c st m2 m4 Ha) as Hco.
  destruct (fork_child_words base c Hco m2 s.(next_pid) p (word s.(mem) (p + PCB_priority)))
    as (_ & _ & C3 & _).
  apply insert_by_ext. intros x Hx. unfold priority_of, key_of.
  destruct (decide (x = c)) as [->|Hxc].
  - unfold m8. rewrite (child_word base s live l usb ebp Hr c st k m2 m4 m5 m7 Ha Ht) by tauto.
    fold p. by rewrite C3, i32_u32.
  - apply elem_of_cons in Hx as [?|Hx]; [done|]. by rewrite ready_old by (done || lia).
Qed.
(** The page tables of the child are still those of the parent. *)
Lemma enqueued_tables : tables_copied base live s.(mem) m9 c cr3.
Proof.
  pose proof (child_tables base s live l usb ebp Hr c st k m2 m4 m5 m7 Ha Ht
    (fr_parent _ _ _ _ _ _ Hr) (fr_cr3 _ _ _ _ _ _ Hr)) as H. fold p cr3 m8 live1 live2 in H.
  unfold tables_copied in H |- *. rewrite enqueued_child by lia.
  destruct (cr3 =? 0); [exact H|]. destruct H as (pt & Hpt & Hf & Hb). exists pt.
  split; [done|]. split.
  { eapply fresh_block_mono; [|exact Hf]. apply map_subseteq_spec. intros q sz. apply live_live2. }
  intros i Hi. rewrite <-Hb by done. destruct Hm9 as (_ & _ & Hm). apply Hm.
  intros w (x & -> & Hx)%list_elem_of_fmap.
  assert (live2 !! x = Some SIZEOF_PCB) as Hx2.
  { apply elem_of_cons in Hx as [->|Hx]; [apply live_child2|].
    by apply live_live2, (fr_live _ _ _ _ _ _ Hr). }
  destruct (fb_apart _ _ _ _ Hf x _ Hx2); lia.
Qed.

(** The fields of the other PCBs. *)
Lemma enqueued_words q o :
  live !! q = Some SIZEOF_PCB → 0 ≤ o ≤ 88 → o + 4 ≤ PCB_next ∨ PCB_next + 4 ≤ o →
  q ≠ p ∨ o + 4 ≤ PCB_user_stack_ptr ∨ PCB_user_stack_ptr + 4 ≤ o →
  word m9 (q + o) = word s.(mem) (q + o).
Proof.
  intros Hq Ho Hn Hu. transitivity (word m8 (q + o)).
  - apply word_same. intros b Hb. apply (enqueued_other q SIZEOF_PCB); [|lia|lia|lia].
    by apply (live_live1 base s live ebp c st m2 m4 Ha).
  - apply (old_word base s live usb ebp c st k m2 m4 m5 m7 Ha Ht q SIZEOF_PCB); [done|lia..|].
    fold p. destruct (decide (p = q)) as [<-|Hpq]; [unfold apart; lia|].
    pose proof (fr_parent _ _ _ _ _ _ Hr) as Hp.
    destruct (hs_apart _ _ p q _ _ (fr_inv _ _ _ _ _ _ Hr) Hp Hq Hpq); unfold apart; lia.
Qed.
End copied.

(** The rest of the call. *)
Lemma fork_copy_ok m5 mp m7 k live' :
  let m6 := poke m5 (c + PCB_user_stack_ptr) (st + (ebp - usb)) in
  let m8 := fork_publish base m7 c k s.(process_table_head) in
  copy_memory base m4 st usb 4096 = Ok m5 →
  fork_page_tables base (set_mem m6 s4) p c = Ok (true, set_mem mp s4) →
  copy_trace base s live usb ebp c st m4 m5 m7 →
  allocate_kernel_stack base (set_mem mp s4) c =
    Ok (set_mem (poke (poke m7 (c + PCB_kernel_stack_base) k) (c + PCB_kernel_stack_ptr)
          (u32 (u32 k + KERNEL_STACK_SIZE))) s4) →
  inv m7 live' →
  ∃ m9 q9, fork_copy base s4 p c st =
      Ok (i32 s.(next_pid), set_ready q9 (set_mem m9 (set_table c s4))) ∧
    queue_rep base m9 q9 (insert_by (key_of base PCB_priority m8) c l) ∧
    only_words base m8 m9 (next_words (c :: l)) ∧ inv m9 live'.
Proof.
  intros m6 m8 Hm5 Hfp Ht Hks Hinv7.
  destruct (enqueue_by_spec base Hbase ltac:(lia) PCB_priority ltac:(lia) m8 s.(ready_queue) l c
    (queue_old m5 m7 k Ht) (child_pcbs m5 m7 k Ht) (so_length _ _ _ (fr_sched _ _ _ _ _ _ Hr)))
    as (m9 & q9 & He & Hq9 & Hm9).
  exists m9, q9. split; [|split; [done|split; [done|]]].
  - rewrite (fork_copy_eval m5 m7 k mp m9 q9 Hm5 Hfp Hks He).
    by rewrite (enqueued_child m5 m7 k Ht m9 Hm9), (child_pid m5 m7 k Ht) by lia.
  - destruct Hm9 as (P & L & _). by eapply (hs_bytes m7).
Qed.

(** The record of what [fork] leaves behind. *)
Lemma fork_forked m5 m7 k m9 q9 :
  let m8 := fork_publish base m7 c k s.(process_table_head) in
  copy_trace base s live usb ebp c st m4 m5 m7 →
  queue_rep base m9 q9 (insert_by (key_of base PCB_priority m8) c l) →
  only_words base m8 m9 (next_words (c :: l)) →
  forked base s (set_ready q9 (set_mem m9 (set_table c s4))) live l c usb ebp.
Proof.
  intros m8 Ht Hq9 Hm9.
  pose proof parent_ok as Hpo. pose proof (child_ok base s live ebp c st m2 m4 Ha) as Hco.
  destruct (fr_ebp _ _ _ _ _ _ Hr). pose proof (pg_room _ _ _ _ (fr_stack _ _ _ _ _ _ Hr)).
  destruct (hs_range _ _ usb _ (fr_inv _ _ _ _ _ _ Hr) (pg_live _ _ _ _ (fr_stack _ _ _ _ _ _ Hr)))
    as [Hul _].
  pose proof (enqueued_child m5 m7 k Ht m9 Hm9) as H9. fold m8 in H9.
  pose proof (enqueued_stack m5 m7 k Ht m9 Hm9) as Hstack.
  assert (word m9 (c + PCB_user_stack_ptr) = st + (ebp - usb)) as Hsp.
  { rewrite H9 by lia.
    apply (child_sp base Hbase Hfit s live l usb ebp Hr c st k m2 m4 m5 m7 Ha Ht). }
  destruct (fork_publish_words base c Hco m7 k s.(process_table_head) (fr_head _ _ _ _ _ _ Hr))
    as (P1 & P2 & P3 & _). fold m8 in P1, P2, P3.
  destruct (fork_child_words base c Hco m2 s.(next_pid) p (word s.(mem) (p + PCB_priority)))
    as (C1 & C2 & C3 & C4).
  pose proof (child_word base s live l usb ebp Hr c st k m2 m4 m5 m7 Ha Ht) as Hcw.
  fold p in Hcw. fold m8 in Hcw.
  split; cbn [mem ready_queue process_table_head current_process next_pid set_ready set_mem set_table s4];
    try done.
  - fold p. rewrite <-(enqueued_order m5 m7 k Ht). exact Hq9.
  - rewrite H9 by lia. apply (child_pid m5 m7 k Ht).
  - by rewrite H9 by lia.
  - rewrite H9, Hcw, C2 by (tauto || lia). apply u32_small. unfold pcb_ok in Hpo. lia.
  - by rewrite H9 by lia.
  - unfold priority_of, key_of. cbn [mem set_ready set_mem set_table].
    rewrite H9, Hcw by (tauto || lia). fold p. by rewrite C3, i32_u32.
  - rewrite <-P3. unfold new_child.
    rewrite (enqueued_other m7 k m9 Hm9 c SIZEOF_PCB); [done|apply lookup_insert_eq|lia..].
  - rewrite (enqueued_parent m7 k m9 Hm9) by lia.
    apply (parent_sp base s live usb ebp c st k m2 m4 m5 m7 Ha Ht (fr_parent _ _ _ _ _ _ Hr)
      Hpo). lia.
  - rewrite Hsp. apply popped_same. intros o Ho.
    rewrite <-(Z.add_assoc st), Hstack by lia. f_equal. lia.
  - intros i Hi. rewrite Hsp.
    replace (st + (ebp - usb) - (ebp - usb) + i) with (st + i) by lia. by apply Hstack.
  - rewrite H9, Hcw, C4 by (tauto || lia). apply (child_fresh_word base s live ebp c st m2 m4 Ha); [apply (fr_parent _ _ _ _ _ _ Hr)|lia].
  - by apply (enqueued_tables m5 m7 k Ht m9 Hm9).
  - by apply (enqueued_words m5 m7 k Ht m9 Hm9).
Qed.

(** From the page tables on: the call fails without room for them, and runs
    through otherwise. *)
Lemma fork_copy_cases :
  (∀ m5 pt m', copy_memory base m4 st usb 4096 = Ok m5 →
     kmalloc base (poke m5 (c + PCB_user_stack_ptr) (st + (ebp - usb))) 4096 = Ok (pt, m') →
     pt + 4096 ≤ base + KERNEL_MEMORY_SIZE) →
  ∃ m5, copy_memory base m4 st usb 4096 = Ok m5 ∧
  let m6 := poke m5 (c + PCB_user_stack_ptr) (st + (ebp - usb)) in
  (tables_no_room cr3 m6 ∧
   fork_copy base s4 p c st = Ok (-1, set_mem (poke m6 (c + PCB_cr3) 0) s4) ∧
   queue_rep base (poke m6 (c + PCB_cr3) 0) s.(ready_queue) l) ∨
  (¬ tables_no_room cr3 m6 ∧
   ∃ s', fork_copy base s4 p c st = Ok (i32 s.(next_pid), s') ∧
     forked base s s' live l c usb ebp ∧
     ∃ live', live ⊆ live' ∧ live' !! c = Some SIZEOF_PCB ∧ inv s'.(mem) live').
Proof.
  intros Hwrap. destruct (fork_copy_trace Hwrap) as (m5 & Hm5 & Hout & H). exists m5.
  split; [done|]. cbn zeta in *. set (m6 := poke m5 _ _) in *.
  destruct H as [[Hno Hfp]|(Hroom & mp & m7 & k & live' & Hfp & Ht & Hks & Hsub & Hinv7)].
  - left. split; [done|]. split.
    + rewrite (fork_copy_start m5 Hm5). fold m6. by rewrite Hfp, bind_ok.
    + eapply queue_rep_frame; [apply (so_queue _ _ _ (fr_sched _ _ _ _ _ _ Hr))|].
      intros x Hx. pose proof (fr_live _ _ _ _ _ _ Hr x Hx) as Hlx.
      assert (apart (p + PCB_user_stack_ptr) (x + PCB_next)) as Hpx.
      { eapply (live_fields_apart base);
          [apply (fr_inv _ _ _ _ _ _ Hr)|apply (fr_parent _ _ _ _ _ _ Hr)|done|lia|lia|lia]. }
      rewrite <-(old_word4 base s live ebp c st m2 m4 Ha x SIZEOF_PCB) by (done || lia).
      apply word_same. intros b Hb.
      rewrite load8_poke_ne by (destruct (fb_apart _ _ _ _ (ft_child _ _ _ _ _ _ _ _ Ha) x _ Hlx); lia).
      apply (copied_byte base s live usb ebp c st m2 m4 m5 Ha x SIZEOF_PCB); done || lia.
  - right. split; [done|].
    destruct (fork_copy_ok m5 mp m7 k live' Hm5 Hfp Ht Hks Hinv7) as (m9 & q9 & Heq & Hq9 & Hm9 & Hinv9).
    eexists. split; [exact Heq|]. split; [by apply (fork_forked m5 m7 k)|].
    exists live'. split; [|split; [|done]].
    + etrans; [|exact Hsub]. apply map_subseteq_spec. intros q sz. apply live_live2.
    + eapply lookup_weaken; [apply live_child2|done].
Qed.
End finish.

(** A call that stops after the first allocation left the ready queue alone. *)
Lemma fork_memory_queue s live l usb ebp :
  fork_ready base (inv := inv) s live l usb ebp →
  inv (fork_memory s ebp) live ∧ queue_rep base (fork_memory s ebp) s.(ready_queue) l.
Proof.
  intros Hr. split; [by eapply hs_bytes; [apply (fr_inv _ _ _ _ _ _ Hr)|..]|].
  eapply queue_rep_frame; [apply (so_queue _ _ _ (fr_sched _ _ _ _ _ _ Hr))|].
  intros x Hx. apply word_poke_ne. eapply (live_fields_apart base);
    [apply (fr_inv _ _ _ _ _ _ Hr)|apply (fr_parent _ _ _ _ _ _ Hr)|
     by apply (fr_live _ _ _ _ _ _ Hr)|lia|lia|lia].
Qed.

(** [fork_syscall] up to the allocation of the child's stack. *)
Lemma fork_start s live l usb ebp c m2 :
  fork_ready base (inv := inv) s live l usb ebp →
  kmalloc base (fork_memory s ebp) SIZEOF_PCB = Ok (c, m2) → c ≠ 0 →
  fresh_block base live c SIZEOF_PCB → blocks_kept base (fork_memory s ebp) m2 live →
  fork_syscall base s ebp =
    ('(st, s1) ← alloc base (MkKstate (fork_child_memory s m2 c) s.(current_process)
                   s.(ready_queue) s.(process_table_head) (u32 (s.(next_pid) + 1))) 4096;
     if st =? 0 then Ok (-1, s1) else fork_copy base s1 s.(current_process) c st).
Proof.
  intros Hr Hk2 Hc0 Hfc Hkept1. set (p := s.(current_process)).
  pose proof (parent_ok s live l usb ebp Hr) as Hpo. fold p in Hpo.
  pose proof (fr_parent _ _ _ _ _ _ Hr) as Hpl. fold p in Hpl.
  unfold fork_syscall, get_current_process. fold p.
  rewrite (proj2 (Z.eqb_neq _ _) (pcb_nonnull base Hbase p Hpo)).
  rewrite assign_ok, bind_ok by (done || lia). unfold alloc.
  rewrite set_mem_mem. change (poke (mem s) (p + PCB_user_stack_ptr) ebp) with (fork_memory s ebp).
  rewrite Hk2, !bind_ok, (proj2 (Z.eqb_neq _ _) Hc0). unfold get_new_pid. cbn [mem set_mem next_pid].
  pose proof (fresh_pcb base live c Hfc) as Hco.
  assert (p + SIZEOF_PCB ≤ c ∨ c + SIZEOF_PCB ≤ p) as Hpc
    by (destruct (fb_apart _ _ _ _ Hfc p _ Hpl); lia).
  do 2 (rewrite assign_ok, bind_ok by (done || lia)). cbn [mem set_mem].
  rewrite get_field_ok, bind_ok by (done || lia).
  rewrite !word_poke_ne by (unfold apart; lia).
  rewrite (kept_pcb base (fork_memory s ebp) m2 live p) by (done || lia).
  assert (word (fork_memory s ebp) (p + PCB_priority) = word (mem s) (p + PCB_priority)) as ->
    by (apply word_poke_ne; fold p; unfold apart; lia).
  by rewrite assign_ok, bind_ok by (done || lia).
Qed.

(** A whole call of [fork_syscall]. *)
Lemma fork_cases s live l usb ebp :
  fork_ready base (inv := inv) s live l usb ebp → fork_no_wrap s usb ebp →
  (fork_no_room s usb ebp ∧
   ∃ s', fork_syscall base s ebp = Ok (-1, s') ∧ s'.(ready_queue) = s.(ready_queue) ∧
     s'.(process_table_head) = s.(process_table_head) ∧
     queue_rep base s'.(mem) s'.(ready_queue) l) ∨
  (¬ fork_no_room s usb ebp ∧
   ∃ c s', fork_syscall base s ebp = Ok (i32 s.(next_pid), s') ∧ live !! c = None ∧
     forked base s s' live l c usb ebp ∧
     ∃ live', live ⊆ live' ∧ live' !! c = Some SIZEOF_PCB ∧ inv s'.(mem) live').
Proof.
  intros Hr Hwrap. destruct (fork_memory_queue s live l usb ebp Hr) as [Hinv1 Hq1].
  pose proof (fr_live _ _ _ _ _ _ Hr) as Hlive.
  pose proof (parent_ok s live l usb ebp Hr) as Hpo.
  destruct (kmalloc_client base Hbase (fork_memory s ebp) live SIZEOF_PCB Hinv1 ltac:(lia))
    as [E|(c & m2 & Hk2 & Hc0 & Hinv2 & Hfc & Hkept1 & Hbytes1)].
  { left. split; [left; by eexists|]. unfold fork_syscall, get_current_process.
    rewrite (proj2 (Z.eqb_neq _ _) (pcb_nonnull base Hbase _ Hpo)).
    rewrite assign_ok, bind_ok by (done || lia). unfold alloc. rewrite set_mem_mem.
    fold (fork_memory s ebp). rewrite E, !bind_ok. eexists. split; [done|]. by split_and!. }
  rewrite (fork_start s live l usb ebp c m2 Hr Hk2 Hc0 Hfc Hkept1). unfold alloc. cbn [mem].
  assert (inv (fork_child_memory s m2 c) (<[c := SIZEOF_PCB]> live)) as Hinv3
    by (eapply hs_bytes; [exact Hinv2|done|done]).
  destruct (kmalloc_client base Hbase _ _ 4096 Hinv3 ltac:(lia))
    as [E|(st & m4 & Hk4 & Hst0 & Hinv4 & Hfs & Hkept2 & _)].
  { left. split; [right; left; by eexists _, _, _|]. rewrite E, !bind_ok.
    eexists. split; [done|]. split; [done|]. split; [done|].
    eapply queue_rep_outside; [eapply queue_rep_kept; [exact Hq1|exact Hlive|exact Hkept1]|].
    intros x b Hx Hb. apply fork_child_frame.
    destruct (fb_apart _ _ _ _ Hfc x _ (Hlive x Hx)); lia. }
  rewrite Hk4, !bind_ok, (proj2 (Z.eqb_neq _ _) Hst0).
  destruct (Hwrap c m2 st m4 Hk2 Hk4) as [Hlim Hwrap'].
  assert (alloc_trace base s live ebp c st m2 m4) as Ha by done.
  destruct (fork_copy_cases s live l usb ebp Hr c st m2 m4 Ha Hinv4 Hwrap')
    as (m5 & Hm5 & [(Hno & Heq & Hq)|(Hroom & s' & Heq & Hf & Hl')]).
  - left. split; [right; right; by eexists c, m2, st, m4, m5|]. eexists. by split_and!.
  - right. split; [|exists c, s'; split; [exact Heq|]; by split; [apply Hfc|]].
    intros [(m' & E)|[(c' & m2' & m' & E1 & E2)|(c' & m2' & st' & m4' & m5' & E1 & E2 & E3 & E4)]].
    + congruence.
    + rewrite Hk2 in E1. injection E1 as <- <-. congruence.
    + rewrite Hk2 in E1. injection E1 as <- <-. rewrite Hk4 in E2. injection E2 as <- <-.
      rewrite Hm5 in E3. by injection E3 as <-.
Qed.

(** C27: [fork_syscall] fails only when [kmalloc] returns [NULL] for the child's
    PCB, for its stack, or for the page tables of a parent that has some; then it
    returns -1 and leaves the ready queue and the process table alone.  Otherwise
    it returns the next pid, and the child is a PCB that was not in use: ready,
    flagged as a new child, with the parent's priority, at the head of the process
    table and in the ready queue.  Its stack holds the same 4096 bytes as the
    parent's, so a switch to it pops the same two words as a return of the parent;
    the popped frame pointer is therefore an address in the parent's stack, and the
    child's own [user_stack_base] is never set.  The page tables of the parent are
    copied into a new block; without them the child's [cr3] is never set.  The
    fields of the other processes do not change. *)
Theorem fork_outcome s live l usb ebp :
  fork_ready base (inv := inv) s live l usb ebp → fork_no_wrap s usb ebp →
  (fork_no_room s usb ebp ∧
   ∃ s', fork_syscall base s ebp = Ok (-1, s') ∧ s'.(ready_queue) = s.(ready_queue) ∧
     s'.(process_table_head) = s.(process_table_head) ∧
     queue_rep base s'.(mem) s'.(ready_queue) l) ∨
  (¬ fork_no_room s usb ebp ∧
   ∃ c s', fork_syscall base s ebp = Ok (i32 s.(next_pid), s') ∧ live !! c = None ∧
     forked base s s' live l c usb ebp ∧
     ∃ live', live ⊆ live' ∧ live' !! c = Some SIZEOF_PCB ∧ inv s'.(mem) live').
Proof. apply fork_cases. Qed.
End fork.

(** ** A process that forks *)

(** A heap with free pages at its end has room for a child. *)
Lemma roomy_fork base s k usb ebp :
  0 < base → roomy s.(mem) k → 0 ≤ k → k + 6 < NUM_PAGES →
  fork_no_wrap base s usb ebp ∧ ¬ fork_no_room base s usb ebp.
Proof.
  intros Hb Hr Hk Hfit. assert (kmalloc_pages SIZEOF_PCB = 1) as E1 by done.
  assert (kmalloc_pages 4096 = 2) as E2 by done.
  destruct (roomy_kmalloc base Hb (fork_memory base s ebp) k SIZEOF_PCB)
    as (m2 & Hk2 & Hr2); [by eapply roomy_bytes|lia..|]. rewrite E1 in Hr2.
  set (c := ptr_of base k) in *. set (m3 := fork_child_memory base s m2 c).
  destruct (roomy_kmalloc base Hb m3 (k + 1) 4096) as (m4 & Hk4 & Hr4);
    [by eapply roomy_bytes|lia..|]. rewrite E2 in Hr4. set (st := ptr_of base (k + 1)) in *.
  assert (∀ m5, copy_memory base m4 st usb 4096 = Ok m5 → ∃ m6,
    kmalloc base (MemWords.poke base m5 (c + PCB_user_stack_ptr) (st + (ebp - usb))) 4096 =
      Ok (ptr_of base (k + 1 + 2), m6)) as H6.
  { intros m5 [Hp Hl]%copy_memory_heap.
    destruct (roomy_kmalloc base Hb (MemWords.poke base m5 (c + PCB_user_stack_ptr)
      (st + (ebp - usb))) (k + 1 + 2) 4096) as (m6 & Hk6 & _);
      [by eapply roomy_bytes|lia..|by exists m6]. }
  split.
  - intros c' m2' st' m4' E3 E4. rewrite Hk2 in E3. injection E3 as <- <-.
    fold m3 in E4. rewrite Hk4 in E4. injection E4 as <- <-.
    split; [unfold st, ptr_of; lia|]. intros m5 pt m6 E5 E6. destruct (H6 m5 E5) as [m6' E].
    rewrite E in E6. injection E6 as <- _. unfold ptr_of. lia.
  - assert (c ≠ 0 ∧ st ≠ 0) as [Hc0 Hst0] by (split; apply ptr_of_nonzero; lia).
    pose proof (ptr_of_nonzero base Hb (k + 1 + 2) ltac:(lia)).
    intros [(m' & E)|[(c' & m2' & m' & E3 & E4)|(c' & m2' & st' & m4' & m5 & E3 & E4 & E5 & [_ [m6 E6]])]].
    + rewrite Hk2 in E. congruence.
    + rewrite Hk2 in E3. injection E3 as <- <-. fold m3 in E4. rewrite Hk4 in E4. congruence.
    + rewrite Hk2 in E3. injection E3 as <- <-. fold m3 in E4. rewrite Hk4 in E4.
      injection E4 as <- <-. destruct (H6 m5 E5) as [m6' E]. congruence.
Qed.

Local Abbreviation p0 := (ptr_of demo_base 0).
Local Abbreviation p1 := (ptr_of demo_base 1).
Local Abbreviation p3 := (ptr_of demo_base 3).
Local Abbreviation pokes m := (foldr (λ '(a, v) m, MemWords.poke demo_base m a v) m).

(** One running process; its stack is the second block of the heap, and its
    page tables, if it has some, are the third. *)
Definition forker (m : memory) (cr3 : Z) : kstate :=
  MkKstate (pokes m [(p0 + PCB_pid, 1); (p0 + PCB_state, STATE_RUNNING); (p0 + PCB_cr3, cr3);
      (p0 + PCB_user_stack_base, p1)]) p0 (MkQueue 0 0) p0 2.

Definition forker_live : gmap Z Z := <[p3 := 4096]> (<[p1 := 4096]> (<[p0 := SIZEOF_PCB]> ∅)).

Lemma forker_heap : ∃ m, clean_heap demo_base m forker_live 5.
Proof.
  assert (0 < demo_base) as Hb by done.
  destruct (clean_heap_alloc demo_base demo_memory ∅ 0 SIZEOF_PCB Hb demo_clean) as (m1 & _ & H1);
    [done..|].
  destruct (clean_heap_alloc demo_base m1 _ _ 4096 Hb H1) as (m2 & _ & H2); [done..|].
  destruct (clean_heap_alloc demo_base m2 _ _ 4096 Hb H2) as (m3 & _ & H3); [done..|].
  by exists m3.
Qed.

Section forker.
Context (m : memory) (Hm : clean_heap demo_base m forker_live 5).
Context (cr3 : Z) (Hcr3 : cr3 = 0 ∨ cr3 = p3).

Lemma forker_lookups :
  forker_live !! p0 = Some SIZEOF_PCB ∧ forker_live !! p1 = Some 4096 ∧ forker_live !! p3 = Some 4096.
Proof. clear. by vm_compute. Qed.

Lemma forker_words :
  let w := MemWords.word demo_base (forker m cr3).(mem) in
  w (p0 + PCB_pid) = 1 ∧ w (p0 + PCB_state) = STATE_RUNNING ∧ w (p0 + PCB_cr3) = cr3 ∧
  w (p0 + PCB_user_stack_base) = p1 ∧ w (p0 + PCB_next_in_table) = 0.
Proof.
  assert (p0 = 1048584) as E0 by done. assert (p1 = 1052680) as E1 by done.
  assert (p3 = 1060872) as E3 by done. assert (demo_base = 1048576) as EB by done.
  unfold forker. simpl mem.
  split_and!;
    repeat first [rewrite word_poke_eq by (unfold valid_word; lia)
                 |rewrite word_poke_ne by (unfold apart; lia)];
    try (apply u32_small; destruct Hcr3; lia).
  apply (clean_heap_word _ _ _ _ _ SIZEOF_PCB _ Hm); [apply forker_lookups|lia|lia].
Qed.

Lemma forker_page a :
  a = p1 ∨ a = p3 → page_ready demo_base (forker m cr3) forker_live a.
Proof.
  assert (p0 = 1048584) as E0 by done. assert (p1 = 1052680) as E1 by done.
  assert (p3 = 1060872) as E3 by done. assert (demo_base = 1048576) as EB by done.
  intros Ha. assert (forker_live !! a = Some 4096) as Hl
    by (destruct Ha as [->| ->]; apply forker_lookups).
  split; [done|lia|]. intros i Hi. exists 0. split; [|lia]. unfold forker. simpl mem.
  rewrite !load8_poke_ne by lia. apply (ch_blocks _ _ _ _ Hm a 4096); [done|lia].
Qed.

Lemma forker_ready :
  fork_ready demo_base (inv := heap_inv demo_base) (forker m cr3) forker_live [] p1 (p1 + 4000).
Proof.
  pose proof forker_words as W. cbv zeta in W. destruct_and! W.
  destruct forker_lookups as (L0 & L1 & L3). assert (pcb_ok demo_base p0) as Hp0 by by vm_compute.
  split; try done.
  - eapply (hs_bytes (HeapSpec := heap_spec demo_base eq_refl)); [apply Hm|done|done].
  - split; [apply queue_rep_nil| |simpl; lia]. right. cbn [forker current_process].
    split; [by intros q ->%list_elem_of_singleton|split; [apply NoDup_singleton|]].
    intros a b ->%list_elem_of_singleton ->%list_elem_of_singleton. done.
  - intros q Hq. by apply not_elem_of_nil in Hq.
  - apply forker_page. by left.
  - assert (MemWords.word demo_base (mem (forker m cr3)) (p0 + PCB_cr3) = cr3) as E by done.
    cbn [forker current_process]. cbv zeta. rewrite E.
    destruct Hcr3 as [Hc|Hc]; [by left|right]. apply forker_page. by right.
Qed.

Lemma forker_room :
  fork_no_wrap demo_base (forker m cr3) p1 (p1 + 4000) ∧
  ¬ fork_no_room demo_base (forker m cr3) p1 (p1 + 4000).
Proof.
  apply (roomy_fork demo_base _ 5); [done|eapply roomy_bytes; [apply Hm|done|done]|lia|lia].
Qed.
End forker.

(** The process forks, with and without page tables. *)
Lemma fork_outcome_witness :
  ∃ m,
  (∃ c s', fork_syscall demo_base (forker m 0) (p1 + 4000) = Ok (2, s') ∧
     forker_live !! c = None ∧
     forked demo_base (forker m 0) s' forker_live [] c p1 (p1 + 4000) ∧
     ∃ live', forker_live ⊆ live' ∧ live' !! c = Some SIZEOF_PCB ∧
       heap_inv demo_base s'.(mem) live') ∧
  (∃ c s', fork_syscall demo_base (forker m p3) (p1 + 4000) = Ok (2, s') ∧
     forker_live !! c = None ∧
     forked demo_base (forker m p3) s' forker_live [] c p1 (p1 + 4000) ∧
     ∃ live', forker_live ⊆ live' ∧ live' !! c = Some SIZEOF_PCB ∧
       heap_inv demo_base s'.(mem) live').
Proof.
  destruct forker_heap as (m & Hm). exists m. split.
  - destruct (fork_outcome demo_base eq_refl ltac:(by vm_compute) (inv := heap_inv demo_base)
      (HS := heap_spec demo_base eq_refl) (forker m 0) forker_live [] p1 (p1 + 4000)
      (forker_ready m Hm 0 (or_introl eq_refl)) (proj1 (forker_room m Hm 0)))
      as [[Hno _]|[_ H]]; [by destruct (proj2 (forker_room m Hm 0) Hno)|exact H].
  - destruct (fork_outcome demo_base eq_refl ltac:(by vm_compute) (inv := heap_inv demo_base)
      (HS := heap_spec demo_base eq_refl) (forker m p3) forker_live [] p1 (p1 + 4000)
      (forker_ready m Hm p3 (or_intror eq_refl)) (proj1 (forker_room m Hm p3)))
      as [[Hno _]|[_ H]]; [by destruct (proj2 (forker_room m Hm p3) Hno)|exact H].
Defined.
