(* ===== verification/WaitSpec.v ===== *)
(** * The process table and zombies

    [table_rep] relates the list that starts at [process_table_head] to the
    addresses of the PCBs in it; [find_zombie_child] is a search in that list
    that unlinks what it finds, as long as every entry it passes has a
    parent. *)
From S2P Require Import Prelude Memory MemorySpec MemWords ProcQueue QueueSpec QueueProps Process SchedSpec SchedProps ProcSpec.

Section table.
Context (base : Z) (Hbase : 4096 ≤ base) (Hfit : base + KERNEL_MEMORY_SIZE < 2 ^ 32).

Local Abbreviation word := (word base).
Local Abbreviation poke := (poke base).

Record table_rep (m : memory) (hd : Z) (tl : list Z) : Prop := {
  tr_head : hd = default 0 (head tl);
  tr_links : links base PCB_next_in_table m tl 0;
  tr_pcbs : pcbs_ok base tl;
  tr_length : (length tl ≤ Z.to_nat NUM_PAGES)%nat;
}.

(** [current->parent] *)
Definition parent_of (m : memory) (x : Z) : Z := word m (x + PCB_parent).

(** The condition of [find_zombie_child]. *)
Definition zombie_child (m : memory) (parent x : Z) : Prop :=
  word m (parent_of m x + PCB_pid) = word m (parent + PCB_pid) ∧
  word m (x + PCB_state) = STATE_ZOMBIE.
#[local] Instance zombie_child_dec m parent x : Decision (zombie_child m parent x).
Proof. unfold zombie_child. apply _. Defined.

(** One turn at an entry whose parent is a PCB. *)
Lemma find_zombie_step_ok m hd parent x prev nx :
  pcb_ok base x → pcb_ok base (parent_of m x) → pcb_ok base parent →
  word m (x + PCB_next_in_table) = nx →
  find_zombie_step base m hd parent (x, prev) =
    if decide (zombie_child m parent x) then
      if prev =? 0 then Ok (inr (x, m, nx))
      else m' ← set_field base m prev PCB_next_in_table nx; Ok (inr (x, m', hd))
    else Ok (inl (nx, x)).
Proof.
  intros Hx Hp Hpar <-. assert (0 < base) as Hb by lia. unfold find_zombie_step.
  rewrite (proj2 (Z.eqb_neq _ _) (pcb_nonnull base Hb x Hx)).
  rewrite (get_field_ok base m x PCB_parent), bind_ok by (done || lia). fold (parent_of m x).
  rewrite (get_field_ok base m (parent_of m x)), bind_ok by (done || lia).
  rewrite (get_field_ok base m parent), bind_ok by (done || lia).
  unfold zombie_child.
  destruct (Z.eqb_spec (word m (parent_of m x + PCB_pid)) (word m (parent + PCB_pid))) as [E|E].
  - rewrite (get_field_ok base m x PCB_state), !bind_ok by (done || lia).
    rewrite (get_field_ok base m x PCB_next_in_table), bind_ok by (done || lia).
    destruct (Z.eqb_spec (word m (x + PCB_state)) STATE_ZOMBIE) as [E2|E2].
    + by rewrite decide_True.
    + rewrite decide_False by tauto. done.
  - rewrite bind_ok, (get_field_ok base m x PCB_next_in_table), bind_ok by (done || lia).
    rewrite decide_False by tauto. done.
Qed.

(** The loop passes over entries that are not what it looks for. *)
Lemma zombie_walk m hd parent l1 l2 prev fuel :
  pcb_ok base parent → (∀ x, x ∈ l1 → pcb_ok base x ∧ pcb_ok base (parent_of m x)) →
  links base PCB_next_in_table m (l1 ++ l2) 0 → (∀ x, x ∈ l1 → ¬ zombie_child m parent x) →
  iter (length l1 + fuel) (find_zombie_step base m hd parent) (default 0 (head (l1 ++ l2)), prev) =
  iter fuel (find_zombie_step base m hd parent) (default 0 (head l2), default prev (last l1)).
Proof.
  intros Hpar. revert prev. induction l1 as [|x l1 IH]; intros prev Hok Hl Hno; [done|].
  simpl in Hl. destruct Hl as [Hx Hl].
  change (length (x :: l1) + fuel)%nat with (S (length l1 + fuel)). rewrite iter_S.
  change (default 0 (head ((x :: l1) ++ l2))) with x.
  rewrite (find_zombie_step_ok m hd parent x prev _ (proj1 (Hok x ltac:(by left)))
    (proj2 (Hok x ltac:(by left))) Hpar Hx).
  rewrite decide_False by (apply Hno; by left). rewrite bind_ok.
  rewrite IH; [|intros y Hy; apply Hok; by right|done|intros y Hy; apply Hno; by right].
  rewrite last_cons. by destruct (last l1).
Qed.

(** [prev->next_in_table = current->next_in_table] *)
Lemma links_remove m pre prev x l2 v :
  pcbs_ok base (pre ++ prev :: x :: l2) → links base PCB_next_in_table m (pre ++ prev :: x :: l2) 0 →
  v = default 0 (head l2) →
  links base PCB_next_in_table (poke m (prev + PCB_next_in_table) v) (pre ++ prev :: l2) 0.
Proof.
  intros Hok Hl ->. pose proof Hok as (Hpcb & Hnd & _).
  apply links_app in Hl as [Hpre [_ [_ Hl2]]].
  apply NoDup_app in Hnd as (_ & Hn1 & Hn2). apply NoDup_cons in Hn2 as [Hn2 _].
  assert (∀ y, y ∈ pre ++ l2 → y ≠ prev →
    word (poke m (prev + PCB_next_in_table) (default 0 (head l2))) (y + PCB_next_in_table) =
    word m (y + PCB_next_in_table)) as Hother.
  { intros y Hy Hne. apply word_poke_ne. apply (pcbs_apart base (pre ++ prev :: x :: l2));
      [done|clear; set_solver|clear -Hy; set_solver|done|lia]. }
  apply links_app. split; [|split].
  - eapply links_frame; [|exact Hpre]. intros y Hy. apply Hother; [clear -Hy; set_solver|].
    intros ->. apply (Hn1 prev Hy). by left.
  - rewrite word_poke_eq by (apply pcb_word; [apply Hpcb; clear; set_solver|lia]).
    apply u32_small. destruct l2 as [|y l2]; simpl; [lia|].
    assert (pcb_ok base y) as Hy by (apply Hpcb; clear; set_solver). unfold pcb_ok in Hy. lia.
  - eapply links_frame; [|exact Hl2]. intros y Hy. apply Hother; [clear -Hy; set_solver|].
    intros ->. apply Hn2. by right.
Qed.

(** The words an unlinking writes. *)
Definition table_words (tl : list Z) : list Z := (λ x, x + PCB_next_in_table) <$> tl.

Lemma pcbs_ok_remove l1 x l2 : pcbs_ok base (l1 ++ x :: l2) → pcbs_ok base (l1 ++ l2).
Proof.
  intros (H1 & H2 & H3). split; [|split].
  - intros p Hp. apply H1. clear -Hp. set_solver.
  - apply NoDup_app in H2 as (N1 & N2 & N3). apply NoDup_cons in N3 as [_ N3].
    apply NoDup_app. split; [done|]. split; [|done]. intros y Hy Hy2. apply (N2 y Hy). by right.
  - intros p q Hp Hq. apply H3; [clear -Hp|clear -Hq]; set_solver.
Qed.

(** The first zombie of [parent] in the table is unlinked. *)
Lemma find_zombie_found s l1 x l2 parent :
  table_rep s.(mem) s.(process_table_head) (l1 ++ x :: l2) → pcb_ok base parent →
  (∀ y, y ∈ l1 ++ [x] → pcb_ok base (parent_of s.(mem) y)) →
  (∀ y, y ∈ l1 → ¬ zombie_child s.(mem) parent y) → zombie_child s.(mem) parent x →
  ∃ m' hd', find_zombie_child base s parent = Ok (x, set_table hd' (set_mem m' s)) ∧
    table_rep m' hd' (l1 ++ l2) ∧ only_words base s.(mem) m' (table_words (l1 ++ x :: l2)).
Proof.
  intros [Hhd Hl Hok Hlen] Hpar Hps Hno Hz. assert (0 < base) as Hb by lia.
  pose proof Hok as (Hpcb & Hnd & _).
  unfold find_zombie_child. rewrite get_field_ok, bind_ok by (done || lia). rewrite Hhd.
  assert (∃ k, S (S (Z.to_nat NUM_PAGES)) = length l1 + S k)%nat as [k ->].
  { rewrite length_app in Hlen. simpl in Hlen. exists (S (Z.to_nat NUM_PAGES) - length l1)%nat. lia. }
  rewrite (zombie_walk _ _ parent l1 (x :: l2) 0);
    [|done|intros y Hy; split; [apply Hpcb|apply Hps]; clear -Hy; set_solver|done|done].
  rewrite iter_S. change (default 0 (head (x :: l2))) with x.
  pose proof Hl as [_ [Hx _]]%links_app.
  assert (pcb_ok base x) as Hxo by (apply Hpcb; clear; set_solver).
  assert (pcb_ok base (parent_of (mem s) x)) as Hxp by (apply Hps; clear; set_solver).
  rewrite (find_zombie_step_ok _ _ parent x _ _ Hxo Hxp Hpar Hx), decide_True by done.
  pose proof (pcbs_ok_remove l1 x l2 Hok) as Hok'.
  assert (length (l1 ++ l2) ≤ Z.to_nat NUM_PAGES)%nat as Hlen'.
  { rewrite length_app in *. simpl in Hlen. lia. }
  destruct l1 as [|prev pre _] using rev_ind.
  - simpl. eexists _, _. split; [done|]. split; [|done].
    split; [done| |done|done]. simpl in Hl. apply Hl.
  - rewrite last_snoc. simpl (default 0 (Some prev)).
    assert (pcb_ok base prev) as Hprev by (apply Hpcb; clear; set_solver).
    rewrite (proj2 (Z.eqb_neq _ _) (pcb_nonnull base Hb prev Hprev)).
    rewrite set_field_ok, !bind_ok by (done || lia). eexists _, _. split; [done|].
    assert (∀ l, (pre ++ [prev]) ++ l = pre ++ prev :: l) as Hassoc
      by (intros; by rewrite <-(assoc_L (++))).
    rewrite Hassoc in Hl, Hok. rewrite !Hassoc in *. split.
    + split; [|by eapply links_remove|done|done]. by destruct pre.
    + apply only_words_poke, (list_elem_of_fmap_2 (λ x, x + PCB_next_in_table)).
      clear. set_solver.
Qed.

(** No zombie of [parent]. *)
Lemma find_zombie_none s tl parent :
  table_rep s.(mem) s.(process_table_head) tl → pcb_ok base parent →
  (∀ y, y ∈ tl → pcb_ok base (parent_of s.(mem) y)) →
  (∀ y, y ∈ tl → ¬ zombie_child s.(mem) parent y) →
  find_zombie_child base s parent = Ok (0, s).
Proof.
  intros [Hhd Hl (Hpcb & _) Hlen] Hpar Hps Hno.
  unfold find_zombie_child. rewrite get_field_ok, bind_ok by (done || lia).
  assert (∃ k, S (S (Z.to_nat NUM_PAGES)) = length tl + S k)%nat as [k ->]
    by (exists (S (Z.to_nat NUM_PAGES) - length tl)%nat; lia).
  pose proof (zombie_walk s.(mem) s.(process_table_head) parent tl [] 0 (S k) Hpar
    ltac:(intros y Hy; split; [by apply Hpcb|by apply Hps])
    ltac:(by rewrite app_nil_r) Hno) as W.
  rewrite app_nil_r in W. rewrite <-Hhd in W. rewrite W, iter_S.
  simpl. by destruct s.
Qed.

(** An entry whose parent is [NULL]. *)
Lemma find_zombie_null s l1 x l2 parent :
  table_rep s.(mem) s.(process_table_head) (l1 ++ x :: l2) → pcb_ok base parent →
  (∀ y, y ∈ l1 → pcb_ok base (parent_of s.(mem) y)) →
  (∀ y, y ∈ l1 → ¬ zombie_child s.(mem) parent y) → parent_of s.(mem) x = 0 →
  find_zombie_child base s parent = Err OutOfBounds.
Proof.
  intros [Hhd Hl Hok Hlen] Hpar Hps Hno Hz. assert (0 < base) as Hb by lia.
  pose proof Hok as (Hpcb & _).
  unfold find_zombie_child. rewrite get_field_ok, bind_ok by (done || lia). rewrite Hhd.
  assert (∃ k, S (S (Z.to_nat NUM_PAGES)) = length l1 + S k)%nat as [k ->].
  { rewrite length_app in Hlen. simpl in Hlen. exists (S (Z.to_nat NUM_PAGES) - length l1)%nat. lia. }
  rewrite (zombie_walk _ _ parent l1 (x :: l2) 0);
    [|done|intros y Hy; split; [apply Hpcb; clear -Hy; set_solver|by apply Hps]|done|done].
  rewrite iter_S. change (default 0 (head (x :: l2))) with x.
  assert (pcb_ok base x) as Hxo by (apply Hpcb; clear; set_solver).
  unfold find_zombie_step. rewrite (proj2 (Z.eqb_neq _ _) (pcb_nonnull base Hb x Hxo)).
  rewrite (get_field_ok base _ x PCB_parent), bind_ok by (done || lia).
  fold (parent_of s.(mem) x). rewrite Hz.
  assert (get_field base s.(mem) 0 PCB_pid = Err OutOfBounds) as ->; [|done].
  unfold get_field. apply load32_invalid. lia.
Qed.

(** ** Reading the status and freeing the PCB *)

Context {inv : memory → gmap Z Z → Prop} {HS : HeapSpec base inv}.

(** Where [*status] is stored: nowhere, or in memory of the kernel that is
    apart from PCBs in [tl] and their headers. *)
Definition status_ok (status : Z) (tl : list Z) : Prop :=
  status = 0 ∨ valid_word base status ∧
    ∀ y, y ∈ tl → status + 4 ≤ y - BLOCK_HEADER ∨ y + SIZEOF_PCB ≤ status.

Definition store_status (m : memory) (status v : Z) : memory :=
  if status =? 0 then m else poke m status v.

Lemma reap_ok s live status x :
  inv s.(mem) live → live !! x = Some SIZEOF_PCB → pcb_ok base x → status_ok status [x] →
  ∃ m', reap base s status x = Ok (i32 (word s.(mem) (x + PCB_pid)), set_mem m' s) ∧
    inv m' (delete x live) ∧
    same_but_header base (store_status s.(mem) status (word s.(mem) (x + PCB_exit_status))) m'
      (x - BLOCK_HEADER).
Proof.
  intros Hinv Hx Hxo Hst. unfold reap, store_status.
  set (m1 := if status =? 0 then _ else poke _ _ _).
  assert ((if status =? 0 then Ok s.(mem)
           else es ← get_field base s.(mem) x PCB_exit_status; store32 base s.(mem) status es) =
          Ok m1) as ->.
  { unfold m1. destruct (Z.eqb_spec status 0); [done|]. destruct Hst as [?|[Hst _]]; [done|].
    by rewrite get_field_ok, bind_ok, store32_valid by (done || lia). }
  assert (word m1 (x + PCB_pid) = word s.(mem) (x + PCB_pid)) as Hpid.
  { unfold m1. destruct (Z.eqb_spec status 0); [done|]. destruct Hst as [?|[_ Hst]]; [done|].
    destruct (Hst x ltac:(by left)); apply word_poke_ne; unfold apart; lia. }
  assert (inv m1 live) as Hinv1.
  { unfold m1. destruct (status =? 0); [done|by apply (hs_poke base)]. }
  destruct (hs_kfree m1 live x _ Hinv1 Hx) as (m' & Hk & Hinv' & Hsame).
  rewrite bind_ok, get_field_ok, bind_ok, Hk, bind_ok, Hpid by (done || lia). by exists m'.
Qed.
End table.
