(* ===== verification/WaitProps.v ===== *)
(** * Waiting for a child

    What [wait_syscall] and [exit_syscall] do to each other: a parent that
    waits collects a zombie child, or blocks; a child that exits becomes a
    zombie and wakes a blocked parent. *)
From S2P Require Import Prelude Memory MemorySpec MemoryProps MemWords ProcQueue QueueSpec QueueProps Process SchedSpec SchedProps ProcSpec ProcProps WaitSpec.

Section wait.
Context (base : Z) (Hbase : 4096 ≤ base) (Hfit : base + KERNEL_MEMORY_SIZE < 2 ^ 32).
Context {inv : memory → gmap Z Z → Prop} {HS : HeapSpec base inv}.

Local Abbreviation word := (word base).
Local Abbreviation poke := (poke base).
Local Abbreviation parent_of := (parent_of base).
Local Abbreviation zombie_child := (zombie_child base).

Lemma base_pos : 0 < base.
Proof. clear -Hbase. lia. Qed.

(** The process table holds [tl], the current process among them. *)
Record table_ready (s : kstate) (tl : list Z) : Prop := {
  ta_table : table_rep base s.(mem) s.(process_table_head) tl;
  ta_current : s.(current_process) ∈ tl;
}.

Lemma table_current s tl : table_ready s tl → pcb_ok base s.(current_process).
Proof. intros [Ht Hc]. by apply (tr_pcbs _ _ _ _ Ht). Qed.

Lemma table_rep_frame m m' hd tl :
  table_rep base m hd tl →
  (∀ y, y ∈ tl → word m' (y + PCB_next_in_table) = word m (y + PCB_next_in_table)) →
  table_rep base m' hd tl.
Proof. intros [] H. split; try done. by eapply links_frame. Qed.

(** Fields other than the link of the table are not unlinked. *)
Lemma table_words_other m m' tl y o :
  pcbs_ok base tl → y ∈ tl → 0 ≤ o ≤ 88 → o + 4 ≤ PCB_next_in_table ∨ PCB_next_in_table + 4 ≤ o →
  only_words base m m' (table_words tl) → word m' (y + o) = word m (y + o).
Proof.
  intros Hok Hy Ho Hne Hm. eapply only_words_word; [exact Hm|].
  intros w (x & -> & Hx)%list_elem_of_fmap.
  apply (pcb_fields_apart base tl); [done..|right; lia|lia|lia].
Qed.

(** An entry of the table occurs once. *)
Lemma pcbs_ok_mid l1 x l2 y : pcbs_ok base (l1 ++ x :: l2) → y ∈ l1 ++ l2 → y ≠ x.
Proof.
  intros (_ & Hnd & _) Hy ->. apply NoDup_app in Hnd as (_ & N1 & N2).
  apply NoDup_cons in N2 as [N2 _]. apply elem_of_app in Hy as [Hy|Hy]; [|done].
  apply (N1 x Hy). by left.
Qed.

(** What collecting [x] leaves behind. *)
Record reaped (s s' : kstate) (live : gmap Z Z) (rest : list Z) (x status : Z) : Prop := {
  re_table : table_rep base s'.(mem) s'.(process_table_head) rest;
  re_inv : inv s'.(mem) (delete x live);
  re_status : status ≠ 0 → word s'.(mem) status = u32 (word s.(mem) (x + PCB_exit_status));
  re_current : s'.(current_process) = s.(current_process);
  re_queue : s'.(ready_queue) = s.(ready_queue);
  re_pids : s'.(next_pid) = s.(next_pid);
  re_fields : ∀ y o, y ∈ rest → 0 ≤ o ≤ 88 →
    o + 4 ≤ PCB_next_in_table ∨ PCB_next_in_table + 4 ≤ o →
    word s'.(mem) (y + o) = word s.(mem) (y + o);
}.

Lemma collect_spec s live l1 x l2 parent status :
  table_rep base s.(mem) s.(process_table_head) (l1 ++ x :: l2) → pcb_ok base parent →
  inv s.(mem) live → pcbs_live live (l1 ++ x :: l2) →
  (∀ y, y ∈ l1 ++ [x] → pcb_ok base (parent_of s.(mem) y)) →
  (∀ y, y ∈ l1 → ¬ zombie_child s.(mem) parent y) → zombie_child s.(mem) parent x →
  status_ok base status (l1 ++ x :: l2) →
  ∃ s1 s', find_zombie_child base s parent = Ok (x, s1) ∧
    reap base s1 status x = Ok (i32 (word s.(mem) (x + PCB_pid)), s') ∧
    reaped s s' live (l1 ++ l2) x status.
Proof.
  intros Ht Hpar Hinv Hlive Hps Hno Hz Hst. pose proof (tr_pcbs _ _ _ _ Ht) as Hok.
  destruct (find_zombie_found base Hbase Hfit s l1 x l2 parent Ht Hpar Hps Hno Hz)
    as (m1 & hd & Hf & Ht1 & Hm1).
  set (s1 := set_table hd (set_mem m1 s)) in *.
  assert (x ∈ l1 ++ x :: l2) as Hxin by (clear; set_solver).
  assert (∀ y, y ∈ l1 ++ l2 → y ∈ l1 ++ x :: l2) as Hsub by (clear; set_solver).
  pose proof (pcbs_ok_mid l1 x l2) as Hnx.
  assert (inv m1 live) as Hinv1 by (destruct Hm1 as (? & ? & _); by eapply hs_bytes).
  pose proof (proj1 Hok x Hxin) as Hxo.
  assert (status_ok base status [x]) as Hst1.
  { destruct Hst as [?|[Hv Hst]]; [by left|right]. split; [done|].
    intros y ->%list_elem_of_singleton. by apply Hst. }
  destruct (reap_ok base s1 live status x Hinv1 (Hlive x Hxin) Hxo Hst1)
    as (m' & Hr & Hinv' & Hsame).
  assert (∀ y o, y ∈ l1 ++ l2 → 0 ≤ o ≤ 88 → word m' (y + o) = word m1 (y + o)) as Hy.
  { intros y o Hyin Ho. pose proof (hs_apart _ _ y x _ _ Hinv1 (Hlive y (Hsub y Hyin))
      (Hlive x Hxin) (Hnx y Hok Hyin) ltac:(lia) ltac:(lia)) as Hap.
    rewrite (word_same_header _ _ _ _ _ Hsame) by lia. unfold store_status.
    destruct (Z.eqb_spec status 0); [done|]. destruct Hst as [?|[Hv Hst]]; [done|].
    destruct (Hst y (Hsub y Hyin)); apply word_poke_ne; unfold apart; lia. }
  assert (∀ o, 0 ≤ o ≤ 88 → o + 4 ≤ PCB_next_in_table ∨ PCB_next_in_table + 4 ≤ o →
    word m1 (x + o) = word s.(mem) (x + o)) as Hx1.
  { intros o Ho Hne. by eapply table_words_other. }
  exists s1, (set_mem m' s1). split; [done|]. rewrite Hr. unfold s1.
  cbn [mem set_mem set_table]. rewrite Hx1 by lia. split; [done|].
  split; cbn [mem set_mem set_table process_table_head current_process ready_queue next_pid];
    try done.
  - eapply table_rep_frame; [exact Ht1|]. intros y Hyin. apply Hy; [done|lia].
  - intros Hs0. rewrite <-Hx1 by lia. destruct Hst as [?|[Hv Hst]]; [done|].
    rewrite (word_same_header _ _ _ _ _ Hsame) by (destruct (Hst x Hxin); lia).
    unfold store_status. rewrite (proj2 (Z.eqb_neq _ _) Hs0), word_poke_eq by done.
    done.
  - intros y o Hyin Ho Hne. rewrite Hy by done. eapply table_words_other; [exact Hok|auto..|done].
Qed.

(** Both parts of [wait_syscall] that collect a zombie. *)
Lemma wait_collects s live l1 x l2 status ebp esp :
  table_ready s (l1 ++ x :: l2) → inv s.(mem) live → pcbs_live live (l1 ++ x :: l2) →
  (∀ y, y ∈ l1 ++ [x] → pcb_ok base (parent_of s.(mem) y)) →
  (∀ y, y ∈ l1 → ¬ zombie_child s.(mem) s.(current_process) y) →
  zombie_child s.(mem) s.(current_process) x → status_ok base status (l1 ++ x :: l2) →
  ∃ s', wait_syscall base s status ebp esp =
      Ok (WaitReturns (i32 (word s.(mem) (x + PCB_pid))), s') ∧
    wait_resumed base s s.(current_process) status =
      Ok (i32 (word s.(mem) (x + PCB_pid)), s') ∧
    reaped s s' live (l1 ++ l2) x status.
Proof.
  intros Ht Hinv Hlive Hps Hno Hz Hst. pose proof (table_current _ _ Ht) as Hpar.
  destruct Ht as [Ht _].
  destruct (collect_spec s live l1 x l2 _ status Ht Hpar Hinv Hlive Hps Hno Hz Hst)
    as (s1 & s' & Hf & Hr & Hre).
  assert (pcb_ok base x) as Hx by (apply (tr_pcbs _ _ _ _ Ht); clear; set_solver).
  exists s'. unfold wait_syscall, wait_resumed, get_current_process.
  rewrite (proj2 (Z.eqb_neq _ _) (pcb_nonnull base base_pos _ Hpar)).
  rewrite get_field_ok, bind_ok, Hf, !bind_ok by (done || lia).
  rewrite (proj2 (Z.eqb_neq _ _) (pcb_nonnull base base_pos _ Hx)). simpl negb. cbn iota.
  by rewrite Hr.
Qed.

(** C29: [wait_syscall] collects the first zombie child of the caller in the
    process table, and so does the part of it that runs after the caller was
    resumed.  It returns the child's pid, stores the exit status when it is given
    a place for it, frees the PCB and unlinks it from the table; the other
    entries keep their order and all their other fields, and the queue and the
    current process do not change. *)
Theorem wait_reaps_child s live l1 x l2 status ebp esp :
  table_ready s (l1 ++ x :: l2) → inv s.(mem) live → pcbs_live live (l1 ++ x :: l2) →
  (∀ y, y ∈ l1 ++ [x] → pcb_ok base (parent_of s.(mem) y)) →
  (∀ y, y ∈ l1 → ¬ zombie_child s.(mem) s.(current_process) y) →
  zombie_child s.(mem) s.(current_process) x → status_ok base status (l1 ++ x :: l2) →
  ∃ s', wait_syscall base s status ebp esp =
      Ok (WaitReturns (i32 (word s.(mem) (x + PCB_pid))), s') ∧
    wait_resumed base s s.(current_process) status =
      Ok (i32 (word s.(mem) (x + PCB_pid)), s') ∧
    reaped s s' live (l1 ++ l2) x status.
Proof. apply wait_collects. Qed.

(** C31: [wait_syscall] goes through the [parent] pointer of every entry that
    it passes.  When it comes to a process without a parent, as long as it has
    not found a zombie, it reads through [NULL]. *)
Theorem wait_null_parent s l1 x l2 status ebp esp :
  table_ready s (l1 ++ x :: l2) →
  (∀ y, y ∈ l1 → pcb_ok base (parent_of s.(mem) y)) →
  (∀ y, y ∈ l1 → ¬ zombie_child s.(mem) s.(current_process) y) →
  parent_of s.(mem) x = 0 →
  wait_syscall base s status ebp esp = Err OutOfBounds.
Proof.
  intros Ht Hps Hno Hz. pose proof (table_current _ _ Ht) as Hpar. destruct Ht as [Ht _].
  unfold wait_syscall, get_current_process.
  rewrite (proj2 (Z.eqb_neq _ _) (pcb_nonnull base base_pos _ Hpar)).
  by rewrite (find_zombie_null base Hbase s l1 x l2).
Qed.

(** Scheduling and the process table. *)
Lemma switched_table s s' l n t tl :
  sched_ok base s l → switched base s s' l n t → (∀ y, y ∈ sched_pcbs s l → y ∈ tl) →
  table_rep base s.(mem) s.(process_table_head) tl →
  table_rep base s'.(mem) s'.(process_table_head) tl ∧
  (∀ y o, y ∈ tl → other_field o → word s'.(mem) (y + o) = word s.(mem) (y + o)) ∧
  (∀ y, y ∈ tl → y ∉ sched_pcbs s l → word s'.(mem) (y + PCB_state) = word s.(mem) (y + PCB_state)).
Proof.
  intros Hs Hsw Hsub Ht. pose proof (tr_pcbs _ _ _ _ Ht) as Hok.
  assert (only_words base s.(mem) s'.(mem) (field_words sched_fields tl)) as Hfr.
  { eapply only_words_mono; [|apply Hsw]. intros w. by apply field_words_mono. }
  assert (∀ y o, y ∈ tl → other_field o → word s'.(mem) (y + o) = word s.(mem) (y + o)) as Ho.
  { intros y o Hy Ho. by eapply other_field_kept. }
  split; [|split; [done|]].
  - rewrite (sw_table _ _ _ _ _ _ Hsw). eapply table_rep_frame; [exact Ht|].
    intros y Hy. apply Ho; [done|]. apply other_fields.
  - intros y Hy Hn. eapply only_words_word; [apply Hsw|].
    intros w (q & o & Hq & Ho' & ->)%field_words_inv. pose proof (sched_fields_range _ Ho').
    apply (pcb_fields_apart base tl); [done|by apply Hsub|done| |lia|lia]. left. by intros ->.
Qed.

(** A process that is not running gives the processor to the first ready one. *)
Lemma leave_schedule s tl n t esp :
  let c := s.(current_process) in
  running base s = false → c ≠ 0 → c ∈ tl → sched_ok base s (n :: t) →
  table_rep base s.(mem) s.(process_table_head) tl → (∀ y, y ∈ n :: t → y ∈ tl) →
  n ∈ tl ∧ n ≠ c ∧
  ∃ s', schedule base s esp =
      Ok (Resume (word s.(mem) (n + PCB_user_stack_ptr)) (new_child base s.(mem) n), s') ∧
    switched base s s' (n :: t) n t ∧ table_rep base s'.(mem) s'.(process_table_head) tl ∧
    (∀ y o, y ∈ tl → other_field o → word s'.(mem) (y + o) = word s.(mem) (y + o)) ∧
    (∀ y, y ∈ tl → y ≠ n → word s'.(mem) (y + PCB_state) = word s.(mem) (y + PCB_state)).
Proof.
  intros c Hrun Hc0 Hc Hs Ht Hl. assert (n ∈ tl) as Hn by (apply Hl; by left).
  assert (n ≠ c) as Hnc.
  { destruct (so_current _ _ _ Hs) as [?|(_ & Hnd & _)]; [done|].
    apply NoDup_cons in Hnd as [Hnd _]. intros ->. apply Hnd. by left. }
  pose proof (schedule_cases base base_pos ltac:(lia) s (n :: t) esp Hs) as Hsch.
  unfold candidates in Hsch. rewrite Hrun in Hsch. destruct Hsch as (s' & Hsch & Hsw).
  assert (∀ y, y ∈ sched_pcbs s (n :: t) → y ∈ tl) as Hsub.
  { unfold sched_pcbs. fold c. rewrite (proj2 (Z.eqb_neq _ _) Hc0).
    intros y [->|Hy]%elem_of_cons; auto. }
  destruct (switched_table s s' (n :: t) n t tl Hs Hsw Hsub Ht) as (Ht' & Hof & Hst).
  split; [done|]. split; [done|]. exists s'. split; [done|]. split; [done|]. split; [done|].
  split; [done|]. intros y Hy Hyn.
  destruct (decide (y ∈ sched_pcbs s (n :: t))) as [Hin|Hin]; [|by apply Hst].
  by apply (sw_states _ _ _ _ _ _ Hsw Hrun).
Qed.

(** A process that is not running leaves the processor. *)
Lemma sched_ok_poke s l o v :
  sched_ok base s l → s.(current_process) ≠ 0 → 0 ≤ o ≤ 88 →
  sched_ok base (set_mem (poke s.(mem) (s.(current_process) + o) v) s) l.
Proof.
  intros [Hq [?|Hc] Hlen] Hc0 Ho; [done|]. split; [|by right|done].
  cbn [mem set_mem ready_queue]. eapply queue_rep_frame; [exact Hq|]. intros y Hy.
  apply (poke_other _ _ (current_process s :: l)); [done|by left|by right|lia|lia|].
  left. intros E. rewrite <-E in Hy. destruct Hc as (_ & Hnd & _).
  by apply NoDup_cons in Hnd as [? _].
Qed.

(** What [wait_syscall] stores before it gives the processor away. *)
Definition blocked_memory (m : memory) (c ebp : Z) : memory :=
  poke (poke m (c + PCB_state) STATE_BLOCKED) (c + PCB_user_stack_ptr) ebp.

Lemma blocked_memory_words m tl c ebp :
  pcbs_ok base tl → c ∈ tl → 0 ≤ ebp < 2 ^ 32 →
  let m' := blocked_memory m c ebp in
  word m' (c + PCB_state) = STATE_BLOCKED ∧ word m' (c + PCB_user_stack_ptr) = ebp ∧
  (∀ y o, y ∈ tl → 0 ≤ o ≤ 88 → y ≠ c ∨ 12 ≤ o → word m' (y + o) = word m (y + o)) ∧
  (∀ y, y ∈ tl → new_child base m' y = new_child base m y).
Proof.
  intros Hok Hc Hebp m'. pose proof (proj1 Hok c Hc) as Hco. unfold m', blocked_memory.
  split; [|split; [|split]].
  - rewrite word_poke_ne by (unfold apart; lia).
    rewrite word_poke_eq by (apply pcb_word; done || lia). done.
  - rewrite word_poke_eq by (apply pcb_word; done || lia). by apply u32_small.
  - intros y o Hy Ho Hne.
    by rewrite !(poke_other _ _ tl)
      by (done || lia || (destruct Hne; [left; congruence|right; lia])).
  - intros y Hy. rewrite !(new_child_poke base _ tl); done || lia.
Qed.

(** [wait_syscall] without a zombie child, up to the call of [schedule]. *)
Lemma wait_prepare s tl status ebp esp :
  let c := s.(current_process) in
  table_ready s tl → (∀ y, y ∈ tl → pcb_ok base (parent_of s.(mem) y)) →
  (∀ y, y ∈ tl → ¬ zombie_child s.(mem) c y) →
  wait_syscall base s status ebp esp =
    ('(o, s') ← schedule base (set_mem (blocked_memory s.(mem) c ebp) s) esp;
     Ok (WaitBlocks (Some o), s')).
Proof.
  intros c Ht Hps Hno. pose proof (table_current _ _ Ht) as Hpar. fold c in Hpar.
  destruct Ht as [Ht Hin]. pose proof (pcb_nonnull base base_pos _ Hpar) as Hc0.
  unfold wait_syscall, get_current_process. fold c. rewrite (proj2 (Z.eqb_neq _ _) Hc0).
  rewrite (find_zombie_none base Hbase s tl), bind_ok by done. simpl negb. cbn iota.
  rewrite assign_ok, bind_ok by (done || lia). rewrite get_field_ok, bind_ok by (done || lia).
  unfold yield_syscall, get_current_process. cbn [set_mem current_process]. fold c.
  rewrite (proj2 (Z.eqb_neq _ _) Hc0), get_field_ok, bind_ok by (done || lia).
  rewrite assign_ok, bind_ok by (done || lia). rewrite get_field_ok, bind_ok by (done || lia).
  cbn [mem set_mem]. fold (blocked_memory s.(mem) c ebp).
  destruct (schedule _ _ _) as [[o s']|e]; by rewrite ?bind_ok.
Qed.

(** When no child of the caller is a zombie and every entry of the table has a
    parent, [wait_syscall] blocks: the caller becomes [BLOCKED], saves its frame
    pointer and is not put into the ready queue; the first ready process runs, or
    the command line when there is none.  A table that still holds the first
    process does not meet the condition: its [parent] is [NULL], and the call ends
    as in [wait_null_parent]. *)
Lemma wait_blocks s l tl status ebp esp :
  table_ready s tl → sched_ok base s l → (∀ y, y ∈ l → y ∈ tl) → 0 ≤ ebp < 2 ^ 32 →
  (∀ y, y ∈ tl → pcb_ok base (parent_of s.(mem) y)) →
  (∀ y, y ∈ tl → ¬ zombie_child s.(mem) s.(current_process) y) →
  ∃ o s', wait_syscall base s status ebp esp = Ok (WaitBlocks (Some o), s') ∧
    word s'.(mem) (s.(current_process) + PCB_state) = STATE_BLOCKED ∧
    word s'.(mem) (s.(current_process) + PCB_user_stack_ptr) = ebp ∧
    table_rep base s'.(mem) s'.(process_table_head) tl ∧
    match l with
    | [] => o = EnterCli ∧ s'.(current_process) = s.(current_process)
    | n :: t => o = Resume (word s.(mem) (n + PCB_user_stack_ptr)) (new_child base s.(mem) n) ∧
        s'.(current_process) = n ∧ word s'.(mem) (n + PCB_state) = STATE_RUNNING ∧
        sched_ok base s' t
    end.
Proof.
  intros Ht Hs Hl Hebp Hps Hno. rewrite (wait_prepare s tl) by done.
  pose proof (table_current _ _ Ht) as Hpar. destruct Ht as [Ht Hin].
  set (c := s.(current_process)) in *. pose proof (pcb_nonnull base base_pos _ Hpar) as Hc0.
  destruct (blocked_memory_words s.(mem) tl c ebp (tr_pcbs _ _ _ _ Ht) Hin Hebp)
    as (Hst & Husp & H2 & Hnew).
  set (s2 := set_mem (blocked_memory s.(mem) c ebp) s).
  assert (sched_ok base s2 l) as Hs2
    by (apply (sched_ok_poke (set_mem (poke s.(mem) (c + PCB_state) STATE_BLOCKED) s));
        [apply (sched_ok_poke s)| |]; done || lia).
  assert (running base s2 = false) as Hrun.
  { unfold running. change (current_process s2) with c. cbn [s2 mem set_mem].
    by rewrite Hst, andb_comm. }
  assert (table_rep base s2.(mem) s2.(process_table_head) tl) as Ht2.
  { eapply table_rep_frame; [exact Ht|]. intros y Hy. apply H2; [done|lia|right; lia]. }
  destruct l as [|n t].
  { pose proof (schedule_cases base base_pos ltac:(lia) s2 [] esp Hs2) as Hsch.
    unfold candidates in Hsch. rewrite Hrun in Hsch. rewrite Hsch, bind_ok.
    eexists _, s2. by split_and!. }
  destruct (leave_schedule s2 tl n t esp Hrun Hc0 Hin Hs2 Ht2 Hl)
    as (Hn & Hnc & s' & Hsch & Hsw & Ht' & Hof & Hkept).
  rewrite Hsch, bind_ok. cbn [s2 mem set_mem]. change (current_process s2) with c in Hnc.
  rewrite Hnew, (H2 n) by (auto || lia).
  eexists _, s'. split; [done|]. split; [|split; [|split; [done|split; [done|]]]].
  - rewrite Hkept by (done || congruence). exact Hst.
  - rewrite Hof; [done|done|apply other_fields].
  - split; [apply Hsw|]. split; apply Hsw.
Qed.

End wait.

(** ** A parent and its child *)

Local Abbreviation p0 := (ptr_of demo_base 0).
Local Abbreviation p1 := (ptr_of demo_base 1).
Local Abbreviation pokes m := (foldr (λ '(a, v) m, MemWords.poke demo_base m a v) m).

(** A process [p0] with pid 1 and a child [p1] with pid 2. *)
Definition family (m : memory) (st0 st1 par0 current : Z) (q : ProcessQueue) : kstate :=
  MkKstate (pokes m [(p0 + PCB_pid, 1); (p0 + PCB_state, st0); (p0 + PCB_parent, par0);
      (p1 + PCB_pid, 2); (p1 + PCB_state, st1); (p1 + PCB_parent, p0);
      (p1 + PCB_next_in_table, p0)])
    current q p1 3.

Definition family_live : gmap Z Z := <[p1 := SIZEOF_PCB]> (<[p0 := SIZEOF_PCB]> ∅).

Lemma two_pcbs :
  ∃ m, heap_inv demo_base m family_live ∧
    ∀ o, 0 ≤ o ≤ 88 → MemWords.word demo_base m (p0 + o) = 0 ∧ MemWords.word demo_base m (p1 + o) = 0.
Proof.
  assert (0 < demo_base) as Hb by done.
  destruct (clean_heap_alloc demo_base demo_memory ∅ 0 SIZEOF_PCB Hb demo_clean) as (m1 & _ & H1);
    [done..|].
  destruct (clean_heap_alloc demo_base m1 _ _ SIZEOF_PCB Hb H1) as (m2 & _ & H2); [done..|].
  exists m2. split; [apply (ch_inv _ _ _ _ H2)|]. intros o Ho.
  split; apply (clean_heap_word _ _ _ _ _ SIZEOF_PCB _ H2); done || lia.
Qed.

Section family.
Context (m : memory) (Hinv : heap_inv demo_base m family_live)
  (Hzero : ∀ o, 0 ≤ o ≤ 88 → MemWords.word demo_base m (p0 + o) = 0 ∧
                             MemWords.word demo_base m (p1 + o) = 0)
  (st0 st1 par0 : Z) (Hst0 : 0 ≤ st0 < 2 ^ 32) (Hst1 : 0 ≤ st1 < 2 ^ 32)
  (Hpar0 : 0 ≤ par0 < 2 ^ 32).

Local Abbreviation fam := (family m st0 st1 par0).
Local Abbreviation fword s a := (MemWords.word demo_base (mem s) a).

Lemma family_words current q :
  let s := fam current q in
  fword s (p0 + PCB_pid) = 1 ∧ fword s (p0 + PCB_state) = st0 ∧ fword s (p0 + PCB_parent) = par0 ∧
  fword s (p1 + PCB_pid) = 2 ∧ fword s (p1 + PCB_state) = st1 ∧ fword s (p1 + PCB_parent) = p0 ∧
  fword s (p1 + PCB_next_in_table) = p0 ∧ fword s (p0 + PCB_next_in_table) = 0 ∧
  fword s (p1 + PCB_next) = 0 ∧ fword s (p0 + PCB_next) = 0.
Proof.
  assert (p0 = 1048584) as E0 by done. assert (p1 = 1052680) as E1 by done.
  assert (demo_base = 1048576) as EB by done. unfold family. simpl mem.
  split_and!;
    repeat first [rewrite word_poke_eq by (unfold valid_word; lia)
                 |rewrite word_poke_ne by (unfold apart; lia)];
    try (apply u32_small; lia); apply Hzero; lia.
Qed.

Lemma family_pcb : pcb_ok demo_base p0 ∧ pcb_ok demo_base p1.
Proof. clear. by vm_compute. Qed.

Lemma family_pcbs : pcbs_ok demo_base [p1; p0].
Proof.
  clear. assert (p0 = 1048584) as E0 by done. assert (p1 = 1052680) as E1 by done. split; [|split].
  - intros p Hp. apply elem_of_cons in Hp as [->|Hp]; [apply family_pcb|].
    apply list_elem_of_singleton in Hp as ->. apply family_pcb.
  - apply NoDup_cons. split; [|apply NoDup_singleton].
    intros Hp%list_elem_of_singleton. lia.
  - intros a b Ha Hb. apply elem_of_cons in Ha as [->|Ha%list_elem_of_singleton];
      apply elem_of_cons in Hb as [->|Hb%list_elem_of_singleton]; subst; lia || done.
Qed.

Lemma family_table current q : current ∈ [p1; p0] → table_ready demo_base (fam current q) [p1; p0].
Proof.
  intros Hc. pose proof (family_words current q) as W. destruct_and! W.
  split; [|done]. split; [done| |apply family_pcbs|simpl; lia].
  cbn [links head default]. by split_and!.
Qed.

Lemma family_inv current q : heap_inv demo_base (fam current q).(mem) family_live.
Proof. by eapply (hs_bytes (HeapSpec := heap_spec demo_base eq_refl)). Qed.

Lemma family_pcbs_live : pcbs_live family_live [p1; p0].
Proof.
  clear. intros p Hp. apply elem_of_cons in Hp as [->|Hp]; [apply lookup_insert_eq|].
  apply list_elem_of_singleton in Hp as ->. unfold family_live.
  rewrite lookup_insert_ne by done. apply lookup_insert_eq.
Qed.

Lemma family_status : status_ok demo_base (p1 + 100) [p1; p0].
Proof.
  clear. assert (p0 = 1048584) as E0 by done. assert (p1 = 1052680) as E1 by done.
  assert (demo_base = 1048576) as EB by done.
  right. split; [unfold valid_word; lia|]. intros y Hy.
  apply elem_of_cons in Hy as [->|Hy]; [lia|]. apply list_elem_of_singleton in Hy as ->. lia.
Qed.

Lemma family_sched current : current ∈ [p1; p0] →
  sched_ok demo_base (fam current (MkQueue 0 0)) [].
Proof.
  intros Hc. split; [apply queue_rep_nil| |simpl; lia]. right. simpl.
  apply elem_of_cons in Hc as [->|Hc%list_elem_of_singleton]; [|subst];
    [apply (pcbs_ok_app _ [p1] [p0])|apply (pcbs_ok_app _ [p1] [p0])]; apply family_pcbs.
Qed.

Lemma family_ready : sched_ok demo_base (fam p0 (MkQueue p1 p1)) [p1].
Proof.
  pose proof (family_words p0 (MkQueue p1 p1)) as W. destruct_and! W.
  split; [|right|simpl; lia].
  - split; [done|done| |apply (pcbs_ok_app _ [p1] [p0]), family_pcbs|simpl; lia].
    by split.
  - eapply pcbs_ok_perm; [|apply family_pcbs]. apply perm_swap.
Qed.

Lemma family_sched_parent : sched_ok demo_base (fam p1 (MkQueue p0 p0)) [p0].
Proof.
  pose proof (family_words p1 (MkQueue p0 p0)) as W. destruct_and! W.
  split; [|right; apply family_pcbs|simpl; lia].
  split; [done|done| |apply (pcbs_ok_app _ [p1] [p0]), family_pcbs|simpl; lia].
  by split.
Qed.
End family.

Lemma wait_reaps_child_witness :
  ∃ m s', let s := family m STATE_RUNNING STATE_ZOMBIE 0 p0 (MkQueue 0 0) in
    wait_syscall demo_base s (p1 + 100) 9000 5000 =
      Ok (WaitReturns (i32 (MemWords.word demo_base s.(mem) (p1 + PCB_pid))), s') ∧
    wait_resumed demo_base s p0 (p1 + 100) =
      Ok (i32 (MemWords.word demo_base s.(mem) (p1 + PCB_pid)), s') ∧
    reaped demo_base (inv := heap_inv demo_base) s s' family_live [p0] p1 (p1 + 100).
Proof.
  destruct two_pcbs as (m & Hinv & Hz). exists m.
  set (s := family m STATE_RUNNING STATE_ZOMBIE 0 p0 (MkQueue 0 0)).
  pose proof (family_words m Hz STATE_RUNNING STATE_ZOMBIE 0 ltac:(lia) ltac:(lia) ltac:(lia)
    p0 (MkQueue 0 0)) as W. fold s in W. cbv zeta in W. destruct_and! W.
  assert (parent_of demo_base s.(mem) p1 = p0) as Hp by done.
  apply (wait_reaps_child demo_base ltac:(by vm_compute) ltac:(by vm_compute)
    (inv := heap_inv demo_base) (HS := heap_spec demo_base eq_refl) s family_live [] p1 [p0]
    (p1 + 100) 9000 5000).
  - apply family_table; (done || lia || set_solver).
  - by apply family_inv.
  - apply family_pcbs_live.
  - intros y Hy. apply list_elem_of_singleton in Hy as ->. rewrite Hp. apply family_pcb.
  - intros y Hy. by apply not_elem_of_nil in Hy.
  - split; [by rewrite Hp|done].
  - apply family_status.
Defined.

Lemma wait_null_parent_witness :
  ∃ m, wait_syscall demo_base (family m STATE_RUNNING STATE_READY 0 p0 (MkQueue p1 p1))
    0 9000 5000 = Err OutOfBounds.
Proof.
  destruct two_pcbs as (m & Hinv & Hz). exists m.
  set (s := family m STATE_RUNNING STATE_READY 0 p0 (MkQueue p1 p1)).
  pose proof (family_words m Hz STATE_RUNNING STATE_READY 0 ltac:(lia) ltac:(lia) ltac:(lia)
    p0 (MkQueue p1 p1)) as W. fold s in W. cbv zeta in W. destruct_and! W.
  assert (parent_of demo_base s.(mem) p1 = p0) as Hp by done.
  apply (wait_null_parent demo_base ltac:(by vm_compute) s [p1] p0 [] 0 9000 5000).
  - apply family_table; (done || lia || set_solver).
  - intros y Hy. apply list_elem_of_singleton in Hy as ->. rewrite Hp. apply family_pcb.
  - intros y Hy. apply list_elem_of_singleton in Hy as ->. intros [_ E]. congruence.
  - done.
Defined.
