(* ===== verification/ExitProps.v ===== *)
(** * The end of a process

    [exit_syscall] makes the caller a zombie that keeps its exit status, wakes
    the parent when that is blocked in [wait_syscall], and gives the processor
    away.  The parent gets the status from the process table, whether it was
    blocked or calls [wait_syscall] later. *)
From S2P Require Import Prelude Memory MemorySpec MemoryProps MemWords ProcQueue QueueSpec QueueProps Process SchedSpec SchedProps ProcSpec ProcProps WaitSpec WaitProps.

Section exit.
Context (base : Z) (Hbase : 4096 ≤ base) (Hfit : base + KERNEL_MEMORY_SIZE < 2 ^ 32).
Context {inv : memory → gmap Z Z → Prop} {HS : HeapSpec base inv}.

Local Abbreviation word := (word base).
Local Abbreviation poke := (poke base).
Local Abbreviation parent_of := (parent_of base).
Local Abbreviation zombie_child := (zombie_child base).

(** ** The stores of [exit_syscall] *)

(** Whether the parent is woken, and the ready queue from which the next
    process is taken. *)
Definition woken (s : kstate) (P : Z) : bool := word s.(mem) (P + PCB_state) =? STATE_BLOCKED.
Definition exit_queue (s : kstate) (P : Z) (l : list Z) : list Z :=
  if woken s P then insert_by (priority_of base s) P l else l.

(** The stores before the parent is enqueued; [w] tells whether it is. *)
Definition exit_memory (m : memory) (c P v : Z) (w : bool) : memory :=
  let m := poke (poke m (c + PCB_exit_status) v) (c + PCB_state) STATE_ZOMBIE in
  if w then poke m (P + PCB_state) STATE_READY else m.

Section stores.
Context (m : memory) (tl : list Z) (c P v : Z) (w : bool).
Context (Hok : pcbs_ok base tl) (Hc : c ∈ tl) (HP : P ∈ tl) (HPc : P ≠ c).

Let me := exit_memory m c P v w.

Lemma exit_memory_state y :
  y ∈ tl → word me (y + PCB_state) =
    if decide (y = c) then STATE_ZOMBIE
    else if decide (w = true ∧ y = P) then STATE_READY else word m (y + PCB_state).
Proof.
  intros Hy. pose proof Hok as (Hpcb & _). unfold me, exit_memory.
  assert (∀ x m' z, x ∈ tl → 0 ≤ z < 2 ^ 32 → word (poke m' (x + PCB_state) z) (x + PCB_state) = z)
    as Heq by (intros; rewrite word_poke_eq by (apply pcb_word; [auto|lia]); by apply u32_small).
  assert (∀ x z m' o, x ∈ tl → 0 ≤ o ≤ 88 → x ≠ y ∨ o = PCB_exit_status →
    word (poke m' (x + o) z) (y + PCB_state) = word m' (y + PCB_state)) as Hne
    by (intros; apply (poke_other base _ tl); done || lia).
  destruct (decide (y = c)) as [->|Hyc].
  - destruct w; [rewrite (Hne P) by (done || lia || (by left))|]; apply Heq; done || lia.
  - assert (word (poke (poke m (c + PCB_exit_status) v) (c + PCB_state) STATE_ZOMBIE) (y + PCB_state) =
      word m (y + PCB_state)) as E by (rewrite !(Hne c) by (lia || done || (left; congruence)); done).
    destruct w; [|by rewrite decide_False by (intros [? _]; done)].
    destruct (decide (true = true ∧ y = P)) as [[_ ->]|HyP]; [apply Heq; done || lia|].
    rewrite (Hne P); [exact E|done|lia|left; intros <-; by apply HyP].
Qed.

Lemma exit_memory_status : word me (c + PCB_exit_status) = u32 v.
Proof.
  pose proof Hok as (Hpcb & _). unfold me, exit_memory.
  assert (word (poke (poke m (c + PCB_exit_status) v) (c + PCB_state) STATE_ZOMBIE)
    (c + PCB_exit_status) = u32 v) as E.
  { rewrite (poke_other base _ tl) by (done || lia).
    rewrite word_poke_eq; [done|]. apply pcb_word; [auto|lia]. }
  destruct w; [|exact E]. by rewrite (poke_other base _ tl) by (done || lia).
Qed.

Lemma exit_memory_other y o :
  y ∈ tl → 0 ≤ o ≤ 88 → o + 4 ≤ PCB_state ∨ PCB_state + 4 ≤ o →
  y ≠ c ∨ o + 4 ≤ PCB_exit_status ∨ PCB_exit_status + 4 ≤ o → word me (y + o) = word m (y + o).
Proof.
  intros Hy Ho H1 H2. unfold me, exit_memory.
  assert (word (poke (poke m (c + PCB_exit_status) v) (c + PCB_state) STATE_ZOMBIE) (y + o) =
    word m (y + o)) as E.
  { rewrite !(poke_other base _ tl); done || lia. }
  destruct w; [|exact E]. by rewrite (poke_other base _ tl) by (done || lia).
Qed.

Lemma exit_memory_new_child y : y ∈ tl → new_child base me y = new_child base m y.
Proof.
  intros Hy. unfold me, exit_memory. destruct w; rewrite !(new_child_poke base _ tl); done || lia.
Qed.

(** The stores and the queue, seen from the process table. *)
Context (m' : memory) (Hm : only_words base me m' (next_words tl)).

Lemma exit_enqueued y o :
  y ∈ tl → 0 ≤ o ≤ 88 → o + 4 ≤ PCB_next ∨ PCB_next + 4 ≤ o → word m' (y + o) = word me (y + o).
Proof.
  intros Hy Ho Hne. eapply only_words_word; [exact Hm|]. intros a Ha.
  by apply (next_words_other base tl).
Qed.

Lemma exit_new_child y : y ∈ tl → new_child base m' y = new_child base m y.
Proof.
  intros Hy. rewrite <-exit_memory_new_child by done.
  apply (new_child_frame base _ _ tl); [done|done|].
  eapply only_words_mono; [|exact Hm]. intros a. apply next_words_queue.
Qed.
End stores.

(** ** The call up to [schedule] *)

(** Both parts of the body: with and without a parent to wake. *)
Lemma exit_enqueue s l tl v :
  let c := s.(current_process) in let P := parent_of s.(mem) c in let w := woken s P in
  table_rep base s.(mem) s.(process_table_head) tl → c ∈ tl → sched_ok base s l →
  (∀ y, y ∈ l → y ∈ tl) → P ∈ tl → P ≠ c → (w = true → P ∉ l) →
  (S (length l) < Z.to_nat NUM_PAGES)%nat →
  ∃ m q, (if w then enqueue_process base (exit_memory s.(mem) c P v true) s.(ready_queue) P
          else Ok (exit_memory s.(mem) c P v false, s.(ready_queue))) = Ok (m, q) ∧
    queue_rep base m q (exit_queue s P l) ∧
    only_words base (exit_memory s.(mem) c P v w) m (next_words tl) ∧
    pcbs_ok base (c :: exit_queue s P l) ∧ (∀ y, y ∈ exit_queue s P l → y ∈ tl) ∧
    (length (exit_queue s P l) < Z.to_nat NUM_PAGES)%nat.
Proof.
  intros c P w Ht Hc Hs Hl HP HPc HPl Hlen. pose proof (tr_pcbs _ _ _ _ Ht) as Hok.
  pose proof Hok as (Hpcb & _ & Hap). pose proof (so_queue _ _ _ Hs) as Hq0.
  assert (∀ ys, NoDup ys → (∀ y, y ∈ ys → y ∈ tl) → pcbs_ok base ys) as Hsub.
  { intros ys Hnd Hys. split; [auto|split; [done|]]. intros a b Ha Hb. apply Hap; auto. }
  assert (c ∉ l ∧ NoDup l) as [Hcl Hnd].
  { destruct (qr_pcbs _ _ _ _ Hq0) as (_ & Hnd & _). split; [|done].
    destruct (so_current _ _ _ Hs) as [E|(_ & Hn & _)].
    - destruct (pcb_nonnull base (base_pos base Hbase) c (Hpcb c Hc) E).
    - by apply NoDup_cons in Hn as [? _]. }
  assert (queue_rep base (exit_memory s.(mem) c P v w) s.(ready_queue) l) as Hq.
  { eapply queue_rep_frame; [exact Hq0|]. intros y Hy. apply (exit_memory_other _ tl); auto; lia. }
  unfold exit_queue. fold w in HPl |- *. destruct w eqn:Ew.
  - assert (pcbs_ok base (P :: l)) as HPlok.
    { apply Hsub; [constructor; auto|]. intros y [->|Hy]%elem_of_cons; auto. }
    destruct (enqueue_by_spec base (base_pos base Hbase) ltac:(lia) PCB_priority ltac:(lia) _
      s.(ready_queue) l P Hq HPlok ltac:(lia)) as (m & q & He & Hq' & Hm).
    exists m, q. split; [exact He|]. split.
    { erewrite insert_by_ext; [exact Hq'|]. intros y Hy. unfold priority_of, key_of. f_equal.
      symmetry. apply (exit_memory_other _ tl); try done; try lia.
      apply elem_of_cons in Hy as [->|Hy]; auto. }
    split; [|split; [|split]].
    + eapply only_words_mono; [|exact Hm]. intros a (x & -> & Hx)%list_elem_of_fmap.
      apply next_words_in. apply elem_of_cons in Hx as [->|Hx]; auto.
    + eapply pcbs_ok_perm; [by rewrite insert_by_perm|]. apply Hsub.
      * apply NoDup_cons. split; [|constructor; auto]. intros [E|?]%elem_of_cons; [by destruct HPc|done].
      * intros y [->|[->|Hy]%elem_of_cons]%elem_of_cons; auto.
    + intros y. rewrite insert_by_perm. intros [->|Hy]%elem_of_cons; auto.
    + rewrite insert_by_perm. simpl. lia.
  - eexists _, _. split; [done|]. split; [exact Hq|]. split; [done|].
    split; [|split; [done|lia]]. apply Hsub; [by constructor|].
    intros y [->|Hy]%elem_of_cons; auto.
Qed.

Lemma exit_prepare s l tl v :
  let c := s.(current_process) in let P := parent_of s.(mem) c in
  table_ready base s tl → sched_ok base s l → (∀ y, y ∈ l → y ∈ tl) →
  P ∈ tl → P ≠ c → (woken s P = true → P ∉ l) → (S (length l) < Z.to_nat NUM_PAGES)%nat →
  ∃ m q, (∀ esp, exit_syscall base s v esp =
      ('(o, s') ← schedule base (set_ready q (set_mem m s)) esp; Ok (Some o, s'))) ∧
    sched_ok base (set_ready q (set_mem m s)) (exit_queue s P l) ∧
    (∀ y, y ∈ exit_queue s P l → y ∈ tl) ∧
    only_words base (exit_memory s.(mem) c P v (woken s P)) m (next_words tl).
Proof.
  intros c P Ht Hs Hl HP HPc HPl Hlen. pose proof (table_current base _ _ Ht) as Hco.
  destruct Ht as [Ht Hc]. fold c in Hc, Hco.
  destruct (exit_enqueue s l tl v Ht Hc Hs Hl HP HPc HPl Hlen)
    as (m & q & He & Hq & Hm & Hcl & Hsub & Hlen').
  fold c in He, Hm, Hcl. fold P in He, Hq, Hm, Hcl, Hsub, Hlen'.
  pose proof (tr_pcbs _ _ _ _ Ht) as Hok. pose proof Hok as (Hpcb & _).
  pose proof (base_pos base Hbase) as Hb.
  exists m, q. split; [|split; [by split; [|right|]|by split]].
  intros esp. unfold exit_syscall, get_current_process. fold c.
  rewrite (proj2 (Z.eqb_neq _ _) (pcb_nonnull base Hb c Hco)), get_field_ok, bind_ok by (done || lia).
  rewrite assign_ok, bind_ok, assign_ok, bind_ok by (done || lia). cbn [mem set_mem].
  rewrite get_field_ok, bind_ok by (done || lia).
  rewrite !(word_poke_ne base _ _ _ (c + PCB_parent)) by (unfold apart; lia).
  change (word (mem s) (c + PCB_parent)) with P.
  rewrite (proj2 (Z.eqb_neq _ _) (pcb_nonnull base Hb P (Hpcb P HP))).
  rewrite get_field_ok, !bind_ok by (auto || lia).
  rewrite !(poke_other base _ tl) by (done || lia || (left; done)).
  change (word (mem s) (P + PCB_state) =? STATE_BLOCKED) with (woken s P).
  unfold exit_memory in He. destruct (woken s P).
  - rewrite assign_ok, bind_ok by (auto || lia). unfold enqueue_ready.
    cbn [mem set_mem ready_queue]. by rewrite He, !bind_ok.
  - injection He as <- <-. by rewrite bind_ok.
Qed.

(** ** A whole call *)

(** What [exit_syscall] leaves behind when it switched from [c], the child of
    [P], to [n]. *)
Record exited (s s' : kstate) (tl : list Z) (c P n : Z) (t : list Z) (v : Z) : Prop := {
  ex_current : s'.(current_process) = n;
  ex_ok : sched_ok base s' t;
  ex_table : table_rep base s'.(mem) s'.(process_table_head) tl;
  ex_zombie : word s'.(mem) (c + PCB_state) = STATE_ZOMBIE;
  ex_status : word s'.(mem) (c + PCB_exit_status) = u32 v;
  ex_running : word s'.(mem) (n + PCB_state) = STATE_RUNNING;
  ex_states : ∀ y, y ∈ tl → y ≠ c → y ≠ n → word s'.(mem) (y + PCB_state) =
    if decide (woken s P = true ∧ y = P) then STATE_READY else word s.(mem) (y + PCB_state);
  ex_fields : ∀ y o, y ∈ tl → other_field o → y ≠ c ∨ o + 4 ≤ PCB_exit_status →
    word s'.(mem) (y + o) = word s.(mem) (y + o);
  ex_heap : s'.(mem).(page_table) = s.(mem).(page_table) ∧
            s'.(mem).(last_page_index) = s.(mem).(last_page_index);
}.

Lemma exit_spec s l tl v esp n t :
  let c := s.(current_process) in let P := parent_of s.(mem) c in
  table_ready base s tl → sched_ok base s l → (∀ y, y ∈ l → y ∈ tl) →
  P ∈ tl → P ≠ c → (woken s P = true → P ∉ l) → (S (length l) < Z.to_nat NUM_PAGES)%nat →
  exit_queue s P l = n :: t →
  ∃ s', exit_syscall base s v esp =
      Ok (Some (Resume (word s.(mem) (n + PCB_user_stack_ptr)) (new_child base s.(mem) n)), s') ∧
    exited s s' tl c P n t v.
Proof.
  intros c P Hta Hs Hl HP HPc HPl Hlen Eq.
  destruct (exit_prepare s l tl v Hta Hs Hl HP HPc HPl Hlen) as (m & q & Hex & Hs4 & Hnt & Hm).
  fold c in Hm, Hs4, Hnt. fold P in Hm, Hs4, Hnt. rewrite Eq in Hs4, Hnt.
  pose proof (pcb_nonnull base (base_pos base Hbase) _ (table_current base _ _ Hta)) as Hc0. fold c in Hc0.
  destruct Hta as [Ht Hc]. fold c in Hc. pose proof (tr_pcbs _ _ _ _ Ht) as Hok.
  set (s4 := set_ready q (set_mem m s)) in *.
  pose proof (exit_memory_state s.(mem) tl c P v (woken s P) Hok Hc HP HPc) as Wst.
  pose proof (exit_enqueued s.(mem) tl c P v (woken s P) Hok m Hm) as Hm4.
  assert (∀ y o, y ∈ tl → 0 ≤ o ≤ 88 → o + 4 ≤ PCB_next ∨ PCB_next + 4 ≤ o →
    o + 4 ≤ PCB_state ∨ PCB_state + 4 ≤ o →
    y ≠ c ∨ o + 4 ≤ PCB_exit_status ∨ PCB_exit_status + 4 ≤ o →
    word m (y + o) = word s.(mem) (y + o)) as Hmo.
  { intros y o Hy Ho H1 H2 H3. rewrite Hm4 by done. by apply (exit_memory_other _ tl). }
  assert (running base s4 = false) as Hrun.
  { unfold running, s4. cbn [mem set_mem set_ready current_process]. fold c.
    rewrite Hm4, Wst, decide_True by (done || lia). by rewrite andb_comm. }
  assert (table_rep base s4.(mem) s4.(process_table_head) tl) as Ht4.
  { eapply table_rep_frame; [exact Ht|]. intros y Hy. apply Hmo; done || lia. }
  destruct (leave_schedule base Hbase Hfit s4 tl n t esp Hrun Hc0 Hc Hs4 Ht4 Hnt)
    as (Hn & Hnc & s' & Hsch & Hsw & Ht' & Hof & Hst).
  change (current_process s4) with c in Hnc. cbn [s4 mem set_mem set_ready] in Hsch, Hof, Hst.
  exists s'. split.
  { rewrite Hex, Hsch, bind_ok, Hmo by (done || lia).
    by rewrite (exit_new_child s.(mem) tl c P v (woken s P) Hok Hc HP m Hm). }
  split; [apply Hsw|apply Hsw|done|..].
  - by rewrite Hst, Hm4, Wst, decide_True by (done || lia || congruence).
  - rewrite Hof, Hm4 by (done || lia || apply other_fields). by apply (exit_memory_status _ tl).
  - apply Hsw.
  - intros y Hy Hyc Hyn. by rewrite Hst, Hm4, Wst, decide_False by (done || lia).
  - intros y o Hy Ho H1. rewrite Hof by done. destruct Ho as [Ho Hne].
    assert (∀ o', o' ∈ queue_fields → o + 4 ≤ o' ∨ o' + 4 ≤ o) as Hqf
      by (intros o' Ho'; by apply Hne, queue_sched_fields).
    pose proof (Hqf PCB_state ltac:(by left)). pose proof (Hqf PCB_next ltac:(by right; left)).
    apply Hmo; done || lia.
  - destruct (sw_frame _ _ _ _ _ _ Hsw) as (-> & -> & _). unfold s4, exit_memory in *.
    cbn [mem set_mem set_ready]. destruct Hm as (-> & -> & _). by destruct (woken s P).
Qed.

(** ** The parent collects *)

(** The parent of the process that ended runs: the zombie is its own, and the
    first one, when no entry ahead of it was one before. *)
Lemma collect_exited s s' live l1 l2 t v status :
  let c := s.(current_process) in let P := parent_of s.(mem) c in let tl := l1 ++ c :: l2 in
  pcbs_ok base tl → exited s s' tl c P P t v → inv s.(mem) live → pcbs_live live tl →
  P ∈ l1 ++ l2 → (∀ y, y ∈ l1 → parent_of s.(mem) y ∈ tl) →
  (∀ y, y ∈ l1 → ¬ zombie_child s.(mem) P y) → status_ok base status tl →
  ∃ s'', (∀ ebp esp, wait_syscall base s' status ebp esp =
      Ok (WaitReturns (i32 (word s.(mem) (c + PCB_pid))), s'')) ∧
    wait_resumed base s' P status = Ok (i32 (word s.(mem) (c + PCB_pid)), s'') ∧
    reaped base (inv := inv) s' s'' live (l1 ++ l2) c status.
Proof.
  intros c P tl Hok Hex Hinv Hlive HP Hps Hno Hst. pose proof Hok as (Hpcb & _).
  assert (c ∈ tl) as Hc by (unfold tl; clear; set_solver).
  assert (P ∈ tl) as HPin by (unfold tl; clear -HP; set_solver).
  pose proof (pcbs_ok_mid base l1 c l2 P Hok HP) as HPc.
  assert (∀ y, y ∈ l1 → y ∈ tl ∧ y ≠ c) as Hl1.
  { intros y Hy. split; [unfold tl; clear -Hy; set_solver|]. apply (pcbs_ok_mid base l1 c l2); [done|].
    apply elem_of_app. by left. }
  assert (∀ y, y ∈ tl → parent_of s'.(mem) y = parent_of s.(mem) y ∧
    word s'.(mem) (y + PCB_pid) = word s.(mem) (y + PCB_pid)) as Hf.
  { intros y Hy. split; apply (ex_fields _ _ _ _ _ _ _ _ Hex); try done;
      (apply other_fields || (right; lia)). }
  pose proof (ex_current _ _ _ _ _ _ _ _ Hex) as Hcur.
  assert (∀ ebp esp, ∃ s'', wait_syscall base s' status ebp esp =
      Ok (WaitReturns (i32 (word s'.(mem) (c + PCB_pid))), s'') ∧
    wait_resumed base s' s'.(current_process) status = Ok (i32 (word s'.(mem) (c + PCB_pid)), s'') ∧
    reaped base (inv := inv) s' s'' live (l1 ++ l2) c status) as H.
  { intros ebp esp. apply wait_collects; try done.
    - split; [apply Hex|by rewrite Hcur].
    - destruct (ex_heap _ _ _ _ _ _ _ _ Hex). by eapply hs_bytes.
    - intros y Hy. apply Hpcb. apply elem_of_app in Hy as [Hy|Hy].
      + rewrite (proj1 (Hf y (proj1 (Hl1 y Hy)))). by apply Hps.
      + apply list_elem_of_singleton in Hy as ->. by rewrite (proj1 (Hf c Hc)).
    - rewrite Hcur. intros y Hy [H1 H2]. destruct (Hl1 y Hy) as [Hyin Hyc].
      rewrite (proj1 (Hf y Hyin)), (proj2 (Hf P HPin)), (proj2 (Hf _ (Hps y Hy))) in H1.
      apply (Hno y Hy). split; [done|].
      assert (y ≠ P) as HyP.
      { intros ->. rewrite (ex_running _ _ _ _ _ _ _ _ Hex) in H2. lia. }
      rewrite <-H2, (ex_states _ _ _ _ _ _ _ _ Hex), decide_False by tauto. done.
    - rewrite Hcur. split; [|apply Hex]. by rewrite (proj1 (Hf c Hc)). }
  rewrite (proj2 (Hf c Hc)), Hcur in H. destruct (H 0 0) as (s'' & _ & Hw & Hre).
  exists s''. split; [|by split]. intros ebp esp. destruct (H ebp esp) as (s3 & -> & Hw' & _).
  rewrite Hw in Hw'. by injection Hw' as <-.
Qed.

(** C28: what a process returns to its parent.  When the current process exits
    with [v], it becomes a zombie that keeps [v], and the first process of the
    ready queue runs; the parent [P] is put into this queue, behind the processes
    that are as urgent as it is, when it was blocked.  Once [P] is the process that
    runs, be it at once or because it was the first, [wait_syscall] returns the pid
    of the child and stores [v], and so does the rest of a [wait_syscall] that had
    blocked; the child's PCB is freed and is no longer in the table.  This holds when
    no entry of the table ahead of the child is a zombie child of [P], which would
    be collected first, or has a parent outside the table. *)
Theorem wait_receives_exit_status s live l l1 l2 n t v esp :
  let c := s.(current_process) in let P := parent_of s.(mem) c in let tl := l1 ++ c :: l2 in
  table_ready base s tl → sched_ok base s l → (∀ y, y ∈ l → y ∈ tl) →
  inv s.(mem) live → pcbs_live live tl → P ∈ l1 ++ l2 → (woken s P = true → P ∉ l) →
  (S (length l) < Z.to_nat NUM_PAGES)%nat → exit_queue s P l = n :: t →
  ∃ s', exit_syscall base s v esp =
      Ok (Some (Resume (word s.(mem) (n + PCB_user_stack_ptr)) (new_child base s.(mem) n)), s') ∧
    exited s s' tl c P n t v ∧
    (n = P → (∀ y, y ∈ l1 → parent_of s.(mem) y ∈ tl) →
     (∀ y, y ∈ l1 → ¬ zombie_child s.(mem) P y) → ∀ status, status_ok base status tl →
     ∃ s'', (∀ ebp esp', wait_syscall base s' status ebp esp' =
         Ok (WaitReturns (i32 (word s.(mem) (c + PCB_pid))), s'')) ∧
       wait_resumed base s' P status = Ok (i32 (word s.(mem) (c + PCB_pid)), s'') ∧
       (status ≠ 0 → word s''.(mem) status = u32 v) ∧
       table_rep base s''.(mem) s''.(process_table_head) (l1 ++ l2) ∧
       inv s''.(mem) (delete c live)).
Proof.
  intros c P tl Hta Hs Hl Hinv Hlive HP HPl Hlen Eq. pose proof (tr_pcbs _ _ _ _ (ta_table _ _ _ Hta)) as Hok.
  pose proof (pcbs_ok_mid base l1 c l2 P Hok HP) as HPc.
  assert (P ∈ tl) as HPin by (unfold tl; clear -HP; set_solver).
  destruct (exit_spec s l tl v esp n t Hta Hs Hl HPin HPc HPl Hlen Eq) as (s' & He & Hex).
  exists s'. split; [done|]. split; [done|]. intros -> Hps Hno status Hst.
  destruct (collect_exited s s' live l1 l2 t v status Hok Hex Hinv Hlive HP Hps Hno Hst)
    as (s'' & Hw & Hr & Hre).
  exists s''. split; [done|]. split; [done|]. split; [|split; apply Hre]. intros Hst0.
  rewrite (re_status _ _ _ _ _ _ _ Hre Hst0). unfold c, P in Hex.
  rewrite (ex_status _ _ _ _ _ _ _ _ Hex). apply u32_small, u32_range.
Qed.
End exit.

(** ** A child that ends before its parent waits *)

Local Abbreviation p0 := (ptr_of demo_base 0).
Local Abbreviation p1 := (ptr_of demo_base 1).

(** The parent [p0], the first process, is ready; its child [p1] runs. *)
Lemma wait_receives_exit_status_witness :
  ∃ m, let s := family m STATE_READY STATE_RUNNING 0 p1 (MkQueue p0 p0) in
  ∃ s' s'', exit_syscall demo_base s 42 5000 =
      Ok (Some (Resume (MemWords.word demo_base s.(mem) (p0 + PCB_user_stack_ptr))
                  (new_child demo_base s.(mem) p0)), s') ∧
    s'.(current_process) = p0 ∧
    wait_syscall demo_base s' (p1 + 100) 9000 5000 = Ok (WaitReturns 2, s'') ∧
    MemWords.word demo_base s''.(mem) (p1 + 100) = 42 ∧
    table_rep demo_base s''.(mem) s''.(process_table_head) [p0] ∧
    heap_inv demo_base s''.(mem) (delete p1 family_live).
Proof.
  destruct two_pcbs as (m & Hinv & Hz). exists m. cbv zeta.
  set (s := family m STATE_READY STATE_RUNNING 0 p1 (MkQueue p0 p0)).
  pose proof (family_words m Hz STATE_READY STATE_RUNNING 0 ltac:(lia) ltac:(lia) ltac:(lia)
    p1 (MkQueue p0 p0)) as W. fold s in W. cbv zeta in W. destruct_and! W.
  assert (WaitSpec.parent_of demo_base s.(mem) p1 = p0) as Hp by done.
  assert (woken demo_base s p0 = false) as Hw
    by (unfold woken; match goal with H : _ = STATE_READY |- _ => by rewrite H end).
  pose proof (wait_receives_exit_status demo_base ltac:(by vm_compute) ltac:(by vm_compute)
    (inv := heap_inv demo_base) (HS := heap_spec demo_base eq_refl) s family_live [p0] [] [p0]
    p0 [] 42 5000) as T.
  cbv zeta in T. change (current_process s) with p1 in T. rewrite Hp in T. simpl app in T.
  destruct T as (s' & He & Hex & Hwait).
  - apply family_table; (done || lia || set_solver).
  - by apply family_sched_parent.
  - set_solver.
  - by apply family_inv.
  - apply family_pcbs_live.
  - by left.
  - congruence.
  - simpl. lia.
  - unfold exit_queue. by rewrite Hw.
  - destruct (Hwait eq_refl) with (status := p1 + 100) as (s'' & Hw1 & _ & Hw2 & Hw3 & Hw4);
      [intros y Hy; by apply not_elem_of_nil in Hy..|apply family_status|].
    exists s', s''. split; [exact He|]. split; [apply Hex|].
    split; [rewrite Hw1; by match goal with H : _ = 2 |- _ => rewrite H end|].
    split; [by apply Hw2|by split].
Defined.
