(* ===== verification/FamilyProps.v ===== *)
(** * A process, its child, and what the child returns

    The calls of a whole family put together: a process forks and yields, the
    child runs and exits, the parent runs again and waits. *)
From S2P Require Import Prelude Memory MemorySpec MemoryProps MemWords ProcQueue QueueSpec QueueProps Process SchedSpec SchedProps ProcSpec ProcProps ForkSpec ForkProps WaitSpec WaitProps ExitProps.

Section family.
Context (base : Z) (Hbase : 4096 ≤ base) (Hfit : base + KERNEL_MEMORY_SIZE < 2 ^ 32).
Context {inv : memory → gmap Z Z → Prop} {HS : HeapSpec base inv}.

Local Abbreviation word := (word base).
Local Abbreviation poke := (poke base).
Local Abbreviation parent_of := (parent_of base).

Lemma pos_base : 0 < base.
Proof. clear -Hbase. lia. Qed.

(** Live blocks of the size of a PCB are PCBs. *)
Lemma live_pcbs_ok m live l :
  inv m live → pcbs_live live l → NoDup l → pcbs_ok base l.
Proof.
  intros Hinv Hl Hnd. split; [|split; [done|]].
  - intros p Hp. destruct (hs_range _ _ p _ Hinv (Hl p Hp)). unfold pcb_ok. lia.
  - intros p q Hp Hq Hne.
    destruct (hs_apart _ _ p q _ _ Hinv (Hl p Hp) (Hl q Hq) Hne); lia.
Qed.

(** A more urgent process goes first, and an equal one behind. *)
Lemma insert_by_first key p l : (∀ y, y ∈ l → key p < key y) → insert_by key p l = p :: l.
Proof.
  intros H. destruct l as [|y l]; [done|]. simpl.
  by rewrite (proj2 (Z.leb_gt _ _) (H y ltac:(by left))).
Qed.

(** ** After [fork_syscall] *)

Section forked.
Context (s s1 : kstate) (live live' : gmap Z Z) (tl l : list Z) (c usb ebp : Z).
Context (Hr : fork_ready base (inv := inv) s live l usb ebp).
Context (Hf : forked base s s1 live l c usb ebp).
Context (Hsub : live ⊆ live') (Hc' : live' !! c = Some SIZEOF_PCB) (Hc : live !! c = None).
Context (Hinv : inv s1.(mem) live').
Context (Ht : table_ready base s tl) (Htl : pcbs_live live tl) (Hl : ∀ y, y ∈ l → y ∈ tl).
Context (Htlen : (length tl < Z.to_nat NUM_PAGES)%nat)
  (Hllen : (S (S (length l)) < Z.to_nat NUM_PAGES)%nat).
Context (Hrun : running base s = true).
Context (Hprio : ∀ y, y ∈ l → priority_of base s s.(current_process) < priority_of base s y).

Let P := s.(current_process).

Lemma child_not_in : c ∉ tl.
Proof. intros H. specialize (Htl c H). congruence. Qed.

Lemma child_table_live : pcbs_live live' (c :: tl).
Proof.
  intros y [->|Hy]%elem_of_cons; [done|]. eapply lookup_weaken; [by apply Htl|done].
Qed.

Lemma child_table : table_ready base s1 (c :: tl).
Proof.
  destruct Ht as [[Hhd Hlinks Hok _] HP]. split; [|rewrite (fk_current _ _ _ _ _ _ _ _ Hf); by right].
  split; [apply Hf| | |simpl; lia].
  - simpl. split; [by rewrite (fk_next _ _ _ _ _ _ _ _ Hf)|].
    eapply links_frame; [|exact Hlinks]. intros y Hy.
    apply (fk_others _ _ _ _ _ _ _ _ Hf); [by apply Htl|lia|lia|right; lia].
  - eapply live_pcbs_ok; [exact Hinv|apply child_table_live|].
    apply NoDup_cons. split; [apply child_not_in|apply Hok].
Qed.

Lemma old_priority y : y ∈ tl → priority_of base s1 y = priority_of base s y.
Proof.
  intros Hy. unfold priority_of, key_of. f_equal.
  apply (fk_others _ _ _ _ _ _ _ _ Hf); [by apply Htl|lia|lia|right; lia].
Qed.

(** The child is the first of the ready queue. *)
Lemma child_queue : sched_ok base s1 (c :: l).
Proof.
  pose proof (fk_queue _ _ _ _ _ _ _ _ Hf) as Hq. destruct Ht as [Htr HP].
  rewrite insert_by_first in Hq.
  2:{ intros y Hy. rewrite decide_True by done.
      rewrite decide_False by (intros ->; by apply child_not_in, Hl). by apply Hprio. }
  split; [exact Hq| |simpl; lia]. right. rewrite (fk_current _ _ _ _ _ _ _ _ Hf). fold P.
  destruct (so_current _ _ _ (fr_sched _ _ _ _ _ _ Hr)) as [E|(_ & Hnd & _)].
  { by destruct (pcb_nonnull base pos_base P (table_current base s tl Ht) E). }
  eapply live_pcbs_ok; [exact Hinv| |].
  - intros y Hy. apply child_table_live.
    apply elem_of_cons in Hy as [->|[->|Hy]%elem_of_cons]; [by right|by left|right; auto].
  - apply NoDup_cons in Hnd as [Hn Hnd]. fold P in Hn. apply NoDup_cons. split.
    + intros [E|?]%elem_of_cons; [|done]. apply child_not_in. by rewrite <-E.
    + apply NoDup_cons. split; [|done]. intros H. by apply child_not_in, Hl.
Qed.

(** ** The parent yields *)

Context (ebp1 : Z) (Hebp1 : 0 ≤ ebp1 < 2 ^ 32).

Let s1' := set_mem (poke s1.(mem) (P + PCB_user_stack_ptr) ebp1) s1.

Lemma yield_eval esp :
  yield_syscall base s1 ebp1 esp = ('(o, s') ← schedule base s1' esp; Ok (Some o, s')).
Proof.
  pose proof (table_current base s1 _ child_table) as Hpo.
  rewrite (fk_current _ _ _ _ _ _ _ _ Hf) in Hpo. fold P in Hpo.
  unfold yield_syscall, get_current_process. rewrite (fk_current _ _ _ _ _ _ _ _ Hf). fold P.
  rewrite (proj2 (Z.eqb_neq _ _) (pcb_nonnull base pos_base P Hpo)).
  rewrite get_field_ok, bind_ok by (done || lia). rewrite assign_ok, bind_ok by (done || lia).
  by rewrite get_field_ok, bind_ok by (done || lia).
Qed.

Lemma yield_word y o :
  y ∈ c :: tl → 0 ≤ o ≤ 88 → y ≠ P ∨ o + 4 ≤ PCB_user_stack_ptr ∨ PCB_user_stack_ptr + 4 ≤ o →
  word s1'.(mem) (y + o) = word s1.(mem) (y + o).
Proof.
  intros Hy Ho Hne. destruct child_table as [Htr HP]. rewrite (fk_current _ _ _ _ _ _ _ _ Hf) in HP.
  unfold s1'. cbn [mem set_mem]. apply (poke_other base _ (c :: tl)); [apply Htr|done|done|lia|lia|].
  fold P. destruct Hne as [?|Hne]; [left; congruence|right; lia].
Qed.

Lemma yield_candidates : candidates base s1' (c :: l) = c :: P :: l ∧ running base s1' = true.
Proof.
  destruct child_table as [Htr HP]. rewrite (fk_current _ _ _ _ _ _ _ _ Hf) in HP. fold P in HP.
  assert (running base s1' = true) as Hrun1.
  { unfold running in Hrun |- *. change (current_process s1') with (current_process s1).
    rewrite (fk_current _ _ _ _ _ _ _ _ Hf), yield_word by (done || lia).
    rewrite (fk_others _ _ _ _ _ _ _ _ Hf); [done|apply (fr_parent _ _ _ _ _ _ Hr)|lia|lia|right; lia]. }
  split; [|done]. unfold candidates. rewrite Hrun1.
  change (current_process s1') with (current_process s1). rewrite (fk_current _ _ _ _ _ _ _ _ Hf).
  fold P. assert (∀ y, y ∈ c :: tl → priority_of base s1' y = priority_of base s1 y) as Hp1.
  { intros y Hy. unfold priority_of, key_of. f_equal. apply yield_word; [done|lia|right; lia]. }
  assert (priority_of base s1 P = priority_of base s P) as HpP by (apply old_priority; apply Ht).
  simpl. rewrite !Hp1, (fk_priority _ _ _ _ _ _ _ _ Hf), HpP by (done || by left).
  fold P. rewrite Z.leb_refl. f_equal. apply insert_by_first. intros y Hy.
  rewrite !Hp1, HpP, old_priority by (auto || (right; auto)). by apply Hprio.
Qed.

(** The child runs, the parent is the first ready process. *)
Lemma yield_to_child esp :
  ∃ s2, yield_syscall base s1 ebp1 esp =
      Ok (Some (Resume (word s1.(mem) (c + PCB_user_stack_ptr)) true), s2) ∧
    s2.(current_process) = c ∧ sched_ok base s2 (P :: l) ∧ table_ready base s2 (c :: tl) ∧
    inv s2.(mem) live' ∧ word s2.(mem) (P + PCB_state) = STATE_READY ∧
    word s2.(mem) (P + PCB_user_stack_ptr) = ebp1 ∧
    ∀ y o, y ∈ c :: tl → other_field o →
      y ≠ P ∨ o + 4 ≤ PCB_user_stack_ptr ∨ PCB_user_stack_ptr + 4 ≤ o →
      word s2.(mem) (y + o) = word s1.(mem) (y + o).
Proof.
  destruct child_table as [Htr HP]. rewrite (fk_current _ _ _ _ _ _ _ _ Hf) in HP. fold P in HP.
  pose proof (tr_pcbs _ _ _ _ Htr) as Hok. destruct yield_candidates as [Hcand Hrun1].
  assert (c ≠ P) as HcP by (intros E; apply child_not_in; rewrite E; apply Ht).
  assert (sched_ok base s1' (c :: l)) as Hs1.
  { unfold s1', P. rewrite <-(fk_current _ _ _ _ _ _ _ _ Hf).
    apply (sched_ok_poke base s1); [apply child_queue| |lia].
    rewrite (fk_current _ _ _ _ _ _ _ _ Hf). apply (pcb_nonnull base pos_base), Hok, HP. }
  pose proof (schedule_cases base pos_base ltac:(lia) s1' (c :: l) esp Hs1) as Hsch.
  rewrite Hcand in Hsch. destruct Hsch as (s2 & Hsch & Hsw).
  assert (∀ y, y ∈ sched_pcbs s1' (c :: l) → y ∈ c :: tl) as Hin.
  { unfold sched_pcbs. change (current_process s1') with (current_process s1).
    rewrite (fk_current _ _ _ _ _ _ _ _ Hf). fold P. destruct (P =? 0);
      intros y Hy; repeat (apply elem_of_cons in Hy as [->|Hy]); auto; try (by left); right; auto. }
  assert (table_rep base s1'.(mem) s1'.(process_table_head) (c :: tl)) as Ht1.
  { eapply table_rep_frame; [exact Htr|]. intros y Hy. apply yield_word; [done|lia|right; lia]. }
  destruct (switched_table base s1' s2 (c :: l) c (P :: l) (c :: tl) Hs1 Hsw Hin Ht1)
    as (Ht2 & Hof & _).
  exists s2. rewrite yield_eval, Hsch, bind_ok.
  rewrite yield_word by (by left || lia || by left). unfold s1' at 1. cbn [mem set_mem].
  rewrite (new_child_poke base _ (c :: tl)) by (done || (by left) || lia || (left; congruence)).
  rewrite (fk_new _ _ _ _ _ _ _ _ Hf). split; [done|]. split; [apply Hsw|]. split; [apply Hsw|].
  split; [split; [done|rewrite (sw_current _ _ _ _ _ _ Hsw); by left]|].
  split; [|split; [|split]].
  - destruct (sw_frame _ _ _ _ _ _ Hsw) as (Hp1 & Hp2 & _). by eapply hs_bytes.
  - pose proof (sw_ready _ _ _ _ _ _ Hsw Hrun1) as H.
    change (current_process s1') with (current_process s1) in H.
    rewrite (fk_current _ _ _ _ _ _ _ _ Hf) in H. apply H. by intros <-.
  - rewrite Hof by (done || apply other_fields). unfold s1'. cbn [mem set_mem].
    rewrite word_poke_eq by (apply pcb_word; [by apply Hok|lia]). by apply u32_small.
  - intros y o Hy Ho Hne. rewrite Hof by done. by apply yield_word; [|apply Ho|].
Qed.
End forked.

(** ** The whole story *)

(** A place on the parent's stack is apart from every PCB. *)
Lemma stack_status s live live' l tl usb ebp status :
  fork_ready base (inv := inv) s live l usb ebp → live ⊆ live' → (∃ m, inv m live') →
  pcbs_live live' tl → status = 0 ∨ usb ≤ status ∧ status + 4 ≤ usb + 4096 →
  status_ok base status tl.
Proof.
  intros Hr Hsub [m Hinv] Htl [?|Hst]; [by left|right]. pose proof (fr_stack _ _ _ _ _ _ Hr) as Hpg.
  pose proof (lookup_weaken _ _ _ _ (pg_live _ _ _ _ Hpg) Hsub) as Hu.
  pose proof (pg_room _ _ _ _ Hpg). destruct (hs_range _ _ usb _ Hinv Hu) as [Hlow _].
  split; [unfold valid_word; lia|]. intros y Hy.
  assert (usb ≠ y) as Hne by (intros ->; rewrite (Htl y Hy) in Hu; congruence).
  destruct (hs_apart _ _ usb y _ _ Hinv Hu (Htl y Hy) Hne); lia.
Qed.

(** The child exits: the parent, first in the ready queue, runs and collects. *)
Lemma exit_and_collect s2 live' tl l c P v esp status :
  table_ready base s2 (c :: tl) → sched_ok base s2 (P :: l) → s2.(current_process) = c →
  parent_of s2.(mem) c = P → word s2.(mem) (P + PCB_state) = STATE_READY →
  P ∈ tl → (∀ y, y ∈ l → y ∈ tl) → (S (S (length l)) < Z.to_nat NUM_PAGES)%nat →
  inv s2.(mem) live' → pcbs_live live' (c :: tl) → status_ok base status (c :: tl) →
  ∃ s3 s4, exit_syscall base s2 v esp =
      Ok (Some (Resume (word s2.(mem) (P + PCB_user_stack_ptr)) (new_child base s2.(mem) P)), s3) ∧
    s3.(current_process) = P ∧
    (∀ ebp esp', wait_syscall base s3 status ebp esp' =
       Ok (WaitReturns (i32 (word s2.(mem) (c + PCB_pid))), s4)) ∧
    (status ≠ 0 → word s4.(mem) status = u32 v) ∧
    table_ready base s4 tl ∧ sched_ok base s4 l ∧
    word s4.(mem) (P + PCB_state) = STATE_RUNNING ∧ inv s4.(mem) (delete c live').
Proof.
  intros Ht Hs Hcur Hpar Hready HP Hl Hlen Hinv Hlive Hst.
  pose proof (tr_pcbs _ _ _ _ (ta_table _ _ _ Ht)) as Hok.
  pose proof (pcbs_ok_mid base [] c tl P Hok HP) as HPc.
  assert (woken base s2 P = false) as Hw by (unfold woken; by rewrite Hready).
  destruct (exit_spec base Hbase Hfit s2 (P :: l) (c :: tl) v esp P l) as (s3 & He & Hex);
    rewrite ?Hcur, ?Hpar; try done.
  { intros y [->|Hy]%elem_of_cons; right; auto. }
  { by right. }
  { congruence. }
  { unfold exit_queue. by rewrite Hw. }
  rewrite Hcur, Hpar in Hex.
  destruct (collect_exited base Hbase Hfit s2 s3 live' [] tl l v status)
    as (s4 & Hwait & _ & Hre); rewrite ?Hcur, ?Hpar; try done;
    [intros y Hy; by apply not_elem_of_nil in Hy..|].
  rewrite ?Hcur, ?Hpar in Hwait. rewrite Hcur in Hre. simpl app in Hre.
  pose proof (ex_current _ _ _ _ _ _ _ _ _ Hex) as Hc3.
  exists s3, s4. split; [done|]. split; [done|]. split; [done|].
  split; [|split; [split; [apply Hre|]|split; [|split; [|apply Hre]]]].
  - intros Hst0. rewrite (re_status _ _ _ _ _ _ _ Hre Hst0), (ex_status _ _ _ _ _ _ _ _ _ Hex).
    apply u32_small, u32_range.
  - by rewrite (re_current _ _ _ _ _ _ _ Hre), Hc3.
  - destruct (ex_ok _ _ _ _ _ _ _ _ _ Hex) as [Hq Hcq Hql].
    split; rewrite ?(re_queue _ _ _ _ _ _ _ Hre), ?(re_current _ _ _ _ _ _ _ Hre); [|done|done].
    eapply queue_rep_frame; [exact Hq|]. intros y Hy.
    apply (re_fields _ _ _ _ _ _ _ Hre); [auto|lia|lia].
  - rewrite (re_fields _ _ _ _ _ _ _ Hre) by (done || lia). apply Hex.
Qed.

(** C30: fork, exit and wait work together.  The running process, more urgent
    than every ready one, forks while the heap has room and yields; the child runs,
    resumed as a new child; when it exits with [v] the parent runs again, resumed
    where it yielded; and [wait_syscall] returns the child's pid, the number [fork]
    returned, and stores [v] in a variable of the parent's stack.  Afterwards the
    process table and the ready queue hold what they held before, and the parent
    runs. *)
Theorem fork_exit_wait s live tl l usb ebp ebp1 esp1 v esp2 status :
  let P := s.(current_process) in
  fork_ready base (inv := inv) s live l usb ebp → fork_no_wrap base s usb ebp →
  ¬ fork_no_room base s usb ebp →
  table_ready base s tl → pcbs_live live tl → (∀ y, y ∈ l → y ∈ tl) →
  (length tl < Z.to_nat NUM_PAGES)%nat → (S (S (length l)) < Z.to_nat NUM_PAGES)%nat →
  running base s = true → (∀ y, y ∈ l → priority_of base s P < priority_of base s y) →
  0 ≤ ebp1 < 2 ^ 32 → status = 0 ∨ usb ≤ status ∧ status + 4 ≤ usb + 4096 →
  ∃ c s1 s2 s3 s4,
    fork_syscall base s ebp = Ok (i32 s.(next_pid), s1) ∧ live !! c = None ∧
    yield_syscall base s1 ebp1 esp1 =
      Ok (Some (Resume (word s1.(mem) (c + PCB_user_stack_ptr)) true), s2) ∧
    s2.(current_process) = c ∧
    exit_syscall base s2 v esp2 = Ok (Some (Resume ebp1 (new_child base s2.(mem) P)), s3) ∧
    s3.(current_process) = P ∧
    (∀ ebp3 esp3, wait_syscall base s3 status ebp3 esp3 =
       Ok (WaitReturns (i32 s.(next_pid)), s4)) ∧
    (status ≠ 0 → word s4.(mem) status = u32 v) ∧
    table_ready base s4 tl ∧ sched_ok base s4 l ∧
    word s4.(mem) (P + PCB_state) = STATE_RUNNING.
Proof.
  intros P Hr Hwrap Hroom Ht Htl Hl Htlen Hllen Hrun Hprio Hebp1 Hst.
  destruct (fork_cases base pos_base ltac:(lia) s live l usb ebp Hr Hwrap)
    as [[Hno _]|(_ & c & s1 & Hfork & Hc & Hf & live' & Hsub & Hc' & Hinv1)]; [done|].
  pose proof (child_not_in live tl c Hc Htl) as Hctl.
  pose proof (child_table_live live live' tl c Hsub Hc' Htl) as Hlive'.
  assert (P ∈ tl) as HP by apply Ht. assert (c ≠ P) as HcP by (by intros ->).
  destruct (yield_to_child s s1 live live' tl l c usb ebp Hr Hf Hsub Hc' Hc Hinv1 Ht Htl Hl Htlen
    Hllen Hrun Hprio ebp1 Hebp1 esp1) as (s2 & Hy & Hcur & Hs2 & Ht2 & Hinv2 & Hready & Husp & Hw).
  assert (∀ o, other_field o → word s2.(mem) (c + o) = word s1.(mem) (c + o)) as Hcw
    by (intros o Ho; apply Hw; [by left|done|by left]).
  destruct (exit_and_collect s2 live' tl l c P v esp2 status)
    as (s3 & s4 & He & Hc3 & Hwait & Hval & Ht4 & Hs4 & Hrun4 & _); try done.
  { unfold WaitSpec.parent_of. rewrite Hcw by apply other_fields.
    apply (fk_parent _ _ _ _ _ _ _ _ Hf). }
  { by eapply (stack_status s live live'); [|done|eexists|..]. }
  fold P in Husp. rewrite Husp in He.
  rewrite Hcw, (fk_pid _ _ _ _ _ _ _ _ Hf) in Hwait by apply other_fields.
  exists c, s1, s2, s3, s4. by split_and!.
Qed.
End family.

(** ** The first process and its child *)

Local Abbreviation p0 := (ptr_of demo_base 0).
Local Abbreviation p1 := (ptr_of demo_base 1).

Lemma forker_table m :
  clean_heap demo_base m forker_live 5 → table_ready demo_base (forker m 0) [p0].
Proof.
  intros Hm. pose proof (forker_words m Hm 0 (or_introl eq_refl)) as W. cbv zeta in W.
  destruct_and! W. split; [split; [done|by split| |cbn [length]; lia]|by left].
  apply (sched_pcbs_ok demo_base (forker m 0) []).
  apply (fr_sched _ _ _ _ _ _ (forker_ready m Hm 0 (or_introl eq_refl))).
Qed.

(** It forks, waits for its child, and finds 42 at [p1 + 100] on its stack. *)
Lemma fork_exit_wait_witness :
  ∃ m, let s := forker m 0 in
  ∃ c s1 s2 s3 s4,
    fork_syscall demo_base s (p1 + 4000) = Ok (2, s1) ∧ forker_live !! c = None ∧
    yield_syscall demo_base s1 (p1 + 3900) 5000 =
      Ok (Some (Resume (MemWords.word demo_base s1.(mem) (c + PCB_user_stack_ptr)) true), s2) ∧
    s2.(current_process) = c ∧
    exit_syscall demo_base s2 42 6000 =
      Ok (Some (Resume (p1 + 3900) (new_child demo_base s2.(mem) p0)), s3) ∧
    s3.(current_process) = p0 ∧
    (∀ ebp3 esp3, wait_syscall demo_base s3 (p1 + 100) ebp3 esp3 = Ok (WaitReturns 2, s4)) ∧
    (p1 + 100 ≠ 0 → MemWords.word demo_base s4.(mem) (p1 + 100) = 42) ∧
    table_ready demo_base s4 [p0] ∧ sched_ok demo_base s4 [] ∧
    MemWords.word demo_base s4.(mem) (p0 + PCB_state) = STATE_RUNNING.
Proof.
  destruct forker_heap as (m & Hm). exists m. cbv zeta.
  pose proof (forker_words m Hm 0 (or_introl eq_refl)) as W. cbv zeta in W. destruct_and! W.
  destruct (forker_room m Hm 0) as [Hwrap Hroom].
  apply (fork_exit_wait demo_base ltac:(by vm_compute) ltac:(by vm_compute)
    (inv := heap_inv demo_base) (HS := heap_spec demo_base eq_refl) (forker m 0) forker_live [p0] []
    p1 (p1 + 4000) (p1 + 3900) 5000 42 6000 (p1 + 100)).
  - apply (forker_ready m Hm 0 (or_introl eq_refl)).
  - exact Hwrap.
  - exact Hroom.
  - by apply forker_table.
  - intros y ->%list_elem_of_singleton. apply forker_lookups.
  - intros y Hy. by apply not_elem_of_nil in Hy.
  - cbn [length]. lia.
  - cbn [length]. lia.
  - unfold running. change (current_process (forker m 0)) with p0.
    match goal with H : _ = STATE_RUNNING |- _ => by rewrite H end.
  - intros y Hy. by apply not_elem_of_nil in Hy.
  - by vm_compute.
  - right. split; apply Z.leb_le; by vm_compute.
Defined.
