(* ===== verification/Filesystem.v ===== *)
(** * The file system ([filesystem/filesystem.c], [filesystem.h])

    [fs] holds the global objects of the file: the superblock, the inode
    table, the root directory, the storage and the block bitmap.  Every
    operation returns the value of the C function together with the new
    state.  [-1] stored in a [uint32_t] is [U32_MAX]; read back as an [int] it
    is [-1] again. *)
From S2P Require Import Prelude CString.

Notation BLOCK_COUNT := 1024.
Notation BLOCK_SIZE := 4096.
Notation MAX_BLOCKS_PER_FILE := 4.
Notation MAX_FILES := 256.
Notation MAX_FILENAME_LEN := 255.

Record Superblock := MkSuperblock {
  sb_inode_count : Z;
  sb_block_count : Z;
  sb_free_inodes : Z;
  sb_free_blocks : Z;
  sb_magic : Z;
  sb_volume_name : list Z;
}.

Record Inode := MkInode {
  ino_number : Z;
  ino_size : Z;
  ino_blocks : list Z;
  ino_permissions : Z;
}.

Record DirectoryEntry := MkDirectoryEntry {
  de_filename : list Z;
  de_inode_number : Z;
}.

Record fs := MkFs {
  sb : Superblock;
  inode_table : list Inode;
  root_directory : list DirectoryEntry;
  storage : list (list Z);
  block_bitmap : list Z;
}.

(** ** Assignments to fields *)

Definition set_ino_number (v : Z) (n : Inode) : Inode :=
  MkInode v n.(ino_size) n.(ino_blocks) n.(ino_permissions).
Definition set_ino_size (v : Z) (n : Inode) : Inode :=
  MkInode n.(ino_number) v n.(ino_blocks) n.(ino_permissions).
Definition set_ino_blocks (v : list Z) (n : Inode) : Inode :=
  MkInode n.(ino_number) n.(ino_size) v n.(ino_permissions).
Definition set_ino_permissions (v : Z) (n : Inode) : Inode :=
  MkInode n.(ino_number) n.(ino_size) n.(ino_blocks) v.

Definition add_free_inodes (d : Z) (s : fs) : fs :=
  let b := s.(sb) in
  MkFs (MkSuperblock b.(sb_inode_count) b.(sb_block_count) (u32 (b.(sb_free_inodes) + d))
          b.(sb_free_blocks) b.(sb_magic) b.(sb_volume_name))
    s.(inode_table) s.(root_directory) s.(storage) s.(block_bitmap).
Definition add_free_blocks (d : Z) (s : fs) : fs :=
  let b := s.(sb) in
  MkFs (MkSuperblock b.(sb_inode_count) b.(sb_block_count) b.(sb_free_inodes)
          (u32 (b.(sb_free_blocks) + d)) b.(sb_magic) b.(sb_volume_name))
    s.(inode_table) s.(root_directory) s.(storage) s.(block_bitmap).
Definition set_inode_table (v : list Inode) (s : fs) : fs :=
  MkFs s.(sb) v s.(root_directory) s.(storage) s.(block_bitmap).
Definition set_root_directory (v : list DirectoryEntry) (s : fs) : fs :=
  MkFs s.(sb) s.(inode_table) v s.(storage) s.(block_bitmap).
Definition set_storage (v : list (list Z)) (s : fs) : fs :=
  MkFs s.(sb) s.(inode_table) s.(root_directory) v s.(block_bitmap).
Definition set_block_bitmap (v : list Z) (s : fs) : fs :=
  MkFs s.(sb) s.(inode_table) s.(root_directory) s.(storage) v.

(** [inode_table[i].field = ...] *)
Definition upd_inode (s : fs) (i : Z) (f : Inode → res Inode) : res fs :=
  n ← aget s.(inode_table) i;
  n' ← f n;
  t ← aset s.(inode_table) i n';
  Ok (set_inode_table t s).

(** [inode_table[i].blocks[j] = v] *)
Definition set_inode_block (s : fs) (i j v : Z) : res fs :=
  upd_inode s i (λ n, b ← aset n.(ino_blocks) j v; Ok (set_ino_blocks b n)).

(** [inode_table[i].blocks[j]] *)
Definition get_inode_block (s : fs) (i j : Z) : res Z :=
  n ← aget s.(inode_table) i; aget n.(ino_blocks) j.

(** [block_bitmap[b] = v] *)
Definition set_bitmap (s : fs) (b v : Z) : res fs :=
  t ← aset s.(block_bitmap) b v; Ok (set_block_bitmap t s).

(** [memcpy(storage[b] + offset, src, chunk)] *)
Definition copy_to_block (s : fs) (b offset : Z) (src : list Z) (chunk : Z) : res fs :=
  row ← aget s.(storage) b;
  row' ← memcpy row offset src (Z.to_nat chunk);
  t ← aset s.(storage) b row';
  Ok (set_storage t s).

(** The macros of [filesystem.c]. *)
Definition min_macro (a b : Z) : Z := if a <? b then a else b.
Definition max_macro (a b : Z) : Z := if a >? b then a else b.

(** ** Formatting *)

(** The string constant "ApnaFS". *)
Definition volume_label : list Z := [65; 112; 110; 97; 70; 83; 0].

(** [void format_disk()] *)
Definition format_disk (s : fs) : res fs :=
  name ← strncpy s.(sb).(sb_volume_name) volume_label 16;
  name ← aset name 15 0;
  table ← for_loop (Z.to_nat MAX_FILES) 0
    (λ i t, n ← aget t i;
            aset t i (MkInode 0 0 (memset_u32 n.(ino_blocks) (-1)) n.(ino_permissions)))
    s.(inode_table);
  dir ← for_loop (Z.to_nat MAX_FILES) 0
    (λ i t, d ← aget t i; aset t i (MkDirectoryEntry d.(de_filename) 0))
    s.(root_directory);
  bitmap ← for_loop (Z.to_nat BLOCK_COUNT) 0 (λ i t, aset t i 0) s.(block_bitmap);
  Ok (MkFs (MkSuperblock MAX_FILES BLOCK_COUNT MAX_FILES BLOCK_COUNT 61267 name)
        table dir s.(storage) bitmap).

(** [void create_file_system()] *)
Definition create_file_system (s : fs) : res fs := format_disk s.

(** ** Allocation *)

(** [int allocate_inode()] *)
Definition allocate_inode (s : fs) : res (Z * fs) :=
  r ← find_first (Z.to_nat MAX_FILES) 0
        (λ i, n ← aget s.(inode_table) i; Ok (n.(ino_number) =? 0));
  match r with
  | Some i =>
      s ← upd_inode s i (λ n, Ok (set_ino_number (u32 (i + 1)) n));
      Ok (i, add_free_inodes (-1) s)
  | None => Ok (-1, s)
  end.

(** [int allocate_block()] *)
Definition allocate_block (s : fs) : res (Z * fs) :=
  r ← find_first (Z.to_nat BLOCK_COUNT) 0
        (λ i, v ← aget s.(block_bitmap) i; Ok (v =? 0));
  match r with
  | Some i => s ← set_bitmap s i 1; Ok (i, add_free_blocks (-1) s)
  | None => Ok (-1, s)
  end.

(** One turn of the loop of [allocate_blocks]; the state is [i],
    [allocated] and the file system. *)
Definition allocate_blocks_step (inode_index required_blocks : Z)
    (st : Z * Z * fs) : res ((Z * Z * fs) + (Z * fs)) :=
  let '(i, allocated, s) := st in
  if (i <? MAX_BLOCKS_PER_FILE) && (u32 allocated <? required_blocks) then
    b ← get_inode_block s inode_index i;
    if b =? U32_MAX then
      '(new_block, s) ← allocate_block s;
      if new_block =? -1 then Ok (inr (allocated, s))
      else
        s ← set_inode_block s inode_index i (u32 new_block);
        Ok (inl (i + 1, allocated + 1, s))
    else Ok (inl (i + 1, allocated, s))
  else Ok (inr (allocated, s)).

(** [int allocate_blocks(int inode_index, size_t required_blocks)] *)
Definition allocate_blocks (s : fs) (inode_index required_blocks : Z) : res (Z * fs) :=
  iter (S (Z.to_nat MAX_BLOCKS_PER_FILE))
    (allocate_blocks_step inode_index required_blocks) (0, 0, s).

(** [int check_permissions(uint16_t permissions, int mode)] *)
Definition check_permissions (permissions mode : Z) : bool :=
  if mode =? 0 then negb (Z.land permissions 4 =? 0)
  else if mode =? 1 then negb (Z.land permissions 2 =? 0)
  else if mode =? 2 then negb (Z.land permissions 1 =? 0)
  else false.

(** The search every operation on a named file starts with: the first
    directory slot that is in use and whose name compares equal. *)
Definition find_entry (s : fs) (filename : list Z) : res (option Z) :=
  find_first (Z.to_nat MAX_FILES) 0
    (λ i, d ← aget s.(root_directory) i;
          if negb (d.(de_inode_number) =? 0) then
            r ← strncmp d.(de_filename) filename MAX_FILENAME_LEN;
            Ok (r =? 0)
          else Ok false).

(** [int inode_index = root_directory[i].inode_number - 1] *)
Definition entry_inode (s : fs) (i : Z) : res Z :=
  d ← aget s.(root_directory) i; Ok (i32 (u32 (d.(de_inode_number) - 1))).

(** ** Operations on files *)

(** [int chmod_file(const char* filename, uint16_t new_permissions)] *)
Definition chmod_file (s : fs) (filename : list Z) (new_permissions : Z) : res (Z * fs) :=
  r ← find_entry s filename;
  match r with
  | Some i =>
      inode_index ← entry_inode s i;
      s ← upd_inode s inode_index (λ n, Ok (set_ino_permissions (u16 new_permissions) n));
      Ok (0, s)
  | None => Ok (-1, s)
  end.

(** [int create_file(const char* filename)] *)
Definition create_file (s : fs) (filename : list Z) : res (Z * fs) :=
  '(inode_index, s) ← allocate_inode s;
  if inode_index =? -1 then Ok (-1, s)
  else
    '(block_index, s) ← allocate_block s;
    if block_index =? -1 then
      s ← upd_inode s inode_index (λ n, Ok (set_ino_number 0 n));
      Ok (-1, s)
    else
      s ← upd_inode s inode_index (λ n, Ok (set_ino_size 0 n));
      s ← set_inode_block s inode_index 0 (u32 block_index);
      s ← upd_inode s inode_index (λ n, Ok (set_ino_permissions 7 n));
      r ← find_first (Z.to_nat MAX_FILES) 0
            (λ i, d ← aget s.(root_directory) i; Ok (d.(de_inode_number) =? 0));
      match r with
      | Some i =>
          d ← aget s.(root_directory) i;
          name ← strncpy d.(de_filename) filename MAX_FILENAME_LEN;
          t ← aset s.(root_directory) i (MkDirectoryEntry name (u32 (inode_index + 1)));
          Ok (inode_index, set_root_directory t s)
      | None => Ok (-1, s)
      end.

(** One turn of the loop of [delete_file] that gives the blocks back. *)
Definition release_block (inode_index j : Z) (s : fs) : res fs :=
  b ← get_inode_block s inode_index j;
  let block_index := i32 b in
  if negb (block_index =? -1) then
    s ← set_bitmap s block_index 0;
    set_inode_block (add_free_blocks 1 s) inode_index j U32_MAX
  else Ok s.

(** [int delete_file(const char* filename)] *)
Definition delete_file (s : fs) (filename : list Z) : res (Z * fs) :=
  r ← find_entry s filename;
  match r with
  | Some i =>
      inode_index ← entry_inode s i;
      n ← aget s.(inode_table) inode_index;
      if negb (check_permissions n.(ino_permissions) 1) then Ok (-1, s)
      else
        s ← for_loop (Z.to_nat MAX_BLOCKS_PER_FILE) 0 (release_block inode_index) s;
        s ← upd_inode s inode_index (λ n, Ok (set_ino_number 0 n));
        s ← upd_inode s inode_index (λ n, Ok (set_ino_size 0 n));
        let s := add_free_inodes 1 s in
        d ← aget s.(root_directory) i;
        name ← memset d.(de_filename) 0 0 (Z.to_nat MAX_FILENAME_LEN);
        t ← aset s.(root_directory) i (MkDirectoryEntry name 0);
        Ok (0, set_root_directory t s)
  | None => Ok (-1, s)
  end.

(** One turn of the copy loop of [read_file]; the state is [read] and the
    caller's buffer. *)
Definition read_file_step (s : fs) (inode_index read_size : Z)
    (st : Z * list Z) : res ((Z * list Z) + (Z * list Z)) :=
  let '(read, buffer) := st in
  if read <? read_size then
    let block_number := read `div` BLOCK_SIZE in
    let offset := read `mod` BLOCK_SIZE in
    b ← get_inode_block s inode_index block_number;
    let block_index := i32 b in
    if block_index =? -1 then Ok (inr (read, buffer))
    else
      let chunk := min_macro (BLOCK_SIZE - offset) (read_size - read) in
      row ← aget s.(storage) block_index;
      buffer ← memcpy buffer read (drop (Z.to_nat offset) row) (Z.to_nat chunk);
      Ok (inl (u32 (read + chunk), buffer))
  else Ok (inr (read, buffer)).

(** [int read_file(const char* filename, char* buffer, size_t size)]: the
    returned value and the buffer.  The loop enters each of the at most four
    blocks once. *)
Definition read_file (s : fs) (filename : list Z) (buffer : list Z) (size : Z)
    : res (Z * list Z) :=
  r ← find_entry s filename;
  match r with
  | Some i =>
      inode_index ← entry_inode s i;
      n ← aget s.(inode_table) inode_index;
      if negb (check_permissions n.(ino_permissions) 0) then Ok (-1, buffer)
      else
        let file_size := n.(ino_size) in
        let read_size := if size >? file_size then file_size else size in
        '(read, buffer) ← iter (2 + Z.to_nat MAX_BLOCKS_PER_FILE)
          (read_file_step s inode_index read_size) (0, buffer);
        Ok (i32 read, buffer)
  | None => Ok (-1, buffer)
  end.

(** One turn of the copy loop of [write_file]; the state is [j], [written]
    and the file system. *)
Definition write_file_step (inode_index : Z) (buffer : list Z) (write_size : Z)
    (st : Z * Z * fs) : res ((Z * Z * fs) + (Z * fs)) :=
  let '(j, written, s) := st in
  if (j <? MAX_BLOCKS_PER_FILE) && (written <? write_size) then
    b ← get_inode_block s inode_index j;
    let block_index := i32 b in
    if block_index =? -1 then Ok (inr (written, s))
    else
      let chunk := min_macro BLOCK_SIZE (u32 (write_size - written)) in
      s ← copy_to_block s block_index 0 (drop (Z.to_nat written) buffer) chunk;
      Ok (inl (j + 1, u32 (written + chunk), s))
  else Ok (inr (written, s)).

(** The number of bytes [write_file] will write, and the state after the
    blocks it asked for were allocated. *)
Definition write_size_of (s : fs) (inode_index size : Z) : res (Z * fs) :=
  n ← aget s.(inode_table) inode_index;
  let max_size := MAX_BLOCKS_PER_FILE * BLOCK_SIZE in
  let write_size := min_macro size max_size in
  let current_blocks :=
    max_macro (u32 (n.(ino_size) + BLOCK_SIZE - 1) `div` BLOCK_SIZE) 1 in
  let total_blocks_needed := u32 (write_size + BLOCK_SIZE - 1) `div` BLOCK_SIZE in
  let needed_blocks := i32 (total_blocks_needed - current_blocks) in
  if needed_blocks >? 0 then
    '(allocated, s) ← allocate_blocks s inode_index (u32 needed_blocks);
    if allocated <? needed_blocks
    then Ok (u32 ((current_blocks + allocated) * BLOCK_SIZE), s)
    else Ok (write_size, s)
  else Ok (write_size, s).

(** [int write_file(const char* filename, const char* buffer, size_t size)] *)
Definition write_file (s : fs) (filename : list Z) (buffer : list Z) (size : Z)
    : res (Z * fs) :=
  r ← find_entry s filename;
  match r with
  | Some i =>
      inode_index ← entry_inode s i;
      n ← aget s.(inode_table) inode_index;
      if negb (check_permissions n.(ino_permissions) 1) then Ok (-1, s)
      else
        '(write_size, s) ← write_size_of s inode_index size;
        '(written, s) ← iter (S (Z.to_nat MAX_BLOCKS_PER_FILE))
          (write_file_step inode_index buffer write_size) (0, 0, s);
        s ← upd_inode s inode_index (λ n, Ok (set_ino_size (u32 written) n));
        Ok (i32 written, s)
  | None => Ok (-1, s)
  end.

(** One turn of the copy loop of [append_to_file]; the state is [written] and
    the file system. *)
Definition append_step (inode_index : Z) (buffer : list Z) (current_size append_size : Z)
    (st : Z * fs) : res ((Z * fs) + (Z * fs)) :=
  let '(written, s) := st in
  if written <? append_size then
    let offset := u32 (current_size + written) `mod` BLOCK_SIZE in
    let block_number := u32 (current_size + written) `div` BLOCK_SIZE in
    b ← get_inode_block s inode_index block_number;
    let block_index := i32 b in
    if block_index =? -1 then Ok (inr (written, s))
    else
      let chunk := min_macro (BLOCK_SIZE - offset) (u32 (append_size - written)) in
      s ← copy_to_block s block_index offset (drop (Z.to_nat written) buffer) chunk;
      Ok (inl (u32 (written + chunk), s))
  else Ok (inr (written, s)).

(** The number of bytes [append_to_file] will add, and the state after the
    blocks it asked for were allocated.  ([current_blocks] of the source is
    computed there and never used.) *)
Definition append_size_of (s : fs) (inode_index current_size size : Z) : res (Z * fs) :=
  let max_size := MAX_BLOCKS_PER_FILE * BLOCK_SIZE in
  let append_size := min_macro size (u32 (max_size - current_size)) in
  let used_in_last_block := current_size `mod` BLOCK_SIZE in
  let space_left_in_last :=
    if (used_in_last_block =? 0) && (current_size >? 0) then 0
    else BLOCK_SIZE - used_in_last_block in
  let overflow :=
    if append_size >? space_left_in_last then append_size - space_left_in_last else 0 in
  let needed_blocks := i32 (u32 (overflow + BLOCK_SIZE - 1) `div` BLOCK_SIZE) in
  if needed_blocks >? 0 then
    '(allocated, s) ← allocate_blocks s inode_index (u32 needed_blocks);
    if allocated <? needed_blocks
    then Ok (u32 (space_left_in_last + allocated * BLOCK_SIZE), s)
    else Ok (append_size, s)
  else Ok (append_size, s).

(** [int append_to_file(const char* filename, const char* buffer, size_t size)] *)
Definition append_to_file (s : fs) (filename : list Z) (buffer : list Z) (size : Z)
    : res (Z * fs) :=
  r ← find_entry s filename;
  match r with
  | Some i =>
      inode_index ← entry_inode s i;
      n ← aget s.(inode_table) inode_index;
      if negb (check_permissions n.(ino_permissions) 1) then Ok (-1, s)
      else
        let current_size := n.(ino_size) in
        if current_size >=? MAX_BLOCKS_PER_FILE * BLOCK_SIZE then Ok (-1, s)
        else
          '(append_size, s) ← append_size_of s inode_index current_size size;
          '(written, s) ← iter (2 + Z.to_nat MAX_BLOCKS_PER_FILE)
            (append_step inode_index buffer current_size append_size) (0, s);
          s ← upd_inode s inode_index
                (λ n, Ok (set_ino_size (u32 (n.(ino_size) + written)) n));
          Ok (i32 written, s)
  | None => Ok (-1, s)
  end.

(** [void list_files()]: the bytes it prints on the screen. *)
Definition list_files (s : fs) : res (list Z) :=
  for_loop (Z.to_nat MAX_FILES) 0
    (λ i out, d ← aget s.(root_directory) i;
              if negb (d.(de_inode_number) =? 0) then
                name ← of_option OutOfBounds (cstr d.(de_filename));
                Ok (out ++ name ++ [10])
              else Ok out) [].
