(* ===== verification/FsWf.v ===== *)
(** * Well-formed file systems

    [blocks_wf] says how blocks are shared out: every inode owns a prefix of
    its block slots, no block has two owners, and the bitmap and the free
    counter agree with the owners.  [names_wf] says that slot [i] of the root
    directory always describes inode [i].  Their conjunction [fs_wf] is the
    invariant of the component. *)
From S2P Require Import Prelude CString Filesystem.

(** ** Definitions *)

(** The blocks an inode owns. *)
Definition inode_blocks (n : Inode) : list Z := filter (λ b, b ≠ U32_MAX) n.(ino_blocks).

Definition all_blocks (t : list Inode) : list Z := t ≫= inode_blocks.

(** The owned blocks fill the first slots, and hold all bytes of the file. *)
Record inode_wf (n : Inode) : Prop := {
  iw_slots : n.(ino_blocks) =
    inode_blocks n ++ replicate (4 - length (inode_blocks n)) U32_MAX;
  iw_owned : (length (inode_blocks n) ≤ 4)%nat;
  iw_size : 0 ≤ n.(ino_size) ≤ BLOCK_SIZE * Z.of_nat (length (inode_blocks n));
}.

Record blocks_wf (s : fs) : Prop := {
  bw_inodes : length s.(inode_table) = Z.to_nat MAX_FILES;
  bw_bitmap_length : length s.(block_bitmap) = Z.to_nat BLOCK_COUNT;
  bw_storage : length s.(storage) = Z.to_nat BLOCK_COUNT;
  bw_rows : ∀ b row, s.(storage) !! b = Some row → length row = Z.to_nat BLOCK_SIZE;
  bw_inode : ∀ i n, s.(inode_table) !! i = Some n → inode_wf n;
  bw_nodup : NoDup (all_blocks s.(inode_table));
  bw_range : ∀ b, b ∈ all_blocks s.(inode_table) → 0 ≤ b < BLOCK_COUNT;
  bw_bitmap : ∀ b, 0 ≤ b < BLOCK_COUNT → s.(block_bitmap) !! Z.to_nat b =
    Some (if decide (b ∈ all_blocks s.(inode_table)) then 1 else 0);
  bw_free : s.(sb).(sb_free_blocks) =
    BLOCK_COUNT - Z.of_nat (length (all_blocks s.(inode_table)));
}.

Definition free_inode (n : Inode) : Prop := n.(ino_number) = 0.
#[export] Instance free_inode_dec n : Decision (free_inode n).
Proof. unfold free_inode. apply _. Defined.

(** Slot [i]: the inode and the directory entry. *)
Record slot_wf (i : nat) (n : Inode) (d : DirectoryEntry) : Prop := {
  sw_entry : d.(de_inode_number) = n.(ino_number);
  sw_number : n.(ino_number) = 0 ∨ n.(ino_number) = Z.of_nat i + 1;
  sw_owned : n.(ino_number) = 0 ↔ inode_blocks n = [];
  sw_name_length : length d.(de_filename) = Z.to_nat MAX_FILENAME_LEN;
  sw_name : n.(ino_number) ≠ 0 → is_Some (cstr d.(de_filename));
}.

Record names_wf (s : fs) : Prop := {
  nw_directory : length s.(root_directory) = Z.to_nat MAX_FILES;
  nw_slot : ∀ i n d, s.(inode_table) !! i = Some n → s.(root_directory) !! i = Some d →
    slot_wf i n d;
  nw_free : s.(sb).(sb_free_inodes) =
    Z.of_nat (length (filter free_inode s.(inode_table)));
}.

Definition fs_wf (s : fs) : Prop := blocks_wf s ∧ names_wf s.

(** ** Lists *)

Lemma all_blocks_split t i n :
  t !! i = Some n → ∃ rest, ∀ n',
    all_blocks (<[i := n']> t) ≡ₚ inode_blocks n' ++ rest.
Proof.
  intros Hi. exists (all_blocks (take i t) ++ all_blocks (drop (S i) t)). intros n'.
  rewrite insert_take_drop by by eapply lookup_lt_Some.
  unfold all_blocks. rewrite bind_app. simpl. rewrite !(assoc_L (++)).
  by rewrite (Permutation_app_comm (_ ≫= _) (inode_blocks n')).
Qed.

(** The same, with what the table held before. *)
Lemma all_blocks_insert t i n :
  t !! i = Some n → ∃ rest,
    all_blocks t ≡ₚ inode_blocks n ++ rest ∧
    ∀ n', all_blocks (<[i := n']> t) ≡ₚ inode_blocks n' ++ rest.
Proof.
  intros Hi. destruct (all_blocks_split t i n Hi) as [rest Hrest].
  exists rest. split; [|done]. rewrite <-(list_insert_id t i n Hi) at 1. apply Hrest.
Qed.

Lemma elem_of_all_blocks t i n b :
  t !! i = Some n → b ∈ inode_blocks n → b ∈ all_blocks t.
Proof.
  intros Hi Hb. apply list_elem_of_bind. exists n. split; [done|].
  by eapply list_elem_of_lookup_2.
Qed.

Lemma all_blocks_length t :
  (∀ i n, t !! i = Some n → length (inode_blocks n) ≤ 4)%nat →
  (length (all_blocks t) ≤ 4 * length t)%nat.
Proof.
  induction t as [|n t IH]; intros H; [done|].
  change (all_blocks (n :: t)) with (inode_blocks n ++ all_blocks t).
  rewrite length_app. simpl length.
  pose proof (H 0%nat n eq_refl).
  assert (length (all_blocks t) ≤ 4 * length t)%nat; [|lia].
  apply IH. intros i m Hi. by apply (H (S i)).
Qed.

(** ** Inodes *)

Lemma inode_blocks_shape n bs :
  n.(ino_blocks) = bs ++ replicate (4 - length bs) U32_MAX → U32_MAX ∉ bs →
  inode_blocks n = bs.
Proof.
  intros Hn Hbs. unfold inode_blocks. rewrite Hn, filter_app.
  rewrite (list_filter_all _ bs), (list_filter_none _ (replicate _ _)), app_nil_r;
    [done|..].
  - apply Forall_forall. intros x [-> _]%elem_of_replicate. by intros ?.
  - apply Forall_forall. intros x Hx ->. done.
Qed.

Lemma inode_blocks_not_max n : U32_MAX ∉ inode_blocks n.
Proof. intros [? _]%list_elem_of_filter. done. Qed.

Lemma inode_slot n j :
  inode_wf n → (j < 4)%nat →
  n.(ino_blocks) !! j =
    Some (default U32_MAX (inode_blocks n !! j)).
Proof.
  intros Hn Hj. pose proof (iw_owned _ Hn) as Hl.
  rewrite (iw_slots _ Hn). destruct (decide (j < length (inode_blocks n))%nat) as [H|H].
  - rewrite lookup_app_l by done.
    by destruct (lookup_lt_is_Some_2 (inode_blocks n) j H) as [b ->].
  - rewrite lookup_app_r by lia.
    rewrite (lookup_ge_None_2 (inode_blocks n)) by lia.
    apply lookup_replicate_2. lia.
Qed.

(** ** Updates that keep [blocks_wf] *)

(** Assignments that change neither the owned blocks nor the row lengths. *)
Lemma blocks_wf_same s s' i n n' :
  blocks_wf s → s.(inode_table) !! i = Some n → inode_wf n' →
  inode_blocks n' = inode_blocks n →
  s'.(inode_table) = <[i := n']> s.(inode_table) →
  s'.(block_bitmap) = s.(block_bitmap) →
  s'.(sb).(sb_free_blocks) = s.(sb).(sb_free_blocks) →
  length s'.(storage) = length s.(storage) →
  (∀ b row, s'.(storage) !! b = Some row → length row = Z.to_nat BLOCK_SIZE) →
  blocks_wf s'.
Proof.
  intros Hwf Hi Hn' Hb Ht Hm Hf Hs Hr.
  destruct (all_blocks_insert _ _ _ Hi) as (rest & Hp & Hp').
  specialize (Hp' n'). rewrite Hb, <-Hp in Hp'.
  split; rewrite ?Ht, ?Hm, ?Hf, ?Hs; try done; rewrite ?length_insert.
  - apply Hwf.
  - apply Hwf.
  - apply Hwf.
  - intros j m [(? & -> & ?)|[_ Hj]]%list_lookup_insert_Some; [done|].
    by eapply (bw_inode _ Hwf).
  - rewrite Hp'. apply Hwf.
  - intros b. rewrite Hp'. apply (bw_range _ Hwf).
  - intros b Hb'. rewrite (bw_bitmap _ Hwf b Hb'). f_equal.
    apply decide_ext. by rewrite Hp'.
  - rewrite (bw_free _ Hwf). by rewrite Hp'.
Qed.

(** Inode [i] gets the free block [b]. *)
Lemma blocks_wf_give s s' i n n' b :
  blocks_wf s → s.(inode_table) !! i = Some n → inode_wf n' →
  inode_blocks n' = inode_blocks n ++ [b] →
  0 ≤ b < BLOCK_COUNT → b ∉ all_blocks s.(inode_table) →
  s'.(inode_table) = <[i := n']> s.(inode_table) →
  s'.(block_bitmap) = <[Z.to_nat b := 1]> s.(block_bitmap) →
  s'.(sb).(sb_free_blocks) = s.(sb).(sb_free_blocks) - 1 →
  s'.(storage) = s.(storage) →
  blocks_wf s'.
Proof.
  intros Hwf Hi Hn' Hb Hrange Hnew Ht Hm Hf Hs.
  destruct (all_blocks_insert _ _ _ Hi) as (rest & Hp & Hp').
  assert (all_blocks s'.(inode_table) ≡ₚ b :: all_blocks s.(inode_table)) as HP.
  { rewrite Ht, Hp', Hb, Hp, <-(assoc_L (++)). symmetry. apply Permutation_middle. }
  split; try rewrite HP; rewrite ?Hm, ?Hf, ?Hs; try by apply Hwf.
  - rewrite Ht, length_insert. apply Hwf.
  - rewrite length_insert. apply Hwf.
  - intros j m. rewrite Ht.
    intros [(? & -> & ?)|[_ Hj]]%list_lookup_insert_Some; [done|].
    by eapply (bw_inode _ Hwf).
  - apply NoDup_cons. split; [done|apply Hwf].
  - intros x. rewrite HP. intros [->|Hx]%elem_of_cons; [done|by apply (bw_range _ Hwf)].
  - intros x Hx. pose proof (bw_bitmap_length _ Hwf) as Hl.
    destruct (decide (x = b)) as [->|Hne].
    + rewrite list_lookup_insert_eq by lia. rewrite decide_True; [done|].
      rewrite HP. by left.
    + rewrite list_lookup_insert_ne by lia. rewrite (bw_bitmap _ Hwf x Hx). f_equal.
      apply decide_ext. rewrite HP, elem_of_cons. naive_solver.
  - rewrite (bw_free _ Hwf). simpl. lia.
Qed.

(** Inode [i] gives all its blocks back. *)
Lemma blocks_wf_release s s' i n n' :
  blocks_wf s → s.(inode_table) !! i = Some n → inode_wf n' →
  inode_blocks n' = [] →
  s'.(inode_table) = <[i := n']> s.(inode_table) →
  length s'.(block_bitmap) = length s.(block_bitmap) →
  (∀ b, 0 ≤ b < BLOCK_COUNT → s'.(block_bitmap) !! Z.to_nat b =
     if decide (b ∈ inode_blocks n) then Some 0 else s.(block_bitmap) !! Z.to_nat b) →
  s'.(sb).(sb_free_blocks) =
    s.(sb).(sb_free_blocks) + Z.of_nat (length (inode_blocks n)) →
  s'.(storage) = s.(storage) →
  blocks_wf s'.
Proof.
  intros Hwf Hi Hn' Hb Ht Hml Hm Hf Hs.
  destruct (all_blocks_insert _ _ _ Hi) as (rest & Hp & Hp').
  specialize (Hp' n'). rewrite Hb in Hp'. simpl in Hp'.
  pose proof (bw_nodup _ Hwf) as Hnd. rewrite Hp in Hnd.
  apply NoDup_app in Hnd as (Hnd1 & Hdis & Hnd2).
  split; rewrite ?Ht, ?Hml, ?Hs; rewrite ?length_insert; try by apply Hwf.
  - intros j m [(? & -> & ?)|[_ Hj]]%list_lookup_insert_Some; [done|].
    by eapply (bw_inode _ Hwf).
  - by rewrite Hp'.
  - intros b. rewrite Hp'. intros Hx. apply (bw_range _ Hwf). rewrite Hp.
    apply elem_of_app. by right.
  - intros b Hbr. rewrite Hm by done. case_decide as Hin.
    + rewrite decide_False; [done|]. rewrite Hp'. by apply Hdis.
    + rewrite (bw_bitmap _ Hwf b Hbr). f_equal. apply decide_ext.
      rewrite Hp, Hp', elem_of_app. naive_solver.
  - rewrite Hf, (bw_free _ Hwf), Hp', Hp, length_app. lia.
Qed.

(** ** Single steps of the code *)

Lemma upd_inode_ok s i n f n' :
  s.(inode_table) !! i = Some n → f n = Ok n' →
  upd_inode s (Z.of_nat i) f = Ok (set_inode_table (<[i := n']> s.(inode_table)) s).
Proof.
  intros Hi Hf. unfold upd_inode. rewrite (aget_nat _ _ _ Hi), bind_ok, Hf, bind_ok.
  rewrite aset_ok, bind_ok, Nat2Z.id; [done|]. apply lookup_lt_Some in Hi. lia.
Qed.

Lemma set_inode_block_ok s i n j v :
  s.(inode_table) !! i = Some n → (j < length n.(ino_blocks))%nat →
  set_inode_block s (Z.of_nat i) (Z.of_nat j) v =
    Ok (set_inode_table
          (<[i := set_ino_blocks (<[j := v]> n.(ino_blocks)) n]> s.(inode_table)) s).
Proof.
  intros Hi Hj. unfold set_inode_block. eapply upd_inode_ok; [done|].
  rewrite aset_ok, bind_ok, Nat2Z.id; [done|lia].
Qed.

Lemma get_inode_block_ok s i n j :
  s.(inode_table) !! i = Some n → inode_wf n → (j < 4)%nat →
  get_inode_block s (Z.of_nat i) (Z.of_nat j) =
    Ok (default U32_MAX (inode_blocks n !! j)).
Proof.
  intros Hi Hn Hj. unfold get_inode_block. rewrite (aget_nat _ _ _ Hi), bind_ok.
  apply aget_nat, inode_slot; done.
Qed.

(** An owned block read as an [int] is itself; the rest reads as [-1]. *)
Lemma i32_block b : 0 ≤ b < BLOCK_COUNT → i32 b = b.
Proof. intros. apply i32_small. lia. Qed.

Lemma i32_max : i32 U32_MAX = -1.
Proof. reflexivity. Qed.

Lemma block_in_range s i n j b :
  blocks_wf s → s.(inode_table) !! i = Some n → inode_blocks n !! j = Some b →
  0 ≤ b < BLOCK_COUNT.
Proof.
  intros Hwf Hi Hb. apply (bw_range _ Hwf). eapply elem_of_all_blocks; [done|].
  by eapply list_elem_of_lookup_2.
Qed.

(** A block without an owner leaves fewer than [BLOCK_COUNT] owned ones. *)
Lemma blocks_room s b :
  blocks_wf s → 0 ≤ b < BLOCK_COUNT → b ∉ all_blocks s.(inode_table) →
  (length (all_blocks s.(inode_table)) < Z.to_nat BLOCK_COUNT)%nat.
Proof.
  intros Hwf Hb Hnew.
  assert (b :: all_blocks s.(inode_table) ⊆+ seqZ 0 BLOCK_COUNT) as Hle%submseteq_length.
  { apply NoDup_submseteq; [apply NoDup_cons; split; [done|apply Hwf]|].
    intros x [->|Hx]%elem_of_cons; apply elem_of_seqZ; [lia|].
    pose proof (bw_range _ Hwf x Hx). lia. }
  rewrite length_seqZ in Hle. simpl length in Hle. lia.
Qed.

Lemma all_blocks_bound s :
  blocks_wf s → (length (all_blocks s.(inode_table)) ≤ Z.to_nat BLOCK_COUNT)%nat.
Proof.
  intros Hwf. pose proof (all_blocks_length s.(inode_table)) as H.
  rewrite (bw_inodes _ Hwf) in H. specialize (H (λ k m Hk, iw_owned m (bw_inode _ Hwf k m Hk))).
  lia.
Qed.

(** A free inode is counted. *)
Lemma free_inodes_range s i n :
  fs_wf s → s.(inode_table) !! i = Some n → free_inode n →
  1 ≤ s.(sb).(sb_free_inodes) ≤ MAX_FILES.
Proof.
  intros [Hb Hn] Hi Hf. rewrite (nw_free _ Hn).
  pose proof (length_filter free_inode s.(inode_table)) as Hle.
  rewrite (bw_inodes _ Hb) in Hle.
  destruct (filter free_inode s.(inode_table)) as [|m l] eqn:E.
  - exfalso. apply (filter_nil_not_elem_of free_inode s.(inode_table) n E Hf).
    by eapply list_elem_of_lookup_2.
  - simpl length in *. lia.
Qed.

(** While an inode has an empty block slot the disk is not full. *)
Lemma block_available s i n :
  blocks_wf s → s.(inode_table) !! i = Some n → (length (inode_blocks n) < 4)%nat →
  ∃ b, 0 ≤ b < BLOCK_COUNT ∧ b ∉ all_blocks s.(inode_table).
Proof.
  intros Hwf Hi Hlt.
  assert (length (all_blocks s.(inode_table)) < Z.to_nat BLOCK_COUNT)%nat as Hlen.
  { destruct (all_blocks_insert _ _ _ Hi) as (rest & Hp & Hp').
    set (full := MkInode 0 0 [0; 0; 0; 0] 0). specialize (Hp' full).
    assert (inode_blocks full = [0; 0; 0; 0]) as Hfull by reflexivity.
    pose proof (all_blocks_length (<[i:=full]> s.(inode_table))) as Hall.
    rewrite Hp', Hfull, length_insert, (bw_inodes _ Hwf), length_app in Hall.
    rewrite Hp, length_app. simpl length in Hall.
    enough (4 + length rest ≤ 4 * Z.to_nat MAX_FILES)%nat by lia. apply Hall.
    intros j m [(_ & -> & _)|[_ Hj]]%list_lookup_insert_Some; [by rewrite Hfull|].
    apply (iw_owned m), (bw_inode _ Hwf j m Hj). }
  destruct (decide (Forall (λ b, b ∈ all_blocks s.(inode_table)) (seqZ 0 BLOCK_COUNT)))
    as [Hall|Hex].
  - exfalso. rewrite Forall_forall in Hall.
    pose proof (submseteq_length (seqZ 0 BLOCK_COUNT) (all_blocks s.(inode_table))) as Hle.
    rewrite length_seqZ in Hle. enough (Z.to_nat BLOCK_COUNT ≤
      length (all_blocks s.(inode_table)))%nat by lia. apply Hle.
    apply NoDup_submseteq; [apply NoDup_seqZ|done].
  - apply not_Forall_Exists in Hex; [|apply _].
    apply Exists_exists in Hex as (b & Hb & Hnb). exists b. split; [|done].
    by apply elem_of_seqZ in Hb.
Qed.

(** [allocate_block] on a disk that is not full returns a block without an
    owner. *)
Lemma allocate_block_ok s i n :
  blocks_wf s → s.(inode_table) !! i = Some n → (length (inode_blocks n) < 4)%nat →
  ∃ b, 0 ≤ b < BLOCK_COUNT ∧ b ∉ all_blocks s.(inode_table) ∧
    allocate_block s = Ok (b, add_free_blocks (-1)
      (set_block_bitmap (<[Z.to_nat b := 1]> s.(block_bitmap)) s)).
Proof.
  intros Hwf Hi Hlt. destruct (block_available s i n Hwf Hi Hlt) as (b0 & Hb0 & Hn0).
  set (t := λ j, bool_decide (j ∉ all_blocks s.(inode_table))).
  assert (∀ j, 0 ≤ j < BLOCK_COUNT →
    (v ← aget s.(block_bitmap) j; Ok (v =? 0)) = Ok (t j)) as Ht.
  { intros j Hj. rewrite (aget_lookup _ _ _ (proj1 Hj) (bw_bitmap _ Hwf j Hj)), bind_ok.
    unfold t. f_equal. case_decide.
    - by rewrite bool_decide_eq_false_2 by tauto.
    - by rewrite bool_decide_eq_true_2 by tauto. }
  destruct (find_first_total (Z.to_nat BLOCK_COUNT) 0
    (λ j, v ← aget s.(block_bitmap) j; Ok (v =? 0)) t) as [r Hr].
  { intros j Hj. apply Ht. lia. }
  pose proof (find_first_inv _ _ _ _ Hr) as Hinv. unfold allocate_block. rewrite Hr, bind_ok.
  destruct r as [b|].
  - destruct Hinv as (Hb & Htb & _). rewrite Ht in Htb by lia.
    injection Htb as Htb. apply bool_decide_eq_true in Htb.
    exists b. split_and!; [lia..|done|].
    unfold set_bitmap. rewrite aset_ok by (rewrite (bw_bitmap_length _ Hwf); lia). done.
  - exfalso. specialize (Hinv b0 ltac:(lia)). rewrite Ht in Hinv by lia.
    injection Hinv as Hinv. by apply bool_decide_eq_false in Hinv.
Qed.

(** [allocate_inode] takes the first free inode, if there is one. *)
Lemma allocate_inode_cases s :
  length s.(inode_table) = Z.to_nat MAX_FILES →
  (Forall (λ n, ¬ free_inode n) s.(inode_table) ∧ allocate_inode s = Ok (-1, s)) ∨
  (∃ i n, list_find free_inode s.(inode_table) = Some (i, n) ∧
     (i < Z.to_nat MAX_FILES)%nat ∧
     allocate_inode s = Ok (Z.of_nat i, add_free_inodes (-1) (set_inode_table
       (<[i := set_ino_number (Z.of_nat i + 1) n]> s.(inode_table)) s))).
Proof.
  intros Hlen. unfold allocate_inode.
  destruct (list_find free_inode s.(inode_table)) as [[i n]|] eqn:E.
  - right. exists i, n. split; [done|]. apply list_find_Some in E as (Hi & Hf & Hleast).
    pose proof (lookup_lt_Some _ _ _ Hi) as Hlt. split; [lia|].
    rewrite (find_first_some _ _ _ (Z.of_nat i)).
    + rewrite bind_ok. erewrite (upd_inode_ok _ _ n) by done.
      rewrite bind_ok, u32_small by lia. done.
    + lia.
    + intros j Hj. destruct (lookup_lt_is_Some_2 s.(inode_table) (Z.to_nat j)) as [m Hm];
        [lia|]. rewrite (aget_lookup _ _ _ (proj1 Hj) Hm), bind_ok.
      f_equal. apply Z.eqb_neq. apply (Hleast (Z.to_nat j)); [done|lia].
    + rewrite (aget_nat _ _ _ Hi), bind_ok. f_equal. by apply Z.eqb_eq.
  - left. apply list_find_None in E. split; [done|].
    rewrite find_first_none; [done|]. intros j Hj.
    destruct (lookup_lt_is_Some_2 s.(inode_table) (Z.to_nat j)) as [m Hm]; [lia|].
    rewrite (aget_lookup _ _ _ (proj1 Hj) Hm), bind_ok. f_equal. apply Z.eqb_neq.
    by eapply Forall_lookup_1 in E.
Qed.

(** ** [allocate_blocks] *)

(** [s'] is [s] after inode [i], which was [n], got the blocks [bs]. *)
Record grown (s s' : fs) (i : nat) (n n' : Inode) (bs : list Z) : Prop := {
  gr_table : s'.(inode_table) = <[i := n']> s.(inode_table);
  gr_blocks : inode_blocks n' = inode_blocks n ++ bs;
  gr_number : n'.(ino_number) = n.(ino_number);
  gr_size : n'.(ino_size) = n.(ino_size);
  gr_permissions : n'.(ino_permissions) = n.(ino_permissions);
  gr_storage : s'.(storage) = s.(storage);
  gr_directory : s'.(root_directory) = s.(root_directory);
  gr_free_inodes : s'.(sb).(sb_free_inodes) = s.(sb).(sb_free_inodes);
  gr_wf : blocks_wf s';
}.

Lemma grown_refl s i n :
  blocks_wf s → s.(inode_table) !! i = Some n → grown s s i n n [].
Proof. intros Hwf Hi. split; try done; by rewrite ?list_insert_id, ?app_nil_r. Qed.

Lemma grown_lookup s s' i n n' bs :
  s.(inode_table) !! i = Some n → grown s s' i n n' bs →
  s'.(inode_table) !! i = Some n'.
Proof.
  intros Hi Hg. rewrite (gr_table _ _ _ _ _ _ Hg).
  apply list_lookup_insert_eq. by eapply lookup_lt_Some.
Qed.

(** The shape of an inode one more block was written into. *)
Lemma inode_push n b :
  inode_wf n → (length (inode_blocks n) < 4)%nat → 0 ≤ b < BLOCK_COUNT →
  let n' := set_ino_blocks (<[length (inode_blocks n) := b]> n.(ino_blocks)) n in
  inode_wf n' ∧ inode_blocks n' = inode_blocks n ++ [b].
Proof.
  intros Hn Hlt Hb n'. set (bs := inode_blocks n) in *.
  assert (n'.(ino_blocks) =
    (bs ++ [b]) ++ replicate (4 - length (bs ++ [b])) U32_MAX) as Hshape.
  { subst n'. simpl. rewrite (iw_slots _ Hn) at 1. fold bs.
    replace (4 - length bs)%nat with (S (4 - length (bs ++ [b])))
      by (rewrite length_app; simpl; lia).
    rewrite replicate_S, insert_app_r_alt, Nat.sub_diag by lia. simpl.
    by rewrite <-(assoc_L (++)). }
  assert (inode_blocks n' = bs ++ [b]) as Hbs.
  { apply inode_blocks_shape; [done|]. rewrite elem_of_app, list_elem_of_singleton.
    intros [Hin|Heq]; [by eapply inode_blocks_not_max|].
    unfold U32_MAX in Heq. lia. }
  split; [|done]. pose proof (iw_size _ Hn) as Hs. fold bs in Hs.
  split; rewrite Hbs; [done|rewrite length_app; simpl; lia|].
  rewrite length_app. simpl. lia.
Qed.

(** One more block for inode [i]: what the two calls of the loop body of
    [allocate_blocks] do together. *)
Lemma give_block s i n :
  blocks_wf s → s.(inode_table) !! i = Some n → (length (inode_blocks n) < 4)%nat →
  ∃ b s1 s2 n', 0 ≤ b < BLOCK_COUNT ∧
    allocate_block s = Ok (b, s1) ∧
    set_inode_block s1 (Z.of_nat i) (Z.of_nat (length (inode_blocks n))) (u32 b) = Ok s2 ∧
    grown s s2 i n n' [b].
Proof.
  intros Hwf Hi Hlt. pose proof (bw_inode _ Hwf i n Hi) as Hn.
  destruct (allocate_block_ok s i n Hwf Hi Hlt) as (b & Hb & Hnew & Hal).
  destruct (inode_push n b Hn Hlt Hb) as [Hn' Hbs].
  eexists b, _, _, _. split; [done|]. split; [done|]. split.
  { apply set_inode_block_ok; [done|]. rewrite (iw_slots _ Hn), length_app,
      length_replicate. lia. }
  rewrite u32_small by lia.
  pose proof (bw_free _ Hwf) as Hf.
  pose proof (blocks_room s b Hwf Hb Hnew) as Hroom.
  split; try done.
  eapply (blocks_wf_give s _ i n); try done. simpl. rewrite u32_small; lia.
Qed.

Lemma grown_trans s1 s2 s3 i n1 n2 n3 bs bs' :
  grown s1 s2 i n1 n2 bs → grown s2 s3 i n2 n3 bs' → grown s1 s3 i n1 n3 (bs ++ bs').
Proof.
  intros [] []. split; try congruence.
  - rewrite gr_table1, gr_table0. apply list_insert_insert_eq.
  - rewrite gr_blocks1, gr_blocks0. by rewrite <-(assoc_L (++)).
Qed.

(** [allocate_blocks] gives the inode as many blocks as it was asked for, or
    as many as the inode has empty slots: the disk itself never runs out. *)
Lemma allocate_blocks_ok s i n r :
  blocks_wf s → s.(inode_table) !! i = Some n → 0 ≤ r < 2 ^ 32 →
  let k := Z.to_nat (Z.min r (4 - Z.of_nat (length (inode_blocks n)))) in
  ∃ s' n' bs, length bs = k ∧
    allocate_blocks s (Z.of_nat i) r = Ok (Z.of_nat k, s') ∧ grown s s' i n n' bs.
Proof.
  intros Hwf Hi Hr k. pose proof (bw_inode _ Hwf i n Hi) as Hn0.
  pose proof (iw_owned _ Hn0) as Hl0. set (l := Z.of_nat (length (inode_blocks n))) in *.
  destruct (iter_inv
    (λ '(j, a, s'), a = Z.max 0 (j - l) ∧ 0 ≤ j ≤ 4 ∧ a ≤ r ∧ ∃ n' bs,
       Z.of_nat (length bs) = a ∧ grown s s' i n n' bs)
    (λ '(a, s'), a = Z.min r (4 - l) ∧ ∃ n' bs, Z.of_nat (length bs) = a ∧
       grown s s' i n n' bs)
    (λ '(j, _, _), Z.to_nat (4 - j))
    (allocate_blocks_step (Z.of_nat i) r) (S (Z.to_nat MAX_BLOCKS_PER_FILE)) (0, 0, s))
    as ([a s'] & Hit & Ha & n' & bs & Hbs & Hg); [|lia| |].
  - split; [lia|]. split; [lia|]. split; [lia|]. exists n, [].
    split; [done|]. by apply grown_refl.
  - intros [[j a] s'] (Ha & Hj & Har & n' & bs & Hbs & Hg). unfold allocate_blocks_step.
    rewrite u32_small by lia.
    destruct (Z.ltb_spec j 4) as [Hj4|Hj4]; simpl.
    2:{ right. eexists. split; [done|]. split; [lia|eauto]. }
    destruct (Z.ltb_spec a r) as [Hlt|Hge].
    2:{ right. eexists. split; [done|]. split; [lia|eauto]. }
    left. pose proof (grown_lookup _ _ _ _ _ _ Hi Hg) as Hi'.
    pose proof (gr_wf _ _ _ _ _ _ Hg) as Hwf'.
    pose proof (bw_inode _ Hwf' i n' Hi') as Hn'.
    assert (Z.of_nat (length (inode_blocks n')) = l + a) as Hl'.
    { rewrite (gr_blocks _ _ _ _ _ _ Hg), length_app. lia. }
    assert (get_inode_block s' (Z.of_nat i) j =
      Ok (default U32_MAX (inode_blocks n' !! Z.to_nat j))) as ->.
    { rewrite <-(get_inode_block_ok _ _ _ _ Hi' Hn') by lia. f_equal. lia. }
    rewrite bind_ok.
    destruct (decide (j < l)) as [Hjl|Hjl].
    + destruct (lookup_lt_is_Some_2 (inode_blocks n') (Z.to_nat j)) as [b Hb]; [lia|].
      pose proof (block_in_range _ _ _ _ _ Hwf' Hi' Hb) as Hbr. rewrite Hb. simpl.
      destruct (Z.eqb_spec b U32_MAX) as [->|_]; [unfold U32_MAX in Hbr; lia|].
      eexists. split; [done|]. split; [|lia].
      split; [lia|]. split; [lia|]. split; [lia|]. by exists n', bs.
    + assert (Z.to_nat j = length (inode_blocks n')) as Hjn by lia.
      rewrite lookup_ge_None_2 by lia. simpl.
      destruct (give_block s' i n' Hwf' Hi') as (b & s1 & s2 & n2 & Hb & -> & Hset & Hg2);
        [lia|]. rewrite bind_ok.
      destruct (Z.eqb_spec b (-1)); [lia|].
      replace (Z.of_nat (length (inode_blocks n'))) with j in Hset by lia.
      rewrite Hset, bind_ok. eexists. split; [done|]. split; [|lia].
      split; [lia|]. split; [lia|]. split; [lia|]. exists n2, (bs ++ [b]).
      split; [rewrite length_app; simpl; lia|]. by eapply grown_trans.
  - exists s', n', bs. split; [lia|]. split; [|done].
    unfold allocate_blocks. rewrite Hit. do 2 f_equal. lia.
Qed.

Lemma grown_names s s' i n n' bs :
  names_wf s → s.(inode_table) !! i = Some n → grown s s' i n n' bs →
  (n.(ino_number) = 0 → bs = []) → names_wf s'.
Proof.
  intros Hwf Hi Hg Hbs. pose proof Hg as [].
  split; rewrite ?gr_directory0; [apply Hwf| |].
  - intros j m d. rewrite gr_table0.
    intros [(<- & <- & _)|[_ Hj]]%list_lookup_insert_Some Hd.
    + destruct (nw_slot _ Hwf i n d Hi Hd). split; rewrite ?gr_number0, ?gr_blocks0; try done.
      split; [intros H0; rewrite (proj1 sw_owned0 H0), Hbs by done; done|].
      intros [? ?]%app_eq_nil. by apply sw_owned0.
    + by apply (nw_slot _ Hwf).
  - rewrite gr_free_inodes0, (nw_free _ Hwf), gr_table0.
    pose proof (filter_insert_count free_inode s.(inode_table) i n n' Hi) as Hc.
    assert (free_inode n' ↔ free_inode n) as He by (unfold free_inode; by rewrite gr_number0).
    rewrite (decide_ext (free_inode n') (free_inode n)) in Hc by done. case_decide; lia.
Qed.
