(* ===== verification/FsSpec.v ===== *)
(** * What the file system promises

    The abstract state is the list of the 256 slots; a used slot holds a name,
    its permissions, the number of blocks set aside for it and its bytes.
    [spec_exec] runs one operation of [filesystem.h] on it, [fs_exec] runs the
    code. *)
From S2P Require Import Prelude CString Filesystem.

Record afile := AFile {
  af_name : list Z;
  af_perm : Z;
  af_blocks : Z;
  af_data : list Z;
}.

Abbreviation afs := (list (option afile)).

(** The operations of the interface, with the pointers they are given. *)
Inductive fs_cmd :=
| Create (filename : list Z)
| Chmod (filename : list Z) (permissions : Z)
| Delete (filename : list Z)
| Read (filename buffer : list Z) (size : Z)
| Write (filename buffer : list Z) (size : Z)
| Append (filename buffer : list Z) (size : Z).

(** The returned [int], the caller's buffer afterwards, the new state. *)
Definition fs_exec (s : fs) (c : fs_cmd) : res (Z * list Z * fs) :=
  match c with
  | Create f => '(r, s) ← create_file s f; Ok (r, [], s)
  | Chmod f p => '(r, s) ← chmod_file s f p; Ok (r, [], s)
  | Delete f => '(r, s) ← delete_file s f; Ok (r, [], s)
  | Read f buffer size => '(r, b) ← read_file s f buffer size; Ok (r, b, s)
  | Write f buffer size => '(r, s) ← write_file s f buffer size; Ok (r, [], s)
  | Append f buffer size => '(r, s) ← append_to_file s f buffer size; Ok (r, [], s)
  end.

(** What a caller has to respect: names are terminated, a new name has room
    for its terminator in a directory entry, a buffer has [size] bytes. *)
Definition cmd_ok (c : fs_cmd) : Prop :=
  match c with
  | Create f => ∃ x, cstr f = Some x ∧ Z.of_nat (length x) < MAX_FILENAME_LEN
  | Chmod f _ | Delete f => is_Some (cstr f)
  | Read f b n | Write f b n | Append f b n =>
      is_Some (cstr f) ∧ 0 ≤ n < 2 ^ 32 ∧ n ≤ Z.of_nat (length b)
  end.

(** ** The specification *)

Definition named (x : list Z) (o : option afile) : Prop :=
  match o with Some f => f.(af_name) = x | None => False end.
#[export] Instance named_dec x o : Decision (named x o).
Proof. destruct o; simpl; apply _. Defined.

(** The first file of that name. *)
Definition lookup_name (a : afs) (x : list Z) : option (nat * afile) :=
  match list_find (named x) a with Some (i, Some f) => Some (i, f) | _ => None end.

Definition blocks_of (n : Z) : Z := (n + BLOCK_SIZE - 1) `div` BLOCK_SIZE.

(** A request for [need] more blocks by a file that has [have]. *)
Definition granted (have need : Z) : Z := Z.max 0 (Z.min need (MAX_BLOCKS_PER_FILE - have)).

(** How many bytes a write stores, and how many blocks it takes.  The blocks
    a file needs are counted from its size, not from the blocks it has. *)
Definition spec_write_need (f : afile) (size : Z) : Z :=
  blocks_of (Z.min size (MAX_BLOCKS_PER_FILE * BLOCK_SIZE)) -
  Z.max (blocks_of (Z.of_nat (length f.(af_data)))) 1.
Definition spec_write_size (f : afile) (size : Z) : Z :=
  let need := spec_write_need f size in
  let got := granted f.(af_blocks) need in
  if bool_decide (got < need)
  then (Z.max (blocks_of (Z.of_nat (length f.(af_data)))) 1 + got) * BLOCK_SIZE
  else Z.min size (MAX_BLOCKS_PER_FILE * BLOCK_SIZE).

(** The same for an append: the bytes that fit into the last block, then
    whole new blocks. *)
Definition spec_append_room (f : afile) : Z :=
  let c := Z.of_nat (length f.(af_data)) in
  if bool_decide (c `mod` BLOCK_SIZE = 0 ∧ 0 < c) then 0 else BLOCK_SIZE - c `mod` BLOCK_SIZE.
Definition spec_append_want (f : afile) (size : Z) : Z :=
  Z.min size (MAX_BLOCKS_PER_FILE * BLOCK_SIZE - Z.of_nat (length f.(af_data))).
Definition spec_append_need (f : afile) (size : Z) : Z :=
  blocks_of (Z.max 0 (spec_append_want f size - spec_append_room f)).
Definition spec_append_size (f : afile) (size : Z) : Z :=
  let need := spec_append_need f size in
  let got := granted f.(af_blocks) need in
  if bool_decide (got < need) then spec_append_room f + got * BLOCK_SIZE
  else spec_append_want f size.

Definition spec_create (a : afs) (x : list Z) : Z * afs :=
  match list_find (λ o : option afile, o = None) a with
  | Some (i, _) => (Z.of_nat i, <[i := Some (AFile x 7 1 [])]> a)
  | None => (-1, a)
  end.

Definition spec_chmod (a : afs) (x : list Z) (p : Z) : Z * afs :=
  match lookup_name a x with
  | Some (i, f) =>
      (0, <[i := Some (AFile f.(af_name) (u16 p) f.(af_blocks) f.(af_data))]> a)
  | None => (-1, a)
  end.

Definition spec_delete (a : afs) (x : list Z) : Z * afs :=
  match lookup_name a x with
  | Some (i, f) =>
      if check_permissions f.(af_perm) 1 then (0, <[i := None]> a) else (-1, a)
  | None => (-1, a)
  end.

Definition spec_read (a : afs) (x : list Z) (buffer : list Z) (size : Z) : Z * list Z :=
  match lookup_name a x with
  | Some (i, f) =>
      if check_permissions f.(af_perm) 0 then
        let d := take (Z.to_nat size) f.(af_data) in
        (Z.of_nat (length d), splice buffer 0 d)
      else (-1, buffer)
  | None => (-1, buffer)
  end.

Definition spec_write (a : afs) (x : list Z) (buffer : list Z) (size : Z) : Z * afs :=
  match lookup_name a x with
  | Some (i, f) =>
      if check_permissions f.(af_perm) 1 then
        let n := spec_write_size f size in
        (n, <[i := Some (AFile f.(af_name) f.(af_perm)
                      (f.(af_blocks) + granted f.(af_blocks) (spec_write_need f size))
                      (take (Z.to_nat n) buffer))]> a)
      else (-1, a)
  | None => (-1, a)
  end.

Definition spec_append (a : afs) (x : list Z) (buffer : list Z) (size : Z) : Z * afs :=
  match lookup_name a x with
  | Some (i, f) =>
      if check_permissions f.(af_perm) 1 then
        if bool_decide (MAX_BLOCKS_PER_FILE * BLOCK_SIZE ≤ Z.of_nat (length f.(af_data)))
        then (-1, a)
        else
          let n := spec_append_size f size in
          (n, <[i := Some (AFile f.(af_name) f.(af_perm)
                        (f.(af_blocks) + granted f.(af_blocks) (spec_append_need f size))
                        (f.(af_data) ++ take (Z.to_nat n) buffer))]> a)
      else (-1, a)
  | None => (-1, a)
  end.

Definition name_of (s : list Z) : list Z := default [] (cstr s).

Definition spec_exec (a : afs) (c : fs_cmd) : Z * list Z * afs :=
  match c with
  | Create f => let '(r, a) := spec_create a (name_of f) in (r, [], a)
  | Chmod f p => let '(r, a) := spec_chmod a (name_of f) p in (r, [], a)
  | Delete f => let '(r, a) := spec_delete a (name_of f) in (r, [], a)
  | Read f b n => let '(r, b) := spec_read a (name_of f) b n in (r, b, a)
  | Write f b n => let '(r, a) := spec_write a (name_of f) b n in (r, [], a)
  | Append f b n => let '(r, a) := spec_append a (name_of f) b n in (r, [], a)
  end.
