(* ===== verification/FsData.v ===== *)
(** * The bytes of a file

    The blocks of a file, put one after the other, are one array of bytes;
    the copy loops of [read_file], [write_file] and [append_to_file] read and
    write segments of it.  [fs_abs] collects the abstract state. *)
From S2P Require Import Prelude CString Filesystem FsWf FsSpec.

(** ** Blocks as one array *)

Definition row (st : list (list Z)) (b : Z) : list Z := default [] (st !! Z.to_nat b).
Definition blocks_bytes (st : list (list Z)) (bs : list Z) : list Z := bs ≫= row st.

(** Every block of [bs] exists, and all rows have the size of a block. *)
Record blocks_ok (st : list (list Z)) (bs : list Z) : Prop := {
  bo_rows : ∀ b r, st !! b = Some r → length r = Z.to_nat BLOCK_SIZE;
  bo_range : ∀ b, b ∈ bs → 0 ≤ b < Z.of_nat (length st);
  bo_nodup : NoDup bs;
}.

Lemma row_lookup st bs b :
  blocks_ok st bs → b ∈ bs → st !! Z.to_nat b = Some (row st b) ∧
    length (row st b) = Z.to_nat BLOCK_SIZE.
Proof.
  intros Hok Hb. pose proof (bo_range _ _ Hok b Hb) as Hr. unfold row.
  destruct (lookup_lt_is_Some_2 st (Z.to_nat b)) as [r E]; [lia|]. rewrite E. simpl.
  split; [done|]. by eapply bo_rows.
Qed.

Lemma blocks_bytes_app st bs bs' :
  blocks_bytes st (bs ++ bs') = blocks_bytes st bs ++ blocks_bytes st bs'.
Proof. apply bind_app. Qed.

Lemma blocks_bytes_cons st b bs :
  blocks_bytes st (b :: bs) = row st b ++ blocks_bytes st bs.
Proof. done. Qed.

Lemma blocks_bytes_length st bs :
  blocks_ok st bs → length (blocks_bytes st bs) = (Z.to_nat BLOCK_SIZE * length bs)%nat.
Proof.
  intros Hok. assert (∀ b, b ∈ bs → length (row st b) = Z.to_nat BLOCK_SIZE) as Hr.
  { intros b Hb. by apply (row_lookup st bs). }
  clear Hok. induction bs as [|b bs IH]; [cbn [length]; by rewrite Nat.mul_0_r|].
  rewrite blocks_bytes_cons, length_app, Hr by (by left).
  rewrite IH by (intros; apply Hr; by right). cbn [length].
  rewrite Nat.mul_succ_r. lia.
Qed.

(** The blocks before and after the [j]-th one. *)
Lemma blocks_bytes_split st bs j b :
  blocks_ok st bs → bs !! j = Some b →
  blocks_bytes st bs =
    blocks_bytes st (take j bs) ++ row st b ++ blocks_bytes st (drop (S j) bs) ∧
  length (blocks_bytes st (take j bs)) = (Z.to_nat BLOCK_SIZE * j)%nat.
Proof.
  intros Hok Hj. split.
  - rewrite <-blocks_bytes_cons, <-blocks_bytes_app. by rewrite take_drop_middle.
  - rewrite blocks_bytes_length.
    + rewrite length_take. apply lookup_lt_Some in Hj. lia.
    + destruct Hok as [Hr Hx Hn]. split; [done| |].
      * intros x Hin. apply Hx. by eapply elem_of_take_in.
      * by apply NoDup_take_in.
Qed.

Lemma blocks_bytes_ext st st' bs :
  (∀ b, b ∈ bs → row st' b = row st b) → blocks_bytes st' bs = blocks_bytes st bs.
Proof.
  intros H. induction bs as [|b bs IH]; [done|].
  rewrite !blocks_bytes_cons, H, IH by (by left || (intros; apply H; by right)). done.
Qed.

(** ** Segments of the array *)

(** [st'] is [st] after the bytes [x] were stored at offset [off] of the
    array of blocks [bs]; no other block changed. *)
Record stored (st st' : list (list Z)) (bs : list Z) (off : nat) (x : list Z) : Prop := {
  sd_length : length st' = length st;
  sd_rows : ∀ b r, st' !! b = Some r → length r = Z.to_nat BLOCK_SIZE;
  sd_bytes : blocks_bytes st' bs = splice (blocks_bytes st bs) off x;
  sd_other : ∀ b, 0 ≤ b → b ∉ bs → row st' b = row st b;
}.

Lemma stored_nil st bs off : blocks_ok st bs → stored st st bs off [].
Proof. intros Hok. split; [done|apply Hok|by rewrite splice_nil|done]. Qed.

Lemma stored_ok st st' bs off x : blocks_ok st bs → stored st st' bs off x → blocks_ok st' bs.
Proof.
  intros Hok Hs. split; [apply Hs| |apply Hok].
  rewrite (sd_length _ _ _ _ _ Hs). apply Hok.
Qed.

Lemma stored_app st st1 st2 bs off x y :
  (off + length x + length y ≤ length (blocks_bytes st bs))%nat →
  stored st st1 bs off x → stored st1 st2 bs (off + length x) y →
  stored st st2 bs off (x ++ y).
Proof.
  intros Hle [L1 R1 B1 O1] [L2 R2 B2 O2]. split; [congruence|done| |].
  - by rewrite B2, B1, splice_app.
  - intros b Hb Hn. by rewrite O2, O1.
Qed.

(** One [memcpy] into a block. *)
Lemma copy_to_block_ok s bs j b off src chunk :
  blocks_ok s.(storage) bs → bs !! j = Some b →
  0 ≤ off → 0 ≤ chunk → off + chunk ≤ BLOCK_SIZE → (Z.to_nat chunk ≤ length src)%nat →
  ∃ st', copy_to_block s b off src chunk = Ok (set_storage st' s) ∧
    stored s.(storage) st' bs (Z.to_nat BLOCK_SIZE * j + Z.to_nat off)
      (take (Z.to_nat chunk) src).
Proof.
  intros Hok Hj Hoff Hc Hle Hsrc. pose proof (list_elem_of_lookup_2 _ _ _ Hj) as Hb.
  pose proof (bo_range _ _ Hok b Hb) as Hr.
  destruct (row_lookup _ _ _ Hok Hb) as [Hrow Hlen].
  assert (length (take (Z.to_nat chunk) src) = Z.to_nat chunk) as Hlt
    by (rewrite length_take; lia).
  unfold copy_to_block. rewrite (aget_lookup _ _ _ (proj1 Hr) Hrow), bind_ok.
  rewrite memcpy_spec, bind_ok by lia. rewrite aset_ok, bind_ok by lia.
  eexists. split; [done|].
  set (r' := splice _ _ _). assert (length r' = Z.to_nat BLOCK_SIZE) as Hr'.
  { subst r'. rewrite length_splice; lia. }
  assert (∀ x, 0 ≤ x → row (<[Z.to_nat b:=r']> s.(storage)) x =
    if decide (x = b) then r' else row s.(storage) x) as Hrows.
  { intros x Hx. unfold row. case_decide as E.
    - subst x. by rewrite list_lookup_insert_eq by lia.
    - by rewrite list_lookup_insert_ne by lia. }
  split.
  - apply length_insert.
  - intros k r [(? & -> & ?)|[_ Hk]]%list_lookup_insert_Some; [done|].
    by eapply (bo_rows _ _ Hok).
  - assert (blocks_ok (<[Z.to_nat b:=r']> s.(storage)) bs) as Hok'.
    { split; [|by rewrite length_insert; apply Hok|apply Hok].
      intros k r [(? & -> & ?)|[_ Hk]]%list_lookup_insert_Some; [done|].
      by eapply (bo_rows _ _ Hok). }
    destruct (blocks_bytes_split _ _ _ _ Hok Hj) as [-> <-].
    destruct (blocks_bytes_split _ _ _ _ Hok' Hj) as [-> _].
    rewrite splice_middle by lia. rewrite Hrows, decide_True by (done || lia).
    pose proof (bo_nodup _ _ Hok) as Hnd.
    rewrite <-(take_drop_middle bs j b Hj) in Hnd.
    apply NoDup_app in Hnd as (_ & Hd1 & [Hd2 _]%NoDup_cons).
    f_equal; [|f_equal].
    + apply blocks_bytes_ext. intros x Hx.
      assert (0 ≤ x) by (apply (bo_range _ _ Hok); by eapply elem_of_take_in).
      rewrite Hrows, decide_False; [done| |done]. intros ->. apply (Hd1 b Hx). by left.
    + apply blocks_bytes_ext. intros x Hx.
      assert (0 ≤ x) by (apply (bo_range _ _ Hok); by eapply elem_of_drop_in).
      rewrite Hrows, decide_False; [done| |done]. by intros ->.
  - intros x Hx Hn. rewrite Hrows, decide_False; [done| |done]. by intros ->.
Qed.

(** One [memcpy] out of a block. *)
Lemma block_part st bs j b off n :
  blocks_ok st bs → bs !! j = Some b → (off + n ≤ Z.to_nat BLOCK_SIZE)%nat →
  take n (drop off (row st b)) =
    take n (drop (Z.to_nat BLOCK_SIZE * j + off) (blocks_bytes st bs)).
Proof.
  intros Hok Hj Hle. destruct (blocks_bytes_split _ _ _ _ Hok Hj) as [-> <-].
  symmetry. apply take_drop_middle_part.
  destruct (row_lookup _ _ _ Hok (list_elem_of_lookup_2 _ _ _ Hj)). lia.
Qed.

(** ** The blocks of an inode *)

Section inode.
Context (s : fs) (i : nat) (n : Inode).
Context (Hwf : blocks_wf s) (Hi : s.(inode_table) !! i = Some n).

Lemma inode_blocks_ok : blocks_ok s.(storage) (inode_blocks n).
Proof.
  split.
  - apply Hwf.
  - intros b Hb. rewrite (bw_storage _ Hwf).
    pose proof (bw_range _ Hwf b (elem_of_all_blocks _ _ _ _ Hi Hb)). lia.
  - pose proof (bw_nodup _ Hwf) as Hnd.
    destruct (all_blocks_insert _ _ _ Hi) as (rest & Hp & _). rewrite Hp in Hnd.
    by apply NoDup_app in Hnd as [? _].
Qed.

Lemma inode_bytes_length :
  length (blocks_bytes s.(storage) (inode_blocks n)) =
    (Z.to_nat BLOCK_SIZE * length (inode_blocks n))%nat.
Proof. apply blocks_bytes_length, inode_blocks_ok. Qed.

Lemma inode_bytes_size :
  (Z.to_nat n.(ino_size) ≤ length (blocks_bytes s.(storage) (inode_blocks n)))%nat.
Proof.
  rewrite inode_bytes_length. pose proof (iw_size _ (bw_inode _ Hwf i n Hi)). lia.
Qed.

(** Block [j] of the inode, read as the [int] the loops test. *)
Lemma read_block_index j :
  (j < length (inode_blocks n))%nat →
  ∃ b, inode_blocks n !! j = Some b ∧ 0 ≤ b < BLOCK_COUNT ∧ i32 b = b ∧
    get_inode_block s (Z.of_nat i) (Z.of_nat j) = Ok b.
Proof.
  intros Hj. pose proof (bw_inode _ Hwf i n Hi) as Hn. pose proof (iw_owned _ Hn).
  destruct (lookup_lt_is_Some_2 (inode_blocks n) j Hj) as [b Hb]. exists b.
  pose proof (block_in_range _ _ _ _ _ Hwf Hi Hb) as Hr.
  split; [done|]. split; [done|]. split; [by apply i32_block|].
  rewrite (get_inode_block_ok _ _ _ _ Hi Hn), Hb by lia. done.
Qed.
End inode.

(** Two inodes own different blocks. *)
Lemma inode_blocks_disjoint s i k n m b :
  blocks_wf s → s.(inode_table) !! i = Some n → s.(inode_table) !! k = Some m →
  i ≠ k → b ∈ inode_blocks m → b ∉ inode_blocks n.
Proof.
  intros Hwf Hi Hk Hne Hm Hn. destruct (all_blocks_insert _ _ _ Hi) as (rest & Hp & Hp').
  pose proof (bw_nodup _ Hwf) as Hnd. rewrite Hp in Hnd.
  apply NoDup_app in Hnd as (_ & Hd & _). apply (Hd b Hn).
  set (empty := MkInode 0 0 [] 0). specialize (Hp' empty). simpl in Hp'.
  rewrite <-Hp'. apply (elem_of_all_blocks _ k m); [|done].
  by rewrite list_lookup_insert_ne.
Qed.
