(* ===== verification/FsLoops.v ===== *)
(** * The copy loops of the file system

    Each loop moves one segment between the caller's buffer and the array of
    bytes of the file, within its fuel. *)
From S2P Require Import Prelude CString Filesystem FsWf FsSpec FsData.

#[local] Ltac Zify.zify_post_hook ::= Z.to_euclidean_division_equations.

Section loops.
Context (s : fs) (i : nat) (n : Inode).
Context (Hwf : blocks_wf s) (Hi : s.(inode_table) !! i = Some n).

Let bs := inode_blocks n.
Let bytes := blocks_bytes s.(storage) bs.

Lemma loop_capacity :
  Z.of_nat (length bytes) = BLOCK_SIZE * Z.of_nat (length bs) ∧ (length bs ≤ 4)%nat.
Proof.
  unfold bytes, bs. rewrite (inode_bytes_length s i n Hwf Hi).
  pose proof (iw_owned _ (bw_inode _ Hwf i n Hi)). lia.
Qed.

(** The block that holds byte [p] of the file. *)
Lemma block_at p :
  0 ≤ p < Z.of_nat (length bytes) →
  ∃ b, bs !! Z.to_nat (p `div` BLOCK_SIZE) = Some b ∧ 0 ≤ b ∧ b ≠ -1 ∧ i32 b = b ∧
    get_inode_block s (Z.of_nat i) (p `div` BLOCK_SIZE) = Ok b.
Proof.
  intros Hp. pose proof loop_capacity as [Hcap _].
  destruct (read_block_index s i n Hwf Hi (Z.to_nat (p `div` BLOCK_SIZE)))
    as (b & Hb & Hr & Hb32 & Hget); [fold bs; lia|].
  exists b. rewrite <-Hget. split_and!; [done|lia|lia|done|]. f_equal. lia.
Qed.

Lemma read_loop rs buffer :
  0 ≤ rs ≤ Z.of_nat (length bytes) → rs ≤ Z.of_nat (length buffer) →
  iter (2 + Z.to_nat MAX_BLOCKS_PER_FILE) (read_file_step s (Z.of_nat i) rs) (0, buffer) =
    Ok (rs, splice buffer 0 (take (Z.to_nat rs) bytes)).
Proof.
  intros Hrs Hbuf. pose proof loop_capacity as [Hcap Hlen].
  destruct (iter_inv (λ '(rd, b), 0 ≤ rd ≤ rs ∧ (rd `mod` BLOCK_SIZE = 0 ∨ rd = rs) ∧
      b = splice buffer 0 (take (Z.to_nat rd) bytes))
    (λ r, r = (rs, splice buffer 0 (take (Z.to_nat rs) bytes)))
    (λ '(rd, _), Z.to_nat (blocks_of (rs - rd)))
    (read_file_step s (Z.of_nat i) rs) (2 + Z.to_nat MAX_BLOCKS_PER_FILE) (0, buffer))
    as (r & -> & ->); [|unfold blocks_of; lia| |done].
  { split; [lia|]. split; [by left|]. by rewrite take_0, splice_nil. }
  intros [rd b] (Hrd & Hal & ->). unfold read_file_step.
  destruct (Z.ltb_spec rd rs) as [Hlt|Hge].
  2:{ right. eexists. split; [done|]. by replace rd with rs by lia. }
  left. destruct (block_at rd) as (blk & Hblk & Hb0 & Hb1 & Hb32 & Hget); [lia|].
  pose proof (inode_blocks_ok s i n Hwf Hi) as Hok. fold bs in Hok.
  rewrite Hget, bind_ok, Hb32. destruct (Z.eqb_spec blk (-1)); [done|].
  destruct (row_lookup _ _ _ Hok (list_elem_of_lookup_2 _ _ _ Hblk)) as [Hrow Hrl].
  rewrite (aget_lookup _ _ _ Hb0 Hrow), bind_ok.
  assert (rd `mod` BLOCK_SIZE = 0) as Hmod by lia. rewrite Hmod.
  set (chunk := min_macro (BLOCK_SIZE - 0) (rs - rd)).
  assert (chunk = Z.min BLOCK_SIZE (rs - rd)) as Hch.
  { subst chunk. unfold min_macro. destruct (Z.ltb_spec (BLOCK_SIZE - 0) (rs - rd)); lia. }
  clearbody chunk.
  assert (length (take (Z.to_nat rd) bytes) = Z.to_nat rd) as Hl
    by (rewrite length_take; lia).
  rewrite memcpy_spec, bind_ok.
  2: lia. 2: rewrite length_splice; lia. 2: rewrite length_drop; lia.
  rewrite u32_small by lia. eexists. split; [done|].
  split; [|unfold blocks_of; lia]. split; [lia|]. split; [lia|].
  rewrite (block_part s.(storage) bs (Z.to_nat (rd `div` BLOCK_SIZE))) by (done || lia).
  replace (Z.to_nat BLOCK_SIZE * Z.to_nat (rd `div` BLOCK_SIZE) + Z.to_nat 0)%nat
    with (Z.to_nat rd) by lia. fold bytes.
  pose proof (splice_app buffer 0 (take (Z.to_nat rd) bytes)
    (take (Z.to_nat chunk) (drop (Z.to_nat rd) bytes))) as Hs.
  rewrite Hl, take_extend in Hs. cbn [Nat.add] in Hs.
  rewrite Hs by (rewrite length_take, length_drop; lia). do 2 f_equal. lia.
Qed.

(** A partial write of the caller's buffer into the file. *)
Definition written_to (s' : fs) (off : nat) (x : list Z) : Prop :=
  ∃ st', s' = set_storage st' s ∧ stored s.(storage) st' bs off x.

Lemma written_to_copy s' off x b src chunk p :
  written_to s' off x → p = Z.of_nat (off + length x) →
  p + chunk ≤ Z.of_nat (length bytes) →
  bs !! Z.to_nat (p `div` BLOCK_SIZE) = Some b →
  0 ≤ chunk → p `mod` BLOCK_SIZE + chunk ≤ BLOCK_SIZE →
  (Z.to_nat chunk ≤ length src)%nat →
  ∃ s2, copy_to_block s' b (p `mod` BLOCK_SIZE) src chunk = Ok s2 ∧
    written_to s2 off (x ++ take (Z.to_nat chunk) src).
Proof.
  intros (st' & -> & Hst) Hp Hend Hb Hc Hin Hsrc.
  pose proof (inode_blocks_ok s i n Hwf Hi) as Hok. fold bs in Hok.
  pose proof (stored_ok _ _ _ _ _ Hok Hst) as Hok'.
  destruct (copy_to_block_ok (set_storage st' s) bs _ b (p `mod` BLOCK_SIZE) src chunk
    Hok' Hb) as (st2 & Hcopy & Hst2); [lia..|].
  eexists. split; [done|]. exists st2. split; [done|]. eapply stored_app; [|done|].
  - fold bytes. rewrite length_take. lia.
  - replace (off + length x)%nat with (Z.to_nat BLOCK_SIZE *
      Z.to_nat (p `div` BLOCK_SIZE) + Z.to_nat (p `mod` BLOCK_SIZE))%nat by lia. done.
Qed.

Lemma written_to_nil off : written_to s off [].
Proof.
  exists s.(storage). split; [by destruct s|].
  apply stored_nil, inode_blocks_ok with i; done.
Qed.

Lemma write_loop ws buffer :
  0 ≤ ws ≤ Z.of_nat (length bytes) → ws ≤ Z.of_nat (length buffer) →
  ∃ s', iter (S (Z.to_nat MAX_BLOCKS_PER_FILE)) (write_file_step (Z.of_nat i) buffer ws)
          (0, 0, s) = Ok (ws, s') ∧
    written_to s' 0 (take (Z.to_nat ws) buffer).
Proof.
  intros Hws Hbuf. pose proof loop_capacity as [Hcap Hlen].
  destruct (iter_inv (λ '(j, w, s'), 0 ≤ j ≤ 4 ∧ w = Z.min (j * BLOCK_SIZE) ws ∧
      written_to s' 0 (take (Z.to_nat w) buffer))
    (λ '(w, s'), w = ws ∧ written_to s' 0 (take (Z.to_nat ws) buffer))
    (λ '(j, _, _), Z.to_nat (4 - j))
    (write_file_step (Z.of_nat i) buffer ws) (S (Z.to_nat MAX_BLOCKS_PER_FILE)) (0, 0, s))
    as ([w s'] & -> & -> & Hw); [|lia| |by exists s'].
  { split; [lia|]. split; [lia|]. rewrite take_0. apply written_to_nil. }
  intros [[j w] s'] (Hj & Hw & Hst). unfold write_file_step.
  destruct (Z.ltb_spec j 4) as [Hj4|Hj4]; simpl.
  2:{ right. eexists. split; [done|]. assert (w = ws) as -> by lia. done. }
  destruct (Z.ltb_spec w ws) as [Hlt|Hge].
  2:{ right. eexists. split; [done|]. assert (w = ws) as -> by lia. done. }
  left. assert (w = j * BLOCK_SIZE) as Hwj by lia.
  destruct (block_at w) as (b & Hb & Hb0 & Hb1 & Hb32 & Hget); [lia|].
  replace (w `div` BLOCK_SIZE) with j in Hget by lia.
  assert (get_inode_block s' (Z.of_nat i) j = Ok b) as ->.
  { destruct Hst as (st' & -> & _). done. }
  rewrite bind_ok, Hb32. destruct (Z.eqb_spec b (-1)); [done|]. u32_norm.
  set (chunk := min_macro BLOCK_SIZE (ws - w)).
  assert (chunk = Z.min BLOCK_SIZE (ws - w)) as Hch.
  { subst chunk. unfold min_macro. destruct (Z.ltb_spec BLOCK_SIZE (ws - w)); lia. }
  clearbody chunk.
  destruct (written_to_copy s' 0 (take (Z.to_nat w) buffer) b (drop (Z.to_nat w) buffer)
    chunk w Hst) as (s2 & Hcopy & Hst2);
    [rewrite length_take; lia|lia|done|lia|lia|rewrite length_drop; lia|].
  replace (w `mod` BLOCK_SIZE) with 0 in Hcopy by lia.
  rewrite Hcopy, bind_ok, u32_small by lia. eexists. split; [done|]. split; [|lia].
  split; [lia|]. split; [lia|]. rewrite take_extend in Hst2.
  by replace (Z.to_nat (w + chunk)) with (Z.to_nat w + Z.to_nat chunk)%nat by lia.
Qed.

Lemma append_loop c aps buffer :
  0 ≤ c → 0 ≤ aps → c + aps ≤ Z.of_nat (length bytes) → aps ≤ Z.of_nat (length buffer) →
  ∃ s', iter (2 + Z.to_nat MAX_BLOCKS_PER_FILE)
          (append_step (Z.of_nat i) buffer c aps) (0, s) = Ok (aps, s') ∧
    written_to s' (Z.to_nat c) (take (Z.to_nat aps) buffer).
Proof.
  intros Hc Ha Hend Hbuf. pose proof loop_capacity as [Hcap Hlen].
  destruct (iter_inv (λ '(w, s'), 0 ≤ w ≤ aps ∧
      (w = 0 ∨ (c + w) `mod` BLOCK_SIZE = 0 ∨ w = aps) ∧
      written_to s' (Z.to_nat c) (take (Z.to_nat w) buffer))
    (λ '(w, s'), w = aps ∧ written_to s' (Z.to_nat c) (take (Z.to_nat aps) buffer))
    (λ '(w, _), if bool_decide (w < aps)
                then Z.to_nat (blocks_of (c + aps) - (c + w) `div` BLOCK_SIZE) else 0%nat)
    (append_step (Z.of_nat i) buffer c aps) (2 + Z.to_nat MAX_BLOCKS_PER_FILE) (0, s))
    as ([w s'] & -> & -> & Hw); [| | |by exists s'].
  { split; [lia|]. split; [lia|]. rewrite take_0. apply written_to_nil. }
  { case_bool_decide; unfold blocks_of; lia. }
  intros [w s'] (Hw & Hal & Hst). unfold append_step.
  destruct (Z.ltb_spec w aps) as [Hlt|Hge].
  2:{ right. eexists. split; [done|]. assert (w = aps) as -> by lia. done. }
  left. u32_norm.
  destruct (block_at (c + w)) as (b & Hb & Hb0 & Hb1 & Hb32 & Hget); [lia|].
  assert (get_inode_block s' (Z.of_nat i) ((c + w) `div` BLOCK_SIZE) = Ok b) as ->.
  { destruct Hst as (st' & -> & _). done. }
  rewrite bind_ok, Hb32. destruct (Z.eqb_spec b (-1)); [done|].
  set (chunk := min_macro (BLOCK_SIZE - (c + w) `mod` BLOCK_SIZE) (aps - w)).
  assert (chunk = Z.min (BLOCK_SIZE - (c + w) `mod` BLOCK_SIZE) (aps - w)) as Hch.
  { subst chunk. unfold min_macro.
    destruct (Z.ltb_spec (BLOCK_SIZE - (c + w) `mod` BLOCK_SIZE) (aps - w)); lia. }
  clearbody chunk.
  destruct (written_to_copy s' (Z.to_nat c) (take (Z.to_nat w) buffer) b
    (drop (Z.to_nat w) buffer) chunk (c + w) Hst) as (s2 & -> & Hst2);
    [rewrite length_take; lia|lia|done|lia|lia|rewrite length_drop; lia|].
  rewrite bind_ok, u32_small by lia. eexists. split; [done|]. rewrite take_extend in Hst2.
  replace (Z.to_nat w + Z.to_nat chunk)%nat with (Z.to_nat (w + chunk)) in Hst2 by lia.
  split.
  - split; [lia|]. split; [lia|done].
  - rewrite (bool_decide_eq_true_2 (w < aps)) by done. unfold blocks_of.
    case_bool_decide; lia.
Qed.
End loops.
