(* ===== verification/FsRefine.v ===== *)
(** * The file system refines its specification

    [fs_abs] is the abstraction function; for every operation of the
    interface the code returns the value of the specification, reaches a
    well-formed state, and that state abstracts to the specified one. *)
From S2P Require Import Prelude CString Filesystem FsWf FsSpec FsData FsLoops.

#[local] Ltac Zify.zify_post_hook ::= Z.to_euclidean_division_equations.

(** ** The abstraction function *)

Definition inode_afile (st : list (list Z)) (n : Inode) (x : list Z) : afile :=
  AFile x n.(ino_permissions) (Z.of_nat (length (inode_blocks n)))
    (take (Z.to_nat n.(ino_size)) (blocks_bytes st (inode_blocks n))).

Definition abs_slot (st : list (list Z)) (n : Inode) (d : DirectoryEntry) : option afile :=
  if decide (free_inode n) then None
  else Some (inode_afile st n (name_of d.(de_filename))).

Definition fs_abs (s : fs) : afs :=
  zip_with (abs_slot s.(storage)) s.(inode_table) s.(root_directory).

Lemma fs_abs_lookup s i n d :
  s.(inode_table) !! i = Some n → s.(root_directory) !! i = Some d →
  fs_abs s !! i = Some (abs_slot s.(storage) n d).
Proof. intros Hn Hd. unfold fs_abs. by rewrite lookup_zip_with, Hn, Hd. Qed.

Lemma fs_abs_lookup_inv s i o :
  fs_abs s !! i = Some o → ∃ n d, s.(inode_table) !! i = Some n ∧
    s.(root_directory) !! i = Some d ∧ o = abs_slot s.(storage) n d.
Proof.
  unfold fs_abs. intros H. apply lookup_zip_with_Some in H as (n & d & -> & ? & ?). eauto.
Qed.

(** Every slot has both halves. *)
Lemma slot_entry s i n :
  fs_wf s → s.(inode_table) !! i = Some n →
  ∃ d, s.(root_directory) !! i = Some d ∧ slot_wf i n d.
Proof.
  intros [Hb Hn] Hi. destruct (lookup_lt_is_Some_2 s.(root_directory) i) as [d Hd].
  { rewrite (nw_directory _ Hn), <-(bw_inodes _ Hb). by eapply lookup_lt_Some. }
  exists d. split; [done|]. by eapply nw_slot.
Qed.

Lemma slot_inode s i d :
  fs_wf s → s.(root_directory) !! i = Some d →
  ∃ n, s.(inode_table) !! i = Some n ∧ slot_wf i n d.
Proof.
  intros [Hb Hn] Hd. destruct (lookup_lt_is_Some_2 s.(inode_table) i) as [n Hi].
  { rewrite (bw_inodes _ Hb), <-(nw_directory _ Hn). by eapply lookup_lt_Some. }
  exists n. split; [done|]. by eapply nw_slot.
Qed.

(** An operation on slot [i] leaves the other slots as they were. *)
Lemma fs_abs_update s s' i n' d' :
  s'.(inode_table) = <[i := n']> s.(inode_table) →
  s'.(root_directory) = <[i := d']> s.(root_directory) →
  (∀ k m, k ≠ i → s.(inode_table) !! k = Some m →
     blocks_bytes s'.(storage) (inode_blocks m) = blocks_bytes s.(storage) (inode_blocks m)) →
  fs_abs s' = <[i := abs_slot s'.(storage) n' d']> (fs_abs s).
Proof.
  intros Ht Hd Hk. apply list_eq. intros k. unfold fs_abs at 1.
  rewrite lookup_zip_with, Ht, Hd. destruct (decide (k = i)) as [->|Hne].
  - destruct (decide (i < length s.(inode_table) ∧ i < length s.(root_directory)))%nat as [[H1 H2]|H].
    + rewrite !list_lookup_insert_eq; [done|..]; try done.
      unfold fs_abs. rewrite length_zip_with. lia.
    + rewrite (list_insert_ge (fs_abs s)) by (unfold fs_abs; rewrite length_zip_with; lia).
      rewrite (lookup_ge_None_2 (fs_abs s)) by (unfold fs_abs; rewrite length_zip_with; lia).
      destruct (decide (i < length s.(inode_table)))%nat.
      * rewrite (lookup_ge_None_2 (<[i:=d']> _)) by (rewrite length_insert; lia).
        by destruct (_ !! i).
      * by rewrite (lookup_ge_None_2 (<[i:=n']> _)) by (rewrite length_insert; lia).
  - rewrite !list_lookup_insert_ne by done. unfold fs_abs. rewrite lookup_zip_with.
    destruct (s.(inode_table) !! k) as [m|] eqn:Em; [|done]. simpl.
    destruct (s.(root_directory) !! k) as [d|]; [|done]. simpl. f_equal.
    unfold abs_slot, inode_afile. case_decide; [done|]. by rewrite (Hk k m).
Qed.

(** The directory invariant after an operation on slot [i]. *)
Lemma names_wf_update s s' i n n' d' :
  names_wf s → s.(inode_table) !! i = Some n →
  s'.(inode_table) = <[i := n']> s.(inode_table) →
  s'.(root_directory) = <[i := d']> s.(root_directory) →
  slot_wf i n' d' →
  s'.(sb).(sb_free_inodes) + (if decide (free_inode n) then 1 else 0) =
    s.(sb).(sb_free_inodes) + (if decide (free_inode n') then 1 else 0) →
  names_wf s'.
Proof.
  intros Hwf Hi Ht Hd Hslot Hfree. split; rewrite ?Ht, ?Hd.
  - rewrite length_insert. apply Hwf.
  - intros k m d [(<- & <- & _)|[Hne Hk]]%list_lookup_insert_Some.
    + intros [(_ & <- & _)|[? _]]%list_lookup_insert_Some; done.
    + rewrite list_lookup_insert_ne by done. by apply (nw_slot _ Hwf).
  - pose proof (nw_free _ Hwf) as Hf.
    pose proof (filter_insert_count free_inode s.(inode_table) i n n' Hi).
    repeat case_decide; lia.
Qed.

(** ** Looking a name up *)

(** The name in a directory entry is shorter than the bound of [strncmp], so
    the comparison decides equality of names. *)
Lemma entry_compare d f x y :
  length d.(de_filename) = Z.to_nat MAX_FILENAME_LEN →
  cstr d.(de_filename) = Some y → cstr f = Some x →
  ∃ r, strncmp d.(de_filename) f MAX_FILENAME_LEN = Ok r ∧ (r = 0 ↔ y = x).
Proof.
  intros Hl Hy Hx. pose proof (cstr_length _ _ Hy) as Hly.
  destruct (strncmp_spec _ _ _ _ MAX_FILENAME_LEN Hy Hx) as (r & Hr & Heq); [lia|].
  exists r. split; [done|]. rewrite Heq, (take_ge y) by lia.
  split; [|by intros ->; rewrite take_ge by lia].
  intros E. assert (length x < Z.to_nat MAX_FILENAME_LEN)%nat.
  { pose proof (f_equal length E) as El. rewrite length_take in El. lia. }
  by rewrite take_ge in E by lia.
Qed.

Lemma find_entry_test s f x j :
  fs_wf s → cstr f = Some x → 0 ≤ j < Z.of_nat (Z.to_nat MAX_FILES) →
  ∃ o, fs_abs s !! Z.to_nat j = Some o ∧
    (d ← aget s.(root_directory) j;
     if negb (d.(de_inode_number) =? 0) then
       r ← strncmp d.(de_filename) f MAX_FILENAME_LEN; Ok (r =? 0)
     else Ok false) = Ok (bool_decide (named x o)).
Proof.
  intros Hwf Hx Hj. pose proof Hwf as [Hb Hn].
  destruct (lookup_lt_is_Some_2 s.(inode_table) (Z.to_nat j)) as [n Hi];
    [rewrite (bw_inodes _ Hb); lia|].
  destruct (slot_entry s _ n Hwf Hi) as (d & Hd & [He _ _ Hl Hname]).
  eexists. split; [by apply fs_abs_lookup|].
  rewrite (aget_lookup _ _ _ (proj1 Hj) Hd), bind_ok, He. unfold abs_slot, free_inode.
  case_decide as Hfree.
  - by rewrite Hfree.
  - rewrite (proj2 (Z.eqb_neq _ _) Hfree). simpl.
    destruct (Hname Hfree) as [y Hy]. unfold name_of. rewrite Hy. simpl.
    destruct (entry_compare d f x y Hl Hy Hx) as (r & -> & Hr). simpl. f_equal.
    destruct (Z.eqb_spec r 0) as [E|E]; symmetry;
      [apply bool_decide_eq_true|apply bool_decide_eq_false]; tauto.
Qed.

Lemma find_entry_spec s f x :
  fs_wf s → cstr f = Some x →
  match lookup_name (fs_abs s) x with
  | Some (i, af) => ∃ n d, s.(inode_table) !! i = Some n ∧
      s.(root_directory) !! i = Some d ∧ slot_wf i n d ∧
      n.(ino_number) = Z.of_nat i + 1 ∧ af = inode_afile s.(storage) n x ∧
      name_of d.(de_filename) = x ∧
      find_entry s f = Ok (Some (Z.of_nat i)) ∧ entry_inode s (Z.of_nat i) = Ok (Z.of_nat i)
  | None => find_entry s f = Ok None
  end.
Proof.
  intros Hwf Hx. pose proof Hwf as [Hb Hnm]. unfold lookup_name.
  destruct (list_find (named x) (fs_abs s)) as [[i o]|] eqn:E.
  - apply list_find_Some in E as (Hi & Hnamed & Hleast).
    destruct o as [af|]; [|done].
    destruct (fs_abs_lookup_inv _ _ _ Hi) as (n & d & Hn & Hd & Ho).
    pose proof (nw_slot _ Hnm i n d Hn Hd) as Hslot.
    pose proof Hslot as [He Hnum _ _ _].
    unfold abs_slot in Ho. case_decide as Hfree; [done|]. injection Ho as ->.
    change (name_of d.(de_filename) = x) in Hnamed. destruct Hnum as [?|Hnum]; [done|].
    pose proof (lookup_lt_Some _ _ _ Hn) as Hlt. rewrite (bw_inodes _ Hb) in Hlt.
    exists n, d. split; [done|]. split; [done|]. split; [done|]. split; [done|].
    split; [by rewrite Hnamed|]. split; [done|]. split.
    + apply find_first_some; [lia|..].
      * intros j Hj. destruct (find_entry_test s f x j Hwf Hx) as (o & Ho & ->); [lia|].
        rewrite bool_decide_eq_false_2; [done|]. apply (Hleast _ _ Ho). lia.
      * destruct (find_entry_test s f x (Z.of_nat i) Hwf Hx) as (o & Ho & ->); [lia|].
        rewrite Nat2Z.id, Hi in Ho. injection Ho as <-. by rewrite bool_decide_eq_true_2.
    + unfold entry_inode. rewrite (aget_nat _ _ _ Hd), bind_ok, He, Hnum.
      rewrite u32_small by lia. rewrite i32_small by lia. f_equal. lia.
  - apply list_find_None in E. apply find_first_none. intros j Hj.
    destruct (find_entry_test s f x j Hwf Hx) as (o & Ho & ->); [lia|].
    rewrite bool_decide_eq_false_2; [done|]. by eapply Forall_lookup_1 in E.
Qed.

(** ** The operations, one by one *)

(** The code returned the specified value and reached a well-formed state
    that abstracts to the specified one. *)
Definition refines (r : res (Z * fs)) (spec : Z * afs) : Prop :=
  ∃ s', r = Ok (spec.1, s') ∧ fs_wf s' ∧ fs_abs s' = spec.2.

Lemma refines_same s v : fs_wf s → refines (Ok (v, s)) (v, fs_abs s).
Proof. intros. by exists s. Qed.

Lemma abs_slot_used st n d i :
  n.(ino_number) = Z.of_nat i + 1 →
  abs_slot st n d = Some (inode_afile st n (name_of d.(de_filename))).
Proof. intros Hn. unfold abs_slot, free_inode. rewrite decide_False; [done|lia]. Qed.

Lemma chmod_refines s f x p :
  fs_wf s → cstr f = Some x →
  refines (chmod_file s f p) (spec_chmod (fs_abs s) x p).
Proof.
  intros Hwf Hx. pose proof Hwf as [Hb Hnm]. unfold chmod_file, spec_chmod.
  pose proof (find_entry_spec s f x Hwf Hx) as Hfind.
  destruct (lookup_name (fs_abs s) x) as [[i af]|];
    [|rewrite Hfind, bind_ok; by apply refines_same].
  destruct Hfind as (n & d & Hi & Hd & Hslot & Hnum & -> & Hname & -> & Hent).
  rewrite bind_ok, Hent, bind_ok. erewrite (upd_inode_ok s i n) by done. rewrite bind_ok.
  set (n' := set_ino_permissions _ n). pose proof (bw_inode _ Hb i n Hi) as Hn.
  assert (inode_wf n') as Hn' by (destruct Hn; by split).
  eexists. split; [done|]. split; [split|].
  - by eapply (blocks_wf_same s _ i n n'); try done; apply Hb.
  - eapply (names_wf_update s _ i n n' d); try done.
    + by rewrite (list_insert_id s.(root_directory)).
    + destruct Hslot; by split.
  - rewrite (fs_abs_update s _ i n' d); try done; [|by rewrite (list_insert_id s.(root_directory))].
    by rewrite (abs_slot_used _ n' d i), Hname.
Qed.

(** *** Creation *)

Lemma list_find_free s :
  fs_wf s →
  list_find (λ o : option afile, o = None) (fs_abs s) =
    (λ '(i, n), (i, None)) <$> list_find free_inode s.(inode_table).
Proof.
  intros Hwf. destruct (list_find free_inode s.(inode_table)) as [[i n]|] eqn:E; simpl.
  - apply list_find_Some in E as (Hi & Hf & Hleast). apply list_find_Some.
    destruct (slot_entry s i n Hwf Hi) as (d & Hd & _).
    rewrite (fs_abs_lookup _ _ _ _ Hi Hd). unfold abs_slot at 1. rewrite decide_True by done.
    split_and!; [done|done|]. intros j o Hj Hlt.
    destruct (fs_abs_lookup_inv _ _ _ Hj) as (m & e & Hm & _ & ->).
    unfold abs_slot. rewrite decide_False; [done|]. by eapply Hleast.
  - apply list_find_None in E. apply list_find_None, Forall_lookup_2. intros j o Hj.
    destruct (fs_abs_lookup_inv _ _ _ Hj) as (m & e & Hm & _ & ->).
    unfold abs_slot. rewrite decide_False; [done|]. by eapply Forall_lookup_1 in E.
Qed.

(** The three assignments to the new inode. *)
Lemma create_inode_fields {B} s i n b (k : fs → res B) :
  s.(inode_table) !! i = Some n → (0 < length n.(ino_blocks))%nat → 0 ≤ b < 2 ^ 32 →
  (s ← upd_inode s (Z.of_nat i) (λ n, Ok (set_ino_size 0 n));
   s ← set_inode_block s (Z.of_nat i) 0 (u32 b);
   s ← upd_inode s (Z.of_nat i) (λ n, Ok (set_ino_permissions 7 n)); k s) =
  (s ← Ok (set_inode_table (<[i := MkInode n.(ino_number) 0
            (<[0%nat := b]> n.(ino_blocks)) 7]> s.(inode_table)) s); k s).
Proof.
  intros Hi Hl Hb. pose proof (lookup_lt_Some _ _ _ Hi) as Hilt.
  rewrite (upd_inode_ok s i n _ (set_ino_size 0 n)), bind_ok by done.
  rewrite (u32_small b) by lia.
  pose proof (set_inode_block_ok (set_inode_table (<[i:=set_ino_size 0 n]> (inode_table s)) s)
    i (set_ino_size 0 n) 0 b) as Hset. change (Z.of_nat 0) with 0 in Hset.
  rewrite Hset, bind_ok by (done || by apply list_lookup_insert_eq). simpl.
  erewrite (upd_inode_ok _ i (set_ino_blocks (<[0%nat:=b]> n.(ino_blocks)) (set_ino_size 0 n)));
    [|apply list_lookup_insert_eq; by rewrite length_insert|done].
  rewrite !bind_ok. unfold set_inode_table. simpl. by rewrite !list_insert_insert_eq.
Qed.

(** The inode of a new file: number, size, first block and permissions. *)
Definition new_inode (i : nat) (b : Z) (n : Inode) : Inode :=
  MkInode (Z.of_nat i + 1) 0 (<[0%nat := b]> n.(ino_blocks)) 7.

Lemma new_inode_wf i b n :
  inode_wf n → inode_blocks n = [] → 0 ≤ b < BLOCK_COUNT →
  inode_wf (new_inode i b n) ∧ inode_blocks (new_inode i b n) = [b].
Proof.
  intros Hn Hbs Hb. pose proof (inode_push n b Hn) as Hp. rewrite Hbs in Hp.
  destruct (Hp ltac:(simpl; lia) Hb) as [Hwf Hblocks].
  assert (inode_blocks (new_inode i b n) = [b]) as E by exact Hblocks.
  split; [|done]. destruct Hwf as [Hs Ho _]. split; rewrite E; [|simpl; lia|simpl; lia].
  rewrite Hblocks in Hs. exact Hs.
Qed.

(** Everything [create_file] does before it writes the directory: inode [i]
    is initialised and owns block [b]. *)
(** The scan of the root directory comes to the slot of the allocated inode:
    an entry is free exactly when its inode is. *)
Lemma first_free_slot s i n d :
  fs_wf s → list_find free_inode s.(inode_table) = Some (i, n) →
  s.(root_directory) !! i = Some d → d.(de_inode_number) = 0 →
  find_first (Z.to_nat MAX_FILES) 0
    (λ i, d ← aget s.(root_directory) i; Ok (d.(de_inode_number) =? 0)) =
  Ok (Some (Z.of_nat i)).
Proof.
  intros Hwf Hfind Hd He. pose proof Hwf as [Hb _].
  pose proof Hfind as (Hi & _ & Hleast)%list_find_Some.
  pose proof (lookup_lt_Some _ _ _ Hi) as Hilt. rewrite (bw_inodes _ Hb) in Hilt.
  apply find_first_some; [lia|..].
  - intros j Hj. destruct (lookup_lt_is_Some_2 s.(inode_table) (Z.to_nat j)) as [m Hm];
      [rewrite (bw_inodes _ Hb); lia|]. destruct (slot_entry s _ m Hwf Hm) as (e & Hde & Hse).
    rewrite (aget_lookup _ _ _ (proj1 Hj) Hde), bind_ok, (sw_entry _ _ _ Hse). f_equal.
    apply Z.eqb_neq. apply (Hleast _ _ Hm). lia.
  - rewrite (aget_nat _ _ _ Hd), bind_ok, He. done.
Qed.

Lemma create_prefix s i n d :
  fs_wf s → list_find free_inode s.(inode_table) = Some (i, n) →
  s.(root_directory) !! i = Some d →
  ∃ b s5, 0 ≤ b < BLOCK_COUNT ∧ b ∉ all_blocks s.(inode_table) ∧
    s5.(inode_table) = <[i := new_inode i b n]> s.(inode_table) ∧
    s5.(block_bitmap) = <[Z.to_nat b := 1]> s.(block_bitmap) ∧
    s5.(storage) = s.(storage) ∧
    s5.(sb).(sb_free_blocks) = s.(sb).(sb_free_blocks) - 1 ∧
    s5.(sb).(sb_free_inodes) = s.(sb).(sb_free_inodes) - 1 ∧
    ∀ f, create_file s f =
      (name ← strncpy d.(de_filename) f MAX_FILENAME_LEN;
       t ← aset s.(root_directory) (Z.of_nat i)
             (MkDirectoryEntry name (u32 (Z.of_nat i + 1)));
       Ok (Z.of_nat i, set_root_directory t s5)).
Proof.
  intros Hwf Hfind Hd. pose proof Hwf as [Hb Hnm].
  destruct (allocate_inode_cases s (bw_inodes _ Hb)) as [[Hno _]|(i' & n' & Hf & Hi256 & Hal)].
  { pose proof (proj2 (list_find_None free_inode _) Hno). congruence. }
  rewrite Hfind in Hf. injection Hf as <- <-.
  pose proof Hfind as (Hi & Hfree & Hleast)%list_find_Some.
  pose proof (lookup_lt_Some _ _ _ Hi) as Hilt.
  pose proof (nw_slot _ Hnm i n d Hi Hd) as [He _ Hown _ _].
  assert (inode_blocks n = []) as Hbs by by apply Hown.
  pose proof (bw_inode _ Hb i n Hi) as Hn.
  set (n1 := set_ino_number (Z.of_nat i + 1) n) in *.
  set (s1 := add_free_inodes (-1) (set_inode_table (<[i:=n1]> (inode_table s)) s)) in *.
  assert (inode_wf n1) as Hn1 by (destruct Hn; by split).
  assert (s1.(inode_table) !! i = Some n1) as Hi1 by by apply list_lookup_insert_eq.
  assert (blocks_wf s1) as Hb1.
  { by eapply (blocks_wf_same s _ i n n1); try done; apply Hb. }
  destruct (allocate_block_ok s1 i n1 Hb1 Hi1) as (b & Hbr & Hbnew & Hab).
  { change (inode_blocks n1) with (inode_blocks n). rewrite Hbs. simpl. lia. }
  pose proof (free_inodes_range s i n Hwf Hi Hfree) as Hfi.
  pose proof (blocks_room s1 b Hb1 Hbr Hbnew) as Hroom. simpl in Hroom.
  pose proof (bw_free _ Hb1) as Hfb. simpl in Hfb.
  assert (all_blocks s1.(inode_table) ≡ₚ all_blocks s.(inode_table)) as HP.
  { destruct (all_blocks_insert _ _ _ Hi) as (rest & Hp & Hp').
    change (s1.(inode_table)) with (<[i:=n1]> s.(inode_table)). by rewrite (Hp' n1), Hp. }
  exists b, (MkFs (MkSuperblock s.(sb).(sb_inode_count) s.(sb).(sb_block_count)
    (s.(sb).(sb_free_inodes) - 1) (s.(sb).(sb_free_blocks) - 1) s.(sb).(sb_magic)
    s.(sb).(sb_volume_name)) (<[i := new_inode i b n]> s.(inode_table)) s.(root_directory)
    s.(storage) (<[Z.to_nat b := 1]> s.(block_bitmap))).
  split; [done|]. split; [by rewrite <-HP|]. do 5 (split; [done|]). intros f.
  unfold create_file. rewrite Hal, bind_ok.
  destruct (Z.eqb_spec (Z.of_nat i) (-1)) as [|_]; [lia|].
  rewrite Hab, bind_ok. destruct (Z.eqb_spec b (-1)) as [|_]; [lia|].
  assert (0 < length n1.(ino_blocks))%nat as Hl1
    by (rewrite (iw_slots _ Hn1), length_app, length_replicate; lia).
  rewrite (create_inode_fields _ i n1 b) by (done || lia).
  rewrite bind_ok. cbn [root_directory set_inode_table add_free_blocks set_block_bitmap].
  change (root_directory s1) with s.(root_directory).
  rewrite (first_free_slot s i n d), bind_ok, (aget_nat _ _ _ Hd), bind_ok by (done || congruence).
  destruct (strncpy _ _ _) as [name|]; [|done]. rewrite !bind_ok.
  destruct (aset _ _ _) as [t|]; [|done]. rewrite !bind_ok. do 2 f_equal.
  unfold set_root_directory, set_inode_table, add_free_blocks, set_block_bitmap. simpl.
  rewrite !list_insert_insert_eq, !u32_small by lia. done.
Qed.

Lemma create_full s f :
  fs_wf s → list_find free_inode s.(inode_table) = None → create_file s f = Ok (-1, s).
Proof.
  intros [Hb _] Hno. unfold create_file.
  destruct (allocate_inode_cases s (bw_inodes _ Hb)) as [[_ ->]|(i & n & Hf & _)];
    [done|congruence].
Qed.

Lemma create_refines s f x :
  fs_wf s → cstr f = Some x → Z.of_nat (length x) < MAX_FILENAME_LEN →
  refines (create_file s f) (spec_create (fs_abs s) x).
Proof.
  intros Hwf Hx Hlen. pose proof Hwf as [Hb Hnm]. unfold spec_create.
  rewrite list_find_free by done.
  destruct (list_find free_inode s.(inode_table)) as [[i n]|] eqn:Hfind; simpl.
  2:{ rewrite (create_full s f Hwf Hfind). by apply refines_same. }
  pose proof Hfind as (Hi & Hfree & _)%list_find_Some.
  destruct (slot_entry s i n Hwf Hi) as (d & Hd & [_ _ Hown Hdl _]).
  destruct (create_prefix s i n d Hwf Hfind Hd)
    as (b & s5 & Hbr & Hbnew & Ht & Hm & Hst & Hfb & Hfi & ->).
  pose proof (lookup_lt_Some _ _ _ Hi) as Hilt. rewrite (bw_inodes _ Hb) in Hilt.
  rewrite (strncpy_fits _ _ x), bind_ok by (done || lia).
  rewrite aset_ok by (rewrite (nw_directory _ Hnm); lia). rewrite bind_ok, Nat2Z.id.
  rewrite u32_small by lia. set (d' := MkDirectoryEntry _ _).
  destruct (new_inode_wf i b n (bw_inode _ Hb i n Hi) (proj1 Hown Hfree) Hbr) as [Hn4 Hbs4].
  assert (cstr d'.(de_filename) = Some x) as Hname.
  { apply cstr_prefix_pad; [by apply cstr_inv in Hx as [? _]|lia]. }
  eexists. split; [done|]. split; [split|].
  - eapply (blocks_wf_give s _ i n (new_inode i b n) b); try done.
    by rewrite Hbs4, (proj1 Hown Hfree).
  - eapply (names_wf_update s _ i n (new_inode i b n) d'); try done.
    + split; [done|by right| | |by rewrite Hname].
      * rewrite Hbs4. split; [simpl; lia|done].
      * cbn [d' de_filename]. rewrite !length_app, length_replicate, length_drop. lia.
    + rewrite decide_True by done. rewrite decide_False by (unfold free_inode; simpl; lia).
      simpl. lia.
  - rewrite (fs_abs_update s _ i (new_inode i b n) d'); try done.
    + rewrite (abs_slot_used _ _ d' i) by done. unfold name_of. rewrite Hname.
      unfold inode_afile. rewrite Hbs4. simpl. by rewrite take_0.
    + intros k m _ _. simpl. by rewrite Hst.
Qed.

(** *** Deletion *)

Definition clear_blocks (bm : list Z) (bs : list Z) : list Z :=
  foldl (λ m b, <[Z.to_nat b := 0]> m) bm bs.

Lemma length_clear_blocks bm bs : length (clear_blocks bm bs) = length bm.
Proof.
  revert bm. induction bs as [|b bs IH]; intros bm; [done|]. simpl.
  by rewrite IH, length_insert.
Qed.

Lemma lookup_clear_blocks bm bs b :
  (∀ x, x ∈ bs → 0 ≤ x < Z.of_nat (length bm)) → 0 ≤ b →
  clear_blocks bm bs !! Z.to_nat b = if decide (b ∈ bs) then Some 0 else bm !! Z.to_nat b.
Proof.
  revert bm. induction bs as [|x bs IH]; intros bm Hr Hb; [done|].
  change (clear_blocks bm (x :: bs)) with (clear_blocks (<[Z.to_nat x := 0]> bm) bs).
  rewrite IH; [|intros y Hy; rewrite length_insert; apply Hr; by right|done].
  pose proof (Hr x ltac:(by left)) as Hx.
  destruct (decide (b ∈ bs)) as [H1|H1].
  - by rewrite decide_True by (by right).
  - destruct (decide (b = x)) as [->|Hne].
    + rewrite decide_True by (by left). apply list_lookup_insert_eq. lia.
    + rewrite list_lookup_insert_ne by lia. rewrite decide_False; [done|].
      by intros [?|?]%elem_of_cons.
Qed.

(** The state after [j] turns of the loop of [delete_file]. *)
Definition released (s : fs) (i : nat) (n : Inode) (j : Z) : fs :=
  let k := Z.to_nat j in
  let t := <[i := set_ino_blocks (replicate k U32_MAX ++ drop k n.(ino_blocks)) n]>
             s.(inode_table) in
  let b := s.(sb) in
  MkFs (MkSuperblock b.(sb_inode_count) b.(sb_block_count) b.(sb_free_inodes)
          (b.(sb_free_blocks) + Z.of_nat (length (take k (inode_blocks n))))
          b.(sb_magic) b.(sb_volume_name))
    t s.(root_directory) s.(storage)
    (clear_blocks s.(block_bitmap) (take k (inode_blocks n))).

Lemma drop_max_step k (l : list Z) v :
  l !! k = Some v →
  <[k := U32_MAX]> (replicate k U32_MAX ++ drop k l) =
    replicate (S k) U32_MAX ++ drop (S k) l.
Proof.
  intros Hk. rewrite (drop_S _ _ _ Hk), insert_app_r_alt by (rewrite length_replicate; lia).
  rewrite length_replicate, Nat.sub_diag, replicate_S_end. simpl. by rewrite <-(assoc_L (++)).
Qed.

Lemma released_0 s i n :
  s.(inode_table) !! i = Some n → released s i n 0 = s.
Proof.
  intros Hi. unfold released. rewrite replicate_0, drop_0, take_0. simpl.
  rewrite Z.add_0_r. destruct n; simpl in *. rewrite list_insert_id by done.
  by destruct s as [[] ? ? ? ?].
Qed.

Lemma release_block_step s i n j :
  blocks_wf s → s.(inode_table) !! i = Some n → 0 ≤ j < 4 →
  release_block (Z.of_nat i) j (released s i n j) = Ok (released s i n (j + 1)).
Proof.
  intros Hwf Hi Hj. pose proof (bw_inode _ Hwf i n Hi) as Hn.
  pose proof (lookup_lt_Some _ _ _ Hi) as Hilt.
  set (k := Z.to_nat j). replace (Z.to_nat (j + 1)) with (S k) by lia.
  pose proof (inode_slot n k Hn ltac:(lia)) as Hslot.
  pose proof (lookup_lt_Some _ _ _ Hslot) as Hk.
  set (nk := set_ino_blocks (replicate k U32_MAX ++ drop k n.(ino_blocks)) n).
  assert ((released s i n j).(inode_table) !! i = Some nk) as Hik
    by (simpl; by apply list_lookup_insert_eq).
  unfold release_block, get_inode_block.
  rewrite (aget_nat _ _ _ Hik), bind_ok.
  assert (aget (ino_blocks nk) j = Ok (default U32_MAX (inode_blocks n !! k))) as ->.
  { apply aget_lookup; [lia|]. simpl. fold k. rewrite lookup_app_r by (rewrite length_replicate; lia).
    by rewrite length_replicate, Nat.sub_diag, lookup_drop, Nat.add_0_r. }
  rewrite bind_ok. destruct (inode_blocks n !! k) as [b|] eqn:Eb; simpl.
  - pose proof (block_in_range _ _ _ _ _ Hwf Hi Eb) as Hr. rewrite i32_block by done.
    destruct (Z.eqb_spec b (-1)) as [|_]; [lia|]. simpl.
    unfold set_bitmap. rewrite aset_ok.
    2:{ simpl. rewrite length_clear_blocks, (bw_bitmap_length _ Hwf). lia. }
    simpl. unfold set_inode_block, upd_inode. simpl. fold k nk.
    rewrite (aget_nat _ i nk) by (by apply list_lookup_insert_eq). simpl.
    rewrite aset_ok by (rewrite length_app, length_replicate, length_drop; lia). simpl.
    rewrite aset_ok by (rewrite length_insert; lia). simpl.
    fold k. rewrite (drop_max_step _ _ _ Hslot), Nat2Z.id, list_insert_insert_eq.
    unfold released, set_inode_table, add_free_blocks, set_block_bitmap. simpl.
    replace (Z.to_nat (j + 1)) with (S k) by lia. fold k.
    rewrite (take_S_r _ _ _ Eb). unfold clear_blocks. rewrite foldl_snoc.
    rewrite u32_small; [do 3 f_equal; rewrite length_app; simpl; lia|].
    rewrite (bw_free _ Hwf). rewrite length_take.
    assert (length (inode_blocks n) ≤ length (all_blocks s.(inode_table)))%nat.
    { destruct (all_blocks_insert _ _ _ Hi) as (rest & -> & _). rewrite length_app. lia. }
    pose proof (all_blocks_bound s Hwf). lia.
  - f_equal. unfold released.
    replace (Z.to_nat (j + 1)) with (S k) by lia. fold k.
    apply lookup_ge_None in Eb. rewrite !(take_ge (inode_blocks n)) by lia.
    rewrite <-(drop_max_step _ _ _ Hslot). do 3 f_equal.
    rewrite insert_app_r_alt by (rewrite length_replicate; lia).
    rewrite length_replicate, Nat.sub_diag, (drop_S _ _ _ Hslot).
    done.
Qed.

(** The whole loop. *)
Lemma release_loop s i n :
  blocks_wf s → s.(inode_table) !! i = Some n →
  for_loop (Z.to_nat MAX_BLOCKS_PER_FILE) 0 (release_block (Z.of_nat i)) s =
    Ok (released s i n 4).
Proof.
  intros Hwf Hi.
  apply (for_loop_fun (released s i n)); [by rewrite released_0|].
  intros k Hk. apply release_block_step; [done|done|lia].
Qed.

(** The entry and the inode of a deleted file. *)
Definition no_entry : DirectoryEntry :=
  MkDirectoryEntry (replicate (Z.to_nat MAX_FILENAME_LEN) 0) 0.
Definition no_inode (n : Inode) : Inode :=
  MkInode 0 0 (replicate 4 U32_MAX) n.(ino_permissions).
Definition deleted (s : fs) (i : nat) (n : Inode) : fs :=
  let s' := add_free_inodes 1 (released s i n 4) in
  set_root_directory (<[i := no_entry]> s.(root_directory))
    (set_inode_table (<[i := no_inode n]> s.(inode_table)) s').

Lemma released_all s i n :
  inode_wf n →
  (released s i n 4).(inode_table) =
    <[i := set_ino_blocks (replicate 4 U32_MAX) n]> s.(inode_table).
Proof.
  intros Hn. unfold released. simpl. rewrite (drop_ge n.(ino_blocks)); [done|].
  pose proof (iw_owned _ Hn). rewrite (iw_slots _ Hn), length_app, length_replicate. lia.
Qed.

(** The body of [delete_file] for a file that may be written. *)
Lemma delete_eval s i n d :
  blocks_wf s → s.(inode_table) !! i = Some n → s.(root_directory) !! i = Some d →
  length d.(de_filename) = Z.to_nat MAX_FILENAME_LEN →
  (s ← for_loop (Z.to_nat MAX_BLOCKS_PER_FILE) 0 (release_block (Z.of_nat i)) s;
   s ← upd_inode s (Z.of_nat i) (λ n, Ok (set_ino_number 0 n));
   s ← upd_inode s (Z.of_nat i) (λ n, Ok (set_ino_size 0 n));
   let s := add_free_inodes 1 s in
   d ← aget s.(root_directory) (Z.of_nat i);
   name ← memset d.(de_filename) 0 0 (Z.to_nat MAX_FILENAME_LEN);
   t ← aset s.(root_directory) (Z.of_nat i) (MkDirectoryEntry name 0);
   Ok (0, set_root_directory t s)) = Ok (0, deleted s i n).
Proof.
  intros Hb Hi Hd Hdl. rewrite (release_loop s i n), bind_ok by done.
  pose proof (released_all s i n (bw_inode _ Hb i n Hi)) as Ht1.
  pose proof (lookup_lt_Some _ _ _ Hi) as Hilt.
  set (n1 := set_ino_blocks (replicate 4 U32_MAX) n) in *. set (s1 := released s i n 4) in *.
  assert (s1.(inode_table) !! i = Some n1) as Hi1 by (rewrite Ht1; by apply list_lookup_insert_eq).
  rewrite (upd_inode_ok s1 i n1 _ (set_ino_number 0 n1)), bind_ok by done.
  set (s2 := set_inode_table _ s1).
  assert (s2.(inode_table) !! i = Some (set_ino_number 0 n1)) as Hi2.
  { apply list_lookup_insert_eq. by rewrite Ht1, length_insert. }
  rewrite (upd_inode_ok s2 i (set_ino_number 0 n1) _ (no_inode n)), bind_ok by done.
  assert (<[i := no_inode n]> s2.(inode_table) = <[i := no_inode n]> s.(inode_table)) as ->.
  { subst s2. cbn [inode_table set_inode_table]. by rewrite Ht1, !list_insert_insert_eq. }
  cbn zeta. match goal with |- context [aget ?t _] => change t with s.(root_directory) end.
  rewrite (aget_nat _ _ _ Hd), bind_ok, memset_all, bind_ok by done.
  pose proof (lookup_lt_Some _ _ _ Hd). by rewrite aset_ok, bind_ok, Nat2Z.id by lia.
Qed.

Lemma deleted_wf s i n :
  fs_wf s → s.(inode_table) !! i = Some n → n.(ino_number) ≠ 0 → fs_wf (deleted s i n).
Proof.
  intros [Hb Hnm] Hi Hnum. pose proof (iw_owned _ (bw_inode _ Hb i n Hi)) as Hown.
  assert (inode_blocks (no_inode n) = []) as Hbs by done.
  assert (∀ b, b ∈ inode_blocks n → 0 ≤ b < BLOCK_COUNT) as Hrange.
  { intros b Hbn. apply (bw_range _ Hb). by eapply elem_of_all_blocks. }
  split.
  - eapply (blocks_wf_release s _ i n (no_inode n)); try done.
    + split; rewrite Hbs; simpl; done || lia.
    + apply length_clear_blocks.
    + intros b Hbr. simpl. rewrite take_ge by lia.
      apply lookup_clear_blocks; [|lia]. rewrite (bw_bitmap_length _ Hb). intros y Hy.
      pose proof (Hrange y Hy). lia.
    + simpl. by rewrite take_ge by lia.
  - eapply (names_wf_update s _ i n (no_inode n)); try done.
    + split; [done|by left|by split|apply length_replicate|by intros []].
    + rewrite decide_False by (unfold free_inode; lia).
      rewrite decide_True by done.
      simpl. rewrite u32_small; [lia|]. pose proof (nw_free _ Hnm) as Hf.
      pose proof (length_filter free_inode s.(inode_table)) as Hle.
      rewrite (bw_inodes _ Hb) in Hle. lia.
Qed.

Lemma delete_refines s f x :
  fs_wf s → cstr f = Some x →
  refines (delete_file s f) (spec_delete (fs_abs s) x).
Proof.
  intros Hwf Hx. unfold delete_file, spec_delete.
  pose proof (find_entry_spec s f x Hwf Hx) as Hfind.
  destruct (lookup_name (fs_abs s) x) as [[i af]|];
    [|rewrite Hfind, bind_ok; by apply refines_same].
  destruct Hfind as (n & d & Hi & Hd & Hslot & Hnum & -> & Hname & -> & Hent).
  rewrite bind_ok, Hent, bind_ok, (aget_nat _ _ _ Hi), bind_ok. cbn [af_perm inode_afile].
  destruct (check_permissions n.(ino_permissions) 1); cbn [negb]; [|by apply refines_same].
  exists (deleted s i n). split.
  { apply (delete_eval s i n d); [apply Hwf|done|done|by eapply sw_name_length]. }
  split; [apply deleted_wf; done || lia|]. by erewrite (fs_abs_update s _ i (no_inode n)).
Qed.

(** *** Reading *)

Lemma read_refines s f x buffer sz :
  fs_wf s → cstr f = Some x → 0 ≤ sz < 2 ^ 32 → sz ≤ Z.of_nat (length buffer) →
  read_file s f buffer sz = Ok (spec_read (fs_abs s) x buffer sz).
Proof.
  intros Hwf Hx Hsz Hbuf. pose proof Hwf as [Hb Hnm]. unfold read_file, spec_read.
  pose proof (find_entry_spec s f x Hwf Hx) as Hfind.
  destruct (lookup_name (fs_abs s) x) as [[i af]|]; [|by rewrite Hfind].
  destruct Hfind as (n & d & Hi & Hd & Hslot & Hnum & -> & Hname & -> & Hent).
  rewrite bind_ok, Hent, bind_ok, (aget_nat _ _ _ Hi), bind_ok.
  cbn [af_perm af_data inode_afile].
  destruct (check_permissions n.(ino_permissions) 0); cbn [negb]; [|done].
  pose proof (bw_inode _ Hb i n Hi) as Hn. pose proof (iw_size _ Hn) as Hsize.
  pose proof (iw_owned _ Hn).
  pose proof (inode_bytes_size s i n Hb Hi) as Hcap.
  set (rs := if sz >? n.(ino_size) then n.(ino_size) else sz).
  assert (rs = Z.min sz n.(ino_size)) as Hrs.
  { subst rs. rewrite Z.gtb_ltb. destruct (Z.ltb_spec n.(ino_size) sz); lia. }
  rewrite (read_loop s i n Hb Hi) by lia. rewrite bind_ok.
  rewrite take_take, i32_small by lia.
  rewrite length_take. do 2 f_equal; [lia|do 2 f_equal; lia].
Qed.

(** *** Writing *)

(** A request for blocks, in the terms of the specification. *)
Lemma request_blocks s i n need :
  blocks_wf s → s.(inode_table) !! i = Some n → 0 < need < 2 ^ 31 →
  let got := granted (Z.of_nat (length (inode_blocks n))) need in
  ∃ s' n' bs, Z.of_nat (length bs) = got ∧
    allocate_blocks s (Z.of_nat i) (u32 need) = Ok (got, s') ∧ grown s s' i n n' bs.
Proof.
  intros Hwf Hi Hneed got. pose proof (iw_owned _ (bw_inode _ Hwf i n Hi)).
  destruct (allocate_blocks_ok s i n (u32 need) Hwf Hi (u32_range _))
    as (s' & n' & bs & Hbs & Hal & Hg).
  rewrite (u32_small need) in * by lia. unfold granted in *.
  exists s', n', bs. split; [lia|]. split; [|done]. rewrite Hal. do 2 f_equal. lia.
Qed.

Definition inode_file (n : Inode) (f : afile) : Prop :=
  f.(af_blocks) = Z.of_nat (length (inode_blocks n)) ∧
  Z.of_nat (length f.(af_data)) = n.(ino_size).

Lemma inode_afile_file s i n x :
  blocks_wf s → s.(inode_table) !! i = Some n →
  inode_file n (inode_afile s.(storage) n x).
Proof.
  intros Hwf Hi. split; [done|]. simpl.
  pose proof (inode_bytes_size s i n Hwf Hi). pose proof (iw_size _ (bw_inode _ Hwf i n Hi)).
  rewrite length_take. lia.
Qed.

Lemma write_size_ok s i n f sz :
  blocks_wf s → s.(inode_table) !! i = Some n → inode_blocks n ≠ [] → inode_file n f →
  0 ≤ sz < 2 ^ 32 →
  ∃ s' n' bs, write_size_of s (Z.of_nat i) sz = Ok (spec_write_size f sz, s') ∧
    grown s s' i n n' bs ∧
    Z.of_nat (length bs) = granted f.(af_blocks) (spec_write_need f sz) ∧
    0 ≤ spec_write_size f sz ≤ BLOCK_SIZE * Z.of_nat (length (inode_blocks n')) ∧
    spec_write_size f sz ≤ sz.
Proof.
  intros Hwf Hi Hne [Hfb Hfs] Hsz. pose proof (bw_inode _ Hwf i n Hi) as Hn.
  pose proof (iw_owned _ Hn) as Hown. pose proof (iw_size _ Hn) as Hsize.
  assert (0 < length (inode_blocks n))%nat as Hpos by (destruct (inode_blocks n); [done|simpl; lia]).
  unfold write_size_of, spec_write_size, spec_write_need. rewrite (aget_nat _ _ _ Hi), bind_ok.
  unfold blocks_of. rewrite Hfs, Hfb.
  assert (min_macro sz (MAX_BLOCKS_PER_FILE * BLOCK_SIZE) =
    Z.min sz (MAX_BLOCKS_PER_FILE * BLOCK_SIZE)) as Hmin.
  { unfold min_macro. destruct (Z.ltb_spec sz (MAX_BLOCKS_PER_FILE * BLOCK_SIZE)); lia. }
  rewrite Hmin. set (want := Z.min sz _) in *.
  assert (0 ≤ want ≤ 16384 ∧ want ≤ sz) as Hwant by lia. u32_norm.
  assert (∀ a, max_macro a 1 = Z.max a 1) as Hmax.
  { intros a. unfold max_macro. rewrite Z.gtb_ltb. destruct (Z.ltb_spec 1 a); lia. }
  rewrite Hmax. set (cur := Z.max ((ino_size n + BLOCK_SIZE - 1) `div` BLOCK_SIZE) 1).
  set (total := (want + BLOCK_SIZE - 1) `div` BLOCK_SIZE).
  assert (1 ≤ cur ≤ Z.of_nat (length (inode_blocks n))) as Hcur by lia.
  assert (0 ≤ total ≤ 4) as Htotal by lia.
  assert (want ≤ total * BLOCK_SIZE) as Hwt by lia.
  assert (0 < total → (total - 1) * BLOCK_SIZE < want) as Htw by lia.
  rewrite i32_small by lia. rewrite Z.gtb_ltb.
  clearbody cur total want. clear Hmax Hmin.
  set (L := Z.of_nat (length (inode_blocks n))) in *.
  destruct (Z.ltb_spec 0 (total - cur)) as [Hneed|Hneed].
  - destruct (request_blocks s i n (total - cur) Hwf Hi ltac:(lia))
      as (s' & n' & bs & Hbs & -> & Hg). fold L in Hbs |- *. rewrite bind_ok.
    exists s', n', bs. rewrite (gr_blocks _ _ _ _ _ _ Hg), length_app.
    destruct (Z.ltb_spec (granted L (total - cur)) (total - cur)) as [Hlt|Hge].
    + rewrite bool_decide_eq_true_2 by done. unfold granted in *.
      rewrite u32_small by lia. split; [done|]. split; [done|]. split; [done|]. lia.
    + rewrite bool_decide_eq_false_2 by lia. unfold granted in *.
      split; [done|]. split; [done|]. split; [done|]. lia.
  - exists s, n, []. assert (granted L (total - cur) = 0) as Hg0 by (unfold granted; lia).
    rewrite Hg0, bool_decide_eq_false_2 by lia. split; [done|].
    split; [by apply grown_refl|]. split; [done|]. fold L. lia.
Qed.

(** The last assignment of a write: the new size.  The file now has the
    blocks of [n1] and the bytes that were stored into them. *)
Lemma store_result s i n d s1 n1 bs s2 off x sz :
  fs_wf s → s.(inode_table) !! i = Some n → s.(root_directory) !! i = Some d →
  n.(ino_number) = Z.of_nat i + 1 →
  grown s s1 i n n1 bs → written_to s1 n1 s2 off x →
  0 ≤ sz ≤ BLOCK_SIZE * Z.of_nat (length (inode_blocks n1)) →
  ∀ g, (∀ m, m.(ino_size) = n.(ino_size) → g m = Ok (set_ino_size sz m)) →
  ∃ s3, upd_inode s2 (Z.of_nat i) g = Ok s3 ∧ fs_wf s3 ∧
    fs_abs s3 = <[i := Some (AFile (name_of d.(de_filename)) n.(ino_permissions)
                    (Z.of_nat (length (inode_blocks n1)))
                    (take (Z.to_nat sz)
                       (splice (blocks_bytes s1.(storage) (inode_blocks n1)) off x)))]>
                  (fs_abs s).
Proof.
  intros Hwf Hi Hd Hnum Hg (st & -> & Hst) Hsz g Hgm. pose proof Hwf as [Hb Hnm].
  pose proof (grown_lookup _ _ _ _ _ _ Hi Hg) as Hi1. pose proof (gr_wf _ _ _ _ _ _ Hg) as Hb1.
  pose proof (bw_inode _ Hb1 i n1 Hi1) as Hn1.
  erewrite (upd_inode_ok (set_storage st s1) i n1)
    by (done || apply Hgm, (gr_size _ _ _ _ _ _ Hg)).
  set (n3 := set_ino_size sz n1).
  assert (inode_wf n3) as Hn3 by (destruct Hn1; by split).
  assert (<[i:=n3]> s1.(inode_table) = <[i:=n3]> s.(inode_table)) as Ht3.
  { rewrite (gr_table _ _ _ _ _ _ Hg). apply list_insert_insert_eq. }
  assert (n3.(ino_number) = Z.of_nat i + 1) as Hnum3
    by (simpl; by rewrite (gr_number _ _ _ _ _ _ Hg)).
  pose proof (nw_slot _ Hnm i n d Hi Hd) as [He _ Hown Hdl Hname].
  assert (names_wf s1) as Hnm1.
  { eapply grown_names; [done|done|exact Hg|]. intros H0. lia. }
  assert (s1.(root_directory) !! i = Some d) as Hd1
    by (by rewrite (gr_directory _ _ _ _ _ _ Hg)).
  pose proof (nw_slot _ Hnm1 i n1 d Hi1 Hd1) as Hslot1.
  eexists. split; [done|]. split; [split|].
  - eapply (blocks_wf_same s1 _ i n1 n3); try done; [apply Hst|apply Hst].
  - eapply (names_wf_update s1 _ i n1 n3 d); try done.
    + by rewrite (list_insert_id s1.(root_directory)).
    + destruct Hslot1; by split.
  - rewrite (fs_abs_update s _ i n3 d).
    + rewrite (abs_slot_used _ n3 d i Hnum3). f_equal. unfold inode_afile. simpl.
      rewrite (gr_permissions _ _ _ _ _ _ Hg). do 3 f_equal. apply (sd_bytes _ _ _ _ _ Hst).
    + exact Ht3.
    + simpl. rewrite (gr_directory _ _ _ _ _ _ Hg). by rewrite (list_insert_id (root_directory s)).
    + intros k m Hk Hm. simpl. rewrite <-(gr_storage _ _ _ _ _ _ Hg).
      apply blocks_bytes_ext. intros b Hbm.
      assert (s1.(inode_table) !! k = Some m) as Hm1
        by (rewrite (gr_table _ _ _ _ _ _ Hg); by rewrite list_lookup_insert_ne by done).
      apply (sd_other _ _ _ _ _ Hst).
      * pose proof (bw_range _ Hb1 b (elem_of_all_blocks _ _ _ _ Hm1 Hbm)). lia.
      * eapply (inode_blocks_disjoint s1 i k n1 m b); done.
Qed.

Lemma write_refines s f x buffer sz :
  fs_wf s → cstr f = Some x → 0 ≤ sz < 2 ^ 32 → sz ≤ Z.of_nat (length buffer) →
  refines (write_file s f buffer sz) (spec_write (fs_abs s) x buffer sz).
Proof.
  intros Hwf Hx Hsz Hbuf. pose proof Hwf as [Hb Hnm]. unfold write_file, spec_write.
  pose proof (find_entry_spec s f x Hwf Hx) as Hfind.
  destruct (lookup_name (fs_abs s) x) as [[i af]|];
    [|rewrite Hfind, bind_ok; by apply refines_same].
  destruct Hfind as (n & d & Hi & Hd & Hslot & Hnum & -> & Hname & -> & Hent).
  rewrite bind_ok, Hent, bind_ok, (aget_nat _ _ _ Hi), bind_ok. cbn [af_perm inode_afile].
  destruct (check_permissions n.(ino_permissions) 1); cbn [negb]; [|by apply refines_same].
  assert (inode_blocks n ≠ []) as Hne by (rewrite <-(sw_owned _ _ _ Hslot); lia).
  destruct (write_size_ok s i n _ sz Hb Hi Hne (inode_afile_file s i n x Hb Hi) Hsz)
    as (s1 & n1 & bs & -> & Hg & Hbs & Hws & Hle).
  rewrite bind_ok. set (ws := spec_write_size _ sz) in *.
  pose proof (grown_lookup _ _ _ _ _ _ Hi Hg) as Hi1. pose proof (gr_wf _ _ _ _ _ _ Hg) as Hb1.
  pose proof (inode_bytes_length s1 i n1 Hb1 Hi1) as Hlen.
  pose proof (iw_owned _ (bw_inode _ Hb1 i n1 Hi1)).
  destruct (write_loop s1 i n1 Hb1 Hi1 ws buffer) as (s2 & -> & Hw); [lia|lia|].
  rewrite bind_ok, u32_small by lia.
  destruct (store_result s i n d s1 n1 bs s2 0 _ ws Hwf Hi Hd Hnum Hg Hw ltac:(lia)
    (λ m, Ok (set_ino_size ws m))) as (s3 & -> & Hwf3 & Habs); [done|].
  rewrite bind_ok, i32_small by lia. exists s3. split; [done|]. split; [done|].
  rewrite Habs, Hname. simpl. do 3 f_equal.
  - rewrite (gr_blocks _ _ _ _ _ _ Hg), length_app. simpl in Hbs. lia.
  - assert (length (take (Z.to_nat ws) buffer) = Z.to_nat ws) as Hl
      by (rewrite length_take; lia).
    rewrite <-Hl at 1. apply (take_splice _ 0). lia.
Qed.

(** *** Appending *)

Lemma append_size_ok s i n f sz :
  blocks_wf s → s.(inode_table) !! i = Some n → inode_blocks n ≠ [] → inode_file n f →
  0 ≤ sz < 2 ^ 32 → n.(ino_size) < MAX_BLOCKS_PER_FILE * BLOCK_SIZE →
  ∃ s' n' bs, append_size_of s (Z.of_nat i) n.(ino_size) sz =
      Ok (spec_append_size f sz, s') ∧
    grown s s' i n n' bs ∧
    Z.of_nat (length bs) = granted f.(af_blocks) (spec_append_need f sz) ∧
    0 ≤ spec_append_size f sz ≤ sz ∧
    n.(ino_size) + spec_append_size f sz ≤ BLOCK_SIZE * Z.of_nat (length (inode_blocks n')).
Proof.
  intros Hwf Hi Hne [Hfb Hfs] Hsz Hsmall. pose proof (bw_inode _ Hwf i n Hi) as Hn.
  pose proof (iw_owned _ Hn) as Hown. pose proof (iw_size _ Hn) as Hsize.
  assert (0 < length (inode_blocks n))%nat as Hpos by (destruct (inode_blocks n); [done|simpl; lia]).
  unfold append_size_of, spec_append_size, spec_append_need, spec_append_want, spec_append_room,
    blocks_of. rewrite Hfs, Hfb.
  set (c := n.(ino_size)) in *. set (L := Z.of_nat (length (inode_blocks n))) in *.
  rewrite (u32_small (_ - c)) by lia.
  assert (min_macro sz (MAX_BLOCKS_PER_FILE * BLOCK_SIZE - c) =
    Z.min sz (MAX_BLOCKS_PER_FILE * BLOCK_SIZE - c)) as ->.
  { unfold min_macro. destruct (Z.ltb_spec sz (MAX_BLOCKS_PER_FILE * BLOCK_SIZE - c)); lia. }
  set (want := Z.min sz _).
  set (room := if bool_decide (c `mod` BLOCK_SIZE = 0 ∧ 0 < c) then 0
               else BLOCK_SIZE - c `mod` BLOCK_SIZE).
  assert ((if (c `mod` BLOCK_SIZE =? 0) && (c >? 0) then 0
           else BLOCK_SIZE - c `mod` BLOCK_SIZE) = room) as ->.
  { subst room. rewrite Z.gtb_ltb.
    destruct (Z.eqb_spec (c `mod` BLOCK_SIZE) 0), (Z.ltb_spec 0 c); simpl;
      case_bool_decide; lia. }
  assert (0 ≤ room ≤ BLOCK_SIZE ∧ c + room ≤ BLOCK_SIZE * L) as Hroom.
  { subst room. case_bool_decide; lia. }
  assert (0 ≤ want ≤ sz ∧ c + want ≤ 16384) as Hwant by lia.
  assert ((if want >? room then want - room else 0) = Z.max 0 (want - room)) as ->.
  { rewrite Z.gtb_ltb. destruct (Z.ltb_spec room want); lia. }
  clearbody want room. u32_norm.
  set (need := (Z.max 0 (want - room) + BLOCK_SIZE - 1) `div` BLOCK_SIZE).
  assert (0 ≤ need ≤ 5 ∧ want ≤ room + need * BLOCK_SIZE ∧
    (0 < need → room + (need - 1) * BLOCK_SIZE < want)) as Hneed by lia.
  clearbody need. rewrite i32_small by lia. rewrite Z.gtb_ltb.
  destruct (Z.ltb_spec 0 need) as [Hpn|Hpn].
  - destruct (request_blocks s i n need Hwf Hi ltac:(lia)) as (s' & n' & bs & Hbs & -> & Hg).
    fold L in Hbs |- *. rewrite bind_ok. exists s', n', bs.
    rewrite (gr_blocks _ _ _ _ _ _ Hg), length_app.
    destruct (Z.ltb_spec (granted L need) need) as [Hlt|Hge].
    + rewrite bool_decide_eq_true_2 by done. unfold granted in *.
      rewrite u32_small by lia. split; [done|]. split; [done|]. split; [done|]. lia.
    + rewrite bool_decide_eq_false_2 by lia. unfold granted in *.
      split; [done|]. split; [done|]. split; [done|]. lia.
  - exists s, n, []. assert (granted L need = 0) as Hg0 by (unfold granted; lia).
    rewrite Hg0, bool_decide_eq_false_2 by lia. split; [done|].
    split; [by apply grown_refl|]. split; [done|]. fold L. lia.
Qed.

Lemma append_refines s f x buffer sz :
  fs_wf s → cstr f = Some x → 0 ≤ sz < 2 ^ 32 → sz ≤ Z.of_nat (length buffer) →
  refines (append_to_file s f buffer sz) (spec_append (fs_abs s) x buffer sz).
Proof.
  intros Hwf Hx Hsz Hbuf. pose proof Hwf as [Hb Hnm]. unfold append_to_file, spec_append.
  pose proof (find_entry_spec s f x Hwf Hx) as Hfind.
  destruct (lookup_name (fs_abs s) x) as [[i af]|];
    [|rewrite Hfind, bind_ok; by apply refines_same].
  destruct Hfind as (n & d & Hi & Hd & Hslot & Hnum & -> & Hname & -> & Hent).
  rewrite bind_ok, Hent, bind_ok, (aget_nat _ _ _ Hi), bind_ok. cbn [af_perm inode_afile].
  destruct (check_permissions n.(ino_permissions) 1); cbn [negb]; [|by apply refines_same].
  pose proof (inode_afile_file s i n x Hb Hi) as Hfile.
  rewrite (proj2 Hfile), Z.geb_leb.
  destruct (Z.leb_spec (MAX_BLOCKS_PER_FILE * BLOCK_SIZE) n.(ino_size)) as [Hfull|Hsmall].
  { rewrite bool_decide_eq_true_2 by lia. by apply refines_same. }
  rewrite bool_decide_eq_false_2 by lia.
  assert (inode_blocks n ≠ []) as Hne by (rewrite <-(sw_owned _ _ _ Hslot); lia).
  destruct (append_size_ok s i n _ sz Hb Hi Hne Hfile Hsz Hsmall)
    as (s1 & n1 & bs & -> & Hg & Hbs & Hws & Hcap).
  rewrite bind_ok. set (k := spec_append_size _ sz) in *. set (c := n.(ino_size)) in *.
  pose proof (iw_size _ (bw_inode _ Hb i n Hi)) as Hsize. fold c in Hsize.
  pose proof (grown_lookup _ _ _ _ _ _ Hi Hg) as Hi1. pose proof (gr_wf _ _ _ _ _ _ Hg) as Hb1.
  pose proof (inode_bytes_length s1 i n1 Hb1 Hi1) as Hlen.
  pose proof (iw_owned _ (bw_inode _ Hb1 i n1 Hi1)).
  destruct (append_loop s1 i n1 Hb1 Hi1 c k buffer) as (s2 & -> & Hw); [lia..|].
  rewrite bind_ok.
  destruct (store_result s i n d s1 n1 bs s2 (Z.to_nat c) _ (c + k) Hwf Hi Hd Hnum Hg Hw
    ltac:(lia) (λ m, Ok (set_ino_size (u32 (m.(ino_size) + k)) m)))
    as (s3 & -> & Hwf3 & Habs).
  { intros m Hm. rewrite Hm. fold c. by rewrite u32_small by lia. }
  rewrite bind_ok, i32_small by lia. exists s3. split; [done|]. split; [done|].
  rewrite Habs, Hname. simpl. fold c. do 3 f_equal.
  - rewrite (gr_blocks _ _ _ _ _ _ Hg), length_app. simpl in Hbs. lia.
  - assert (length (take (Z.to_nat k) buffer) = Z.to_nat k) as Hl
      by (rewrite length_take; lia).
    replace (Z.to_nat (c + k)) with (Z.to_nat c + length (take (Z.to_nat k) buffer))%nat by lia.
    rewrite take_splice by lia. f_equal.
    rewrite (gr_blocks _ _ _ _ _ _ Hg), (gr_storage _ _ _ _ _ _ Hg), blocks_bytes_app.
    rewrite take_app_le; [done|]. rewrite (inode_bytes_length s i n Hb Hi). lia.
Qed.
