(* ===== verification/FsProps.v ===== *)
(** * Theorems about the file system

    Everything here is about the functions of [filesystem.c] themselves; the
    specification only appears where a theorem says that the code meets it. *)
From S2P Require Import Prelude CString Filesystem FsWf FsSpec FsData FsLoops FsRefine.

#[local] Ltac Zify.zify_post_hook ::= Z.to_euclidean_division_equations.

(** ** Formatting *)

(** The arrays have the dimensions of their declarations. *)
Record fs_shape (s : fs) : Prop := {
  sh_volume : length s.(sb).(sb_volume_name) = 16%nat;
  sh_inodes : length s.(inode_table) = Z.to_nat MAX_FILES;
  sh_slots : Forall (λ n, length n.(ino_blocks) = Z.to_nat MAX_BLOCKS_PER_FILE) s.(inode_table);
  sh_directory : length s.(root_directory) = Z.to_nat MAX_FILES;
  sh_names : Forall (λ d, length d.(de_filename) = Z.to_nat MAX_FILENAME_LEN) s.(root_directory);
  sh_storage : length s.(storage) = Z.to_nat BLOCK_COUNT;
  sh_rows : Forall (λ r, length r = Z.to_nat BLOCK_SIZE) s.(storage);
  sh_bitmap : length s.(block_bitmap) = Z.to_nat BLOCK_COUNT;
}.

(** The zero-initialised globals the kernel boots with. *)
Definition boot_fs : fs :=
  MkFs (MkSuperblock 0 0 0 0 0 (replicate 16 0))
    (replicate (Z.to_nat MAX_FILES) (MkInode 0 0 (replicate 4 0) 0))
    (replicate (Z.to_nat MAX_FILES)
       (MkDirectoryEntry (replicate (Z.to_nat MAX_FILENAME_LEN) 0) 0))
    (replicate (Z.to_nat BLOCK_COUNT) (replicate (Z.to_nat BLOCK_SIZE) 0))
    (replicate (Z.to_nat BLOCK_COUNT) 0).

Lemma boot_fs_shape : fs_shape boot_fs.
Proof.
  split; unfold boot_fs; cbn [sb sb_volume_name inode_table root_directory storage block_bitmap];
    try apply length_replicate; apply Forall_replicate; apply length_replicate.
Qed.

(** A loop that rewrites every element of an array in place. *)
Lemma for_loop_map {A} (f : A → A) (l : list A) body n :
  length l = n →
  (∀ i t x, 0 ≤ i → t !! Z.to_nat i = Some x →
     body i t = Ok (<[Z.to_nat i := f x]> t)) →
  for_loop n 0 body l = Ok (f <$> l).
Proof.
  intros Hl Hbody.
  rewrite (for_loop_fun (λ k, (f <$> take (Z.to_nat k) l) ++ drop (Z.to_nat k) l)).
  - rewrite Z.add_0_l, Nat2Z.id, take_ge, drop_ge, app_nil_r by lia. done.
  - by rewrite take_0, drop_0.
  - intros k Hk. destruct (lookup_lt_is_Some_2 l (Z.to_nat k)) as [x Hx]; [lia|].
    rewrite (drop_S _ _ _ Hx), (Hbody _ _ x); [|lia|].
    + rewrite insert_app_r_alt by (rewrite length_fmap, length_take; lia).
      rewrite length_fmap, length_take, Nat.min_l, Nat.sub_diag by lia. simpl.
      replace (Z.to_nat (k + 1)) with (S (Z.to_nat k)) by lia.
      rewrite (take_S_r _ _ _ Hx), fmap_app. simpl. by rewrite <-(assoc_L (++)).
    + rewrite lookup_app_r by (rewrite length_fmap, length_take; lia).
      by rewrite length_fmap, length_take, Nat.min_l, Nat.sub_diag by lia.
Qed.

Lemma format_disk_result s :
  fs_shape s →
  ∃ name, format_disk s = Ok (MkFs
    (MkSuperblock MAX_FILES BLOCK_COUNT MAX_FILES BLOCK_COUNT 61267 name)
    ((λ n, MkInode 0 0 (memset_u32 n.(ino_blocks) (-1)) n.(ino_permissions)) <$> s.(inode_table))
    ((λ d, MkDirectoryEntry d.(de_filename) 0) <$> s.(root_directory))
    s.(storage) ((λ _, 0) <$> s.(block_bitmap))).
Proof.
  intros []. unfold format_disk.
  rewrite (strncpy_fits _ _ [65; 112; 110; 97; 70; 83]) by (done || (simpl; lia)).
  rewrite bind_ok. rewrite aset_ok
    by (rewrite !length_app, length_replicate, length_drop; simpl; lia).
  rewrite bind_ok.
  rewrite (for_loop_map (λ n, MkInode 0 0 (memset_u32 n.(ino_blocks) (-1)) n.(ino_permissions)))
    by (done || (intros i t x Hi Hx; rewrite (aget_lookup _ _ _ Hi Hx), bind_ok;
                 apply lookup_lt_Some in Hx; apply aset_ok; lia)).
  rewrite bind_ok, (for_loop_map (λ d, MkDirectoryEntry d.(de_filename) 0))
    by (done || (intros i t x Hi Hx; rewrite (aget_lookup _ _ _ Hi Hx), bind_ok;
                 apply lookup_lt_Some in Hx; apply aset_ok; lia)).
  rewrite bind_ok, (for_loop_map (λ _, 0))
    by (done || (intros i t x Hi Hx; apply lookup_lt_Some in Hx; apply aset_ok; lia)).
  by eexists.
Qed.

(** The disk [format_disk] leaves: no inode is used, no block is marked. *)
Definition blank_inodes (l : list Inode) : list Inode :=
  (λ n, MkInode 0 0 (memset_u32 n.(ino_blocks) (-1)) n.(ino_permissions)) <$> l.
Definition blank (s : fs) (name : list Z) : fs :=
  MkFs (MkSuperblock MAX_FILES BLOCK_COUNT MAX_FILES BLOCK_COUNT 61267 name)
    (blank_inodes s.(inode_table)) ((λ d, MkDirectoryEntry d.(de_filename) 0) <$> s.(root_directory))
    s.(storage) ((λ _, 0) <$> s.(block_bitmap)).

Section blank.
Context (s : fs) (Hs : fs_shape s) (name : list Z).

Lemma blank_inode i n :
  blank_inodes s.(inode_table) !! i = Some n →
  n.(ino_number) = 0 ∧ n.(ino_size) = 0 ∧ inode_blocks n = [] ∧
  n.(ino_blocks) = replicate 4 U32_MAX.
Proof.
  intros (m & -> & Hm)%list_lookup_fmap_Some.
  pose proof (Forall_lookup_1 _ _ _ _ (sh_slots _ Hs) Hm) as Hl. simpl.
  assert (memset_u32 m.(ino_blocks) (-1) = replicate 4 U32_MAX) as Hms.
  { rewrite memset_u32_replicate, Hl. done. }
  split_and!; try done. apply (inode_blocks_shape _ []); [exact Hms|apply not_elem_of_nil].
Qed.

Lemma blank_blocks : all_blocks (blank_inodes s.(inode_table)) = [].
Proof.
  unfold all_blocks.
  assert (∀ n, n ∈ blank_inodes s.(inode_table) → inode_blocks n = []) as H.
  { intros n [i Hi]%list_elem_of_lookup. by apply (blank_inode i n). }
  induction (blank_inodes s.(inode_table)) as [|n l IH]; [done|].
  change ((n :: l) ≫= inode_blocks) with (inode_blocks n ++ (l ≫= inode_blocks)).
  rewrite H by (by left). apply IH. intros m Hm. apply H. by right.
Qed.

Lemma blank_blocks_wf : blocks_wf (blank s name).
Proof.
  split; cbn [blank sb inode_table root_directory storage block_bitmap sb_free_blocks];
    rewrite ?blank_blocks; try done.
  - unfold blank_inodes. rewrite length_fmap. apply Hs.
  - rewrite length_fmap. apply Hs.
  - apply Hs.
  - intros b r Hr. by apply (Forall_lookup_1 _ _ _ _ (sh_rows _ Hs) Hr).
  - intros i n Hn. destruct (blank_inode i n Hn) as (_ & H2 & H3 & H4).
    split; rewrite H3; [done|simpl; lia|simpl; lia].
  - apply NoDup_nil_2.
  - intros b Hb. by apply not_elem_of_nil in Hb.
  - intros b Hb. rewrite list_lookup_fmap.
    destruct (lookup_lt_is_Some_2 s.(block_bitmap) (Z.to_nat b)) as [v ->]; [destruct Hs; lia|].
    rewrite decide_False by apply not_elem_of_nil. done.
Qed.

Lemma blank_names_wf : names_wf (blank s name).
Proof.
  split; cbn [blank sb inode_table root_directory sb_free_inodes].
  - rewrite length_fmap. apply Hs.
  - intros i n d Hn Hd. destruct (blank_inode i n Hn) as (H1 & _ & H3 & _).
    apply list_lookup_fmap_Some in Hd as (e & -> & He).
    split; cbn [de_inode_number de_filename]; rewrite ?H1, ?H3; try done; [by left|].
    by apply (Forall_lookup_1 _ _ _ _ (sh_names _ Hs) He).
  - rewrite list_filter_all.
    + unfold blank_inodes. rewrite length_fmap. destruct Hs. lia.
    + apply Forall_lookup_2. intros i n Hn. by apply (blank_inode i n).
Qed.

Lemma blank_abs : fs_abs (blank s name) = replicate (Z.to_nat MAX_FILES) None.
Proof.
  destruct Hs. apply list_eq. intros i. unfold fs_abs. rewrite lookup_zip_with.
  cbn [blank inode_table root_directory storage]. set (t := blank_inodes s.(inode_table)).
  assert (length t = length s.(inode_table)) as Hlt by apply length_fmap.
  destruct (decide (i < Z.to_nat MAX_FILES)%nat) as [Hi|Hge].
  - destruct (lookup_lt_is_Some_2 t i) as [n Hn]; [lia|].
    destruct (lookup_lt_is_Some_2 s.(root_directory) i) as [d Hd]; [lia|].
    rewrite Hn, list_lookup_fmap, Hd, lookup_replicate_2 by done. simpl.
    unfold abs_slot. rewrite decide_True; [done|]. by apply (blank_inode i n).
  - rewrite (lookup_ge_None_2 t) by lia.
    by rewrite (lookup_ge_None_2 (replicate _ _)) by (rewrite length_replicate; lia).
Qed.
End blank.

Lemma format_disk_wf s :
  fs_shape s →
  ∃ s', format_disk s = Ok s' ∧ fs_wf s' ∧ fs_abs s' = replicate (Z.to_nat MAX_FILES) None.
Proof.
  intros Hs. destruct (format_disk_result s Hs) as [name Hf]. exists (blank s name).
  split; [exact Hf|]. split; [|by apply blank_abs].
  split; [by apply blank_blocks_wf|by apply blank_names_wf].
Qed.

(** ** Runs *)

(** A sequence of operations with what each of them returns. *)
Fixpoint fs_run (s : fs) (cs : list fs_cmd) : res (list (Z * list Z) * fs) :=
  match cs with
  | [] => Ok ([], s)
  | c :: cs =>
      '(o, s) ← fs_exec s c; '(os, s) ← fs_run s cs; Ok (o :: os, s)
  end.

Fixpoint spec_run (a : afs) (cs : list fs_cmd) : list (Z * list Z) * afs :=
  match cs with
  | [] => ([], a)
  | c :: cs =>
      let '(o, a) := spec_exec a c in let '(os, a) := spec_run a cs in (o :: os, a)
  end.

Lemma refines_exec (r : res (Z * fs)) (sp : Z * afs) :
  refines r sp →
  ∃ s', ('(v, s) ← r; Ok (v, @nil Z, s)) = Ok ((let '(v, a) := sp in (v, [], a)).1, s') ∧
    fs_wf s' ∧ fs_abs s' = (let '(v, a) := sp in (v, @nil Z, a)).2.
Proof. intros (s' & -> & ? & Ha). destruct sp. by exists s'. Qed.

Lemma fs_exec_step s c :
  fs_wf s → cmd_ok c →
  ∃ s', fs_exec s c = Ok ((spec_exec (fs_abs s) c).1, s') ∧ fs_wf s' ∧
        fs_abs s' = (spec_exec (fs_abs s) c).2.
Proof.
  intros Hwf Hc. assert (∀ f x, cstr f = Some x → name_of f = x) as Hname.
  { intros f x H. unfold name_of. by rewrite H. }
  destruct c as [f|f p|f|f b n|f b n|f b n]; simpl in Hc |- *.
  - destruct Hc as (x & Hx & Hl). rewrite (Hname f x Hx).
    by apply refines_exec, create_refines.
  - destruct Hc as [x Hx]. rewrite (Hname f x Hx). by apply refines_exec, chmod_refines.
  - destruct Hc as [x Hx]. rewrite (Hname f x Hx). by apply refines_exec, delete_refines.
  - destruct Hc as ([x Hx] & ? & ?). rewrite (Hname f x Hx), (read_refines s f x b n) by done.
    exists s. by destruct (spec_read _ _ _ _).
  - destruct Hc as ([x Hx] & ? & ?). rewrite (Hname f x Hx).
    by apply refines_exec, write_refines.
  - destruct Hc as ([x Hx] & ? & ?). rewrite (Hname f x Hx).
    by apply refines_exec, append_refines.
Qed.

Lemma fs_run_step s cs :
  fs_wf s → Forall cmd_ok cs →
  ∃ s', fs_run s cs = Ok ((spec_run (fs_abs s) cs).1, s') ∧ fs_wf s' ∧
        fs_abs s' = (spec_run (fs_abs s) cs).2.
Proof.
  revert s. induction cs as [|c cs IH]; intros s Hwf Hcs; [by exists s|].
  apply Forall_cons in Hcs as [Hc Hcs].
  destruct (fs_exec_step s c Hwf Hc) as (s1 & Hs1 & Hwf1 & Ha1).
  destruct (IH s1 Hwf1 Hcs) as (s2 & Hs2 & Hwf2 & Ha2).
  simpl. rewrite Hs1. destruct (spec_exec (fs_abs s) c) as [o a]. simpl in *. subst a.
  rewrite Hs2. destruct (spec_run (fs_abs s1) cs) as [os a]. simpl in *. by exists s2.
Qed.

(** ** Names in the abstract state *)

Lemma lookup_name_inv a x i f :
  lookup_name a x = Some (i, f) → a !! i = Some (Some f) ∧ f.(af_name) = x.
Proof.
  unfold lookup_name. destruct (list_find (named x) a) as [[j [g|]]|] eqn:E; [|done|done].
  intros [= <- <-]. by apply list_find_Some in E as (? & ? & _).
Qed.

(** Changing a slot that is not named [x], neither before nor after. *)
Lemma lookup_name_insert_ne a i o o' x :
  a !! i = Some o → ¬ named x o → ¬ named x o' →
  lookup_name (<[i := o']> a) x = lookup_name a x.
Proof.
  intros Hi Ho Ho'. unfold lookup_name.
  enough (list_find (named x) (<[i := o']> a) = list_find (named x) a) as -> by done.
  revert i Hi. induction a as [|p a IH]; intros i Hi; [done|].
  destruct i as [|i]; simpl in *.
  - injection Hi as ->. by rewrite !decide_False.
  - case_decide; [done|]. by rewrite IH.
Qed.

(** Changing the contents of the first file named [x]. *)
Lemma lookup_name_insert_eq a i f f' x :
  lookup_name a x = Some (i, f) → f'.(af_name) = x →
  lookup_name (<[i := Some f']> a) x = Some (i, f').
Proof.
  unfold lookup_name. intros H Hf'.
  destruct (list_find (named x) a) as [[j [g|]]|] eqn:E; [|done|done].
  injection H as -> ->. apply list_find_Some in E as (Hi & Hn & Hleast).
  enough (list_find (named x) (<[i := Some f']> a) = Some (i, Some f')) as -> by done.
  apply list_find_Some. split; [|split; [exact Hf'|]].
  - apply list_lookup_insert_eq. by eapply lookup_lt_Some.
  - intros k y Hk Hlt. rewrite list_lookup_insert_ne in Hk by lia. by eapply Hleast.
Qed.

(** A file in a free slot does not hide, and is not hidden, when its name is
    new. *)
Lemma lookup_name_new a i f x :
  a !! i = Some None → f.(af_name) = x → lookup_name a x = None →
  lookup_name (<[i := Some f]> a) x = Some (i, f).
Proof.
  intros Hi Hf. unfold lookup_name.
  destruct (list_find (named x) a) as [[j [g|]]|] eqn:E; [done|..].
  - by apply list_find_Some in E as (_ & [] & _).
  - intros _. apply list_find_None in E.
    enough (list_find (named x) (<[i := Some f]> a) = Some (i, Some f)) as -> by done.
    apply list_find_Some. split; [|split; [exact Hf|]].
    + apply list_lookup_insert_eq. by eapply lookup_lt_Some.
    + intros k y Hk Hlt. rewrite list_lookup_insert_ne in Hk by lia.
      by eapply Forall_lookup_1 in E.
Qed.

(** ** Using the refinement lemmas *)

(** The file a successful lookup finds, with the shape of its data. *)
Lemma lookup_name_file s f x i af :
  fs_wf s → cstr f = Some x → lookup_name (fs_abs s) x = Some (i, af) →
  0 ≤ Z.of_nat (length af.(af_data)) ≤ BLOCK_SIZE * af.(af_blocks) ∧
  1 ≤ af.(af_blocks) ≤ MAX_BLOCKS_PER_FILE.
Proof.
  intros Hwf Hx Hl. pose proof Hwf as [Hb Hnm].
  pose proof (find_entry_spec s f x Hwf Hx) as Hf. rewrite Hl in Hf.
  destruct Hf as (n & d & Hi & Hd & Hslot & Hnum & -> & _).
  pose proof (bw_inode _ Hb i n Hi) as Hn. pose proof (iw_size _ Hn).
  pose proof (iw_owned _ Hn).
  destruct (inode_afile_file s i n x Hb Hi) as [E1 E2]. rewrite E1, E2.
  assert (inode_blocks n ≠ []) as Hne by (rewrite <-(sw_owned _ _ _ Hslot); lia).
  destruct (inode_blocks n); [done|]. simpl in *. lia.
Qed.

(** A successful [write_file], in terms of the abstract file. *)
Lemma write_inv s f x data sz r s' :
  fs_wf s → cstr f = Some x → 0 ≤ sz < 2 ^ 32 → sz ≤ Z.of_nat (length data) →
  write_file s f data sz = Ok (r, s') → r ≠ -1 →
  ∃ i af, lookup_name (fs_abs s) x = Some (i, af) ∧
    check_permissions af.(af_perm) 1 = true ∧ r = spec_write_size af sz ∧ fs_wf s' ∧
    lookup_name (fs_abs s') x = Some (i, AFile x af.(af_perm)
      (af.(af_blocks) + granted af.(af_blocks) (spec_write_need af sz))
      (take (Z.to_nat r) data)).
Proof.
  intros Hwf Hx Hsz Hlen Hw Hr.
  destruct (write_refines s f x data sz Hwf Hx Hsz Hlen) as (s1 & Hw1 & Hwf1 & Ha).
  rewrite Hw1 in Hw. injection Hw as <- <-. unfold spec_write in *.
  destruct (lookup_name (fs_abs s) x) as [[i af]|] eqn:E; [|done].
  destruct (check_permissions (af_perm af) 1) eqn:Ep; [|done]. simpl in *.
  pose proof (lookup_name_inv _ _ _ _ E) as [_ Hname].
  exists i, af. split_and!; try done. rewrite Ha, Hname. by eapply lookup_name_insert_eq.
Qed.

Lemma read_of_file s f x i af buffer m :
  fs_wf s → cstr f = Some x → lookup_name (fs_abs s) x = Some (i, af) →
  check_permissions af.(af_perm) 0 = true →
  0 ≤ m < 2 ^ 32 → m ≤ Z.of_nat (length buffer) →
  read_file s f buffer m =
    Ok (Z.min m (Z.of_nat (length af.(af_data))),
        splice buffer 0 (take (Z.to_nat m) af.(af_data))).
Proof.
  intros Hwf Hx Hl Hp Hm Hlen. rewrite (read_refines s f x) by done. unfold spec_read.
  rewrite Hl, Hp, length_take. do 2 f_equal. lia.
Qed.

(** A read of no bytes tells whether reading is allowed. *)
Lemma readable_inv s f x :
  fs_wf s → cstr f = Some x → read_file s f [] 0 = Ok (0, []) →
  ∃ i af, lookup_name (fs_abs s) x = Some (i, af) ∧ check_permissions af.(af_perm) 0 = true.
Proof.
  intros Hwf Hx. rewrite (read_refines s f x) by (done || simpl; lia). unfold spec_read.
  destruct (lookup_name (fs_abs s) x) as [[i af]|]; [|done].
  destruct (check_permissions (af_perm af) 0) eqn:E; [by exists i, af|done].
Qed.

Lemma spec_write_size_bounds af sz :
  0 ≤ Z.of_nat (length af.(af_data)) ≤ BLOCK_SIZE * af.(af_blocks) →
  1 ≤ af.(af_blocks) ≤ MAX_BLOCKS_PER_FILE → 0 ≤ sz →
  0 ≤ spec_write_size af sz ≤ Z.min sz (MAX_BLOCKS_PER_FILE * BLOCK_SIZE).
Proof.
  intros Hd Hb Hsz. unfold spec_write_size, spec_write_need, granted, blocks_of.
  case_bool_decide; lia.
Qed.

(** C3: the whole file system refines its specification.  From a freshly
    formatted disk, any sequence of calls with valid arguments runs without
    leaving an array or exhausting a loop, returns exactly the values (and
    read buffers) of the specification, and ends in a well-formed state that
    abstracts to the specified one. *)
Theorem fs_runs_refine s cs :
  fs_shape s → Forall cmd_ok cs →
  ∃ s0 s', create_file_system s = Ok s0 ∧
    let spec := spec_run (replicate (Z.to_nat MAX_FILES) None) cs in
    fs_run s0 cs = Ok (spec.1, s') ∧ fs_wf s' ∧ fs_abs s' = spec.2.
Proof.
  intros Hs Hcs. destruct (format_disk_wf s Hs) as (s0 & Hf & Hwf & Ha).
  destruct (fs_run_step s0 cs Hwf Hcs) as (s' & Hr & Hwf' & Ha').
  exists s0, s'. rewrite <-Ha. by split_and!.
Qed.

(** The bytes of ["a"] and of ["b"], as C strings. *)
Definition name_a : list Z := [97; 0].
Definition name_b : list Z := [98; 0].

Definition demo_cmds : list fs_cmd :=
  [Create name_a; Write name_a [1; 2; 3] 3; Append name_a [4] 1;
   Read name_a [0; 0; 0; 0; 0] 5; Chmod name_a 4; Delete name_a; Delete name_b].

Lemma demo_cmds_ok : Forall cmd_ok demo_cmds.
Proof.
  repeat constructor; simpl; try lia; try (eexists; reflexivity).
  exists [97]. split; [reflexivity|simpl; lia].
Qed.

Lemma fs_runs_refine_witness :
  ∃ s0 s', create_file_system boot_fs = Ok s0 ∧
    let spec := spec_run (replicate (Z.to_nat MAX_FILES) None) demo_cmds in
    fs_run s0 demo_cmds = Ok (spec.1, s') ∧ fs_wf s' ∧ fs_abs s' = spec.2.
Proof. apply (fs_runs_refine boot_fs demo_cmds); [apply boot_fs_shape|apply demo_cmds_ok]. Defined.

(** What the specification says about that sequence. *)
Example demo_cmds_values :
  (spec_run (replicate (Z.to_nat MAX_FILES) None) demo_cmds).1 =
    [(0, []); (3, []); (1, []); (4, [1; 2; 3; 4; 0]); (0, []); (-1, []); (-1, [])].
Proof. vm_compute. reflexivity. Qed.
