(* ===== verification/FsTheorems.v ===== *)
(** * What a user of the file system may rely on

    Theorems about sequences of calls of [filesystem.c] in any well-formed
    state: what is written can be read back, other files are not touched,
    permissions are respected, the counters of the superblock are exact; and
    two places where the code does less than it means to.  The witnesses run
    the calls from a freshly formatted disk. *)
From S2P Require Import Prelude CString Filesystem FsWf FsSpec FsData FsLoops FsRefine FsProps.

#[local] Ltac Zify.zify_post_hook ::= Z.to_euclidean_division_equations.

(** ** Concrete states for the witnesses *)

(** The state after formatting the zeroed globals and running [cs]. *)
Definition booted (cs : list fs_cmd) : res (list (Z * list Z) * fs) :=
  s ← create_file_system boot_fs; fs_run s cs.

Definition demo (cs : list fs_cmd) : fs :=
  match booted cs with Ok (_, s) => s | Err _ => boot_fs end.

Definition demo_abs (cs : list fs_cmd) : afs :=
  (spec_run (replicate (Z.to_nat MAX_FILES) None) cs).2.

Lemma demo_ok cs : Forall cmd_ok cs → fs_wf (demo cs) ∧ fs_abs (demo cs) = demo_abs cs.
Proof.
  intros Hcs. unfold demo, booted, demo_abs, create_file_system.
  destruct (format_disk_wf boot_fs boot_fs_shape) as (s0 & -> & Hwf & Ha).
  destruct (fs_run_step s0 cs Hwf Hcs) as (s' & Hr & Hwf' & Ha').
  rewrite bind_ok, Hr, <-Ha. done.
Qed.

#[global] Opaque demo.

Lemma create_cmd_ok f x : cstr f = Some x → (length x <? 255)%nat = true → cmd_ok (Create f).
Proof. intros Hx Hl%Nat.ltb_lt. exists x. split; [done|lia]. Qed.

Ltac cmds_ok :=
  repeat (apply Forall_cons_2; [first
    [ eapply create_cmd_ok; reflexivity
    | hnf; split; [eexists; reflexivity|clear; rewrite ?length_replicate; simpl; lia]
    | hnf; eexists; reflexivity ]|]); apply Forall_nil_2.

Lemma cstr_name_a : cstr name_a = Some [97].
Proof. done. Qed.
Lemma cstr_name_b : cstr name_b = Some [98].
Proof. done. Qed.

(** Bounds on numerals; [lia] does not have to look at the state. *)
Ltac num := clear; rewrite ?length_replicate; simpl; lia.

(** ** Writing and reading *)

(** C4: what is written can be read back.  After a successful [write_file] of
    a readable file, [read_file] returns as many of the written bytes as were
    stored and asked for, and puts exactly these into the buffer. *)
Theorem write_then_read s s' f x data sz r buffer m :
  fs_wf s → cstr f = Some x → 0 ≤ sz < 2 ^ 32 → sz ≤ Z.of_nat (length data) →
  read_file s f [] 0 = Ok (0, []) →
  write_file s f data sz = Ok (r, s') → r ≠ -1 →
  0 ≤ m < 2 ^ 32 → m ≤ Z.of_nat (length buffer) →
  0 ≤ r ≤ Z.min sz (MAX_BLOCKS_PER_FILE * BLOCK_SIZE) ∧
  read_file s' f buffer m =
    Ok (Z.min m r, splice buffer 0 (take (Z.to_nat (Z.min m r)) data)).
Proof.
  intros Hwf Hx Hsz Hlen Hread Hw Hr Hm Hbuf.
  destruct (readable_inv s f x Hwf Hx Hread) as (i & af & Hl & Hp).
  destruct (write_inv s f x data sz r s' Hwf Hx Hsz Hlen Hw Hr)
    as (i' & af' & Hl' & _ & -> & Hwf' & Hl2). rewrite Hl in Hl'. injection Hl' as <- <-.
  destruct (lookup_name_file s f x i af Hwf Hx Hl) as [Hd Hb].
  pose proof (spec_write_size_bounds af sz Hd Hb ltac:(lia)) as Hn. split; [done|].
  rewrite (read_of_file s' f x i _ buffer m Hwf' Hx Hl2 Hp Hm Hbuf). cbn [af_data].
  rewrite take_take, length_take. do 3 f_equal; [lia|do 2 f_equal; lia].
Qed.

Lemma write_then_read_witness :
  ∃ s', write_file (demo [Create name_a]) name_a [5; 6; 7] 3 = Ok (3, s') ∧
    0 ≤ 3 ≤ Z.min 3 (MAX_BLOCKS_PER_FILE * BLOCK_SIZE) ∧
    read_file s' name_a [0; 0; 0; 0] 4 = Ok (3, [5; 6; 7; 0]).
Proof.
  destruct (demo_ok [Create name_a] ltac:(cmds_ok)) as [Hwf Ha].
  destruct (write_refines _ name_a [97] [5; 6; 7] 3 Hwf eq_refl) as (s' & Hw & _ & _);
    [num|num|].
  rewrite Ha in Hw. exists s'. split; [exact Hw|].
  apply (write_then_read (demo [Create name_a]) s' name_a [97] [5; 6; 7] 3 3 [0; 0; 0; 0] 4);
    [exact Hwf|done|num|num| |exact Hw|num|num|num].
  rewrite (read_refines _ _ [97] [] 0 Hwf), Ha by (num || done). reflexivity.
Defined.

(** The bytes of a successful append. *)
Lemma append_inv s f x data sz r s' :
  fs_wf s → cstr f = Some x → 0 ≤ sz < 2 ^ 32 → sz ≤ Z.of_nat (length data) →
  append_to_file s f data sz = Ok (r, s') → r ≠ -1 →
  ∃ i af b, lookup_name (fs_abs s) x = Some (i, af) ∧
    Z.of_nat (length af.(af_data)) < MAX_BLOCKS_PER_FILE * BLOCK_SIZE ∧
    r = spec_append_size af sz ∧ fs_wf s' ∧
    lookup_name (fs_abs s') x = Some (i, AFile x af.(af_perm) b
      (af.(af_data) ++ take (Z.to_nat r) data)).
Proof.
  intros Hwf Hx Hsz Hlen Hw Hr.
  destruct (append_refines s f x data sz Hwf Hx Hsz Hlen) as (s1 & Hw1 & Hwf1 & Ha).
  rewrite Hw1 in Hw. injection Hw as <- <-. unfold spec_append in *.
  destruct (lookup_name (fs_abs s) x) as [[i af]|] eqn:E; [|done].
  destruct (check_permissions (af_perm af) 1); [|done].
  case_bool_decide as Hfull; [done|]. simpl in *.
  pose proof (lookup_name_inv _ _ _ _ E) as [_ Hname].
  eexists i, af, _. split_and!; [done|lia|done|done|]. rewrite Ha, Hname.
  by eapply lookup_name_insert_eq.
Qed.

Lemma spec_append_size_bounds af sz :
  0 ≤ Z.of_nat (length af.(af_data)) ≤ BLOCK_SIZE * af.(af_blocks) →
  1 ≤ af.(af_blocks) ≤ MAX_BLOCKS_PER_FILE → 0 ≤ sz →
  Z.of_nat (length af.(af_data)) < MAX_BLOCKS_PER_FILE * BLOCK_SIZE →
  0 ≤ spec_append_size af sz ≤ sz ∧
  Z.of_nat (length af.(af_data)) + spec_append_size af sz ≤ MAX_BLOCKS_PER_FILE * BLOCK_SIZE.
Proof.
  intros Hd Hb Hsz Hfull.
  unfold spec_append_size, spec_append_need, spec_append_room, spec_append_want,
    granted, blocks_of.
  set (c := Z.of_nat (length (af_data af))) in *.
  do 2 case_bool_decide; lia.
Qed.

(** C5: [append_to_file] keeps the old bytes and puts the new ones behind
    them.  If a read of the whole file gave [k] bytes before, it gives the same
    [k] bytes and then the [r] bytes that the append reports afterwards. *)
Theorem append_then_read s s' f x data sz r old buffer k :
  fs_wf s → cstr f = Some x → 0 ≤ sz < 2 ^ 32 → sz ≤ Z.of_nat (length data) →
  length old = Z.to_nat (MAX_BLOCKS_PER_FILE * BLOCK_SIZE) →
  read_file s f old (MAX_BLOCKS_PER_FILE * BLOCK_SIZE) = Ok (k, buffer) → k ≠ -1 →
  append_to_file s f data sz = Ok (r, s') → r ≠ -1 →
  0 ≤ r ≤ sz ∧ k + r ≤ MAX_BLOCKS_PER_FILE * BLOCK_SIZE ∧
  read_file s' f old (MAX_BLOCKS_PER_FILE * BLOCK_SIZE) =
    Ok (k + r, splice old 0 (take (Z.to_nat k) buffer ++ take (Z.to_nat r) data)).
Proof.
  intros Hwf Hx Hsz Hlen Hold Hread Hk Hw Hr.
  destruct (append_inv s f x data sz r s' Hwf Hx Hsz Hlen Hw Hr)
    as (i & af & b & Hl & Hfull & -> & Hwf' & Hl').
  destruct (lookup_name_file s f x i af Hwf Hx Hl) as [Hd Hb].
  pose proof (spec_append_size_bounds af sz Hd Hb ltac:(lia) Hfull) as (Hn & Htot).
  rewrite (read_refines s f x) in Hread by (done || lia). unfold spec_read in Hread.
  rewrite Hl in Hread. destruct (check_permissions (af_perm af) 0) eqn:Hp; [|by simplify_eq].
  rewrite take_ge in Hread by lia. injection Hread as <- <-.
  split; [done|]. split; [lia|].
  rewrite (read_of_file s' f x i _ old _ Hwf' Hx Hl' Hp) by lia. cbn [af_data].
  set (new := take (Z.to_nat (spec_append_size af sz)) data) in *.
  assert (Z.of_nat (length new) = spec_append_size af sz) as Hnew
    by (subst new; rewrite length_take; lia).
  rewrite (take_ge (_ ++ new)) by (rewrite length_app; lia).
  rewrite length_app, Nat2Z.id. unfold splice at 3. simpl. rewrite take_app_length.
  do 2 f_equal. lia.
Qed.

Lemma append_then_read_witness :
  let s := demo [Create name_a; Write name_a [5; 6] 2] in
  let old := replicate (Z.to_nat (MAX_BLOCKS_PER_FILE * BLOCK_SIZE)) 0 in
  ∃ s', append_to_file s name_a [7] 1 = Ok (1, s') ∧
    0 ≤ 1 ≤ 1 ∧ 2 + 1 ≤ MAX_BLOCKS_PER_FILE * BLOCK_SIZE ∧
    read_file s' name_a old (MAX_BLOCKS_PER_FILE * BLOCK_SIZE) =
      Ok (2 + 1, splice old 0 (take (Z.to_nat 2) (splice old 0 [5; 6]) ++ take (Z.to_nat 1) [7])).
Proof.
  intros s old.
  destruct (demo_ok [Create name_a; Write name_a [5; 6] 2] ltac:(cmds_ok)) as [Hwf Ha].
  fold s in Hwf, Ha.
  destruct (append_refines s name_a [97] [7] 1 Hwf eq_refl) as (s' & Hw & _ & _);
    [num|num|].
  rewrite Ha in Hw. exists s'. split; [exact Hw|].
  assert (length old = Z.to_nat (MAX_BLOCKS_PER_FILE * BLOCK_SIZE)) as Hold
    by apply length_replicate.
  apply (append_then_read s s' name_a [97] [7] 1 1 old (splice old 0 [5; 6]) 2);
    [exact Hwf|done|num|num|exact Hold| |num|exact Hw|num].
  rewrite (read_refines _ _ [97] old _ Hwf), Ha by (num || done). reflexivity.
Defined.

(** ** Frame *)

Definition cmd_name (c : fs_cmd) : list Z :=
  match c with
  | Create f | Chmod f _ | Delete f | Read f _ _ | Write f _ _ | Append f _ _ => f
  end.

Lemma lookup_name_other a i af af' x y :
  lookup_name a x = Some (i, af) → x ≠ y → ¬ named y af' →
  lookup_name (<[i := af']> a) y = lookup_name a y.
Proof.
  intros [Hi Hx]%lookup_name_inv Hne Hn.
  apply (lookup_name_insert_ne _ _ (Some af)); [done|simpl; congruence|done].
Qed.

Lemma spec_exec_frame a c y :
  name_of (cmd_name c) ≠ y → lookup_name (spec_exec a c).2 y = lookup_name a y.
Proof.
  intros Hne. destruct c as [f|f p|f|f b n|f b n|f b n]; simpl in *.
  - unfold spec_create. destruct (list_find _ a) as [[i o]|] eqn:E; [|done]. simpl.
    apply list_find_Some in E as (Hi & -> & _).
    by apply (lookup_name_insert_ne _ _ None); [|intros []|].
  - unfold spec_chmod. destruct (lookup_name a (name_of f)) as [[i af]|] eqn:E; [|done].
    simpl. eapply lookup_name_other; [done..|]. simpl.
    by apply lookup_name_inv in E as [_ ->].
  - unfold spec_delete. destruct (lookup_name a (name_of f)) as [[i af]|] eqn:E; [|done].
    destruct (check_permissions _ _); [|done]. simpl.
    eapply lookup_name_other; [done..|]. by intros [].
  - by destruct (spec_read _ _ _ _).
  - unfold spec_write. destruct (lookup_name a (name_of f)) as [[i af]|] eqn:E; [|done].
    destruct (check_permissions _ _); [|done]. simpl.
    eapply lookup_name_other; [done..|]. simpl. by apply lookup_name_inv in E as [_ ->].
  - unfold spec_append. destruct (lookup_name a (name_of f)) as [[i af]|] eqn:E; [|done].
    destruct (check_permissions _ _); [|done]. case_bool_decide; [done|]. simpl.
    eapply lookup_name_other; [done..|]. simpl. by apply lookup_name_inv in E as [_ ->].
Qed.

(** C6: an operation on one file does not touch another.  Whatever the
    operation does, a read of a file of a different name gives the same
    result before and after it. *)
Theorem other_files_untouched s s' c o g y buffer m :
  fs_wf s → cmd_ok c → fs_exec s c = Ok (o, s') →
  cstr g = Some y → name_of (cmd_name c) ≠ y →
  0 ≤ m < 2 ^ 32 → m ≤ Z.of_nat (length buffer) →
  read_file s' g buffer m = read_file s g buffer m.
Proof.
  intros Hwf Hc He Hg Hne Hm Hb.
  destruct (fs_exec_step s c Hwf Hc) as (s1 & H1 & Hwf1 & Ha1).
  rewrite H1 in He. injection He as _ ->.
  rewrite !(read_refines _ g y) by done. unfold spec_read.
  by rewrite Ha1, spec_exec_frame.
Qed.

Lemma other_files_untouched_witness :
  let s := demo [Create name_a; Write name_a [5; 6] 2; Create name_b] in
  ∃ s', fs_exec s (Write name_b [9; 9; 9] 3) = Ok (3, [], s') ∧
    read_file s' name_a [0; 0] 2 = read_file s name_a [0; 0] 2.
Proof.
  intros s. destruct (demo_ok [Create name_a; Write name_a [5; 6] 2; Create name_b]
    ltac:(cmds_ok)) as [Hwf Ha]. fold s in Hwf, Ha.
  destruct (fs_exec_step s (Write name_b [9; 9; 9] 3) Hwf) as (s' & Hw & _ & _).
  { split; [eexists; reflexivity|num]. }
  rewrite Ha in Hw. exists s'. split; [exact Hw|].
  apply (other_files_untouched s s' _ _ name_a [97] [0; 0] 2 Hwf) with (2 := Hw);
    [|done|done|num|num].
  split; [eexists; reflexivity|num].
Defined.

(** ** Creating files *)

Lemma used_inodes_pos s :
  fs_wf s → s.(sb).(sb_free_inodes) = 0 ↔ list_find free_inode s.(inode_table) = None.
Proof.
  intros [_ Hn]. rewrite (nw_free _ Hn), list_find_None. split.
  - intros Hl. destruct (filter free_inode _) eqn:E; [|simpl in Hl; lia].
    apply Forall_forall. intros n Hn' Hf.
    assert (n ∈ filter free_inode s.(inode_table)) as Hin by by apply list_elem_of_filter.
    rewrite E in Hin. by apply not_elem_of_nil in Hin.
  - intros Hf. by rewrite list_filter_none.
Qed.

(** C7: [create_file] fails exactly when the superblock counts no free inode,
    and then changes nothing.  Otherwise it takes the lowest free inode and
    one block (there always is one), both counters go down by one, and the new
    file, if its name is new, can be read and is empty. *)
Theorem create_file_outcome s f x :
  fs_wf s → cstr f = Some x → Z.of_nat (length x) < MAX_FILENAME_LEN →
  (s.(sb).(sb_free_inodes) = 0 → create_file s f = Ok (-1, s)) ∧
  (s.(sb).(sb_free_inodes) ≠ 0 → ∃ i s', create_file s f = Ok (Z.of_nat i, s') ∧
     fs_wf s' ∧ (∃ n, s.(inode_table) !! i = Some n ∧ n.(ino_number) = 0) ∧
     (∀ j n, (j < i)%nat → s.(inode_table) !! j = Some n → n.(ino_number) ≠ 0) ∧
     s'.(sb).(sb_free_inodes) = s.(sb).(sb_free_inodes) - 1 ∧
     s'.(sb).(sb_free_blocks) = s.(sb).(sb_free_blocks) - 1 ∧
     (lookup_name (fs_abs s) x = None → ∀ buffer m, 0 ≤ m < 2 ^ 32 →
        m ≤ Z.of_nat (length buffer) → read_file s' f buffer m = Ok (0, buffer))).
Proof.
  intros Hwf Hx Hlen. split; intros Hfree.
  { by apply create_full, used_inodes_pos. }
  destruct (list_find free_inode s.(inode_table)) as [[i n]|] eqn:Hfind;
    [|by apply used_inodes_pos in Hfind].
  pose proof Hfind as (Hi & Hf & Hleast)%list_find_Some.
  destruct (slot_entry s i n Hwf Hi) as (d & Hd & _).
  destruct (create_refines s f x Hwf Hx Hlen) as (s' & Hc & Hwf' & Ha').
  unfold spec_create in Hc, Ha'. rewrite (list_find_free s Hwf), Hfind in Hc, Ha'.
  simpl in Hc, Ha'. exists i, s'. split; [done|]. split; [done|]. split; [by exists n|].
  split; [intros j m Hj Hm; by apply (Hleast j m)|].
  destruct (create_prefix s i n d Hwf Hfind Hd)
    as (b & s5 & _ & _ & _ & _ & _ & Hfb & Hfi & Heq).
  specialize (Heq f). rewrite Hc in Heq. symmetry in Heq. apply bind_ok_inv in Heq as (name & _ & Heq).
  apply bind_ok_inv in Heq as (t & _ & Heq). injection Heq as <-.
  split; [done|]. split; [done|]. intros Hnew buffer m Hm Hb.
  assert (fs_abs s !! i = Some None) as Hslot.
  { rewrite (fs_abs_lookup _ _ _ _ Hi Hd). unfold abs_slot. by rewrite decide_True. }
  rewrite (read_refines _ f x) by done. unfold spec_read.
  rewrite Ha', (lookup_name_new _ i (AFile x 7 1 []) x) by done. simpl.
  by rewrite take_nil, splice_nil.
Qed.

Lemma create_file_outcome_witness :
  let s := demo [Create name_a] in
  (s.(sb).(sb_free_inodes) = 0 → create_file s name_b = Ok (-1, s)) ∧
  (s.(sb).(sb_free_inodes) ≠ 0 → ∃ i s', create_file s name_b = Ok (Z.of_nat i, s') ∧
     fs_wf s' ∧ (∃ n, s.(inode_table) !! i = Some n ∧ n.(ino_number) = 0) ∧
     (∀ j n, (j < i)%nat → s.(inode_table) !! j = Some n → n.(ino_number) ≠ 0) ∧
     s'.(sb).(sb_free_inodes) = s.(sb).(sb_free_inodes) - 1 ∧
     s'.(sb).(sb_free_blocks) = s.(sb).(sb_free_blocks) - 1 ∧
     (lookup_name (fs_abs s) [98] = None → ∀ buffer m, 0 ≤ m < 2 ^ 32 →
        m ≤ Z.of_nat (length buffer) → read_file s' name_b buffer m = Ok (0, buffer))).
Proof.
  apply (create_file_outcome (demo [Create name_a]) name_b [98]); [|done|num].
  apply (demo_ok [Create name_a]). cmds_ok.
Defined.

(** C8: a name that does not fit (255 characters or more) makes
    [create_file] write past the end of the directory entry: the [strncpy] it
    calls starts padding from [(size_t)-1]. *)
Theorem create_file_long_name s f x :
  fs_wf s → cstr f = Some x → MAX_FILENAME_LEN ≤ Z.of_nat (length x) →
  s.(sb).(sb_free_inodes) ≠ 0 → create_file s f = Err OutOfBounds.
Proof.
  intros Hwf Hx Hlen Hfree.
  destruct (list_find free_inode s.(inode_table)) as [[i n]|] eqn:Hfind;
    [|by apply used_inodes_pos in Hfind].
  pose proof Hfind as (Hi & _)%list_find_Some.
  destruct (slot_entry s i n Hwf Hi) as (d & Hd & Hslot).
  destruct (create_prefix s i n d Hwf Hfind Hd) as (b & s5 & _ & _ & _ & _ & _ & _ & _ & ->).
  pose proof (sw_name_length _ _ _ Hslot).
  rewrite (strncpy_overrun _ _ x); [done|done|lia|lia|unfold U32_MAX; lia].
Qed.

Lemma create_file_long_name_witness :
  create_file (demo []) (replicate 255 97 ++ [0]) = Err OutOfBounds.
Proof.
  destruct (demo_ok [] ltac:(cmds_ok)) as [Hwf Ha].
  apply (create_file_long_name (demo []) _ (replicate 255 97) Hwf); [done|done|].
  intros Hn. apply used_inodes_pos in Hn; [|done].
  pose proof (list_find_free _ Hwf) as Hl. rewrite Ha, Hn in Hl. discriminate Hl.
Defined.

(** ** How much a write stores *)

(** C9: a new file takes everything that is written to it, up to the maximal
    size of four blocks: right after its creation, [write_file] of [sz] bytes
    returns the smaller of [sz] and 16384. *)
Theorem fresh_file_write_complete s s1 f x i data sz :
  fs_wf s → cstr f = Some x → Z.of_nat (length x) < MAX_FILENAME_LEN →
  lookup_name (fs_abs s) x = None → create_file s f = Ok (i, s1) → i ≠ -1 →
  0 ≤ sz < 2 ^ 32 → sz ≤ Z.of_nat (length data) →
  ∃ s2, write_file s1 f data sz = Ok (Z.min sz (MAX_BLOCKS_PER_FILE * BLOCK_SIZE), s2).
Proof.
  intros Hwf Hx Hlen Hnew Hc Hi Hsz Hd.
  destruct (create_refines s f x Hwf Hx Hlen) as (s' & Hc' & Hwf' & Ha').
  rewrite Hc in Hc'. injection Hc' as -> ->. unfold spec_create in *.
  destruct (list_find _ (fs_abs s)) as [[k o]|] eqn:Hf; [|done]. simpl in *.
  apply list_find_Some in Hf as (Hk & -> & _).
  destruct (write_refines s' f x data sz Hwf' Hx Hsz Hd) as (s2 & Hw & _).
  exists s2. rewrite Hw. unfold spec_write.
  rewrite Ha', (lookup_name_new _ k (AFile x 7 1 []) x) by done. simpl.
  do 2 f_equal. unfold spec_write_size, spec_write_need, granted, blocks_of. simpl.
  rewrite bool_decide_eq_false_2; [done|].
  change (Z.of_nat (length (@nil Z))) with 0. lia.
Qed.

Lemma fresh_file_write_complete_witness :
  let data := replicate (Z.to_nat 20000) 1 in
  ∃ s1 s2, create_file (demo []) name_a = Ok (0, s1) ∧
    write_file s1 name_a data 20000 = Ok (16384, s2).
Proof.
  intros data. destruct (demo_ok [] ltac:(cmds_ok)) as [Hwf Ha].
  destruct (create_refines (demo []) name_a [97] Hwf) as (s1 & Hc & _); [done|num|].
  rewrite Ha in Hc. exists s1.
  destruct (fresh_file_write_complete (demo []) s1 name_a [97] 0 data 20000 Hwf)
    as (s2 & Hw); [done|num|by rewrite Ha|exact Hc|done|num|subst data; num|].
  exists s2. split; [exact Hc|exact Hw].
Defined.

Lemma spec_write_size_full g n :
  g.(af_blocks) = MAX_BLOCKS_PER_FILE → Z.of_nat (length g.(af_data)) ≤ BLOCK_SIZE → 0 ≤ n →
  spec_write_size g n = Z.min n BLOCK_SIZE.
Proof.
  intros Hb Hd Hn. unfold spec_write_size, spec_write_need, granted, blocks_of.
  rewrite Hb. case_bool_decide; lia.
Qed.

(** C10: once a file was cut back, it does not grow again as it should.  After
    a write of the maximal size and a second write of at most one block, a third
    write stores at most 4096 bytes however many it is given: the blocks it needs
    are counted from the size of the file while [allocate_blocks] finds no empty
    block slot, because the file still owns all four blocks. *)
Theorem rewrite_after_shrink_truncates s s1 s2 f x d1 d2 d3 n1 n2 n3 r1 r2 :
  fs_wf s → cstr f = Some x →
  0 ≤ n1 < 2 ^ 32 → n1 ≤ Z.of_nat (length d1) →
  0 ≤ n2 ≤ BLOCK_SIZE → n2 ≤ Z.of_nat (length d2) →
  0 ≤ n3 < 2 ^ 32 → n3 ≤ Z.of_nat (length d3) →
  write_file s f d1 n1 = Ok (r1, s1) → r1 = MAX_BLOCKS_PER_FILE * BLOCK_SIZE →
  write_file s1 f d2 n2 = Ok (r2, s2) →
  ∃ s3, write_file s2 f d3 n3 = Ok (Z.min n3 BLOCK_SIZE, s3).
Proof.
  intros Hwf Hx Hn1 Hl1 Hn2 Hl2 Hn3 Hl3 H1 Hr H2.
  destruct (write_inv s f x d1 n1 r1 s1 Hwf Hx Hn1 Hl1 H1 ltac:(clear -Hr; lia))
    as (i & af & Hlk & Hp & Hr1 & Hwf1 & Hlk1).
  destruct (lookup_name_file s1 f x i _ Hwf1 Hx Hlk1) as [Hd1 Hb1].
  cbn [af_data af_blocks] in Hd1, Hb1.
  destruct (lookup_name_file s f x i _ Hwf Hx Hlk) as [Hd Hb].
  pose proof (spec_write_size_bounds af n1 Hd Hb ltac:(lia)) as Hs1.
  rewrite length_take in Hd1. set (b1 := af_blocks af + _) in *.
  assert (b1 = 4) as Hb14 by (clear -Hd1 Hb1 Hr Hs1 Hr1 Hl1; lia).
  destruct (write_refines s1 f x d2 n2 Hwf1 Hx ltac:(lia) Hl2) as (s2' & Hw2 & Hwf2 & Ha2).
  rewrite H2 in Hw2. injection Hw2 as -> <-. unfold spec_write in Ha2.
  rewrite Hlk1 in Ha2. cbn [af_perm] in Ha2. rewrite Hp in Ha2. simpl in Ha2.
  set (af1 := AFile x (af_perm af) b1 _) in *.
  pose proof (spec_write_size_bounds af1 n2) as Hs2. cbn [af_data af_blocks af1] in Hs2.
  rewrite length_take in Hs2. specialize (Hs2 ltac:(lia) ltac:(lia) ltac:(lia)).
  set (af2 := AFile x (af_perm af) _ _) in Ha2 at 1.
  pose proof (lookup_name_insert_eq _ i af1 af2 x Hlk1 eq_refl) as Hlk2. rewrite <-Ha2 in Hlk2.
  destruct (write_refines s2 f x d3 n3 Hwf2 Hx Hn3 Hl3) as (s3 & Hw3 & _).
  exists s3. rewrite Hw3. unfold spec_write. rewrite Hlk2. cbn [af_perm af2]. rewrite Hp.
  simpl. do 2 f_equal. clearbody af1. apply spec_write_size_full; [| |by clear -Hn3; lia]; cbn [af_data af_blocks af2].
  - rewrite Hb14. unfold granted. clear. lia.
  - rewrite length_take. clear -Hs2 Hn2. lia.
Qed.

Lemma rewrite_after_shrink_truncates_witness :
  let s := demo [Create name_a] in
  let d := replicate (Z.to_nat 16384) 1 in
  ∃ s1 s2 s3, write_file s name_a d 16384 = Ok (16384, s1) ∧
    write_file s1 name_a d 1 = Ok (1, s2) ∧
    write_file s2 name_a d 16384 = Ok (Z.min 16384 BLOCK_SIZE, s3).
Proof.
  intros s d. destruct (demo_ok [Create name_a] ltac:(cmds_ok)) as [Hwf Ha].
  fold s in Hwf, Ha.
  assert (Z.of_nat (length d) = 16384) as Hd by (subst d; num).
  destruct (write_refines s name_a [97] d 16384 Hwf eq_refl) as (s1 & H1 & Hwf1 & Ha1);
    [num|by rewrite Hd|].
  destruct (write_refines s1 name_a [97] d 1 Hwf1 eq_refl) as (s2 & H2 & _ & _);
    [num|by rewrite Hd|].
  rewrite Ha1 in H2. rewrite Ha in H1, H2.
  assert ((spec_write (demo_abs [Create name_a]) [97] d 16384).1 = 16384) as E1
    by (vm_compute; reflexivity).
  assert ((spec_write (spec_write (demo_abs [Create name_a]) [97] d 16384).2 [97] d 1).1 = 1)
    as E2 by (vm_compute; reflexivity).
  rewrite E1 in H1. rewrite E2 in H2.
  destruct (rewrite_after_shrink_truncates s s1 s2 name_a [97] d d d 16384 1 16384 16384 1
    Hwf eq_refl ltac:(num) ltac:(by rewrite Hd) ltac:(num) ltac:(by rewrite Hd)
    ltac:(num) ltac:(by rewrite Hd) H1 eq_refl H2) as (s3 & H3).
  exists s1, s2, s3. split; [exact H1|]. split; [exact H2|exact H3].
Defined.

(** ** Permissions *)


(** C11: [chmod_file] decides what the other operations do.  After a
    successful change of the permissions to [p], a file without the write bit
    (2) cannot be written, appended to or deleted, and one without the read bit
    (4) cannot be read: the calls return -1 and change nothing. *)
Theorem chmod_enforced s s' f x p buffer m :
  fs_wf s → cstr f = Some x → 0 ≤ p < 2 ^ 16 → chmod_file s f p = Ok (0, s') →
  0 ≤ m < 2 ^ 32 → m ≤ Z.of_nat (length buffer) →
  (Z.land p 2 = 0 → write_file s' f buffer m = Ok (-1, s') ∧
     append_to_file s' f buffer m = Ok (-1, s') ∧ delete_file s' f = Ok (-1, s')) ∧
  (Z.land p 4 = 0 → read_file s' f buffer m = Ok (-1, buffer)).
Proof.
  intros Hwf Hx Hp Hc Hm Hb.
  destruct (chmod_refines s f x p Hwf Hx) as (s1 & Hc1 & Hwf1 & Ha1).
  rewrite Hc in Hc1. injection Hc1 as E <-. unfold spec_chmod in *.
  destruct (lookup_name (fs_abs s) x) as [[i af]|] eqn:Hl; [|done]. simpl in Ha1. clear E.
  rewrite (u16_small p Hp) in Ha1.
  assert (lookup_name (fs_abs s') x =
    Some (i, AFile (af_name af) p (af_blocks af) (af_data af))) as Hl1.
  { rewrite Ha1. eapply lookup_name_insert_eq; [done|]. by apply lookup_name_inv in Hl as [_ ?]. }
  pose proof (find_entry_spec s' f x Hwf1 Hx) as Hfind. rewrite Hl1 in Hfind.
  destruct Hfind as (n & d & Hi & _ & _ & _ & Hn & _ & Hfe & Hent).
  assert (n.(ino_permissions) = p) as Hperm by by injection Hn.
  split; intros Hbit.
  - unfold write_file, append_to_file, delete_file.
    rewrite Hfe, !bind_ok, Hent, !bind_ok, (aget_nat _ _ _ Hi), !bind_ok.
    unfold check_permissions. simpl. rewrite Hperm, Hbit. done.
  - unfold read_file. rewrite Hfe, bind_ok, Hent, bind_ok, (aget_nat _ _ _ Hi), bind_ok.
    unfold check_permissions. simpl. rewrite Hperm, Hbit. done.
Qed.

Lemma chmod_enforced_witness :
  ∃ s', chmod_file (demo [Create name_a]) name_a 4 = Ok (0, s') ∧
    (Z.land 4 2 = 0 → write_file s' name_a [1] 1 = Ok (-1, s') ∧
       append_to_file s' name_a [1] 1 = Ok (-1, s') ∧ delete_file s' name_a = Ok (-1, s')) ∧
    (Z.land 4 4 = 0 → read_file s' name_a [1] 1 = Ok (-1, [1])).
Proof.
  destruct (demo_ok [Create name_a] ltac:(cmds_ok)) as [Hwf Ha].
  destruct (chmod_refines (demo [Create name_a]) name_a [97] 4 Hwf eq_refl)
    as (s' & Hc & _). rewrite Ha in Hc. exists s'. split; [exact Hc|].
  apply (chmod_enforced (demo [Create name_a]) s' name_a [97] 4 [1] 1 Hwf);
    [done|num|exact Hc|num|num].
Defined.

(** ** The superblock *)

Definition blocks_used (a : afs) : Z :=
  foldr (λ o n, match o with Some f => f.(af_blocks) | None => 0 end + n) 0 a.

Definition slots_free (a : afs) : Z :=
  Z.of_nat (length (filter (λ o : option afile, o = None) a)).

Lemma blocks_used_zip st t d :
  length t = length d →
  (∀ i n, t !! i = Some n → free_inode n → inode_blocks n = []) →
  blocks_used (zip_with (abs_slot st) t d) = Z.of_nat (length (all_blocks t)).
Proof.
  revert d. induction t as [|n t IH]; intros [|e d] Hl Hf; simpl in Hl; try done.
  change (all_blocks (n :: t)) with (inode_blocks n ++ all_blocks t).
  rewrite length_app. simpl.
  rewrite (IH d); [|lia|intros i m Hm; by apply (Hf (S i))].
  unfold abs_slot. case_decide as Hn; simpl; [|lia].
  rewrite (Hf 0%nat n eq_refl Hn). simpl. lia.
Qed.

Lemma slots_free_zip st t d :
  length t = length d →
  slots_free (zip_with (abs_slot st) t d) = Z.of_nat (length (filter free_inode t)).
Proof.
  unfold slots_free. revert d.
  induction t as [|n t IH]; intros [|e d] Hl; simpl in Hl; try done. simpl.
  rewrite !filter_cons. specialize (IH d ltac:(lia)).
  assert (abs_slot st n e = None ↔ free_inode n) as Hs
    by (unfold abs_slot; case_decide; done).
  destruct (decide (free_inode n)); [rewrite decide_True by tauto|rewrite decide_False by tauto];
    simpl; lia.
Qed.

Lemma counters s :
  fs_wf s → s.(sb).(sb_free_blocks) = BLOCK_COUNT - blocks_used (fs_abs s) ∧
            s.(sb).(sb_free_inodes) = slots_free (fs_abs s).
Proof.
  intros Hwf. pose proof Hwf as [Hb Hn].
  assert (length s.(inode_table) = length s.(root_directory)) as Hl
    by (rewrite (bw_inodes _ Hb), (nw_directory _ Hn); done).
  unfold fs_abs. rewrite blocks_used_zip, slots_free_zip; [|done..|].
  - split; [apply (bw_free _ Hb)|apply (nw_free _ Hn)].
  - intros i n Hi Hf. destruct (slot_entry s i n Hwf Hi) as (d & _ & Hs).
    by apply (sw_owned _ _ _ Hs).
Qed.

(** C12: the counters of the superblock stay exact.  After any run from a
    formatted disk, [free_inodes] is the number of free slots, and
    [free_blocks] is 1024 less the blocks of all files; both stay within their
    ranges. *)
Theorem counters_exact s s0 s' cs os :
  fs_shape s → Forall cmd_ok cs →
  create_file_system s = Ok s0 → fs_run s0 cs = Ok (os, s') →
  let a := (spec_run (replicate (Z.to_nat MAX_FILES) None) cs).2 in
  s'.(sb).(sb_free_inodes) = slots_free a ∧
  s'.(sb).(sb_free_blocks) = BLOCK_COUNT - blocks_used a ∧
  0 ≤ s'.(sb).(sb_free_inodes) ≤ MAX_FILES ∧
  0 ≤ s'.(sb).(sb_free_blocks) ≤ BLOCK_COUNT.
Proof.
  intros Hs Hcs Hf Hr a. destruct (format_disk_wf s Hs) as (s0' & Hf' & Hwf & Ha).
  unfold create_file_system in Hf. rewrite Hf' in Hf. injection Hf as ->.
  destruct (fs_run_step s0 cs Hwf Hcs) as (s1 & Hr' & Hwf' & Ha').
  rewrite Hr' in Hr. injection Hr as _ ->. rewrite Ha in Ha'. subst a. rewrite <-Ha'.
  destruct (counters s' Hwf') as [-> ->]. split; [done|]. split; [done|].
  pose proof Hwf' as [Hb Hn]. pose proof (all_blocks_bound s' Hb).
  pose proof (length_filter free_inode s'.(inode_table)) as Hfl.
  rewrite (bw_inodes _ Hb) in Hfl. destruct (counters s' Hwf') as [E1 E2].
  rewrite <-E2, (nw_free _ Hn). pose proof (bw_free _ Hb).
  clear -H Hfl E1 H0. lia.
Qed.

Lemma counters_exact_witness :
  ∃ s0 os s', create_file_system boot_fs = Ok s0 ∧ fs_run s0 demo_cmds = Ok (os, s') ∧
    let a := (spec_run (replicate (Z.to_nat MAX_FILES) None) demo_cmds).2 in
    s'.(sb).(sb_free_inodes) = slots_free a ∧
    s'.(sb).(sb_free_blocks) = BLOCK_COUNT - blocks_used a ∧
    0 ≤ s'.(sb).(sb_free_inodes) ≤ MAX_FILES ∧
    0 ≤ s'.(sb).(sb_free_blocks) ≤ BLOCK_COUNT.
Proof.
  destruct (format_disk_wf boot_fs boot_fs_shape) as (s0 & Hf & Hwf & _).
  destruct (fs_run_step s0 demo_cmds Hwf demo_cmds_ok) as (s' & Hr & _).
  eexists s0, _, s'. split; [exact Hf|]. split; [exact Hr|].
  exact (counters_exact boot_fs s0 s' demo_cmds _ boot_fs_shape demo_cmds_ok Hf Hr).
Defined.

(** C13: [delete_file] undoes [create_file].  Creating a file under a new
    name and deleting it again restores the abstract state and both counters of
    the superblock. *)
Theorem create_delete_roundtrip s s1 f x i :
  fs_wf s → cstr f = Some x → Z.of_nat (length x) < MAX_FILENAME_LEN →
  lookup_name (fs_abs s) x = None → create_file s f = Ok (i, s1) → i ≠ -1 →
  ∃ s2, delete_file s1 f = Ok (0, s2) ∧ fs_wf s2 ∧ fs_abs s2 = fs_abs s ∧
    s2.(sb).(sb_free_blocks) = s.(sb).(sb_free_blocks) ∧
    s2.(sb).(sb_free_inodes) = s.(sb).(sb_free_inodes).
Proof.
  intros Hwf Hx Hlen Hnew Hc Hi.
  destruct (create_refines s f x Hwf Hx Hlen) as (s' & Hc' & Hwf' & Ha').
  rewrite Hc in Hc'. injection Hc' as -> ->. unfold spec_create in *.
  destruct (list_find _ (fs_abs s)) as [[k o]|] eqn:Hf; [|done]. simpl in *.
  apply list_find_Some in Hf as (Hk & -> & _).
  destruct (delete_refines s' f x Hwf' Hx) as (s2 & Hd & Hwf2 & Ha2).
  unfold spec_delete in *.
  rewrite Ha', (lookup_name_new _ k (AFile x 7 1 []) x) in Hd, Ha2 by done.
  simpl in Hd, Ha2. rewrite list_insert_insert_eq, (list_insert_id _ _ _ Hk) in Ha2.
  exists s2. split; [done|]. split; [done|]. split; [done|].
  destruct (counters s Hwf) as [-> ->], (counters s2 Hwf2) as [-> ->]. by rewrite Ha2.
Qed.

Lemma create_delete_roundtrip_witness :
  let s := demo [Create name_a] in
  ∃ s1 s2, create_file s name_b = Ok (1, s1) ∧
    delete_file s1 name_b = Ok (0, s2) ∧ fs_wf s2 ∧ fs_abs s2 = fs_abs s ∧
    s2.(sb).(sb_free_blocks) = s.(sb).(sb_free_blocks) ∧
    s2.(sb).(sb_free_inodes) = s.(sb).(sb_free_inodes).
Proof.
  intros s. destruct (demo_ok [Create name_a] ltac:(cmds_ok)) as [Hwf Ha].
  fold s in Hwf, Ha.
  destruct (create_refines s name_b [98] Hwf eq_refl) as (s1 & Hc & _); [num|].
  rewrite Ha in Hc.
  destruct (create_delete_roundtrip s s1 name_b [98] 1 Hwf) as (s2 & H2);
    [done|num|by rewrite Ha|exact Hc|num|].
  exists s1, s2. split; [exact Hc|exact H2].
Defined.

(** ** Listing *)

(** The names of the used slots, in order, one per line. *)
Definition spec_list (a : afs) : list Z :=
  a ≫= λ o, match o with Some f => f.(af_name) ++ [10] | None => [] end.

(** [list_files] prints exactly the names of the existing files, in slot
    order, each followed by a newline. *)
Lemma list_files_ok s : fs_wf s → list_files s = Ok (spec_list (fs_abs s)).
Proof.
  intros Hwf. pose proof Hwf as [Hb Hn]. unfold list_files.
  assert (length (fs_abs s) = Z.to_nat MAX_FILES) as Hla.
  { unfold fs_abs. rewrite length_zip_with, (bw_inodes _ Hb), (nw_directory _ Hn). lia. }
  rewrite (for_loop_fun (λ k, spec_list (take (Z.to_nat k) (fs_abs s)))).
  - rewrite take_ge; [done|]. rewrite Hla. lia.
  - by rewrite take_0.
  - intros k Hk.
    destruct (lookup_lt_is_Some_2 s.(root_directory) (Z.to_nat k)) as [d Hd];
      [rewrite (nw_directory _ Hn); lia|].
    destruct (slot_inode s _ d Hwf Hd) as (n & Hi & Hs).
    rewrite (aget_lookup _ _ _ (proj1 Hk) Hd), bind_ok, (sw_entry _ _ _ Hs).
    replace (Z.to_nat (k + 1)) with (S (Z.to_nat k)) by lia.
    rewrite (take_S_r _ _ _ (fs_abs_lookup _ _ _ _ Hi Hd)).
    assert (∀ l o, spec_list (l ++ [o]) = spec_list l ++ spec_list [o]) as Happ
      by (intros; apply bind_app).
    rewrite Happ. unfold spec_list at 3. simpl. rewrite app_nil_r.
    unfold abs_slot. destruct (Z.eqb_spec n.(ino_number) 0) as [E|E]; simpl.
    + rewrite decide_True by done. simpl. by rewrite app_nil_r.
    + rewrite decide_False by done. simpl.
      destruct (sw_name _ _ _ Hs E) as [y Hy]. unfold name_of. rewrite Hy. done.
Qed.

Lemma spec_list_zero_free s : 0 ∉ spec_list (fs_abs s).
Proof.
  intros (o & Ho & [i Hi]%list_elem_of_lookup)%list_elem_of_bind.
  apply fs_abs_lookup_inv in Hi as (n & d & _ & _ & ->). unfold abs_slot in Ho.
  destruct (decide (free_inode n)); [by apply not_elem_of_nil in Ho|].
  simpl in Ho. apply elem_of_app in Ho as [Ho|Ho%list_elem_of_singleton]; [|done].
  unfold name_of in Ho. destruct (cstr d.(de_filename)) as [y|] eqn:E; simpl in Ho.
  - by apply cstr_inv in E as [E _].
  - by apply not_elem_of_nil in Ho.
Qed.
