(* ===== verification/Convert.v ===== *)
(** * Numbers and their decimal and hexadecimal strings ([kernel.c])

    [atoi], [itoa], [int_to_hex], [int_to_dec] and [int_to_str].  A buffer is
    the list of its bytes.  [int] arithmetic wraps, as the compiled code
    does. *)
From S2P Require Import Prelude CString.

(** The loop of [atoi]. *)
Fixpoint atoi_digits (s : list Z) (num : Z) : res Z :=
  match s with
  | [] => Err OutOfBounds
  | c :: t =>
      if c =? 0 then Ok num
      else if (48 <=? c) && (c <=? 57) then atoi_digits t (i32 (i32 (num * 10) + (c - 48)))
      else Ok num
  end.

(** [int atoi(const char *s)] *)
Definition atoi (s : list Z) : res Z :=
  c ← deref s;
  if c =? 45 then num ← atoi_digits (tail s) 0; Ok (i32 (-1 * num))
  else num ← atoi_digits s 0; Ok (i32 (1 * num)).

(** The [do ... while(n > 0)] of [itoa]; the state is [n], [i] and [str]. *)
Definition itoa_step (st : Z * Z * list Z) : res ((Z * Z * list Z) + (Z * list Z)) :=
  let '(n, i, str) := st in
  str ← aset str i (u8 (Z.rem n 10 + 48));
  let n := Z.quot n 10 in
  Ok (if 0 <? n then inl (n, i + 1, str) else inr (i + 1, str)).

(** The loop of [itoa] that turns [str[0 .. i - 1]] around. *)
Definition reverse_chars (str : list Z) (i : Z) : res (list Z) :=
  for_loop (Z.to_nat (Z.quot i 2)) 0
    (λ j str, temp ← aget str j;
              c ← aget str (i - j - 1);
              str ← aset str j c;
              aset str (i - j - 1) temp) str.

(** [void itoa(int n, char *str)] *)
Definition itoa (n : Z) (str : list Z) : res (list Z) :=
  let sign := n in
  let n := if sign <? 0 then i32 (- n) else n in
  '(i, str) ← iter 11 itoa_step (n, 0, str);
  '(i, str) ← (if sign <? 0 then str ← aset str i 45; Ok (i + 1, str) else Ok (i, str));
  str ← aset str i 0;
  reverse_chars str i.

(** ["0123456789ABCDEF"] *)
Definition hex_chars : list Z :=
  [48; 49; 50; 51; 52; 53; 54; 55; 56; 57; 65; 66; 67; 68; 69; 70].

(** [void int_to_hex(uint32_t num, char *buffer)] *)
Definition int_to_hex (num : Z) (buffer : list Z) : res (list Z) :=
  buffer ← aset buffer 0 48;
  buffer ← aset buffer 1 120;
  buffer ← for_loop 8 0
    (λ i buffer, c ← aget hex_chars (Z.land (Z.shiftr num ((7 - i) * 4)) 15);
                 aset buffer (i + 2) c) buffer;
  aset buffer 10 0.

(** The loop that collects digits, last one first: [int_to_dec] stops at 15
    of them, [int_to_str] has no such test. *)
Definition digits_step (limit : option Z) (st : Z * Z * list Z)
    : res ((Z * Z * list Z) + (Z * list Z)) :=
  let '(num, pos, temp) := st in
  if negb (num =? 0) && (match limit with Some k => pos <? k | None => true end) then
    temp ← aset temp pos (u8 (48 + Z.rem num 10));
    Ok (inl (Z.quot num 10, pos + 1, temp))
  else Ok (inr (pos, temp)).

(** The loop that copies them in reverse. *)
Definition copy_reversed (buffer temp : list Z) (pos : Z) : res (list Z) :=
  for_loop (Z.to_nat pos) 0
    (λ i buffer, c ← aget temp (pos - i - 1); aset buffer i c) buffer.

(** [void int_to_dec(uint32_t num, char *buffer)]; the bytes of [temp] are
    those the stack holds. *)
Definition int_to_dec (temp : list Z) (num : Z) (buffer : list Z) : res (list Z) :=
  if num =? 0 then buffer ← aset buffer 0 48; aset buffer 1 0
  else
    '(pos, temp) ← iter 17 (digits_step (Some 15)) (num, 0, temp);
    buffer ← copy_reversed buffer temp pos;
    aset buffer pos 0.

(** [void int_to_str(int value, char *buffer)] *)
Definition int_to_str (temp : list Z) (value : Z) (buffer : list Z) : res (list Z) :=
  if value =? 0 then buffer ← aset buffer 0 48; aset buffer 1 0
  else
    '(j, temp) ← iter 12 (digits_step None) (value, 0, temp);
    buffer ← copy_reversed buffer temp j;
    aset buffer j 0.

(** ** Digits *)

(** The number that digits, the last one first, stand for. *)
Fixpoint undigits (l : list Z) : Z :=
  match l with [] => 0 | d :: t => (d - 48) + 10 * undigits t end.

(** The digits of [n], last one first; [fuel] bounds their number. *)
Fixpoint digits (fuel : nat) (n : Z) : list Z :=
  match fuel with
  | O => []
  | S fuel => (48 + n `mod` 10) :: if n <? 10 then [] else digits fuel (n `div` 10)
  end.

Definition digit (c : Z) : Prop := 48 ≤ c ≤ 57.

Lemma digits_value fuel n : 0 ≤ n < 10 ^ Z.of_nat fuel → undigits (digits fuel n) = n.
Proof.
  revert n. induction fuel as [|fuel IH]; intros n Hn;
    [change (10 ^ Z.of_nat 0) with 1 in Hn; simpl; lia|].
  assert (10 ^ Z.of_nat (S fuel) = 10 * 10 ^ Z.of_nat fuel) as E
    by (rewrite Nat2Z.inj_succ, Z.pow_succ_r; lia).
  pose proof (Z.div_mod n 10 ltac:(lia)). pose proof (Z.mod_pos_bound n 10 ltac:(lia)).
  cbn [digits undigits]. destruct (Z.ltb_spec n 10).
  - rewrite Z.mod_small by lia. simpl. lia.
  - rewrite IH by lia. lia.
Qed.

Lemma digits_are_digits fuel n : 0 ≤ n → Forall digit (digits fuel n).
Proof.
  revert n. induction fuel as [|fuel IH]; intros n Hn; [constructor|].
  pose proof (Z.mod_pos_bound n 10 ltac:(lia)). cbn [digits]. constructor; [unfold digit; lia|].
  destruct (n <? 10); [constructor|]. apply IH. apply Z.div_pos; lia.
Qed.

Lemma digits_length fuel n : (length (digits fuel n) ≤ fuel)%nat.
Proof.
  revert n. induction fuel as [|fuel IH]; intros n; [done|]. cbn [digits length].
  destruct (n <? 10); [simpl; lia|]. specialize (IH (n `div` 10)). lia.
Qed.

(** More fuel than needed changes nothing. *)
Lemma digits_fuel f g n :
  0 ≤ n < 10 ^ Z.of_nat f → (0 < f ≤ g)%nat → digits g n = digits f n.
Proof.
  revert g n. induction f as [|f IH]; intros g n Hn Hg; [lia|].
  destruct g as [|g]; [lia|]. cbn [digits]. f_equal. destruct (Z.ltb_spec n 10); [done|].
  assert (10 ^ Z.of_nat (S f) = 10 * 10 ^ Z.of_nat f) as E
    by (rewrite Nat2Z.inj_succ, Z.pow_succ_r; lia).
  destruct f as [|f]; [change (10 ^ Z.of_nat 1) with 10 in Hn; lia|]. apply IH; [|lia].
  split; [apply Z.div_pos; lia|]. apply Z.div_lt_upper_bound; lia.
Qed.

Lemma digit_step n : 0 ≤ n → u8 (48 + Z.rem n 10) = 48 + n `mod` 10 ∧ Z.quot n 10 = n `div` 10.
Proof.
  intros Hn. pose proof (Z.mod_pos_bound n 10 ltac:(lia)).
  rewrite Z.rem_mod_nonneg, Z.quot_div_nonneg by lia. split; [apply u8_small; lia|done].
Qed.

Lemma div_10_pow n f : 0 ≤ n < 10 ^ Z.of_nat (S f) → 0 ≤ n `div` 10 < 10 ^ Z.of_nat f.
Proof.
  intros Hn. rewrite Nat2Z.inj_succ, Z.pow_succ_r in Hn by lia.
  split; [apply Z.div_pos; lia|]. apply Z.div_lt_upper_bound; lia.
Qed.

Lemma itoa_step_eq n i str :
  itoa_step (n, i, str) =
    (str ← aset str i (u8 (Z.rem n 10 + 48));
     Ok (if 0 <? Z.quot n 10 then inl (Z.quot n 10, i + 1, str) else inr (i + 1, str))).
Proof. reflexivity. Qed.

Lemma digits_step_eq limit num pos temp :
  digits_step limit (num, pos, temp) =
    if negb (num =? 0) && (match limit with Some k => pos <? k | None => true end) then
      temp ← aset temp pos (u8 (48 + Z.rem num 10));
      Ok (inl (Z.quot num 10, pos + 1, temp))
    else Ok (inr (pos, temp)).
Proof. reflexivity. Qed.

(** The loop of [itoa] writes the digits. *)
Lemma itoa_loop f fuel n i str :
  0 ≤ n < 10 ^ Z.of_nat f → (0 < f ≤ fuel)%nat → 0 ≤ i → i + Z.of_nat f ≤ Z.of_nat (length str) →
  iter fuel itoa_step (n, i, str) =
    Ok (i + Z.of_nat (length (digits f n)), splice str (Z.to_nat i) (digits f n)).
Proof.
  revert fuel n i str. induction f as [|f IH]; intros fuel n i str Hn Hf Hi Hl; [lia|].
  destruct fuel as [|fuel]; [lia|]. rewrite iter_S. rewrite itoa_step_eq.
  destruct (digit_step n ltac:(lia)) as [E1 E2]. rewrite (Z.add_comm (Z.rem n 10)), E1, E2.
  rewrite aset_ok, !bind_ok by lia. cbn [digits].
  destruct (Z.ltb_spec n 10).
  - rewrite (Z.div_small n 10) by lia. simpl. rewrite <-splice_cons, splice_nil by lia. done.
  - assert (0 < n `div` 10) as Hd by (apply Z.div_str_pos; lia).
    rewrite (proj2 (Z.ltb_lt _ _) Hd).
    pose proof (div_10_pow n f Hn).
    destruct f as [|f]; [change (10 ^ Z.of_nat 0) with 1 in *; lia|].
    rewrite IH by (rewrite ?length_insert; lia).
    replace (Z.to_nat (i + 1)) with (S (Z.to_nat i)) by lia.
    rewrite splice_cons by lia. f_equal. f_equal. cbn [length]. lia.
Qed.

(** So does the loop of [int_to_dec] and [int_to_str], before it stops. *)
Lemma digits_loop limit f fuel n i str :
  0 < n < 10 ^ Z.of_nat f → (f < fuel)%nat → 0 ≤ i → i + Z.of_nat f ≤ Z.of_nat (length str) →
  (∀ k, limit = Some k → i + Z.of_nat f ≤ k) →
  iter fuel (digits_step limit) (n, i, str) =
    Ok (i + Z.of_nat (length (digits f n)), splice str (Z.to_nat i) (digits f n)).
Proof.
  revert fuel n i str. induction f as [|f IH]; intros fuel n i str Hn Hf Hi Hl Hk;
    [change (10 ^ Z.of_nat 0) with 1 in Hn; lia|].
  destruct fuel as [|fuel]; [lia|]. rewrite iter_S. rewrite digits_step_eq.
  rewrite (proj2 (Z.eqb_neq n 0)) by lia.
  assert (match limit with Some k => i <? k | None => true end = true) as ->.
  { destruct limit as [k|]; [|done]. apply Z.ltb_lt. specialize (Hk k eq_refl). lia. }
  destruct (digit_step n ltac:(lia)) as [E1 E2]. rewrite E1, E2.
  cbn [negb andb digits]. rewrite aset_ok, !bind_ok by lia.
  pose proof (div_10_pow n f ltac:(lia)).
  destruct (Z.ltb_spec n 10).
  - rewrite (Z.div_small n 10) by lia. destruct fuel as [|fuel]; [lia|].
    rewrite iter_S, digits_step_eq. simpl. rewrite <-splice_cons, splice_nil by lia. done.
  - assert (0 < n `div` 10) as Hd by (apply Z.div_str_pos; lia).
    rewrite IH; [|lia..|rewrite length_insert; lia|intros k Hlim; specialize (Hk k Hlim); lia].
    replace (Z.to_nat (i + 1)) with (S (Z.to_nat i)) by lia.
    rewrite splice_cons by lia. f_equal. f_equal. cbn [length]. lia.
Qed.

(** The loop of [int_to_str] on a negative number: [%] yields a negative
    remainder, so each digit [d] comes out as the character [d] below ['0']. *)
Definition mirrored (l : list Z) : list Z := (λ d, 96 - d) <$> l.

Lemma digit_step_neg n :
  0 ≤ n → u8 (48 + Z.rem (- n) 10) = 96 - (48 + n `mod` 10) ∧ Z.quot (- n) 10 = - (n `div` 10).
Proof.
  intros Hn. pose proof (Z.mod_pos_bound n 10 ltac:(lia)).
  rewrite Z.rem_opp_l, Z.quot_opp_l, Z.rem_mod_nonneg, Z.quot_div_nonneg by lia.
  split; [rewrite u8_small; lia|done].
Qed.

Lemma mirrored_loop f fuel n i str :
  0 < n < 10 ^ Z.of_nat f → (f < fuel)%nat → 0 ≤ i → i + Z.of_nat f ≤ Z.of_nat (length str) →
  iter fuel (digits_step None) (- n, i, str) =
    Ok (i + Z.of_nat (length (digits f n)), splice str (Z.to_nat i) (mirrored (digits f n))).
Proof.
  revert fuel n i str. induction f as [|f IH]; intros fuel n i str Hn Hf Hi Hl;
    [change (10 ^ Z.of_nat 0) with 1 in Hn; lia|].
  destruct fuel as [|fuel]; [lia|]. rewrite iter_S, digits_step_eq.
  rewrite (proj2 (Z.eqb_neq (- n) 0)) by lia.
  destruct (digit_step_neg n ltac:(lia)) as [E1 E2]. rewrite E1, E2.
  cbn [negb andb digits]. rewrite aset_ok, !bind_ok by lia.
  pose proof (div_10_pow n f ltac:(lia)). unfold mirrored. rewrite fmap_cons.
  destruct (Z.ltb_spec n 10).
  - rewrite (Z.div_small n 10) by lia. destruct fuel as [|fuel]; [lia|].
    rewrite iter_S, digits_step_eq. simpl. rewrite <-splice_cons, splice_nil by lia. done.
  - assert (0 < n `div` 10) as Hd by (apply Z.div_str_pos; lia).
    rewrite IH; [|lia..|rewrite length_insert; lia].
    replace (Z.to_nat (i + 1)) with (S (Z.to_nat i)) by lia.
    rewrite splice_cons by lia. f_equal. f_equal. cbn [length]. lia.
Qed.

(** ** Reversing *)

Lemma copy_reversed_spec buffer temp pos :
  0 ≤ pos ≤ Z.of_nat (length temp) → pos ≤ Z.of_nat (length buffer) →
  copy_reversed buffer temp pos = Ok (splice buffer 0 (reverse (take (Z.to_nat pos) temp))).
Proof.
  intros Hp Hb. unfold copy_reversed.
  set (r := reverse (take (Z.to_nat pos) temp)).
  assert (length r = Z.to_nat pos) as Hr by (unfold r; rewrite length_reverse, length_take; lia).
  rewrite (for_loop_fun (λ i, splice buffer 0 (take (Z.to_nat i) r))).
  - do 2 f_equal. apply take_ge. lia.
  - by rewrite take_0, splice_nil.
  - intros k Hk. destruct (lookup_lt_is_Some_2 temp (Z.to_nat (pos - k - 1))) as [c Hc]; [lia|].
    rewrite (aget_lookup temp (pos - k - 1) c), bind_ok by (done || lia).
    assert (r !! Z.to_nat k = Some c) as Hrk.
    { unfold r. rewrite reverse_lookup by (rewrite length_take; lia). rewrite length_take.
      rewrite lookup_take_lt by lia. rewrite <-Hc. f_equal. lia. }
    rewrite aset_ok by (rewrite length_splice; rewrite ?length_take; lia).
    f_equal. replace (Z.to_nat (k + 1)) with (S (Z.to_nat k)) by lia.
    rewrite (take_S_r _ _ c) by done.
    rewrite <-splice_snoc by (rewrite length_take; lia).
    do 2 f_equal. rewrite length_take. lia.
Qed.

Lemma reverse_chars_spec str i :
  0 ≤ i ≤ Z.of_nat (length str) →
  reverse_chars str i = Ok (splice str 0 (reverse (take (Z.to_nat i) str))).
Proof.
  intros Hi. unfold reverse_chars. rewrite Z.quot_div_nonneg by lia.
  pose proof (Z.div_mod i 2 ltac:(lia)) as Hdm. pose proof (Z.mod_pos_bound i 2 ltac:(lia)) as Hm.
  set (h := i `div` 2) in *. set (n := Z.to_nat i).
  destruct (for_loop_inv (λ k s, length s = length str ∧ ∀ p, (p < length str)%nat →
    s !! p = if decide ((p < n)%nat ∧ (Z.of_nat p < k ∨ i - k ≤ Z.of_nat p))
             then str !! (n - S p)%nat else str !! p) (Z.to_nat h) 0
    (λ j str, temp ← aget str j; c ← aget str (i - j - 1);
              str ← aset str j c; aset str (i - j - 1) temp) str) as (s' & -> & Hlen & Hs').
  - split; [done|]. intros p Hp. by rewrite decide_False by lia.
  - intros k s Hk [Hlen Hs].
    destruct (lookup_lt_is_Some_2 s (Z.to_nat k)) as [x Hx]; [lia|].
    destruct (lookup_lt_is_Some_2 s (Z.to_nat (i - k - 1))) as [y Hy]; [lia|].
    rewrite (aget_lookup s k x), bind_ok by (done || lia).
    rewrite (aget_lookup s _ y), bind_ok by (done || lia).
    rewrite aset_ok, bind_ok by lia. rewrite aset_ok by (rewrite length_insert; lia).
    eexists. split; [done|]. rewrite !length_insert. split; [done|]. intros p Hp.
    rewrite Hs, decide_False in Hx by lia. rewrite Hs, decide_False in Hy by lia.
    destruct (decide (p = Z.to_nat (i - k - 1))) as [->|Hp1].
    { rewrite list_lookup_insert_eq by (rewrite length_insert; lia).
      rewrite decide_True by lia. rewrite <-Hx. f_equal. lia. }
    rewrite list_lookup_insert_ne by lia. destruct (decide (p = Z.to_nat k)) as [->|Hp2].
    { rewrite list_lookup_insert_eq by lia. rewrite decide_True by lia. rewrite <-Hy. f_equal. lia. }
    rewrite list_lookup_insert_ne, Hs by lia.
    destruct (decide ((p < n)%nat ∧ (Z.of_nat p < k ∨ i - k ≤ Z.of_nat p)));
      destruct (decide ((p < n)%nat ∧ (Z.of_nat p < k + 1 ∨ i - (k + 1) ≤ Z.of_nat p))); done || lia.
  - f_equal. apply list_eq_same_length with (n := length str); [|done|].
    { rewrite length_splice; rewrite ?length_reverse, ?length_take; lia. }
    intros p x y Hp Hx Hy. rewrite Hs' in Hx by done.
    destruct (decide (p < n)%nat) as [Hpn|Hpn].
    + rewrite lookup_splice_in in Hy by (rewrite ?length_reverse, ?length_take; lia).
      rewrite Nat.sub_0_r, reverse_lookup, length_take, lookup_take_lt in Hy
        by (rewrite ?length_take; lia).
      replace (n `min` length str)%nat with n in Hy by lia. case_decide; [congruence|].
      replace (n - S p)%nat with p in Hy by lia. congruence.
    + rewrite lookup_splice_ge in Hy by (rewrite ?length_reverse, ?length_take; lia).
      rewrite decide_False in Hx by lia. congruence.
Qed.

Lemma reverse_prefix str x :
  (length x < length str)%nat →
  reverse_chars (splice str 0 (x ++ [0])) (Z.of_nat (length x)) =
    Ok (splice str 0 (reverse x ++ [0])).
Proof.
  intros Hx. assert (length (splice str 0 (x ++ [0])) = length str) as Hls.
  { apply length_splice. rewrite length_app. simpl. lia. }
  rewrite reverse_chars_spec, Nat2Z.id by (rewrite Hls; lia). f_equal. unfold splice.
  rewrite !take_0, !Nat.add_0_l, !app_nil_l, !length_app, !length_reverse.
  rewrite <-!(assoc_L (++)), length_take_le, drop_app_length by (rewrite length_app; lia).
  by rewrite take_app_length.
Qed.

(** ** Reading digits *)

Definition read_digit (num c : Z) : Z := num * 10 + (c - 48).

(** [int] arithmetic is arithmetic modulo [2 ^ 32]. *)
Lemma i32_cong k z : i32 (z + k * 2 ^ 32) = i32 z.
Proof.
  unfold i32. f_equal. replace (z + k * 2 ^ 32 + 2 ^ 31) with (z + 2 ^ 31 + k * 2 ^ 32) by lia.
  apply Z.mod_add. lia.
Qed.

Lemma i32_rep z : ∃ k, i32 z = z + k * 2 ^ 32.
Proof.
  exists (- ((z + 2 ^ 31) `div` 2 ^ 32)). unfold i32.
  pose proof (Z.div_mod (z + 2 ^ 31) (2 ^ 32) ltac:(lia)). lia.
Qed.

Lemma i32_mul_add k a c : i32 (k * i32 a + c) = i32 (k * a + c).
Proof.
  destruct (i32_rep a) as [j ->]. rewrite <-(i32_cong (k * j) (k * a + c)). f_equal. lia.
Qed.

(** [atoi] stops at the first character that is not a digit. *)
Lemma atoi_digits_spec l c rest num :
  Forall digit l → ¬ digit c →
  atoi_digits (l ++ c :: rest) (i32 num) = Ok (i32 (foldl read_digit num l)).
Proof.
  intros Hl Hc. revert num. induction Hl as [|d l Hd Hl IH]; intros num; simpl.
  - destruct (Z.eqb_spec c 0); [done|]. unfold digit in Hc.
    destruct (Z.leb_spec 48 c), (Z.leb_spec c 57); done || lia.
  - unfold digit in Hd.
    rewrite (proj2 (Z.eqb_neq d 0)), (proj2 (Z.leb_le 48 d)), (proj2 (Z.leb_le d 57)) by lia.
    simpl. rewrite <-(Z.mul_1_l (i32 (i32 num * 10))), i32_mul_add, Z.mul_1_l.
    rewrite (Z.mul_comm (i32 num)), i32_mul_add, (Z.mul_comm 10). apply IH.
Qed.

Lemma read_reverse l : foldl read_digit 0 (reverse l) = undigits l.
Proof.
  induction l as [|c l IH]; [done|]. rewrite reverse_cons, foldl_app, IH. simpl.
  unfold read_digit. lia.
Qed.

(** ** The decimal representation *)

(** The shortest decimal representation, with a sign when negative. *)
Definition decimal (n : Z) : list Z :=
  if n <? 0 then 45 :: reverse (digits 10 (- n)) else reverse (digits 10 n).

Lemma digits_zero_free f n : 0 ≤ n → 0 ∉ digits f n.
Proof.
  intros Hn H. pose proof (digits_are_digits f n Hn) as Hd. rewrite Forall_forall in Hd.
  specialize (Hd 0 H). unfold digit in Hd. lia.
Qed.

Lemma decimal_cstr n rest : cstr (decimal n ++ 0 :: rest) = Some (decimal n).
Proof.
  apply cstr_app. unfold decimal. destruct (Z.ltb_spec n 0).
  - rewrite elem_of_cons, elem_of_reverse. intros [?|H1]; [lia|].
    apply (digits_zero_free 10 (- n)); [lia|done].
  - rewrite elem_of_reverse. by apply digits_zero_free.
Qed.

Lemma digits_head n : 0 ≤ n → ∃ c t, reverse (digits 10 n) = c :: t ∧ digit c.
Proof.
  intros Hn. pose proof (digits_are_digits 10 n Hn) as Hd. rewrite <-Forall_reverse in Hd.
  destruct (reverse (digits 10 n)) as [|c t] eqn:E.
  - apply (f_equal length) in E. rewrite length_reverse in E. by cbn [digits length] in E.
  - exists c, t. split; [done|]. by inversion Hd.
Qed.

(** Any digits with any sign are read modulo [2 ^ 32]. *)
Lemma atoi_text ds c rest :
  Forall digit ds → ds ≠ [] → ¬ digit c →
  atoi (ds ++ c :: rest) = Ok (i32 (foldl read_digit 0 ds)) ∧
  atoi (45 :: ds ++ c :: rest) = Ok (i32 (- foldl read_digit 0 ds)).
Proof.
  intros Hds Hne Hc. pose proof (atoi_digits_spec ds c rest 0 Hds Hc) as H.
  change (i32 0) with 0 in H. unfold atoi. split.
  - destruct ds as [|d ds]; [done|]. cbn [app deref]. rewrite bind_ok.
    apply Forall_cons in Hds as [Hd _]. unfold digit in Hd.
    rewrite (proj2 (Z.eqb_neq d 45)) by lia. cbn [app] in H. rewrite H, bind_ok.
    rewrite <-(Z.add_0_r (1 * _)), i32_mul_add. do 2 f_equal. lia.
  - cbn [deref tail]. rewrite bind_ok. change (45 =? 45) with true. cbv iota.
    rewrite H, bind_ok, <-(Z.add_0_r (-1 * _)), i32_mul_add. do 2 f_equal. lia.
Qed.

Lemma atoi_decimal n c rest :
  -2 ^ 31 ≤ n < 2 ^ 31 → ¬ digit c → atoi (decimal n ++ c :: rest) = Ok n.
Proof.
  intros Hn Hc. assert (∀ k, 0 ≤ k ≤ 2 ^ 31 →
    foldl read_digit 0 (reverse (digits 10 k)) = k ∧ Forall digit (reverse (digits 10 k)) ∧
    reverse (digits 10 k) ≠ []) as H.
  { intros k Hk. rewrite read_reverse, Forall_reverse. split; [|split].
    - apply digits_value. change (10 ^ Z.of_nat 10) with 10000000000. lia.
    - apply digits_are_digits. lia.
    - destruct (digits_head k) as (d & t & -> & _); done || lia. }
  unfold decimal. destruct (Z.ltb_spec n 0).
  - destruct (H (- n) ltac:(lia)) as (E & Hd & Hne). cbn [app].
    rewrite (proj2 (atoi_text _ c rest Hd Hne Hc)), E. f_equal. rewrite i32_small; lia.
  - destruct (H n ltac:(lia)) as (E & Hd & Hne).
    rewrite (proj1 (atoi_text _ c rest Hd Hne Hc)), E. f_equal. rewrite i32_small; lia.
Qed.

#[local] Arguments digits : simpl never.

Lemma itoa_spec n str :
  -2 ^ 31 < n < 2 ^ 31 → 12 ≤ Z.of_nat (length str) →
  itoa n str = Ok (splice str 0 (decimal n ++ [0])).
Proof.
  intros Hn Hl. unfold itoa. cbv zeta.
  set (a := if n <? 0 then i32 (- n) else n).
  assert (a = Z.abs n) as Ha.
  { unfold a. destruct (Z.ltb_spec n 0); [rewrite i32_small|]; lia. }
  set (ds := digits 10 a). pose proof (digits_length 10 a) as Hd. fold ds in Hd.
  rewrite (itoa_loop 10) by (rewrite ?Ha; change (10 ^ Z.of_nat 10) with 10000000000; lia).
  rewrite bind_ok. fold ds. change (Z.to_nat 0) with 0%nat. rewrite Z.add_0_l.
  set (k := Z.of_nat (length ds)).
  set (x := ds ++ if n <? 0 then [45] else []).
  assert (length x ≤ 11)%nat as Hx.
  { unfold x. clearbody ds. rewrite length_app. destruct (n <? 0); cbn [length]; lia. }
  assert ((if n <? 0 then str ← aset (splice str 0 ds) k 45; Ok (k + 1, str)
           else Ok (k, splice str 0 ds)) = Ok (Z.of_nat (length x), splice str 0 x)) as ->.
  { unfold x, k. destruct (n <? 0).
    - rewrite aset_ok, bind_ok by (rewrite length_splice; lia). rewrite Nat2Z.id.
      rewrite <-(splice_snoc str 0 ds 45) by lia. clearbody ds.
      rewrite length_app. cbn [length]. do 2 f_equal. lia.
    - by rewrite app_nil_r. }
  rewrite bind_ok, aset_ok, bind_ok by (rewrite length_splice; lia).
  rewrite Nat2Z.id. change (length x) with (0 + length x)%nat at 1.
  rewrite (splice_snoc str 0) by lia.
  rewrite reverse_prefix by lia. do 2 f_equal.
  unfold x, ds, decimal. rewrite Ha. destruct (Z.ltb_spec n 0).
  - rewrite reverse_app. simpl. by replace (Z.abs n) with (- n) by lia.
  - rewrite app_nil_r. by replace (Z.abs n) with n by lia.
Qed.

(** The smallest [int] is its own negation: the first remainder is -8 and the
    loop ends at once. *)
Lemma itoa_min str :
  (4 ≤ length str)%nat → itoa (-2 ^ 31) str = Ok (splice str 0 [45; 40; 0]).
Proof.
  intros Hl. unfold itoa. cbv zeta.
  change (if -2 ^ 31 <? 0 then i32 (- -2 ^ 31) else -2 ^ 31) with (-2 ^ 31).
  rewrite iter_S, itoa_step_eq. rewrite aset_ok, !bind_ok by lia.
  change (if 0 <? _ then _ else _) with (@inr (Z * Z * list Z) _ (0 + 1, <[Z.to_nat 0:=40]> str)).
  cbv iota beta. rewrite bind_ok. change (-2 ^ 31 <? 0) with true. cbv iota.
  rewrite aset_ok, !bind_ok by (rewrite length_insert; lia).
  rewrite aset_ok, bind_ok by (rewrite !length_insert; lia).
  rewrite reverse_chars_spec by (rewrite !length_insert; lia).
  by destruct str as [|a [|b [|c [|d str]]]]; simpl in Hl; try lia.
Qed.

Lemma itoa_text n str :
  -2 ^ 31 ≤ n < 2 ^ 31 → (12 ≤ length str)%nat →
  ∃ str', itoa n str = Ok str' ∧
    cstr str' = Some (if n =? -2 ^ 31 then [45; 40] else decimal n) ∧
    length str' = length str ∧ drop 12 str' = drop 12 str.
Proof.
  intros Hn Hstr.
  assert (∀ x, (length x ≤ 12)%nat → length (splice str 0 x) = length str ∧
    drop 12 (splice str 0 x) = drop 12 str) as Hrest.
  { intros x Hx. split; [apply length_splice; lia|].
    unfold splice. rewrite take_0, app_nil_l, drop_app_ge by done. rewrite drop_drop. f_equal. lia. }
  destruct (Z.eqb_spec n (-2 ^ 31)) as [->|Hmin].
  - rewrite itoa_min by lia. eexists. split; [done|]. split; [done|]. apply Hrest. simpl. lia.
  - rewrite itoa_spec by lia. eexists. split; [done|].
    assert (length (decimal n) ≤ 11)%nat as Hd.
    { unfold decimal. pose proof (digits_length 10 n). pose proof (digits_length 10 (- n)).
      destruct (n <? 0); cbn [length]; rewrite length_reverse; lia. }
    split; [|apply Hrest; rewrite length_app; cbn [length]; lia].
    unfold splice. rewrite take_0, <-(assoc_L (++)). apply decimal_cstr.
Qed.

(** The second half of [int_to_dec] and [int_to_str]. *)
Lemma print_copied (r : res (Z * list Z)) temp ds buffer :
  r = Ok (Z.of_nat (length ds), splice temp 0 ds) →
  (length ds ≤ length temp)%nat → (length ds < length buffer)%nat →
  ('(pos, temp) ← r; buffer ← copy_reversed buffer temp pos; aset buffer pos 0) =
    Ok (splice buffer 0 (reverse ds ++ [0])).
Proof.
  intros -> Ht Hb. rewrite bind_ok.
  rewrite copy_reversed_spec, bind_ok by (rewrite ?length_splice; lia).
  rewrite Nat2Z.id. unfold splice at 2. rewrite take_0, app_nil_l, take_app_length.
  rewrite aset_ok by (rewrite length_splice; rewrite ?length_reverse; lia).
  rewrite Nat2Z.id, <-(length_reverse ds). change (length (reverse ds)) with (0 + length (reverse ds))%nat at 1.
  by rewrite (splice_snoc buffer 0) by (rewrite length_reverse; lia).
Qed.

Lemma print_digits limit temp n buffer fuel :
  0 < n < 10 ^ 10 → (10 < fuel)%nat → (10 ≤ length temp)%nat → (11 ≤ length buffer)%nat →
  (∀ k, limit = Some k → 10 ≤ k) →
  ('(pos, temp) ← iter fuel (digits_step limit) (n, 0, temp);
   buffer ← copy_reversed buffer temp pos;
   aset buffer pos 0) = Ok (splice buffer 0 (decimal n ++ [0])).
Proof.
  intros Hn Hf Ht Hb Hk. pose proof (digits_length 10 n) as Hd. unfold decimal.
  rewrite (proj2 (Z.ltb_ge n 0)) by lia.
  apply (print_copied _ temp); [by rewrite (digits_loop limit 10) by (done || lia)|lia|lia].
Qed.

Lemma print_mirrored temp n buffer fuel :
  0 < n < 10 ^ 10 → (10 < fuel)%nat → (10 ≤ length temp)%nat → (11 ≤ length buffer)%nat →
  ('(pos, temp) ← iter fuel (digits_step None) (- n, 0, temp);
   buffer ← copy_reversed buffer temp pos;
   aset buffer pos 0) = Ok (splice buffer 0 (mirrored (decimal n) ++ [0])).
Proof.
  intros Hn Hf Ht Hb. pose proof (digits_length 10 n) as Hd.
  assert (length (mirrored (digits 10 n)) = length (digits 10 n)) as Hm by apply length_fmap.
  assert (mirrored (decimal n) = reverse (mirrored (digits 10 n))) as ->.
  { unfold decimal, mirrored. rewrite (proj2 (Z.ltb_ge n 0)) by lia. by rewrite fmap_reverse. }
  apply (print_copied _ temp); [|lia|lia].
  by rewrite (mirrored_loop 10), Hm by (done || lia).
Qed.

Lemma decimal_0 : decimal 0 = [48].
Proof. reflexivity. Qed.

Lemma print_zero buffer :
  (2 ≤ length buffer)%nat →
  (buffer ← aset buffer 0 48; aset buffer 1 0) = Ok (splice buffer 0 (decimal 0 ++ [0])).
Proof.
  intros Hb. rewrite aset_ok, bind_ok by lia. rewrite aset_ok by (rewrite length_insert; lia).
  rewrite decimal_0. by destruct buffer as [|a [|b buffer]]; simpl in Hb; [lia|lia|].
Qed.

(** ** Hexadecimal *)

Definition hex_value (c : Z) : Z := if c <=? 57 then c - 48 else c - 55.
Definition read_hex (num c : Z) : Z := num * 16 + hex_value c.

Lemma hex_digit d : 0 ≤ d < 16 → ∃ c, aget hex_chars d = Ok c ∧ hex_value c = d ∧ c ≠ 0.
Proof.
  intros Hd. assert (d ∈ seqZ 0 16) as H by (apply elem_of_seqZ; lia).
  simpl in H. repeat (apply elem_of_cons in H as [->|H]; [by eexists; vm_compute|]).
  by apply not_elem_of_nil in H.
Qed.

Lemma nibble num i : 0 ≤ num → 0 ≤ i → Z.land (Z.shiftr num (i * 4)) 15 = num `div` 16 ^ i `mod` 16.
Proof.
  intros Hn Hi. change 15 with (Z.ones 4). rewrite Z.land_ones, Z.shiftr_div_pow2 by lia.
  rewrite (Z.mul_comm i 4), Z.pow_mul_r by lia. done.
Qed.

Lemma hex_loop num buffer :
  0 ≤ num < 2 ^ 32 → (11 ≤ length buffer)%nat →
  ∃ x, for_loop 8 0 (λ i buffer, c ← aget hex_chars (Z.land (Z.shiftr num ((7 - i) * 4)) 15);
                                 aset buffer (i + 2) c) buffer = Ok (splice buffer 2 x) ∧
    length x = 8%nat ∧ foldl read_hex 0 x = num ∧ 0 ∉ x.
Proof.
  intros Hn Hb.
  destruct (for_loop_inv (λ k b, ∃ x, b = splice buffer 2 x ∧ length x = Z.to_nat k ∧
    foldl read_hex 0 x = num `div` 16 ^ (8 - k) ∧ 0 ∉ x) 8 0
    (λ i buffer, c ← aget hex_chars (Z.land (Z.shiftr num ((7 - i) * 4)) 15);
                 aset buffer (i + 2) c) buffer) as (b & Hl & x & -> & Hx & Hv & H0).
  - exists []. rewrite splice_nil. split; [done|]. split; [done|]. split; [|apply not_elem_of_nil].
    rewrite Z.div_small; [done|]. change (16 ^ (8 - 0)) with (2 ^ 32). lia.
  - intros k b Hk (x & -> & Hx & Hv & H0). rewrite nibble by lia.
    destruct (hex_digit (num `div` 16 ^ (7 - k) `mod` 16)) as (c & -> & Hc & Hc0);
      [apply Z.mod_pos_bound; lia|].
    rewrite bind_ok, aset_ok by (rewrite length_splice; lia). eexists. split; [done|].
    exists (x ++ [c]). replace (Z.to_nat (k + 2)) with (2 + length x)%nat by lia.
    rewrite splice_snoc by lia. split; [done|]. split; [rewrite length_app; simpl; lia|].
    split; [|rewrite elem_of_app, list_elem_of_singleton; intros [?|?]; [done|congruence]].
    rewrite foldl_app, Hv. simpl. unfold read_hex. rewrite Hc.
    replace (8 - (k + 1)) with (7 - k) by lia. replace (8 - k) with (Z.succ (7 - k)) by lia.
    rewrite Z.pow_succ_r, (Z.mul_comm 16), <-Z.div_div by lia.
    pose proof (Z.div_mod (num `div` 16 ^ (7 - k)) 16 ltac:(lia)). lia.
  - exists x. split; [exact Hl|]. split; [rewrite Hx; done|]. split; [|done].
    rewrite Hv. change (8 - (0 + Z.of_nat 8)) with 0. by rewrite Z.pow_0_r, Z.div_1_r.
Qed.

(** ** The properties *)

(** C40: decimal strings, for every [int] [n] and its unsigned value.
    [atoi] reads [n] back from its shortest decimal representation, whatever
    character that is no digit follows.  [itoa] writes this representation and
    leaves the bytes from the thirteenth on, except for the smallest [int], for
    which it writes ["-("].  [int_to_dec] writes the representation of every
    unsigned number.  [int_to_str] does so for the numbers from 0 on; for a
    negative one it writes no sign, and a character below ['0'] for each digit
    but 0. *)
Theorem decimal_roundtrip n str temp buffer c rest :
  -2 ^ 31 ≤ n < 2 ^ 31 → (12 ≤ length str)%nat → (11 ≤ length buffer)%nat →
  (10 ≤ length temp)%nat → ¬ digit c →
  atoi (decimal n ++ c :: rest) = Ok n ∧
  (∃ str', itoa n str = Ok str' ∧
     cstr str' = Some (if n =? -2 ^ 31 then [45; 40] else decimal n) ∧
     length str' = length str ∧ drop 12 str' = drop 12 str) ∧
  int_to_dec temp (u32 n) buffer = Ok (splice buffer 0 (decimal (u32 n) ++ [0])) ∧
  int_to_str temp n buffer =
    Ok (splice buffer 0 ((if n <? 0 then mirrored (decimal (- n)) else decimal n) ++ [0])).
Proof.
  intros Hn Hstr Hbuf Ht Hc. split; [by apply atoi_decimal|].
  split; [by apply itoa_text|]. pose proof (u32_range n). split.
  - unfold int_to_dec. destruct (Z.eqb_spec (u32 n) 0) as [->|Hn0]; [apply print_zero; lia|].
    apply print_digits; try (done || lia). intros k Hk; simplify_eq; lia.
  - unfold int_to_str. destruct (Z.eqb_spec n 0) as [->|Hn0]; [apply print_zero; lia|].
    destruct (Z.ltb_spec n 0).
    + pose proof (print_mirrored temp (- n) buffer 12) as P. rewrite Z.opp_involutive in P.
      apply P; lia.
    + apply print_digits; done || lia.
Qed.

(** Hexadecimal strings: [int_to_hex] writes [0x], eight digits and a
    terminator; the digits stand for the number, so different numbers have
    different strings. *)
Lemma int_to_hex_value num buffer :
  0 ≤ num < 2 ^ 32 → (11 ≤ length buffer)%nat →
  ∃ x, int_to_hex num buffer = Ok (splice buffer 0 (48 :: 120 :: x ++ [0])) ∧
    length x = 8%nat ∧ 0 ∉ x ∧ foldl read_hex 0 x = num.
Proof.
  intros Hn Hb. unfold int_to_hex. rewrite aset_ok, bind_ok by lia.
  rewrite aset_ok, bind_ok by (rewrite length_insert; lia).
  destruct (hex_loop num (<[Z.to_nat 1:=120]> (<[Z.to_nat 0:=48]> buffer)) Hn)
    as (x & -> & Hx & Hv & H0); [rewrite !length_insert; lia|].
  rewrite bind_ok. exists x. split; [|done].
  rewrite aset_ok by (rewrite length_splice; rewrite !length_insert; lia).
  rewrite <-!splice_cons by (rewrite ?length_insert; lia).
  rewrite <-splice_snoc by (rewrite !length_insert; lia). f_equal. f_equal. lia.
Qed.

Lemma decimal_roundtrip_witness :
  let n := -2147483648 in let str := replicate 16 7 in let buffer := replicate 10 0 ++ [9] in
  let temp := replicate 10 0 in
  atoi (decimal n ++ 32 :: [49]) = Ok n ∧
  (∃ str', itoa n str = Ok str' ∧
     cstr str' = Some (if n =? -2 ^ 31 then [45; 40] else decimal n) ∧
     length str' = length str ∧ drop 12 str' = drop 12 str) ∧
  int_to_dec temp (u32 n) buffer = Ok (splice buffer 0 (decimal (u32 n) ++ [0])) ∧
  int_to_str temp n buffer =
    Ok (splice buffer 0 ((if n <? 0 then mirrored (decimal (- n)) else decimal n) ++ [0])).
Proof.
  apply (decimal_roundtrip (-2147483648) (replicate 16 7) (replicate 10 0)
    (replicate 10 0 ++ [9]) 32 [49]); [lia|simpl; lia|simpl; lia|simpl; lia|unfold digit; lia].
Defined.

Lemma int_to_hex_value_witness :
  ∃ x, int_to_hex 3735928559 (replicate 16 7) =
      Ok (splice (replicate 16 7) 0 (48 :: 120 :: x ++ [0])) ∧
    length x = 8%nat ∧ 0 ∉ x ∧ foldl read_hex 0 x = 3735928559.
Proof. apply (int_to_hex_value 3735928559 (replicate 16 7)); [lia|simpl; lia]. Defined.

(** ["+'"] for -59. *)
Example int_to_str_negative : int_to_str (replicate 10 0) (-59) (replicate 4 7) = Ok [43; 39; 0; 7].
Proof. by vm_compute. Qed.
