(* ===== verification/Vga.v ===== *)
(** * The text screen ([kernel.c])

    [video] is the text memory at [VGA_MEMORY]: a character and an attribute
    byte for each of the 25 rows of 80 cells. *)
From S2P Require Import Prelude CString.

(** The bytes of a string literal. *)
Definition chars (s : string) : list Z :=
  (λ a, Z.of_N (Ascii.N_of_ascii a)) <$> String.list_ascii_of_string s.

Notation VGA_WIDTH := 80.
Notation VGA_HEIGHT := 25.

Record vga := MkVga {
  video : list Z;
  vga_row : Z;
  vga_col : Z;
}.

(** The body of the inner loop of [scroll_screen]: one cell moves up. *)
Definition scroll_cell (row col : Z) (video : list Z) : res (list Z) :=
  let from := (row * VGA_WIDTH + col) * 2 in
  let to := ((row - 1) * VGA_WIDTH + col) * 2 in
  c ← aget video from;
  video ← aset video to c;
  a ← aget video (from + 1);
  aset video (to + 1) a.

(** [void scroll_screen(void)] *)
Definition scroll_screen (s : vga) : res vga :=
  video ← for_loop (Z.to_nat (VGA_HEIGHT - 1)) 1
    (λ row video, for_loop (Z.to_nat VGA_WIDTH) 0
      (scroll_cell row) video) s.(video);
  let last_row := (VGA_HEIGHT - 1) * VGA_WIDTH * 2 in
  video ← for_loop (Z.to_nat VGA_WIDTH) 0
    (λ col video,
      video ← aset video (last_row + col * 2) 32;
      aset video (last_row + col * 2 + 1) 7) video;
  Ok (MkVga video (VGA_HEIGHT - 1) 0).

(** [void putchar(char c)] *)
Definition putchar (s : vga) (c : Z) : res vga :=
  s ← (if c =? 10 then Ok (MkVga s.(video) (u16 (s.(vga_row) + 1)) 0)
       else
         let offset := (s.(vga_row) * VGA_WIDTH + s.(vga_col)) * 2 in
         video ← aset s.(video) offset c;
         video ← aset video (offset + 1) 7;
         let vga_col := u16 (s.(vga_col) + 1) in
         if VGA_WIDTH <=? vga_col then Ok (MkVga video (u16 (s.(vga_row) + 1)) 0)
         else Ok (MkVga video s.(vga_row) vga_col));
  if VGA_HEIGHT <=? s.(vga_row) then scroll_screen s else Ok s.

(** [void print_to_screen(const char *message)] *)
Fixpoint print_to_screen (s : vga) (message : list Z) : res vga :=
  match message with
  | [] => Err OutOfBounds
  | c :: t => if c =? 0 then Ok s else s ← putchar s c; print_to_screen s t
  end.

(** ** A terminal that forgets nothing

    Its rows are all the rows there have been; the last 25 are visible.  The
    cursor is in row [t_row] of all the rows. *)

Record term := MkTerm {
  t_rows : list (list (Z * Z));
  t_row : nat;
  t_col : nat;
}.

Definition blank_row : list (Z * Z) := replicate 80 (32, 7).

(** A new row appears when the cursor leaves the last one. *)
Definition t_newline (t : term) : term :=
  MkTerm (t.(t_rows) ++ if decide (S t.(t_row) = length t.(t_rows)) then [blank_row] else [])
    (S t.(t_row)) 0.

Definition t_put (t : term) (c : Z) : term :=
  if c =? 10 then t_newline t
  else
    let t := MkTerm (alter <[t.(t_col) := (c, 7)]> t.(t_row) t.(t_rows)) t.(t_row)
               (S t.(t_col)) in
    if decide (t.(t_col) = 80%nat) then t_newline t else t.

Definition t_print (t : term) (message : list Z) : term := foldl t_put t message.

(** ** The screen shows the last rows of the terminal *)

Definition hidden (t : term) : nat := length t.(t_rows) - 25.

Definition cell (t : term) (r c : nat) : option (Z * Z) :=
  t.(t_rows) !! r ≫= λ row, row !! c.

(** The rows agree, and the rows of the cursors. *)
Record shows_rows (s : vga) (t : term) : Prop := {
  sh_length : length s.(video) = 4000%nat;
  sh_rows : (25 ≤ length t.(t_rows))%nat;
  sh_width : ∀ r row, t.(t_rows) !! r = Some row → length row = 80%nat;
  sh_row : s.(vga_row) = Z.of_nat t.(t_row) - Z.of_nat (hidden t);
  sh_row_range : (hidden t ≤ t.(t_row) < length t.(t_rows))%nat;
  sh_cells : ∀ r c x a, (r < 25)%nat → (c < 80)%nat → cell t (hidden t + r) c = Some (x, a) →
    s.(video) !! (2 * (80 * r + c))%nat = Some x ∧ s.(video) !! S (2 * (80 * r + c)) = Some a;
}.

Record shows (s : vga) (t : term) : Prop := {
  sh_all : shows_rows s t;
  sh_col : s.(vga_col) = Z.of_nat t.(t_col);
  sh_col_range : (t.(t_col) < 80)%nat;
}.

(** What scrolling does to the text memory. *)
Lemma scroll_row row (v : list Z) :
  1 ≤ row < 25 → length v = 4000%nat →
  ∃ v', for_loop (Z.to_nat VGA_WIDTH) 0
      (scroll_cell row) v = Ok v' ∧ length v' = 4000%nat ∧
    ∀ p, v' !! p = if decide ((row - 1) * 160 ≤ Z.of_nat p < row * 160)
                   then v !! (p + 160)%nat else v !! p.
Proof.
  intros Hrow Hl.
  destruct (for_loop_inv (λ col (w : list Z), length w = 4000%nat ∧
    ∀ p, w !! p = if decide ((row - 1) * 160 ≤ Z.of_nat p < (row - 1) * 160 + 2 * col)
                  then v !! (p + 160)%nat else v !! p) (Z.to_nat VGA_WIDTH) 0
    (scroll_cell row) v) as (v' & -> & Hl' & Hv').
  - split; [done|]. intros p. by rewrite decide_False by lia.
  - intros col w Hcol [Hw Hp]. unfold scroll_cell. cbv zeta.
    destruct (lookup_lt_is_Some_2 w (Z.to_nat ((row * 80 + col) * 2))) as [x Hx]; [lia|].
    destruct (lookup_lt_is_Some_2 w (Z.to_nat ((row * 80 + col) * 2 + 1))) as [a Ha]; [lia|].
    rewrite (aget_lookup w _ x), bind_ok by (done || lia). rewrite aset_ok, bind_ok by lia.
    rewrite (aget_lookup _ _ a), bind_ok by (rewrite ?list_lookup_insert_ne by lia; done || lia).
    rewrite aset_ok by (rewrite length_insert; lia). eexists. split; [done|].
    rewrite !length_insert. split; [done|]. intros p.
    rewrite Hp, decide_False in Hx by lia. rewrite Hp, decide_False in Ha by lia.
    destruct (decide (p = Z.to_nat (((row - 1) * 80 + col) * 2 + 1))) as [->|N1].
    { rewrite list_lookup_insert_eq by (rewrite length_insert; lia).
      rewrite decide_True by lia. rewrite <-Ha. f_equal. lia. }
    rewrite list_lookup_insert_ne by lia.
    destruct (decide (p = Z.to_nat (((row - 1) * 80 + col) * 2))) as [->|N2].
    { rewrite list_lookup_insert_eq by lia. rewrite decide_True by lia. rewrite <-Hx. f_equal. lia. }
    rewrite list_lookup_insert_ne, Hp by lia.
    destruct (decide ((row - 1) * 160 ≤ Z.of_nat p < (row - 1) * 160 + 2 * col));
      [rewrite decide_True by lia|rewrite decide_False by lia]; done.
  - exists v'. split; [done|]. split; [done|]. intros p. rewrite Hv'.
    destruct (decide ((row - 1) * 160 ≤ Z.of_nat p < row * 160));
      [rewrite decide_True by lia|rewrite decide_False by lia]; done.
Qed.

Lemma scroll_spec s :
  length s.(video) = 4000%nat →
  ∃ v, scroll_screen s = Ok (MkVga v 24 0) ∧ length v = 4000%nat ∧
    (∀ p, (p < 3840)%nat → v !! p = s.(video) !! (p + 160)%nat) ∧
    ∀ c, (c < 80)%nat → v !! (3840 + 2 * c)%nat = Some 32 ∧ v !! (3840 + S (2 * c))%nat = Some 7.
Proof.
  intros Hl. unfold scroll_screen.
  match goal with |- context [for_loop (Z.to_nat (VGA_HEIGHT - 1)) 1 ?body _] =>
    destruct (for_loop_inv (λ row (w : list Z), length w = 4000%nat ∧
      ∀ p, w !! p = if decide (Z.of_nat p < (row - 1) * 160)
                    then s.(video) !! (p + 160)%nat else s.(video) !! p)
      (Z.to_nat (VGA_HEIGHT - 1)) 1 body s.(video)) as (w & -> & Hw & Hwp) end.
  - split; [done|]. intros p. by rewrite decide_False by lia.
  - intros row w Hrow [Hw Hp]. cbv beta. destruct (scroll_row row w) as (w' & -> & Hw' & Hp'); [lia|done|].
    exists w'. split; [done|]. split; [done|]. intros p. rewrite Hp', !Hp.
    destruct (decide ((row - 1) * 160 ≤ Z.of_nat p < row * 160)).
    + by rewrite decide_False, decide_True by lia.
    + destruct (decide (Z.of_nat p < (row - 1) * 160));
        [rewrite decide_True by lia|rewrite decide_False by lia]; done.
  - rewrite bind_ok. cbv zeta.
    match goal with |- context [for_loop (Z.to_nat VGA_WIDTH) 0 ?body _] =>
      destruct (for_loop_inv (λ col (v : list Z), length v = 4000%nat ∧
        (∀ p, (p < 3840)%nat → v !! p = w !! p) ∧
        ∀ c, Z.of_nat c < col → v !! (3840 + 2 * c)%nat = Some 32 ∧
                                v !! (3840 + S (2 * c))%nat = Some 7)
        (Z.to_nat VGA_WIDTH) 0 body w) as (v & -> & Hv & Hlow & Hlast) end.
    + split; [done|]. split; [done|]. lia.
    + intros col v Hcol (Hv & Hlow & Hlast).
      rewrite aset_ok, bind_ok by lia. rewrite aset_ok by (rewrite length_insert; lia).
      eexists. split; [done|]. rewrite !length_insert. split; [done|]. split.
      * intros p Hp. rewrite !list_lookup_insert_ne by lia. auto.
      * intros c Hc. destruct (decide (Z.of_nat c = col)) as [<-|Hne].
        -- split; [rewrite list_lookup_insert_ne by lia|];
             apply list_lookup_insert_Some; left; rewrite ?length_insert; lia.
        -- rewrite !list_lookup_insert_ne by lia. apply Hlast. lia.
    + exists v. split; [done|]. split; [done|]. split; [|intros c Hc; apply Hlast; lia].
      intros p Hp. rewrite Hlow, Hwp, decide_True by lia. done.
Qed.

(** ** Moving and writing *)

Lemma newline_shows s t :
  shows_rows s t →
  ∃ s', (let s := MkVga s.(video) (u16 (s.(vga_row) + 1)) 0 in
         if VGA_HEIGHT <=? s.(vga_row) then scroll_screen s else Ok s) = Ok s' ∧
    shows s' (t_newline t).
Proof.
  intros [Hl Hr Hw Hrow Hrange Hc]. cbv zeta. cbn [vga_row].
  rewrite u16_small by (unfold hidden in *; lia). unfold t_newline.
  destruct (decide (S (t_row t) = length (t_rows t))) as [E|E].
  - rewrite (proj2 (Z.leb_le _ _)) by (unfold hidden in *; lia).
    destruct (scroll_spec (MkVga s.(video) (s.(vga_row) + 1) 0) Hl) as (v & -> & Hv & Hlow & Hlast).
    eexists. split; [done|]. split; [|done|simpl; lia].
    assert (hidden (MkTerm (t_rows t ++ [blank_row]) (S (t_row t)) 0) = S (hidden t)) as Hh.
    { unfold hidden. simpl. rewrite length_app. simpl. lia. }
    split; rewrite ?Hh; cbn [video vga_row t_rows t_row]; rewrite ?length_app; try done;
      [simpl; lia| |unfold hidden in *; lia|unfold hidden in *; simpl; lia|].
    + intros r row [?|[_ H]]%lookup_app_Some; [by eapply Hw|].
      apply list_lookup_singleton_Some in H as [_ <-]. apply length_replicate.
    + intros r c x a Hr25 Hc80. unfold cell. cbn [t_rows].
      destruct (decide (r = 24%nat)) as [->|Hr24].
      * replace (S (hidden t) + 24)%nat with (length (t_rows t)) by (unfold hidden; lia).
        rewrite list_lookup_middle by done. simpl. unfold blank_row.
        rewrite lookup_replicate_2 by done. intros [= <- <-]. destruct (Hlast c Hc80) as [H1 H2].
        split; [rewrite <-H1|rewrite <-H2]; f_equal; lia.
      * rewrite lookup_app_l by (unfold hidden; lia). intros Hx.
        destruct (Hc (S r) c x a) as [H1 H2]; [lia|done| |].
        { unfold cell. by replace (hidden t + S r)%nat with (S (hidden t) + r)%nat by lia. }
        rewrite !Hlow by lia. split; [rewrite <-H1|rewrite <-H2]; cbn [video]; f_equal; lia.
  - rewrite (proj2 (Z.leb_gt _ _)) by (unfold hidden in *; lia).
    rewrite app_nil_r. eexists. split; [done|]. split; [|done|simpl; lia].
    change (hidden t) with (hidden (MkTerm (t_rows t) (S (t_row t)) 0)) in *.
    split; cbn [video vga_row t_rows t_row]; try done; lia.
Qed.

Lemma cell_write t r c x i j :
  cell (MkTerm (alter <[c := x]> r t.(t_rows)) t.(t_row) (S c)) i j =
    if decide (i = r ∧ j = c ∧ is_Some (cell t i j)) then Some x else cell t i j.
Proof.
  unfold cell. cbn [t_rows]. destruct (decide (i = r)) as [->|Hi].
  - rewrite list_lookup_alter_eq. destruct (t_rows t !! r) as [row|]; simpl.
    2:{ rewrite decide_False; [done|]. intros (_ & _ & [? ?]). done. }
    destruct (decide (j = c)) as [->|Hj].
    + destruct (row !! c) as [y|] eqn:E.
      * rewrite decide_True by done. apply list_lookup_insert_eq. by eapply lookup_lt_Some.
      * rewrite decide_False by (intros (_ & _ & [? ?]); done).
        rewrite list_insert_ge; [done|]. by apply lookup_ge_None_1.
    + rewrite list_lookup_insert_ne by congruence. by rewrite decide_False by tauto.
  - rewrite list_lookup_alter_ne by congruence. by rewrite decide_False by tauto.
Qed.

Lemma write_shows s t c :
  shows s t →
  ∃ v, (video ← aset s.(video) ((s.(vga_row) * VGA_WIDTH + s.(vga_col)) * 2) c;
        aset video ((s.(vga_row) * VGA_WIDTH + s.(vga_col)) * 2 + 1) 7) = Ok v ∧
    ∀ col, shows_rows (MkVga v s.(vga_row) col)
      (MkTerm (alter <[t.(t_col) := (c, 7)]> t.(t_row) t.(t_rows)) t.(t_row) (S t.(t_col))).
Proof.
  intros [[Hl Hr Hw Hrow Hrange Hc] Hcol Hcr].
  set (o := (2 * (80 * (t_row t - hidden t) + t_col t))%nat).
  assert ((s.(vga_row) * VGA_WIDTH + s.(vga_col)) * 2 = Z.of_nat o) as -> by (unfold o; lia).
  assert (o < 3999)%nat as Ho by (unfold o, hidden in *; lia).
  rewrite aset_ok, bind_ok by lia. rewrite aset_ok by (rewrite length_insert; lia).
  eexists. split; [done|]. intros col.
  replace (Z.to_nat (Z.of_nat o + 1)) with (S o) by lia. rewrite Nat2Z.id.
  set (t' := MkTerm _ _ _). assert (hidden t' = hidden t) as Hh.
  { unfold hidden, t'. cbn [t_rows]. by rewrite length_alter. }
  split; rewrite ?Hh; cbn [video vga_row]; unfold t'; cbn [t_rows t_row];
    rewrite ?length_insert, ?length_alter; try done.
  - intros r row. destruct (decide (r = t_row t)) as [->|Hne].
    + rewrite list_lookup_alter_eq. intros (row' & Hrow' & ->)%fmap_Some.
      rewrite length_insert. by eapply Hw.
    + rewrite list_lookup_alter_ne by congruence. apply Hw.
  - intros r j x a Hr25 Hj80. rewrite cell_write. case_decide as Hd.
    + destruct Hd as (Hi & -> & _). intros [= <- <-].
      assert ((2 * (80 * r + t_col t))%nat = o) as -> by (unfold o; lia).
      split; [rewrite list_lookup_insert_ne by lia|];
        apply list_lookup_insert_eq; rewrite ?length_insert; lia.
    + intros Hx. destruct (Hc r j x a Hr25 Hj80 Hx) as [H1 H2].
      assert (80 * r + j ≠ 80 * (t_row t - hidden t) + t_col t)%nat as Hne.
      { intros E. apply Hd. assert (j = t_col t ∧ r = (t_row t - hidden t)%nat) as [-> ->] by lia.
        split; [lia|]. split; [done|]. by eexists. }
      rewrite !list_lookup_insert_ne by (unfold o; lia). done.
Qed.

Lemma putchar_shows s t c : shows s t → ∃ s', putchar s c = Ok s' ∧ shows s' (t_put t c).
Proof.
  intros Hs. unfold putchar, t_put. destruct (c =? 10).
  { rewrite bind_ok. apply newline_shows, Hs. }
  destruct (write_shows s t c Hs) as (v & Hv & Hsh). destruct Hs as [Hs Hcol Hcr].
  cbv zeta. destruct (aset s.(video) _ c) as [w|]; [|done]. rewrite bind_ok in Hv.
  rewrite bind_ok, Hv, bind_ok. rewrite u16_small by lia. cbn [t_col].
  destruct (decide (S (t_col t) = 80%nat)).
  - rewrite (proj2 (Z.leb_le _ _)) by lia. rewrite bind_ok. apply (newline_shows _ _ (Hsh 0)).
  - rewrite (proj2 (Z.leb_gt _ _)) by lia. rewrite bind_ok.
    specialize (Hsh (s.(vga_col) + 1)). pose proof (sh_row_range _ _ Hsh) as H1.
    pose proof (sh_row _ _ Hsh) as H2. unfold hidden in *. simpl in H1, H2 |- *.
    rewrite (proj2 (Z.leb_gt _ _)) by lia. eexists. split; [done|]. split; [done|simpl; lia|simpl; lia].
Qed.

(** ** The screen after start-up *)

Definition boot_term (v : list Z) : term :=
  MkTerm ((λ r, (λ c, (default 0 (v !! (2 * (80 * r + c))%nat),
                       default 0 (v !! S (2 * (80 * r + c))))) <$> seq 0 80) <$> seq 0 25) 0 0.

Lemma lookup_map_seq {A} (f : nat → A) n i : (i < n)%nat → (f <$> seq 0 n) !! i = Some (f i).
Proof. intros Hi. by rewrite list_lookup_fmap, lookup_seq_lt by done. Qed.

Lemma boot_shows v : length v = 4000%nat → shows (MkVga v 0 0) (boot_term v).
Proof.
  intros Hv. split; [|done|simpl; lia].
  assert (length (t_rows (boot_term v)) = 25%nat) as Hl
    by (unfold boot_term; cbn [t_rows]; by rewrite length_fmap, length_seq).
  split; rewrite ?Hl; unfold hidden; rewrite ?Hl; cbn [video vga_row t_row boot_term]; try done; try lia.
  - intros r row Hr. unfold boot_term in Hr. cbn [t_rows] in Hr.
    apply list_lookup_fmap_Some in Hr as (i & -> & _). by rewrite length_fmap, length_seq.
  - intros r c x a Hr Hc Hx. unfold cell, boot_term in Hx. cbn [t_rows] in Hx.
    change (25 - 25 + r)%nat with r in Hx.
    rewrite lookup_map_seq in Hx by lia. cbv [mbind option_bind] in Hx.
    rewrite lookup_map_seq in Hx by lia.
    assert (default 0 (v !! (2 * (80 * r + c))%nat) = x ∧ default 0 (v !! S (2 * (80 * r + c))) = a)
      as [<- <-] by (split; congruence). clear Hx.
    destruct (lookup_lt_is_Some_2 v (2 * (80 * r + c))) as [x Hx]; [lia|].
    destruct (lookup_lt_is_Some_2 v (S (2 * (80 * r + c)))) as [a Ha]; [lia|].
    by rewrite Hx, Ha.
Qed.

(** What is behind the terminator does not matter. *)
Lemma print_cstr s t x rest :
  shows s t → 0 ∉ x → ∃ s', print_to_screen s (x ++ 0 :: rest) = Ok s' ∧ shows s' (t_print t x).
Proof.
  revert s t. induction x as [|c x IH]; intros s t Hs Hx; [by exists s|].
  apply not_elem_of_cons in Hx as [Hc Hx]. simpl.
  rewrite (proj2 (Z.eqb_neq c 0)) by done.
  destruct (putchar_shows s t c Hs) as (s1 & -> & Hs1). rewrite bind_ok. by apply IH.
Qed.

(** ** The property *)

(** C35: the screen is a window on a terminal that keeps every row.
    [print_to_screen] never leaves the text memory, and what it does to the
    cells, the cursor and the rows that scroll away is what printing does to that
    terminal: the screen shows its last 25 rows. *)
Theorem print_refines_terminal s t message x :
  shows s t → cstr message = Some x →
  ∃ s', print_to_screen s message = Ok s' ∧ shows s' (t_print t x).
Proof. intros Hs (Hx & rest & ->)%cstr_inv. by apply print_cstr. Qed.

Lemma print_refines_terminal_witness :
  ∃ s', print_to_screen (MkVga (replicate 4000 0) 0 0) [72; 105; 10; 33; 0] = Ok s' ∧
    shows s' (t_print (boot_term (replicate 4000 0)) [72; 105; 10; 33]).
Proof.
  apply (print_refines_terminal (MkVga (replicate 4000 0) 0 0) (boot_term (replicate 4000 0))
    [72; 105; 10; 33; 0] [72; 105; 10; 33]); [|reflexivity].
  apply boot_shows, length_replicate.
Defined.
