(* ===== verification/Keyboard.v ===== *)
(** * The keyboard driver ([keyboard/keyboard.c]) and [read_line] ([kernel.c])

    [keyboard] holds the static data of the driver.  The byte that [inb] reads
    from the data port of the controller is an argument of the handler, which
    echoes on the screen. *)
From S2P Require Import Prelude CString Vga.

Notation BUFFER_SIZE := 256.

Record keyboard := MkKeyboard {
  input_buffer : list Z;
  input_ready : bool;
  input_line : list Z;
  buffer_index : Z;
  shift_pressed : bool;
  caps_lock_on : bool;
}.

(** The initial values of the static data. *)
Definition boot_keyboard : keyboard :=
  MkKeyboard (replicate 256 0) false (replicate 256 0) 0 false false.

(** [scancode_to_ascii]; the entries that the initialiser leaves out are 0. *)
Definition scancode_to_ascii : list Z :=
  [0; 27; 49; 50; 51; 52; 53; 54;
   55; 56; 57; 48; 45; 61; 8; 9;
   113; 119; 101; 114; 116; 121; 117; 105;
   111; 112; 91; 93; 10; 0; 97; 115;
   100; 102; 103; 104; 106; 107; 108; 59;
   39; 96; 0; 92; 122; 120; 99; 118;
   98; 110; 109; 44; 46; 47; 0; 42;
   0; 32; 0; 0; 0; 0; 0; 0] ++ replicate 64 0.

Definition scancode_to_ascii_shift : list Z :=
  [0; 27; 33; 64; 35; 36; 37; 94;
   38; 42; 40; 41; 95; 43; 8; 9;
   81; 87; 69; 82; 84; 89; 85; 73;
   79; 80; 123; 125; 10; 0; 65; 83;
   68; 70; 71; 72; 74; 75; 76; 58;
   34; 126; 0; 124; 90; 88; 67; 86;
   66; 78; 77; 60; 62; 63; 0; 42;
   0; 32; 0; 0; 0; 0; 0; 0] ++ replicate 64 0.

Definition set_shift (b : bool) (k : keyboard) : keyboard :=
  MkKeyboard k.(input_buffer) k.(input_ready) k.(input_line) k.(buffer_index) b k.(caps_lock_on).
Definition set_caps (b : bool) (k : keyboard) : keyboard :=
  MkKeyboard k.(input_buffer) k.(input_ready) k.(input_line) k.(buffer_index) k.(shift_pressed) b.
Definition set_input (b : list Z) (i : Z) (k : keyboard) : keyboard :=
  MkKeyboard b k.(input_ready) k.(input_line) i k.(shift_pressed) k.(caps_lock_on).

(** [while (src[i] != '\0' && i < limit) { dst[i] = src[i]; i++; }] *)
Definition copy_chars_step (src : list Z) (limit : Z) (st : Z * list Z)
    : res ((Z * list Z) + (Z * list Z)) :=
  let '(i, dst) := st in
  c ← aget src i;
  if negb (c =? 0) && (i <? limit) then
    dst ← aset dst i c; Ok (inl (i + 1, dst))
  else Ok (inr (i, dst)).

(** The loop that copies [input_buffer] to [input_line]. *)
Definition copy_line_step (buffer : list Z) := copy_chars_step buffer BUFFER_SIZE.

(** The key ['\n']. *)
Definition enter_key (k : keyboard) (screen : vga) : res (keyboard * vga) :=
  buffer ← aset k.(input_buffer) k.(buffer_index) 0;
  '(i, line) ← iter (S (Z.to_nat BUFFER_SIZE)) (copy_line_step buffer) (0, k.(input_line));
  line ← aset line i 0;
  screen ← print_to_screen screen [10; 0];
  Ok (MkKeyboard buffer true line 0 k.(shift_pressed) k.(caps_lock_on), screen).

(** The key ['\b']. *)
Definition backspace_key (k : keyboard) (screen : vga) : res (keyboard * vga) :=
  if 0 <? k.(buffer_index) then
    screen ← print_to_screen screen [8; 32; 8; 0];
    Ok (set_input k.(input_buffer) (k.(buffer_index) - 1) k, screen)
  else Ok (k, screen).

(** Any other key. *)
Definition char_key (k : keyboard) (screen : vga) (key : Z) : res (keyboard * vga) :=
  if k.(buffer_index) <? BUFFER_SIZE - 1 then
    buffer ← aset k.(input_buffer) k.(buffer_index) key;
    screen ← print_to_screen screen [key; 0];
    Ok (set_input buffer (k.(buffer_index) + 1) k, screen)
  else Ok (k, screen).

(** The character of a key that was pressed. *)
Definition key_of_scancode (k : keyboard) (scancode : Z) : res Z :=
  key ← (if k.(shift_pressed) then aget scancode_to_ascii_shift scancode
         else aget scancode_to_ascii scancode);
  Ok (if (97 <=? key) && (key <=? 122) && xorb k.(caps_lock_on) k.(shift_pressed)
      then key - 32 else key).

(** [void keyboard_handler()]; [scancode] is what [inb(KBD_DATA_PORT)] reads. *)
Definition keyboard_handler (k : keyboard) (screen : vga) (scancode : Z) : res (keyboard * vga) :=
  if (scancode =? 42) || (scancode =? 54) then Ok (set_shift true k, screen)
  else if (scancode =? 170) || (scancode =? 182) then Ok (set_shift false k, screen)
  else if scancode =? 58 then Ok (set_caps (negb k.(caps_lock_on)) k, screen)
  else if Z.land scancode 128 =? 0 then
    key ← key_of_scancode k scancode;
    if negb (key =? 0) then
      if key =? 10 then enter_key k screen
      else if key =? 8 then backspace_key k screen
      else char_key k screen key
    else Ok (k, screen)
  else Ok (k, screen).

(** The loop of [read_line]. *)
Definition read_line_step (line : list Z) (max_length : Z) := copy_chars_step line (max_length - 1).

(** [void read_line(char *buffer, int max_length)]; [None] while it waits for
    [input_ready]. *)
Definition read_line (k : keyboard) (buffer : list Z) (max_length : Z)
    : res (option (keyboard * list Z)) :=
  if k.(input_ready) then
    '(i, buffer) ← iter (S (Z.to_nat BUFFER_SIZE)) (read_line_step k.(input_line) max_length) (0, buffer);
    buffer ← aset buffer i 0;
    Ok (Some (MkKeyboard k.(input_buffer) false k.(input_line) k.(buffer_index)
                k.(shift_pressed) k.(caps_lock_on), buffer))
  else Ok None.

(** Scancodes that arrive one after another. *)
Fixpoint keyboard_run (k : keyboard) (screen : vga) (codes : list Z) : res (keyboard * vga) :=
  match codes with
  | [] => Ok (k, screen)
  | c :: t => '(k, screen) ← keyboard_handler k screen c; keyboard_run k screen t
  end.

(** ** A line editor

    What the driver is meant to be: keys act on a line of text, and [KEnter]
    hands it over. *)

Inductive key :=
| KShift (down : bool)
| KCaps
| KEnter
| KBackspace
| KChar (c : Z)
| KNone.

Record editor := MkEditor {
  ed_text : list Z;
  ed_line : option (list Z);
  ed_shift : bool;
  ed_caps : bool;
}.

Definition is_lower (c : Z) : bool := (97 <=? c) && (c <=? 122).

(** The key a scancode stands for. *)
Definition decode (e : editor) (scancode : Z) : key :=
  if bool_decide (scancode ∈ [42; 54]) then KShift true
  else if bool_decide (scancode ∈ [170; 182]) then KShift false
  else if scancode =? 58 then KCaps
  else if 128 <=? scancode then KNone
  else
    let table := if e.(ed_shift) then scancode_to_ascii_shift else scancode_to_ascii in
    let c := default 0 (table !! Z.to_nat scancode) in
    if c =? 0 then KNone else if c =? 10 then KEnter else if c =? 8 then KBackspace
    else KChar (if is_lower c && e.(ed_caps) then c - 32 else c).

(** The new state of the editor and what it echoes. *)
Definition edit (e : editor) (k : key) : editor * list Z :=
  let '(MkEditor text line shift caps) := e in
  match k with
  | KShift b => (MkEditor text line b caps, [])
  | KCaps => (MkEditor text line shift (negb caps), [])
  | KEnter => (MkEditor [] (Some text) shift caps, [10])
  | KBackspace =>
      match text with
      | [] => (e, [])
      | _ => (MkEditor (removelast text) line shift caps, [8; 32; 8])
      end
  | KChar c =>
      if decide (length text < 255)%nat
      then (MkEditor (text ++ [c]) line shift caps, [c]) else (e, [])
  | KNone => (e, [])
  end.

Fixpoint edit_run (e : editor) (codes : list Z) : editor * list Z :=
  match codes with
  | [] => (e, [])
  | c :: t =>
      let '(e, echo) := edit e (decode e c) in
      let '(e, echo') := edit_run e t in (e, echo ++ echo')
  end.

(** ** The driver is that editor *)

Record edits (k : keyboard) (e : editor) : Prop := {
  es_buffer : length k.(input_buffer) = 256%nat;
  es_length : length k.(input_line) = 256%nat;
  es_index : k.(buffer_index) = Z.of_nat (length e.(ed_text));
  es_range : (length e.(ed_text) ≤ 255)%nat;
  es_text : take (length e.(ed_text)) k.(input_buffer) = e.(ed_text);
  es_zero : 0 ∉ e.(ed_text);
  es_shift : k.(shift_pressed) = e.(ed_shift);
  es_caps : k.(caps_lock_on) = e.(ed_caps);
  es_ready : k.(input_ready) = bool_decide (is_Some e.(ed_line));
  es_line : ∀ line, e.(ed_line) = Some line → cstr k.(input_line) = Some line;
}.

#[export] Instance key_eq_dec : EqDecision key.
Proof. solve_decision. Defined.

Definition classify (c : Z) : key :=
  if c =? 0 then KNone else if c =? 10 then KEnter else if c =? 8 then KBackspace
  else KChar c.

(** The tables and the shift and caps lock flags, code by code. *)
Lemma key_decode k e c :
  k.(shift_pressed) = e.(ed_shift) → k.(caps_lock_on) = e.(ed_caps) →
  0 ≤ c < 128 → c ∉ [42; 54; 58] →
  ∃ key, key_of_scancode k c = Ok key ∧ decode e c = classify key.
Proof.
  destruct k as [ib rd il bi sh cp], e as [tx ln sh' cp']. simpl. intros -> -> Hc Hne.
  set (P := λ c, c ∉ [42; 54; 58] →
    classify <$> key_of_scancode (MkKeyboard [] false [] 0 sh' cp') c =
      Ok (decode (MkEditor [] None sh' cp') c)).
  assert (Forall P (seqZ 0 128)) as HP.
  { apply (bool_decide_eq_true_1 _). unfold P. destruct sh', cp'; vm_compute; reflexivity. }
  rewrite Forall_forall in HP. specialize (HP c ltac:(apply elem_of_seqZ; lia) Hne).
  change (key_of_scancode (MkKeyboard ib rd il bi sh' cp') c)
    with (key_of_scancode (MkKeyboard [] false [] 0 sh' cp') c).
  change (decode (MkEditor tx ln sh' cp') c) with (decode (MkEditor [] None sh' cp') c).
  destruct (key_of_scancode _ c) as [key|]; [|done]. exists key. split; [done|].
  by injection HP as <-.
Qed.

Lemma land_128 c : 0 ≤ c < 256 → (Z.land c 128 =? 0) = (c <? 128).
Proof.
  intros Hc. assert (Forall (λ c, (Z.land c 128 =? 0) = (c <? 128)) (seqZ 0 256)) as H
    by (apply (bool_decide_eq_true_1 _); vm_compute; reflexivity).
  rewrite Forall_forall in H. apply H, elem_of_seqZ. lia.
Qed.

(** ** The copy loops *)

Lemma copy_chars_loop src x limit dst fuel :
  let n := (length x `min` Z.to_nat limit)%nat in
  cstr src = Some x → 0 ≤ limit → (n < fuel)%nat → (n ≤ length dst)%nat →
  iter fuel (copy_chars_step src limit) (0, dst) = Ok (Z.of_nat n, splice dst 0 (take n x)).
Proof.
  intros n Hx Hlim Hf Hd. apply cstr_inv in Hx as (Hx0 & rest & ->).
  destruct (iter_inv (λ '(i, d), ∃ j : nat, i = Z.of_nat j ∧ (j ≤ n)%nat ∧ d = splice dst 0 (take j x))
    (λ r, r = (Z.of_nat n, splice dst 0 (take n x))) (λ '(i, _), n - Z.to_nat i)%nat
    (copy_chars_step (x ++ 0 :: rest) limit) fuel (0, dst)) as (r & -> & ->); [| | |done].
  - exists O. split; [done|]. split; [lia|]. by rewrite take_0, splice_nil.
  - lia.
  - intros [i d] (j & -> & Hj & ->). unfold copy_chars_step.
    destruct (decide (j < length x)%nat) as [Hjx|Hjx].
    + destruct (lookup_lt_is_Some_2 x j Hjx) as [c Hc].
      assert (c ≠ 0) as Hc0 by (intros ->; apply Hx0; by eapply list_elem_of_lookup_2).
      rewrite (aget_nat _ j c), bind_ok by (by rewrite lookup_app_l by lia).
      rewrite (proj2 (Z.eqb_neq c 0)) by done. destruct (Z.ltb_spec (Z.of_nat j) limit); cbn [negb andb].
      * left. rewrite aset_ok, bind_ok
          by (rewrite length_splice; rewrite ?length_take; lia).
        eexists. split; [done|]. split; [|lia]. exists (S j). split; [lia|]. split; [lia|].
        rewrite Nat2Z.id, (take_S_r _ _ c) by done.
        rewrite <-splice_snoc by (rewrite length_take; lia).
        rewrite length_take. f_equal. lia.
      * right. eexists. split; [done|]. replace n with j by lia. done.
    + right. assert (j = length x) as -> by lia.
      rewrite (aget_nat _ (length x) 0), bind_ok by (by apply list_lookup_middle). simpl.
      eexists. split; [done|]. by replace n with (length x) by lia.
Qed.

Lemma splice_snoc_0 {A} (l : list A) x c :
  (length x < length l)%nat → <[length x := c]> (splice l 0 x) = splice l 0 (x ++ [c]).
Proof. intros H. by rewrite <-(splice_snoc l 0) by lia. Qed.

Lemma cstr_splice l x : 0 ∉ x → cstr (splice l 0 (x ++ [0])) = Some x.
Proof.
  intros Hx. unfold splice. rewrite take_0, app_nil_l, <-(assoc_L (++)). by apply cstr_app.
Qed.

(** ** The handler *)

Lemma print_ok s t x :
  shows s t → 0 ∉ x → ∃ s', print_to_screen s (x ++ [0]) = Ok s' ∧ shows s' (t_print t x).
Proof. apply print_cstr. Qed.

Section handler.
Context (k : keyboard) (e : editor) (s : vga) (t : term).
Context (He : edits k e) (Hs : shows s t).

Lemma enter_ok :
  ∃ k' s', enter_key k s = Ok (k', s') ∧
    edits k' (MkEditor [] (Some e.(ed_text)) e.(ed_shift) e.(ed_caps)) ∧
    shows s' (t_print t [10]).
Proof.
  destruct He. unfold enter_key, copy_line_step. rewrite aset_ok, bind_ok by lia.
  assert (cstr (<[Z.to_nat (buffer_index k) := 0]> (input_buffer k)) = Some (ed_text e)) as Hx.
  { rewrite insert_take_drop by lia. rewrite es_index0, Nat2Z.id, es_text0. by apply cstr_app. }
  rewrite (copy_chars_loop _ (ed_text e)), bind_ok by (done || lia).
  replace (length (ed_text e) `min` Z.to_nat 256)%nat with (length (ed_text e)) by lia.
  rewrite firstn_all, aset_ok, bind_ok by (rewrite length_splice; lia).
  rewrite Nat2Z.id, splice_snoc_0 by lia.
  destruct (print_ok s t [10] Hs) as (s' & E & Hs');
    [apply not_elem_of_cons; split; [done|apply not_elem_of_nil]|].
  simpl app in E. rewrite E, bind_ok. eexists _, s'. split; [done|]. split; [|done].
  split; cbn [input_buffer input_ready input_line buffer_index shift_pressed caps_lock_on
              ed_text ed_line ed_shift ed_caps]; try done; try (simpl; lia).
  - by rewrite length_insert.
  - rewrite length_splice; [done|]. rewrite length_app. simpl. lia.
  - apply not_elem_of_nil.
  - intros line [= <-]. by apply cstr_splice.
Qed.

Lemma backspace_ok :
  ∃ k' s', backspace_key k s = Ok (k', s') ∧ edits k' (edit e KBackspace).1 ∧
    shows s' (t_print t (edit e KBackspace).2).
Proof.
  destruct He. unfold backspace_key. destruct e as [text line sh cp].
  cbn [ed_text ed_line ed_shift ed_caps] in *.
  destruct text as [|d text _] using rev_ind.
  { rewrite (proj2 (Z.ltb_ge _ _)) by (simpl in *; lia). exists k, s. by split_and!. }
  assert (edit (MkEditor (text ++ [d]) line sh cp) KBackspace =
    (MkEditor text line sh cp, [8; 32; 8])) as ->.
  { simpl. rewrite removelast_last. by destruct text. }
  rewrite length_app in *. simpl length in *. rewrite (proj2 (Z.ltb_lt _ _)) by lia.
  destruct (print_ok s t [8; 32; 8] Hs) as (s' & E & Hs');
    [repeat (apply not_elem_of_cons; split; [done|]); apply not_elem_of_nil|].
  simpl app in E. rewrite E, bind_ok. eexists _, s'. split; [done|]. split; [|done].
  split; cbn [set_input input_buffer input_ready input_line buffer_index shift_pressed caps_lock_on
              ed_text ed_line ed_shift ed_caps fst]; try done; try lia.
  - apply (f_equal (take (length text))) in es_text0.
    rewrite take_take, take_app_length in es_text0.
    by replace (length text `min` (length text + 1))%nat with (length text) in es_text0 by lia.
  - intros H. apply es_zero0. apply elem_of_app. by left.
Qed.

Lemma char_ok c :
  c ≠ 0 →
  ∃ k' s', char_key k s c = Ok (k', s') ∧ edits k' (edit e (KChar c)).1 ∧
    shows s' (t_print t (edit e (KChar c)).2).
Proof.
  intros Hc. destruct He. unfold char_key. destruct e as [text line sh cp].
  cbn [ed_text ed_line ed_shift ed_caps edit] in *.
  destruct (decide (length text < 255)%nat).
  2:{ rewrite (proj2 (Z.ltb_ge _ _)) by lia. exists k, s. by split_and!. }
  rewrite (proj2 (Z.ltb_lt _ _)), aset_ok, bind_ok by lia.
  destruct (print_ok s t [c] Hs) as (s' & E & Hs');
    [apply not_elem_of_cons; split; [done|apply not_elem_of_nil]|].
  simpl app in E. rewrite E, bind_ok. eexists _, s'. split; [done|]. split; [|done]. cbn [fst].
  split; cbn [set_input input_buffer input_ready input_line buffer_index shift_pressed caps_lock_on
              ed_text ed_line ed_shift ed_caps]; rewrite ?length_app, ?length_insert; simpl; try done; try lia.
  - rewrite es_index0, Nat2Z.id, Nat.add_1_r.
    rewrite (take_S_r _ _ c) by (apply list_lookup_insert_eq; lia).
    rewrite take_insert_ge by lia. by rewrite es_text0.
  - rewrite elem_of_app, list_elem_of_singleton. intros [?|?]; [done|congruence].
Qed.
End handler.

Lemma edits_flags k e sh cp :
  edits k e → edits (set_shift sh (set_caps cp k)) (MkEditor e.(ed_text) e.(ed_line) sh cp).
Proof. by intros []. Qed.

Lemma eqb_two c a b : (c =? a) || (c =? b) = bool_decide (c ∈ [a; b]).
Proof.
  destruct (Z.eqb_spec c a) as [->|Ha]; [by rewrite bool_decide_eq_true_2 by (by left)|].
  destruct (Z.eqb_spec c b) as [->|Hb]; simpl.
  - by rewrite bool_decide_eq_true_2 by (right; by left).
  - rewrite bool_decide_eq_false_2; [done|].
    intros [?|H%list_elem_of_singleton]%elem_of_cons; done.
Qed.

(** One scancode. *)
Lemma handler_ok k e s t c :
  edits k e → shows s t → 0 ≤ c < 256 →
  ∃ k' s', keyboard_handler k s c = Ok (k', s') ∧ edits k' (edit e (decode e c)).1 ∧
    shows s' (t_print t (edit e (decode e c)).2).
Proof.
  intros He Hs Hc. unfold keyboard_handler. rewrite !eqb_two, land_128 by done.
  assert (∀ sh cp, edits (set_shift sh (set_caps cp k)) (MkEditor e.(ed_text) e.(ed_line) sh cp))
    as Hflags by (intros; by apply edits_flags).
  pose proof (es_shift _ _ He) as Hsh. pose proof (es_caps _ _ He) as Hcp.
  destruct (decide (c ∈ [42; 54])) as [H1|H1].
  { unfold decode. rewrite !(bool_decide_eq_true_2 _ H1).
    eexists _, s. split; [done|]. destruct e. split; [|done]. specialize (Hflags true k.(caps_lock_on)).
    simpl in *. rewrite Hcp in Hflags. by destruct k; simpl in *; subst. }
  destruct (decide (c ∈ [170; 182])) as [H2|H2].
  { unfold decode. rewrite !(bool_decide_eq_false_2 _ H1), !(bool_decide_eq_true_2 _ H2).
    eexists _, s. split; [done|]. destruct e. split; [|done]. specialize (Hflags false k.(caps_lock_on)).
    simpl in *. rewrite Hcp in Hflags. by destruct k; simpl in *; subst. }
  rewrite (bool_decide_eq_false_2 _ H1), (bool_decide_eq_false_2 _ H2).
  destruct (Z.eqb_spec c 58) as [->|H3].
  { eexists _, s. split; [done|]. destruct e. split; [|done].
    specialize (Hflags k.(shift_pressed) (negb k.(caps_lock_on))).
    simpl in *. rewrite Hsh, Hcp in Hflags. by destruct k; simpl in *; subst. }
  destruct (Z.ltb_spec c 128) as [H4|H4].
  2:{ unfold decode. rewrite (bool_decide_eq_false_2 _ H1), (bool_decide_eq_false_2 _ H2).
      rewrite (proj2 (Z.eqb_neq c 58)), (proj2 (Z.leb_le _ _)) by done.
      exists k, s. by destruct e. }
  destruct (key_decode k e c Hsh Hcp) as (key & -> & ->); [lia| |].
  { intros [?|[?|?%list_elem_of_singleton]%elem_of_cons]%elem_of_cons; subst; [|..|done];
      apply H1; [by left|by right; left]. }
  rewrite bind_ok. unfold classify. destruct (Z.eqb_spec key 0) as [->|H0].
  { exists k, s. by destruct e. }
  cbn [negb]. destruct (key =? 10).
  { destruct (enter_ok k e s t He Hs) as (k' & s' & H). exists k', s'. by destruct e. }
  destruct (key =? 8); [by apply backspace_ok|by apply char_ok].
Qed.

Lemma boot_edits : edits boot_keyboard (MkEditor [] None false false).
Proof. split; try done. - simpl. lia. - apply not_elem_of_nil. Qed.

Lemma keyboard_run_ok k e s t codes :
  edits k e → shows s t → Forall (λ c, 0 ≤ c < 256) codes →
  ∃ k' s', keyboard_run k s codes = Ok (k', s') ∧ edits k' (edit_run e codes).1 ∧
    shows s' (t_print t (edit_run e codes).2).
Proof.
  intros He Hs Hc. revert k e s t He Hs. induction Hc as [|c codes Hc _ IH]; intros k e s t He Hs.
  { by exists k, s. }
  destruct (handler_ok k e s t c He Hs Hc) as (k1 & s1 & H1 & He1 & Hs1).
  simpl. rewrite H1, bind_ok. destruct (edit e (decode e c)) as [e1 echo]. simpl in He1, Hs1.
  destruct (IH k1 e1 s1 _ He1 Hs1) as (k2 & s2 & H2 & He2 & Hs2). exists k2, s2.
  destruct (edit_run e1 codes) as [e2 echo2]. simpl in *. split; [done|]. split; [done|].
  unfold t_print in *. by rewrite foldl_app.
Qed.

(** C32: the keyboard driver is a line editor.  Whatever scancodes arrive, the
    handler stays inside its buffers, its data stands for the edited line (at
    most 255 characters), the last line that was entered and the shift and caps
    lock flags, and the screen shows the echo. *)
Theorem keyboard_refines_editor k e s t codes :
  edits k e → shows s t → Forall (λ c, 0 ≤ c < 256) codes →
  ∃ k' s', keyboard_run k s codes = Ok (k', s') ∧ edits k' (edit_run e codes).1 ∧
    shows s' (t_print t (edit_run e codes).2).
Proof. apply keyboard_run_ok. Qed.

Lemma read_line_ok k e buffer max_length line :
  edits k e → e.(ed_line) = Some line → 1 ≤ max_length ≤ Z.of_nat (length buffer) →
  ∃ k', read_line k buffer max_length =
      Ok (Some (k', splice buffer 0 (take (Z.to_nat (max_length - 1)) line ++ [0]))) ∧
    edits k' (MkEditor e.(ed_text) None e.(ed_shift) e.(ed_caps)).
Proof.
  intros [] Hline Hmax. unfold read_line, read_line_step.
  rewrite es_ready0, bool_decide_eq_true_2 by (by rewrite Hline).
  pose proof (es_line0 line Hline) as Hx. pose proof (cstr_length _ _ Hx).
  rewrite (copy_chars_loop _ line), bind_ok by (done || lia).
  assert (take (length line `min` Z.to_nat (max_length - 1)) line =
    take (Z.to_nat (max_length - 1)) line) as E.
  { destruct (decide (Z.to_nat (max_length - 1) ≤ length line)%nat).
    - f_equal. lia.
    - rewrite !take_ge by lia. done. }
  rewrite E, aset_ok, bind_ok by (rewrite length_splice; rewrite ?length_take; lia).
  rewrite Nat2Z.id.
  replace (length line `min` Z.to_nat (max_length - 1))%nat
    with (length (take (Z.to_nat (max_length - 1)) line)) by (rewrite length_take; lia).
  rewrite splice_snoc_0 by (rewrite length_take; lia).
  eexists. split; [done|]. by split.
Qed.

(** ** Typing a line *)

(** The scancode of a character that needs neither shift nor caps lock. *)
Definition scancode_of (c : Z) : Z :=
  match list_find (eq c) scancode_to_ascii with Some (i, _) => Z.of_nat i | None => 0 end.

Definition typeable (c : Z) : Prop := c ∈ scancode_to_ascii ∧ c ∉ [0; 8; 10].

Lemma typeable_decode text line c :
  typeable c → 0 ≤ scancode_of c < 256 ∧
    decode (MkEditor text line false false) (scancode_of c) = KChar c.
Proof.
  intros [H1 H2]. assert (Forall (λ c, c ∉ [0; 8; 10] → 0 ≤ scancode_of c < 256 ∧
    decode (MkEditor [] None false false) (scancode_of c) = KChar c) scancode_to_ascii) as H
    by (apply (bool_decide_eq_true_1 _); vm_compute; reflexivity).
  rewrite Forall_forall in H. exact (H c H1 H2).
Qed.

(** What typing a line shows on the screen. *)
Lemma typing_echo text line x :
  Forall typeable x → (length text + length x ≤ 255)%nat →
  edit_run (MkEditor text line false false) ((scancode_of <$> x) ++ [28]) =
    (MkEditor [] (Some (text ++ x)) false false, x ++ [10]).
Proof.
  intros Hx. revert text. induction Hx as [|c x Hc _ IH]; intros text Hl.
  { by rewrite app_nil_r. }
  destruct (typeable_decode text line c Hc) as [_ Hd]. simpl length in Hl.
  simpl. rewrite Hd. simpl. rewrite decide_True by lia. specialize (IH (text ++ [c])).
  rewrite length_app in IH. simpl in IH. specialize (IH ltac:(lia)).
  destruct (edit_run _ _) as [e' echo']. injection IH as -> ->. by rewrite <-(assoc_L (++)).
Qed.

Lemma typing text line x :
  Forall typeable x → (length text + length x ≤ 255)%nat →
  (edit_run (MkEditor text line false false) ((scancode_of <$> x) ++ [28])).1 =
    MkEditor [] (Some (text ++ x)) false false.
Proof. intros Hx Hl. by rewrite (typing_echo text line x Hx Hl). Qed.

(** C33: what is typed is what is read.  Typing the keys of a line and Enter
    makes [read_line] return the line, cut to one character less than the buffer
    it was given; before that, it waits. *)
Theorem type_then_read k s t x buffer max_length :
  edits k (MkEditor [] None false false) → shows s t → Forall typeable x →
  (length x ≤ 255)%nat → 1 ≤ max_length ≤ Z.of_nat (length buffer) →
  read_line k buffer max_length = Ok None ∧
  ∃ k' k'' s', keyboard_run k s ((scancode_of <$> x) ++ [28]) = Ok (k', s') ∧
    read_line k' buffer max_length =
      Ok (Some (k'', splice buffer 0 (take (Z.to_nat (max_length - 1)) x ++ [0]))) ∧
    edits k'' (MkEditor [] None false false).
Proof.
  intros He Hs Hx Hl Hmax. split.
  { unfold read_line. by rewrite (es_ready _ _ He). }
  destruct (keyboard_run_ok k _ s t ((scancode_of <$> x) ++ [28]) He Hs)
    as (k' & s' & Hrun & He' & _).
  { apply Forall_app. split; [|by repeat constructor].
    apply Forall_fmap. eapply Forall_impl; [exact Hx|]. intros c Hc.
    apply (typeable_decode [] None c Hc). }
  rewrite (typing [] None x Hx Hl) in He'. simpl in He'.
  destruct (read_line_ok k' _ buffer max_length x He' eq_refl Hmax) as (k'' & Hr & He'').
  by exists k', k'', s'.
Qed.

(** C34: the echo of Backspace does not erase.  [putchar] has no case for
    [''], so when a character is deleted from the line, the cursor of the
    screen moves three cells to the right, over the glyphs 8, 32 and 8. *)
Theorem backspace_moves_forward k e s t :
  edits k e → shows s t → e.(ed_text) ≠ [] → (t.(t_col) < 77)%nat →
  ∃ k' s', keyboard_handler k s 14 = Ok (k', s') ∧
    edits k' (MkEditor (removelast e.(ed_text)) e.(ed_line) e.(ed_shift) e.(ed_caps)) ∧
    s'.(vga_row) = s.(vga_row) ∧ s'.(vga_col) = s.(vga_col) + 3.
Proof.
  intros He Hs Hne Hcol.
  destruct (handler_ok k e s t 14 He Hs ltac:(lia)) as (k' & s' & Hr & He' & Hs').
  exists k', s'. split; [done|].
  assert (edit e (decode e 14) = (MkEditor (removelast e.(ed_text)) e.(ed_line) e.(ed_shift)
    e.(ed_caps), [8; 32; 8])) as E.
  { assert (decode e 14 = KBackspace) as -> by (destruct e as [? ? [] []]; reflexivity).
    destruct e as [[|]]; [done|reflexivity]. }
  rewrite E in He', Hs'. split; [done|].
  assert (∀ t c, c ≠ 10 → (t_col t < 79)%nat →
    t_put t c = MkTerm (alter <[t.(t_col) := (c, 7)]> t.(t_row) t.(t_rows)) t.(t_row) (S t.(t_col)))
    as Hput.
  { intros t0 c H1 H2. unfold t_put. rewrite (proj2 (Z.eqb_neq c 10)) by done. cbn [t_col].
    by rewrite decide_False by lia. }
  cbn [t_print foldl snd] in Hs'. rewrite (Hput t 8) in Hs' by lia.
  rewrite (Hput _ 32) in Hs' by (cbn [t_col]; lia). rewrite (Hput _ 8) in Hs' by (cbn [t_col]; lia).
  destruct Hs' as [Hall Hc' _], Hs as [Hall0 Hc0 _]. pose proof (sh_row _ _ Hall) as R.
  pose proof (sh_row _ _ Hall0) as R0. unfold hidden in R, R0. simpl in R, Hc'.
  rewrite !length_alter in R. split; lia.
Qed.

(** ** At start-up *)

Definition boot_screen : vga := MkVga (replicate 4000 0) 0 0.

Lemma boot_screen_shows : shows boot_screen (boot_term (replicate 4000 0)).
Proof. apply boot_shows, length_replicate. Qed.

Lemma keyboard_refines_editor_witness :
  let codes := [42; 35; 170; 23; 14; 24; 28] in
  let e := MkEditor [] None false false in
  ∃ k' s', keyboard_run boot_keyboard boot_screen codes = Ok (k', s') ∧
    edits k' (edit_run e codes).1 ∧
    shows s' (t_print (boot_term (replicate 4000 0)) (edit_run e codes).2).
Proof.
  apply (keyboard_refines_editor boot_keyboard (MkEditor [] None false false) boot_screen
    (boot_term (replicate 4000 0)) [42; 35; 170; 23; 14; 24; 28] boot_edits boot_screen_shows).
  repeat constructor; lia.
Defined.

Lemma type_then_read_witness :
  read_line boot_keyboard (replicate 128 7) 128 = Ok None ∧
  ∃ k' k'' s', keyboard_run boot_keyboard boot_screen ((scancode_of <$> [108; 115]) ++ [28]) = Ok (k', s') ∧
    read_line k' (replicate 128 7) 128 =
      Ok (Some (k'', splice (replicate 128 7) 0 (take (Z.to_nat (128 - 1)) [108; 115] ++ [0]))) ∧
    edits k'' (MkEditor [] None false false).
Proof.
  apply (type_then_read boot_keyboard boot_screen (boot_term (replicate 4000 0)) [108; 115]
    (replicate 128 7) 128 boot_edits boot_screen_shows);
    [|simpl; lia|rewrite length_replicate; lia].
  repeat constructor; try (apply (bool_decide_eq_true_1 _); vm_compute; reflexivity).
Defined.

Lemma backspace_moves_forward_witness :
  ∃ k s e t, edits k e ∧ shows s t ∧ ∃ k' s', keyboard_handler k s 14 = Ok (k', s') ∧
    edits k' (MkEditor (removelast e.(ed_text)) e.(ed_line) e.(ed_shift) e.(ed_caps)) ∧
    s'.(vga_row) = s.(vga_row) ∧ s'.(vga_col) = s.(vga_col) + 3.
Proof.
  destruct (handler_ok boot_keyboard _ boot_screen _ 30 boot_edits boot_screen_shows ltac:(lia))
    as (k & s & _ & He & Hs).
  change (edit _ (decode _ 30)) with (MkEditor [97] None false false, [97]) in He, Hs.
  exists k, s, (MkEditor [97] None false false), (t_print (boot_term (replicate 4000 0)) [97]).
  split; [done|]. split; [done|].
  apply (backspace_moves_forward k (MkEditor [97] None false false) s
    (t_print (boot_term (replicate 4000 0)) [97]) He Hs); [done|].
  clear. unfold t_print. simpl foldl. unfold t_put. simpl. lia.
Defined.
