(* ===== verification/Strtok.v ===== *)
(** * [strtok] ([keyboard/string.c])

    A token is a pointer into the buffer of the caller, which [strtok] cuts
    into C strings; a pointer into the buffer is an index.  The reference is
    [words], which splits a list of characters. *)
From S2P Require Import Prelude CString.

(** The buffer of the caller and the static pointer; [None] is [NULL]. *)
Record strtok_state := MkStrtok { str_buf : list Z; static_str : option Z }.

(** The body of the two loops: [static_str] moves on while it is at a
    character that is ([want]) or is not a delimiter. *)
Definition strtok_step (want : bool) (delim buf : list Z) (p : Z) : res (Z + Z) :=
  c ← aget buf p;
  if c =? 0 then Ok (inr p)
  else
    found ← strchr delim c;
    Ok (if eqb want (bool_decide (is_Some found)) then inl (p + 1) else inr p).

(** [char *strtok(char *str, const char *delim)] *)
Definition strtok (s : strtok_state) (str : option Z) (delim : list Z)
    : res (option Z * strtok_state) :=
  let buf := s.(str_buf) in
  match (match str with Some p => Some p | None => s.(static_str) end) with
  | None => Ok (None, s)
  | Some p =>
      p ← iter (S (length buf)) (strtok_step true delim buf) p;
      c ← aget buf p;
      if c =? 0 then Ok (None, MkStrtok buf (Some p))
      else
        let token := p in
        p ← iter (S (length buf)) (strtok_step false delim buf) p;
        c ← aget buf p;
        if negb (c =? 0) then
          buf ← aset buf p 0;
          Ok (Some token, MkStrtok buf (Some (p + 1)))
        else Ok (Some token, MkStrtok buf (Some p))
  end.

(** [strtok(str, delim)], then [strtok(NULL, delim)] until it returns [NULL];
    the tokens in order.  Every token has a character of its own, so the length
    of the buffer is fuel enough. *)
Fixpoint strtok_all (fuel : nat) (s : strtok_state) (str : option Z) (delim : list Z)
    : res (list Z * strtok_state) :=
  match fuel with
  | O => Err OutOfFuel
  | S fuel =>
      '(token, s) ← strtok s str delim;
      match token with
      | None => Ok ([], s)
      | Some p => '(ps, s) ← strtok_all fuel s None delim; Ok (p :: ps, s)
      end
  end.

(** ** The reference *)

(** The words of [x] between characters of [d]; [cur] is the word so far. *)
Fixpoint words_from (d cur x : list Z) : list (list Z) :=
  match x with
  | [] => if decide (cur = []) then [] else [cur]
  | c :: x =>
      if decide (c ∈ d) then (if decide (cur = []) then [] else [cur]) ++ words_from d [] x
      else words_from d (cur ++ [c]) x
  end.
Definition words (d x : list Z) : list (list Z) := words_from d [] x.

(** The longest prefix of characters in, or not in, [d], and the rest. *)
Fixpoint prefix (want : bool) (d x : list Z) : list Z :=
  match x with
  | [] => []
  | c :: x => if eqb want (bool_decide (c ∈ d)) then c :: prefix want d x else []
  end.
Fixpoint beyond (want : bool) (d x : list Z) : list Z :=
  match x with
  | [] => []
  | c :: t => if eqb want (bool_decide (c ∈ d)) then beyond want d t else x
  end.

(** The first word and what is left behind the delimiter after it. *)
Definition next_word (d x : list Z) : option (list Z * list Z) :=
  match beyond true d x with
  | [] => None
  | y => Some (prefix false d y, tail (beyond false d y))
  end.

Lemma prefix_beyond want d x : x = prefix want d x ++ beyond want d x.
Proof. induction x as [|c x IH]; [done|]. simpl. destruct (eqb _ _); [|done]. simpl. by rewrite <-IH. Qed.

Lemma beyond_head want d x c t : beyond want d x = c :: t → eqb want (bool_decide (c ∈ d)) = false.
Proof.
  induction x as [|y x IH]; [done|]. simpl. destruct (eqb want (bool_decide (y ∈ d))) eqn:E; [done|].
  by intros [= -> ->].
Qed.

Lemma beyond_suffix want d x : ∃ y, x = y ++ beyond want d x.
Proof. exists (prefix want d x). apply prefix_beyond. Qed.

Lemma words_from_prefix d cur x :
  words_from d cur x =
    match cur ++ prefix false d x with
    | [] => words_from d [] (tail (beyond false d x))
    | w => w :: words_from d [] (tail (beyond false d x))
    end.
Proof.
  revert cur. induction x as [|c x IH]; intros cur; simpl.
  { rewrite app_nil_r. destruct cur; [done|by rewrite decide_False]. }
  case_bool_decide as Hc; simpl.
  - rewrite decide_True, app_nil_r by done. destruct cur; [done|by rewrite decide_False].
  - rewrite decide_False by done. rewrite IH, <-(assoc_L (++)). done.
Qed.

(** The words, one at a time. *)
Lemma words_next d x :
  words d x = match next_word d x with None => [] | Some (w, r) => w :: words d r end.
Proof.
  unfold words, next_word. induction x as [|c x IH]; [done|]. simpl.
  case_bool_decide as Hc; simpl; [rewrite decide_True by done; exact IH|].
  rewrite decide_False by done. rewrite words_from_prefix. by rewrite !(bool_decide_eq_false_2 _ Hc).
Qed.

Lemma next_word_nil d x w r : next_word d x = Some (w, r) → w ≠ [] ∧ (length r < length x)%nat.
Proof.
  unfold next_word. destruct (beyond true d x) as [|c t] eqn:E; [done|]. intros [= <- <-].
  pose proof (beyond_head _ _ _ _ _ E) as Hc. destruct (bool_decide (c ∈ d)) eqn:Ec; [done|].
  simpl. split; [done|].
  destruct (beyond_suffix true d x) as [y Hy]. rewrite E in Hy. rewrite Hy, length_app. simpl.
  destruct (beyond_suffix false d t) as [z Hz]. apply (f_equal length) in Hz.
  rewrite length_app in Hz. destruct (beyond false d t); simpl in *; lia.
Qed.

(** ** The loops *)

Lemma strchr_spec delim d c :
  cstr delim = Some d → c ≠ 0 → ∃ o, strchr delim c = Ok o ∧ (is_Some o ↔ c ∈ d).
Proof.
  revert d. induction delim as [|y delim IH]; intros d Hd Hc; [done|]. simpl in *.
  destruct (Z.eqb_spec y 0).
  - injection Hd as <-. exists None. split; [done|]. split; [by intros []|by intros ?%not_elem_of_nil].
  - destruct (cstr delim) as [d'|]; [|done]. injection Hd as <-.
    destruct (Z.eqb_spec y c) as [->|Hne].
    + eexists. split; [done|]. split; [by left|done].
    + destruct (IH d' eq_refl Hc) as (o & -> & Ho). exists o. split; [done|]. rewrite Ho.
      rewrite elem_of_cons. naive_solver.
Qed.

Lemma aget_app {A} (l1 : list A) x l2 : aget (l1 ++ x :: l2) (Z.of_nat (length l1)) = Ok x.
Proof. apply aget_lookup; [lia|]. rewrite Nat2Z.id, lookup_app_r, Nat.sub_diag by lia. done. Qed.

Lemma strtok_step_eq want delim d pre c t :
  cstr delim = Some d → c ≠ 0 →
  strtok_step want delim (pre ++ c :: t) (Z.of_nat (length pre)) =
    Ok (if eqb want (bool_decide (c ∈ d)) then inl (Z.of_nat (length pre) + 1)
        else inr (Z.of_nat (length pre))).
Proof.
  intros Hd Hc. unfold strtok_step. rewrite aget_app, bind_ok.
  rewrite (proj2 (Z.eqb_neq c 0)) by done.
  destruct (strchr_spec delim d c Hd Hc) as (o & -> & Ho). rewrite bind_ok.
  by rewrite (bool_decide_ext _ _ Ho).
Qed.

Lemma strtok_loop want delim d pre x post fuel :
  cstr delim = Some d → 0 ∉ x → (length x < fuel)%nat →
  iter fuel (strtok_step want delim (pre ++ x ++ 0 :: post)) (Z.of_nat (length pre)) =
    Ok (Z.of_nat (length (pre ++ prefix want d x))).
Proof.
  intros Hd. revert pre fuel. induction x as [|c x IH]; intros pre fuel Hx Hf;
    (destruct fuel as [|fuel]; [simpl in Hf; lia|]); rewrite iter_S.
  - simpl. unfold strtok_step. by rewrite aget_app, app_nil_r.
  - apply not_elem_of_cons in Hx as [Hc Hx]. simpl app.
    rewrite (strtok_step_eq _ _ _ _ _ _ Hd) by congruence. rewrite bind_ok. simpl.
    destruct (eqb _ _); [|by rewrite app_nil_r].
    specialize (IH (pre ++ [c]) fuel Hx ltac:(simpl in Hf; lia)).
    rewrite length_app in IH. simpl in IH. rewrite <-(assoc_L (++)) in IH. simpl in IH.
    replace (Z.of_nat (length pre) + 1) with (Z.of_nat (length pre + 1)) by lia.
    rewrite IH. by rewrite <-(assoc_L (++)).
Qed.

(** ** One call *)

(** [static_str] is at [x], the terminated string behind [pre]. *)
Definition strtok_at (s : strtok_state) (pre x post : list Z) : Prop :=
  s.(str_buf) = pre ++ x ++ 0 :: post ∧ s.(static_str) = Some (Z.of_nat (length pre)) ∧ 0 ∉ x.

(** What a later call leaves of the buffer. *)
Definition keeps (s s' : strtok_state) (pre x : list Z) : Prop :=
  ∃ t, s'.(str_buf) = pre ++ t ∧ (x = [] → s'.(str_buf) = s.(str_buf)).

Lemma strtok_spec s str delim d pre x post :
  s.(str_buf) = pre ++ x ++ 0 :: post → 0 ∉ x → cstr delim = Some d →
  str = Some (Z.of_nat (length pre)) ∨ str = None ∧ s.(static_str) = Some (Z.of_nat (length pre)) →
  match next_word d x with
  | None => ∃ s' pre', strtok s str delim = Ok (None, s') ∧ s'.(str_buf) = s.(str_buf) ∧
              strtok_at s' pre' [] post
  | Some (w, r) =>
      ∃ s' q pre', strtok s str delim = Ok (Some (Z.of_nat q), s') ∧ strtok_at s' pre' r post ∧
        (∃ y, pre' = pre ++ y) ∧ length s'.(str_buf) = length s.(str_buf) ∧
        ∀ s2, keeps s' s2 pre' r → cstr (drop q s2.(str_buf)) = Some w
  end.
Proof.
  intros Hb Hx Hd Hstr. unfold strtok, next_word.
  assert ((match str with Some p => Some p | None => s.(static_str) end) =
    Some (Z.of_nat (length pre))) as ->.
  { by destruct Hstr as [->|[-> ->]]. }
  rewrite Hb. pose proof (prefix_beyond true d x) as E1.
  assert ((length x < S (length (pre ++ x ++ 0%Z :: post)))%nat) as Hf.
  { rewrite !length_app. simpl. lia. }
  rewrite (strtok_loop true _ d _ _ _ _ Hd Hx Hf), bind_ok.
  set (p1 := prefix true d x) in *. set (y := beyond true d x) in *.
  assert (pre ++ x ++ 0 :: post = (pre ++ p1) ++ y ++ 0 :: post) as Eb.
  { rewrite E1 at 1. by rewrite <-!(assoc_L (++)). }
  rewrite Eb. assert (0 ∉ y) as Hy by (rewrite E1 in Hx; set_solver).
  destruct y as [|c t] eqn:Ey.
  { change ((pre ++ p1) ++ [] ++ 0 :: post) with ((pre ++ p1) ++ 0 :: post).
    rewrite aget_app, bind_ok. simpl.
    eexists _, (pre ++ p1). split; [done|]. split; [done|]. split; [done|]. split; [done|].
    apply not_elem_of_nil. }
  assert (aget ((pre ++ p1) ++ (c :: t) ++ 0 :: post) (Z.of_nat (length (pre ++ p1))) = Ok c)
    as -> by apply aget_app.
  rewrite bind_ok, (proj2 (Z.eqb_neq c 0)) by set_solver.
  rewrite (strtok_loop false _ d _ (c :: t) _ _ Hd Hy), bind_ok.
  2:{ rewrite !length_app. simpl. lia. }
  pose proof (prefix_beyond false d (c :: t)) as E2.
  set (w := prefix false d (c :: t)) in *. set (z := beyond false d (c :: t)) in *.
  assert (0 ∉ w ∧ 0 ∉ z) as [Hw Hz] by (rewrite E2 in Hy; set_solver).
  assert ((pre ++ p1) ++ (c :: t) ++ 0 :: post = ((pre ++ p1) ++ w) ++ z ++ 0 :: post) as Ec.
  { rewrite E2 at 1. by rewrite <-!(assoc_L (++)). }
  rewrite Ec. destruct z as [|e r] eqn:Ez.
  - rewrite app_nil_l, aget_app, bind_ok. cbn [negb Z.eqb].
    eexists _, (length (pre ++ p1)), ((pre ++ p1) ++ w). split; [done|].
    split; [by split_and!|]. split; [exists (p1 ++ w); by rewrite (assoc_L (++))|].
    split; [done|]. intros s2 (u & _ & Hs2). rewrite (Hs2 eq_refl). simpl.
    rewrite <-(assoc_L (++)), drop_app_length. by apply cstr_app.
  - assert (aget (((pre ++ p1) ++ w) ++ (e :: r) ++ 0 :: post)
      (Z.of_nat (length ((pre ++ p1) ++ w))) = Ok e) as -> by apply aget_app.
    rewrite bind_ok, (proj2 (Z.eqb_neq e 0)) by set_solver. cbn [negb].
    rewrite aset_ok, bind_ok by (rewrite !length_app; simpl; lia).
    eexists _, (length (pre ++ p1)), (((pre ++ p1) ++ w) ++ [0]). split; [done|].
    split; [|split; [|split]].
    + split; [|split; [|set_solver]]; simpl.
      * rewrite Nat2Z.id, insert_app_r_alt, Nat.sub_diag by lia. simpl. by rewrite <-!(assoc_L (++)).
      * rewrite (length_app _ [0]). simpl. f_equal. lia.
    + exists ((p1 ++ w) ++ [0]). by rewrite !(assoc_L (++)).
    + simpl. by rewrite length_insert.
    + intros s2 (u & -> & _). rewrite <-!(assoc_L (++)), (assoc_L (++) pre), drop_app_length.
      by apply cstr_app.
Qed.

(** The C string at a token. *)
Definition token_text (s : strtok_state) (p : Z) : option (list Z) := cstr (drop (Z.to_nat p) s.(str_buf)).

Lemma strtok_all_ok fuel s str delim d pre x post :
  (length x < fuel)%nat → s.(str_buf) = pre ++ x ++ 0 :: post → 0 ∉ x → cstr delim = Some d →
  str = Some (Z.of_nat (length pre)) ∨ str = None ∧ s.(static_str) = Some (Z.of_nat (length pre)) →
  ∃ ps s' pre', strtok_all fuel s str delim = Ok (ps, s') ∧ keeps s s' pre x ∧
    length s'.(str_buf) = length s.(str_buf) ∧
    token_text s' <$> ps = Some <$> words d x ∧ strtok_at s' pre' [] post.
Proof.
  revert s str pre x. induction fuel as [|fuel IH]; intros s str pre x Hf Hb Hx Hd Hstr; [lia|].
  pose proof (strtok_spec s str delim d pre x post Hb Hx Hd Hstr) as Hs. rewrite words_next. simpl.
  destruct (next_word d x) as [[w r]|] eqn:Ew.
  - destruct Hs as (s1 & q & pre1 & -> & Hat & [y Hy] & Hlen & Htok). rewrite bind_ok.
    destruct Hat as (Hb1 & Hp1 & Hr). apply next_word_nil in Ew as [_ Hl].
    destruct (IH s1 None pre1 r) as (ps & s2 & pre2 & -> & Hk & Hlen2 & Hps & Hat2);
      [lia|done|done|done|by right|]. rewrite bind_ok.
    exists (Z.of_nat q :: ps), s2, pre2. split; [done|]. split; [|split; [congruence|split; [|done]]].
    + destruct Hk as (t & Ht & Hk). exists (y ++ t). split; [by rewrite Ht, Hy, (assoc_L (++))|].
      intros ->. simpl in Hl. lia.
    + rewrite !fmap_cons, Hps. f_equal. unfold token_text. rewrite Nat2Z.id. by apply Htok.
  - destruct Hs as (s1 & pre1 & -> & Hb1 & Hat). rewrite bind_ok. exists [], s1, pre1.
    split; [done|]. split; [|by rewrite Hb1]. exists (x ++ 0 :: post). by rewrite Hb1.
Qed.

Lemma words_from_clean d cur x :
  (∀ c, c ∈ cur → c ∉ d) → Forall (λ w, w ≠ [] ∧ ∀ c, c ∈ w → c ∉ d) (words_from d cur x).
Proof.
  revert cur. induction x as [|c x IH]; intros cur Hcur; simpl.
  - case_decide; by repeat constructor.
  - destruct (decide (c ∈ d)).
    + apply Forall_app. split; [case_decide; by repeat constructor|].
      apply IH. by intros ? ?%not_elem_of_nil.
    + apply IH. intros y [?| ->%list_elem_of_singleton]%elem_of_app; auto.
Qed.

Lemma words_clean d x : Forall (λ w, w ≠ [] ∧ ∀ c, c ∈ w → c ∉ d) (words d x).
Proof. apply words_from_clean. by intros ? ?%not_elem_of_nil. Qed.

(** C36: [strtok] splits a line into its words.  [strtok(line, delim)] and then
    [strtok(NULL, delim)] until it returns [NULL] stays inside the buffer, ends,
    and the pointers it returned are, once all calls are over, the C strings of
    the words of the line, in order; every further call returns [NULL]. *)
Theorem strtok_words line x post delim d previous :
  line = x ++ 0 :: post → 0 ∉ x → cstr delim = Some d →
  ∃ ps s', strtok_all (S (length x)) (MkStrtok line previous) (Some 0) delim = Ok (ps, s') ∧
    length s'.(str_buf) = length line ∧
    token_text s' <$> ps = Some <$> words d x ∧
    Forall (λ w, w ≠ [] ∧ ∀ c, c ∈ w → c ∉ d) (words d x) ∧
    ∃ s'', strtok s' None delim = Ok (None, s'').
Proof.
  intros -> Hx Hd.
  destruct (strtok_all_ok (S (length x)) (MkStrtok (x ++ 0 :: post) previous) (Some 0) delim d [] x post)
    as (ps & s' & pre' & -> & _ & Hlen & Hps & Hb & Hp & _); try done; [lia|by left|].
  exists ps, s'. split; [done|]. split; [done|]. split; [done|]. split; [apply words_clean|].
  destruct (strtok_spec s' None delim d pre' [] post Hb) as (s'' & pre'' & -> & _);
    [apply not_elem_of_nil|done|by right|by exists s''].
Qed.

(** ["  file\tread a "] *)
Definition demo_line : list Z :=
  [32; 32; 102; 105; 108; 101; 9; 114; 101; 97; 100; 32; 97; 32].

Lemma strtok_words_witness :
  ∃ ps s', strtok_all 15 (MkStrtok (demo_line ++ [0; 7; 7]) None) (Some 0) [32; 9; 0] = Ok (ps, s') ∧
    length s'.(str_buf) = 17%nat ∧
    token_text s' <$> ps = Some <$> words [32; 9] demo_line ∧
    Forall (λ w, w ≠ [] ∧ ∀ c, c ∈ w → c ∉ [32; 9]) (words [32; 9] demo_line) ∧
    ∃ s'', strtok s' None [32; 9; 0] = Ok (None, s'').
Proof.
  apply (strtok_words (demo_line ++ [0; 7; 7]) demo_line [7; 7] [32; 9; 0] [32; 9] None);
    [done| |done]. apply (bool_decide_unpack _). by vm_compute.
Defined.

Example demo_words :
  words [32; 9] demo_line = [[102; 105; 108; 101]; [114; 101; 97; 100]; [97]].
Proof. reflexivity. Qed.
