(* ===== verification/Serial.v ===== *)
(** * The serial line ([serial.c], [debug_print] and [debug_int] of [kernel.c])

    The port is seen from outside: the [n]-th read of its status register gives
    [status n], and what is written is a list of pairs of a port and a byte.
    The loop that waits for the transmitter is given [patience] reads. *)
From S2P Require Import Prelude CString Convert Vga.

Notation SERIAL_PORT := 1016.

Record uart := MkUart { uart_reads : nat; uart_written : list (Z * Z) }.

Definition outb (u : uart) (port v : Z) : uart :=
  MkUart u.(uart_reads) (u.(uart_written) ++ [(port, u8 v)]).

(** [void serial_init()] *)
Definition serial_init (u : uart) : uart :=
  let u := outb u (SERIAL_PORT + 1) 0 in
  let u := outb u (SERIAL_PORT + 3) 128 in
  let u := outb u (SERIAL_PORT + 0) 3 in
  let u := outb u (SERIAL_PORT + 1) 0 in
  let u := outb u (SERIAL_PORT + 3) 3 in
  let u := outb u (SERIAL_PORT + 2) 199 in
  outb u (SERIAL_PORT + 4) 11.

Section serial.
Context (status : nat → Z) (patience : nat).

(** [while (!(inb(SERIAL_PORT + 5) & 0x20));] *)
Definition serial_wait (u : uart) : res uart :=
  iter patience
    (λ u, let v := status u.(uart_reads) in
          let u := MkUart (S u.(uart_reads)) u.(uart_written) in
          Ok (if Z.land v 32 =? 0 then inl u else inr u)) u.

(** [void serial_print(const char *message)] *)
Fixpoint serial_print (u : uart) (message : list Z) : res uart :=
  match message with
  | [] => Err OutOfBounds
  | c :: t =>
      if c =? 0 then Ok u
      else u ← serial_wait u; serial_print (outb u SERIAL_PORT c) t
  end.

(** [void debug_print(const char *msg)] *)
Definition debug_print (u : uart) (msg : list Z) : res uart :=
  u ← serial_print u msg; serial_print u [13; 10; 0].

(** [void debug_int(uint32_t val)]; [buffer] is its local array. *)
Definition debug_int (u : uart) (buffer : list Z) (val : Z) : res uart :=
  buffer ← int_to_hex val buffer; debug_print u buffer.

(** ** What reaches the line *)

(** The transmitter is ready again within [patience] reads. *)
Definition transmits : Prop :=
  ∀ n, ∃ k, (k < patience)%nat ∧ Z.land (status (n + k)) 32 ≠ 0.

Lemma serial_wait_ok u :
  transmits → ∃ n, serial_wait u = Ok (MkUart n u.(uart_written)).
Proof.
  intros Ht. destruct (Ht u.(uart_reads)) as (k & Hk & Hs). unfold serial_wait.
  revert u k Hk Hs. induction patience as [|p IH]; intros u k Hk Hs; [lia|].
  rewrite iter_S. cbv zeta. rewrite bind_ok.
  destruct (Z.eqb_spec (Z.land (status u.(uart_reads)) 32) 0) as [E|E]; [|by eexists].
  destruct k as [|k]; [by rewrite Nat.add_0_r in Hs|].
  apply (IH (MkUart (S u.(uart_reads)) u.(uart_written)) k); [lia|].
  simpl. by rewrite <-Nat.add_succ_r.
Qed.

Lemma serial_print_ok u message x :
  transmits → cstr message = Some x →
  ∃ n, serial_print u message = Ok (MkUart n (u.(uart_written) ++ ((λ c, (SERIAL_PORT, u8 c)) <$> x))).
Proof.
  intros Ht (Hx & rest & ->)%cstr_inv. revert u. induction x as [|c x IH]; intros u.
  { exists u.(uart_reads). simpl. rewrite app_nil_r. by destruct u. }
  apply not_elem_of_cons in Hx as [Hc Hx]. simpl. rewrite (proj2 (Z.eqb_neq c 0)) by done.
  destruct (serial_wait_ok u Ht) as [n ->]. rewrite bind_ok.
  destruct (IH Hx (outb (MkUart n u.(uart_written)) SERIAL_PORT c)) as [n' ->].
  exists n'. simpl. by rewrite <-(assoc_L (++)).
Qed.
End serial.
