(* ===== verification/Interrupts.v ===== *)
(** * Descriptor tables and interrupts ([keyboard/gdt.c], [interrupts/idt.c],
    [interrupts/interrupts.c], [interrupts/pic.c])

    The tables are lists of entries as the structs have them.  Port output is a
    list of pairs of a port and a byte, in order.  Addresses of assembly stubs,
    which the linker fixes, are arguments.  The processor's reading of a
    descriptor and the 8259A controller are specifications. *)
From S2P Require Import Prelude CString Vga Keyboard.

(** ** Segment descriptors *)

Record gdt_entry := GdtEntry {
  limit_low : Z; base_low : Z; base_middle : Z; access : Z; granularity : Z; base_high : Z;
}.

(** [static void gdt_set_gate(num, base, limit, access, gran)] *)
Definition gdt_set_gate (gdt : list gdt_entry) (num base limit access gran : Z)
    : res (list gdt_entry) :=
  aset gdt num
    (GdtEntry (u16 (Z.land limit 65535)) (u16 (Z.land base 65535))
       (u8 (Z.land (Z.shiftr base 16) 255)) (u8 access)
       (u8 (Z.lor (u8 (Z.land (Z.shiftr limit 16) 15)) (Z.land gran 240)))
       (u8 (Z.land (Z.shiftr base 24) 255))).

(** [void gdt_install()], with the pointer it loads: its limit and base. *)
Definition gdt_install (gdt_at : Z) (gdt : list gdt_entry) : res (list gdt_entry * (Z * Z)) :=
  let gp := (u16 (8 * 3 - 1), u32 gdt_at) in
  gdt ← gdt_set_gate gdt 0 0 0 0 0;
  gdt ← gdt_set_gate gdt 1 0 4294967295 154 207;
  gdt ← gdt_set_gate gdt 2 0 4294967295 146 207;
  Ok (gdt, gp).

(** How the processor reads a descriptor: base, limit in units of the
    granularity, access byte and flags. *)
Definition segment_base (d : gdt_entry) : Z := d.(base_low) + d.(base_middle) * 2 ^ 16 + d.(base_high) * 2 ^ 24.
Definition segment_limit (d : gdt_entry) : Z :=
  let l := d.(limit_low) + (d.(granularity) `mod` 16) * 2 ^ 16 in
  if Z.testbit d.(granularity) 7 then l * 4096 + 4095 else l.

(** ** Gates *)

Record idt_entry := IdtEntry {
  gate_base_low : Z; gate_sel : Z; gate_always0 : Z; gate_flags : Z; gate_base_high : Z;
}.

(** [void idt_set_gate(uint8_t num, uint32_t base, uint16_t sel, uint8_t flags)] *)
Definition idt_set_gate (idt : list idt_entry) (num base sel flags : Z) : res (list idt_entry) :=
  aset idt (u8 num)
    (IdtEntry (Z.land base 65535) (u16 sel) 0 (u8 flags) (Z.land (Z.shiftr base 16) 65535)).

(** [void idt_install()] *)
Definition idt_install (isr_stub idt_at : Z) (idt : list idt_entry)
    : res (list idt_entry * (Z * Z)) :=
  idt ← for_loop 32 0 (λ i idt, idt_set_gate idt i isr_stub 8 142) idt;
  Ok (idt, (u16 (8 * 256 - 1), u32 idt_at)).

(** [void irq_install()]: [irq_stubs] are the addresses of [irq0_stub] to
    [irq15_stub]. *)
Fixpoint irq_install (idt : list idt_entry) (num : Z) (irq_stubs : list Z) : res (list idt_entry) :=
  match irq_stubs with
  | [] => Ok idt
  | stub :: t => idt ← idt_set_gate idt num stub 8 142; irq_install idt (num + 1) t
  end.

(** How the processor reads a gate: where it goes. *)
Definition gate_offset (g : idt_entry) : Z := g.(gate_base_low) + g.(gate_base_high) * 2 ^ 16.

(** A present 32-bit interrupt gate of privilege level 0 to [addr]. *)
Definition interrupt_gate (g : idt_entry) (addr : Z) : Prop :=
  gate_offset g = addr ∧ g.(gate_sel) = 8 ∧ g.(gate_always0) = 0 ∧
  Z.testbit g.(gate_flags) 7 = true ∧ Z.land (Z.shiftr g.(gate_flags) 5) 3 = 0 ∧
  Z.land g.(gate_flags) 31 = 14.

(** ** Handlers *)

Section handlers.
Context {S : Type}.

(** [interrupt_handlers]: functions on the state they change. *)
Definition handler_table := list (option (S → res S)).

(** [void register_interrupt_handler(uint8_t n, interrupt_handler_t handler)] *)
Definition register_interrupt_handler (t : handler_table) (n : Z) (handler : S → res S)
    : res handler_table := aset t (u8 n) (Some handler).

(** [void irq_handler(uint8_t irq)] *)
Definition irq_handler (t : handler_table) (irq : Z) (s : S) : res S :=
  h ← aget t (irq + 32);
  match h with Some handler => handler s | None => Ok s end.

(** [void common_irq_handler(uint32_t irq_num)], with what it writes to the
    controllers. *)
Definition common_irq_handler (t : handler_table) (irq_num : Z) (s : S) : res (S * list (Z * Z)) :=
  let irq := Z.land irq_num 255 in
  s ← irq_handler t irq s;
  Ok (s, (if 8 <=? irq then [(160, 32)] else []) ++ [(32, 32)]).
End handlers.

(** The machine as the keyboard interrupt sees it: the driver, the screen and
    the byte at the data port. *)
Definition kbd_machine : Type := keyboard * vga * Z.

Definition keyboard_interrupt (m : kbd_machine) : res kbd_machine :=
  let '(k, screen, data) := m in
  '(k, screen) ← keyboard_handler k screen data; Ok (k, screen, data).

(** ["DEBUG: Keyboard interrupt handler registered.\n"] *)
Definition keyboard_message : list Z :=
  chars "DEBUG: Keyboard interrupt handler registered.".

(** [void init_keyboard()] *)
Definition init_keyboard (t : handler_table (S := kbd_machine)) (screen : vga)
    : res (handler_table * vga) :=
  t ← register_interrupt_handler t 33 keyboard_interrupt;
  screen ← print_to_screen screen (keyboard_message ++ [10; 0]);
  Ok (t, screen).

(** ** The interrupt controllers *)

(** [void pic_remap()]; [a1] and [a2] are what [inb(0x21)] and [inb(0xA1)]
    read. *)
Definition pic_remap (a1 a2 : Z) : list (Z * Z) :=
  [(32, 17); (160, 17);
   (33, 32); (160, 40);
   (33, 4); (160, 2);
   (33, 1); (160, 1);
   (33, Z.land a1 253); (160, a2)].

(** An 8259A: the vector of its first line, its mask, and how far its
    initialisation has come. *)
Inductive pic_phase := PicReady | WantICW2 | WantICW3 | WantICW4.

Record pic := Pic {
  pic_vector : Z;
  pic_mask : Z;
  pic_single : bool;
  pic_icw4 : bool;
  pic_state : pic_phase;
}.

(** A write to its command port; the command words that do not start an
    initialisation change neither the vector nor the mask. *)
Definition pic_command (p : pic) (v : Z) : pic :=
  if Z.testbit v 4 then Pic p.(pic_vector) 0 (Z.testbit v 1) (Z.testbit v 0) WantICW2 else p.

(** A write to its data port. *)
Definition pic_data (p : pic) (v : Z) : pic :=
  let next ph := Pic p.(pic_vector) p.(pic_mask) p.(pic_single) p.(pic_icw4) ph in
  let last := if p.(pic_icw4) then WantICW4 else PicReady in
  match p.(pic_state) with
  | PicReady => Pic p.(pic_vector) v p.(pic_single) p.(pic_icw4) PicReady
  | WantICW2 => Pic (Z.land v 248) p.(pic_mask) p.(pic_single) p.(pic_icw4)
                  (if p.(pic_single) then last else WantICW3)
  | WantICW3 => next last
  | WantICW4 => next PicReady
  end.

(** A write of [pic_remap] reaches the controller whose ports are [cmd] and
    [cmd + 1]. *)
Definition pic_out (cmd : Z) (p : pic) (w : Z * Z) : pic :=
  if w.1 =? cmd then pic_command p w.2 else if w.1 =? cmd + 1 then pic_data p w.2 else p.

(** ** Descriptors say what they were set to *)

Lemma land_byte_split b : 0 ≤ b < 2 ^ 32 →
  u16 (Z.land b 65535) + u8 (Z.land (Z.shiftr b 16) 255) * 2 ^ 16 +
    u8 (Z.land (Z.shiftr b 24) 255) * 2 ^ 24 = b.
Proof.
  intros Hb. change 65535 with (Z.ones 16). change 255 with (Z.ones 8).
  rewrite !Z.land_ones, !Z.shiftr_div_pow2 by lia. unfold u16, u8.
  rewrite !Z.mod_mod by lia. Z.to_euclidean_division_equations. lia.
Qed.

Lemma land_word_split b : 0 ≤ b < 2 ^ 32 →
  Z.land b 65535 + Z.land (Z.shiftr b 16) 65535 * 2 ^ 16 = b.
Proof.
  intros Hb. change 65535 with (Z.ones 16).
  rewrite !Z.land_ones, Z.shiftr_div_pow2 by lia. Z.to_euclidean_division_equations. lia.
Qed.

(** The granularity byte keeps the high limit bits and the flags. *)
Lemma granularity_byte x gran :
  0 ≤ x < 16 → 0 ≤ gran < 256 →
  let g := u8 (Z.lor (u8 x) (Z.land gran 240)) in
  g `mod` 16 = x ∧ Z.testbit g 7 = Z.testbit gran 7.
Proof.
  intros Hx Hg.
  assert (Forall (λ x, Forall (λ gran,
    (u8 (Z.lor (u8 x) (Z.land gran 240))) `mod` 16 = x ∧
    Z.testbit (u8 (Z.lor (u8 x) (Z.land gran 240))) 7 = Z.testbit gran 7) (seqZ 0 256)) (seqZ 0 16))
    as H by (apply (bool_decide_eq_true_1 _); vm_compute; reflexivity).
  rewrite Forall_forall in H. specialize (H x ltac:(apply elem_of_seqZ; lia)).
  rewrite Forall_forall in H. apply (H gran), elem_of_seqZ. lia.
Qed.

Lemma gdt_gate_spec gdt num base limit acc gran :
  0 ≤ num < Z.of_nat (length gdt) → 0 ≤ base < 2 ^ 32 → 0 ≤ limit < 2 ^ 20 → 0 ≤ acc < 256 →
  0 ≤ gran < 256 →
  ∃ d, gdt_set_gate gdt num base limit acc gran = Ok (<[Z.to_nat num := d]> gdt) ∧
    segment_base d = base ∧ d.(access) = acc ∧
    segment_limit d = if Z.testbit gran 7 then limit * 4096 + 4095 else limit.
Proof.
  intros Hn Hb Hl Ha Hg. unfold gdt_set_gate. rewrite aset_ok by done. eexists. split; [done|].
  split; [by apply land_byte_split|]. split; [by apply u8_small|].
  unfold segment_limit. cbn [granularity limit_low].
  assert (0 ≤ Z.land (Z.shiftr limit 16) 15 < 16 ∧
    u16 (Z.land limit 65535) + Z.land (Z.shiftr limit 16) 15 * 2 ^ 16 = limit) as [H1 H2].
  { change 15 with (Z.ones 4). change 65535 with (Z.ones 16).
    rewrite !Z.land_ones, Z.shiftr_div_pow2 by lia. unfold u16. rewrite Z.mod_mod by lia.
    Z.to_euclidean_division_equations. lia. }
  destruct (granularity_byte _ gran H1 Hg) as [-> ->]. by rewrite H2.
Qed.

Lemma gate_ok addr :
  0 ≤ addr < 2 ^ 32 →
  interrupt_gate (IdtEntry (Z.land addr 65535) (u16 8) 0 (u8 142)
    (Z.land (Z.shiftr addr 16) 65535)) addr.
Proof. intros Ha. split; [by apply land_word_split|]. by split_and!. Qed.

Lemma idt_set_gate_ok idt num base sel flags :
  length idt = 256%nat → 0 ≤ num < 256 →
  idt_set_gate idt num base sel flags = Ok (<[Z.to_nat num :=
    IdtEntry (Z.land base 65535) (u16 sel) 0 (u8 flags) (Z.land (Z.shiftr base 16) 65535)]> idt).
Proof. intros Hl Hn. unfold idt_set_gate. rewrite u8_small, aset_ok by lia. done. Qed.

Lemma irq_install_ok stubs idt num :
  length idt = 256%nat → 0 ≤ num → num + Z.of_nat (length stubs) ≤ 256 →
  Forall (λ a, 0 ≤ a < 2 ^ 32) stubs →
  ∃ idt', irq_install idt num stubs = Ok idt' ∧ length idt' = 256%nat ∧
    (∀ i stub, stubs !! i = Some stub →
       ∃ g, idt' !! (Z.to_nat num + i)%nat = Some g ∧ interrupt_gate g stub) ∧
    ∀ n, (n < Z.to_nat num)%nat ∨ (Z.to_nat num + length stubs ≤ n)%nat → idt' !! n = idt !! n.
Proof.
  revert idt num. induction stubs as [|stub stubs IH]; intros idt num Hl Hn Hle Hs.
  { exists idt. split; [done|]. split; [done|]. split; [|done]. intros i stub. by rewrite lookup_nil. }
  apply Forall_cons in Hs as [Hstub Hs]. simpl in Hle |- *.
  rewrite idt_set_gate_ok, bind_ok by (done || lia).
  match goal with |- context [irq_install ?i _ _] =>
    destruct (IH i (num + 1)) as (idt' & -> & Hl' & Hg & Ho) end;
    [by rewrite length_insert|lia|lia|done|].
  exists idt'. split; [done|]. split; [done|]. split.
  - intros [|i] s0 H; simpl in H.
    + injection H as <-. rewrite Ho by lia. rewrite Nat.add_0_r, list_lookup_insert_eq by lia.
      eexists. split; [done|by apply gate_ok].
    + destruct (Hg i s0 H) as (g & Hi & Hgate). exists g. split; [|done].
      rewrite <-Hi. f_equal. lia.
  - intros n Hn'. rewrite Ho by lia. by rewrite list_lookup_insert_ne by lia.
Qed.

Lemma idt_install_ok idt isr_stub idt_at :
  length idt = 256%nat → 0 ≤ isr_stub < 2 ^ 32 → 0 ≤ idt_at < 2 ^ 32 →
  ∃ idt', idt_install isr_stub idt_at idt = Ok (idt', (2047, idt_at)) ∧ length idt' = 256%nat ∧
    (∀ n, (n < 32)%nat → ∃ g, idt' !! n = Some g ∧ interrupt_gate g isr_stub) ∧
    (∀ n, (32 ≤ n)%nat → idt' !! n = idt !! n).
Proof.
  intros Hl Hisr Hat. unfold idt_install.
  destruct (for_loop_inv (λ i t, length t = 256%nat ∧
      (∀ n, Z.of_nat n < i → ∃ g, t !! n = Some g ∧ interrupt_gate g isr_stub) ∧
      ∀ n, i ≤ Z.of_nat n → t !! n = idt !! n) 32 0
    (λ i idt, idt_set_gate idt i isr_stub 8 142) idt) as (idt1 & -> & Hl1 & Hg1 & Ho1).
  - split; [done|]. split; [lia|done].
  - intros i t Hi (Ht & Hg & Ho). rewrite idt_set_gate_ok by (done || lia). eexists.
    split; [done|]. rewrite length_insert. split; [done|]. split.
    + intros n Hn. destruct (decide (n = Z.to_nat i)) as [->|Hne].
      * rewrite list_lookup_insert_eq by lia. eexists. split; [done|by apply gate_ok].
      * rewrite list_lookup_insert_ne by lia. apply Hg. lia.
    + intros n Hn. rewrite list_lookup_insert_ne by lia. apply Ho. lia.
  - rewrite bind_ok, u32_small by done. exists idt1. split; [done|]. split; [done|].
    split; intros n Hn; [apply Hg1; lia|apply Ho1; lia].
Qed.

Lemma gdt_install_ok gdt gdt_at :
  length gdt = 3%nat → ∃ gdt' gp, gdt_install gdt_at gdt = Ok (gdt', gp) ∧ length gdt' = 3%nat.
Proof.
  intros Hl. destruct gdt as [|a [|b [|c [|]]]]; try done. eexists _, _. split; [reflexivity|done].
Qed.

(** C39: the interrupt descriptor table.  After [idt_install] and
    [irq_install], as the processor reads the table, the 32 exceptions go to
    [isr_stub] and line [i] of the controllers to its stub, all through present
    interrupt gates of the kernel's code segment; the other entries are as they
    were, and the table register covers exactly the table. *)
Theorem idt_gates idt isr_stub idt_at stubs :
  length idt = 256%nat → 0 ≤ isr_stub < 2 ^ 32 → 0 ≤ idt_at < 2 ^ 32 →
  length stubs = 16%nat → Forall (λ a, 0 ≤ a < 2 ^ 32) stubs →
  ∃ idt1 idt2, idt_install isr_stub idt_at idt = Ok (idt1, (2047, idt_at)) ∧
    irq_install idt1 32 stubs = Ok idt2 ∧
    (∀ n, (n < 32)%nat → ∃ g, idt2 !! n = Some g ∧ interrupt_gate g isr_stub) ∧
    (∀ i stub, stubs !! i = Some stub →
       ∃ g, idt2 !! (32 + i)%nat = Some g ∧ interrupt_gate g stub) ∧
    (∀ n, (48 ≤ n)%nat → idt2 !! n = idt !! n).
Proof.
  intros Hl Hisr Hat Hs Hstubs.
  destruct (idt_install_ok idt isr_stub idt_at Hl Hisr Hat) as (idt1 & -> & Hl1 & Hg1 & Ho1).
  destruct (irq_install_ok stubs idt1 32 Hl1 ltac:(lia) ltac:(lia) Hstubs)
    as (idt2 & Hi2 & Hl2 & Hg2 & Ho2).
  exists idt1, idt2. split; [done|]. split; [exact Hi2|]. split; [|split; [exact Hg2|]].
  - intros n Hn. rewrite Ho2 by lia. apply Hg1. lia.
  - intros n Hn. rewrite Ho2 by lia. apply Ho1. lia.
Qed.

Lemma idt_gates_witness :
  let idt := replicate 256 (IdtEntry 0 0 0 0 0) in let stubs := (λ i, 1050000 + 16 * i) <$> seqZ 0 16 in
  ∃ idt1 idt2, idt_install 1049000 1060000 idt = Ok (idt1, (2047, 1060000)) ∧
    irq_install idt1 32 stubs = Ok idt2 ∧
    (∀ n, (n < 32)%nat → ∃ g, idt2 !! n = Some g ∧ interrupt_gate g 1049000) ∧
    (∀ i stub, stubs !! i = Some stub →
       ∃ g, idt2 !! (32 + i)%nat = Some g ∧ interrupt_gate g stub) ∧
    (∀ n, (48 ≤ n)%nat → idt2 !! n = idt !! n).
Proof.
  apply (idt_gates (replicate 256 (IdtEntry 0 0 0 0 0)) 1049000 1060000
    ((λ i, 1050000 + 16 * i) <$> seqZ 0 16)); [apply length_replicate|lia|lia|reflexivity|].
  apply (bool_decide_eq_true_1 _). vm_compute. reflexivity.
Defined.

(** The table once the keyboard handler is registered. *)
Lemma init_keyboard_ok (t : handler_table (S := kbd_machine)) screen trm :
  length t = 256%nat → shows screen trm →
  ∃ screen', init_keyboard t screen = Ok (<[33%nat := Some keyboard_interrupt]> t, screen') ∧
    shows screen' (t_print trm (keyboard_message ++ [10])).
Proof.
  intros Hl Hs. unfold init_keyboard, register_interrupt_handler.
  rewrite u8_small, aset_ok, bind_ok by lia. change (Z.to_nat 33) with 33%nat.
  destruct (print_ok screen trm (keyboard_message ++ [10]) Hs) as (screen' & E & Hs').
  { apply (bool_decide_eq_true_1 _). vm_compute. reflexivity. }
  rewrite <-(assoc_L (++)) in E. simpl ([10] ++ [0]) in E. rewrite E, bind_ok. by exists screen'.
Qed.

(** An interrupt on line 1 runs the handler. *)
Lemma keyboard_line (t : handler_table (S := kbd_machine)) k screen data :
  t !! 33%nat = Some (Some keyboard_interrupt) →
  common_irq_handler t 1 (k, screen, data) =
    ('(k', screen') ← keyboard_handler k screen data; Ok ((k', screen', data), [(32, 32)])).
Proof.
  intros Ht. unfold common_irq_handler. change (Z.land 1 255) with 1. unfold irq_handler.
  rewrite (aget_lookup _ (1 + 32) (Some keyboard_interrupt)), bind_ok by (lia || done).
  unfold keyboard_interrupt. by destruct (keyboard_handler k screen data) as [[k' s']|].
Qed.

(** C38: the keyboard interrupt.  After [init_keyboard], an interrupt on line 1
    runs the keyboard handler once on the byte at the data port and then
    acknowledges it at the first controller only.  An interrupt on another line
    below 224, for which no handler is registered, changes nothing, and is
    acknowledged at the second controller too when the line is 8 or above. *)
Theorem keyboard_irq t screen trm irq k data :
  length t = 256%nat → shows screen trm →
  (∀ n, n ≠ 33 → aget t n = Ok None ∨ aget t n = Err OutOfBounds) → 0 ≤ irq < 224 →
  ∃ t' screen', init_keyboard t screen = Ok (t', screen') ∧
    shows screen' (t_print trm (keyboard_message ++ [10])) ∧
    common_irq_handler t' irq (k, screen', data) =
      if decide (irq = 1) then
        ('(k', screen'') ← keyboard_handler k screen' data; Ok ((k', screen'', data), [(32, 32)]))
      else Ok ((k, screen', data), (if 8 <=? irq then [(160, 32)] else []) ++ [(32, 32)]).
Proof.
  intros Hl Hs Ht Hirq. destruct (init_keyboard_ok t screen trm Hl Hs) as (screen' & E & Hs').
  exists (<[33%nat := Some keyboard_interrupt]> t), screen'. split; [done|]. split; [done|]. case_decide as Hi.
  - subst irq. apply keyboard_line. apply list_lookup_insert_eq. lia.
  - unfold common_irq_handler. change 255 with (Z.ones 8).
    rewrite Z.land_ones, Z.mod_small by lia. unfold irq_handler.
    assert (aget (<[33%nat := Some keyboard_interrupt]> t) (irq + 32) = Ok None) as ->; [|done].
    destruct (Ht (irq + 32)) as [H|H]; [lia| |].
    + apply aget_ok in H as [H1 H2]. apply aget_ok. split; [done|].
      rewrite list_lookup_insert_ne; [done|lia].
    + destruct (aget_is_ok t (irq + 32)) as (x & Hx & _); [lia|]. congruence.
Qed.

(** An interrupt number that no stub pushes reads past the table. *)
Lemma irq_handler_range {S} (t : handler_table (S := S)) irq s :
  length t = 256%nat → 224 ≤ irq → irq_handler t irq s = Err OutOfBounds.
Proof. intros Hl Hi. unfold irq_handler. by rewrite aget_err by lia. Qed.

(** [pic_remap] sets up the first controller only.  Line 0 of the first
    controller gets vector 32, its line 1 is unmasked, and it is ready.  The
    words meant for the data port of the second controller go to its command
    port, so that one is left at the start of its initialisation, with its old
    vector: its eight lines are not remapped. *)
Lemma pic_remap_first_only a1 a2 first second :
  let p1 := foldl (pic_out 32) first (pic_remap a1 a2) in
  let p2 := foldl (pic_out 160) second (pic_remap a1 a2) in
  (pic_vector p1 = 32 ∧ pic_state p1 = PicReady ∧ pic_mask p1 = Z.land a1 253 ∧
   Z.testbit (pic_mask p1) 1 = false) ∧
  (pic_vector p2 = pic_vector second ∧ pic_state p2 = WantICW2).
Proof.
  intros p1 p2.
  assert (p1 = Pic 32 (Z.land a1 253) false true PicReady) as -> by reflexivity.
  assert (p2 = pic_command (Pic (pic_vector second) 0 false true WantICW2) a2) as -> by reflexivity.
  split; [|unfold pic_command; by destruct (Z.testbit a2 4)].
  split; [done|]. split; [done|]. split; [done|]. cbn [pic_mask].
  rewrite Z.land_spec. change (Z.testbit 253 1) with false. apply andb_false_r.
Qed.

Lemma keyboard_irq_witness :
  ∃ t' screen', init_keyboard (replicate 256 None) boot_screen = Ok (t', screen') ∧
    shows screen' (t_print (boot_term (replicate 4000 0)) (keyboard_message ++ [10])) ∧
    common_irq_handler t' 1 (boot_keyboard, screen', 30) =
      if decide (1 = 1) then
        ('(k', screen'') ← keyboard_handler boot_keyboard screen' 30;
         Ok ((k', screen'', 30), [(32, 32)]))
      else Ok ((boot_keyboard, screen', 30), (if 8 <=? 1 then [(160, 32)] else []) ++ [(32, 32)]).
Proof.
  apply (keyboard_irq (replicate 256 None) boot_screen (boot_term (replicate 4000 0)) 1
    boot_keyboard 30); [apply length_replicate|apply boot_screen_shows| |lia].
  intros n _. destruct (decide (0 ≤ n < 256)).
  - left. apply aget_ok. split; [lia|]. apply lookup_replicate_2. lia.
  - right. apply aget_err. rewrite length_replicate. lia.
Defined.
