(* ===== verification/RbTree.v ===== *)
(** * Red-black trees ([process/rbtree.c], [process/rbtree.h]) and the queue
    of the fair scheduler ([cfs_enqueue] and [cfs_dequeue_min] of
    [process/process.c])

    [rb_nodes] holds the [struct rb_node] objects by address, [rb_root] the
    pointer of the one [struct rb_root].  A dereference of [NULL] or of an
    address without a node is [BadPointer].  The code writes every step twice,
    once for each side; here a step has the side as an argument, and its two
    instances are the two texts. *)
From S2P Require Import Prelude.

Record rb_node := RbNode {
  rb_left : Z; rb_right : Z; rb_parent : Z; rb_red : bool;
}.

Record rb_store := RbStore { rb_nodes : gmap Z rb_node; rb_root : Z }.

Inductive side := Lft | Rgt.
#[export] Instance side_eq_dec : EqDecision side.
Proof. solve_decision. Defined.

Definition opp (d : side) : side := match d with Lft => Rgt | Rgt => Lft end.

(** ** Fields *)

Definition rb_child (d : side) (n : rb_node) : Z := match d with Lft => n.(rb_left) | Rgt => n.(rb_right) end.

Definition with_child (d : side) (v : Z) (n : rb_node) : rb_node :=
  match d with
  | Lft => RbNode v n.(rb_right) n.(rb_parent) n.(rb_red)
  | Rgt => RbNode n.(rb_left) v n.(rb_parent) n.(rb_red)
  end.
Definition with_parent (v : Z) (n : rb_node) : rb_node :=
  RbNode n.(rb_left) n.(rb_right) v n.(rb_red).
Definition with_red (b : bool) (n : rb_node) : rb_node :=
  RbNode n.(rb_left) n.(rb_right) n.(rb_parent) b.

(** [*node], and an assignment to one of its fields. *)
Definition rb_get (s : rb_store) (node : Z) : res rb_node :=
  if node =? 0 then Err BadPointer else of_option BadPointer (s.(rb_nodes) !! node).
Definition rb_upd (s : rb_store) (node : Z) (f : rb_node → rb_node) : res rb_store :=
  n ← rb_get s node; Ok (RbStore (<[node := f n]> s.(rb_nodes)) s.(rb_root)).
Definition set_root (v : Z) (s : rb_store) : rb_store := RbStore s.(rb_nodes) v.

(** [p && p->rb_red] *)
Definition is_red (s : rb_store) (p : Z) : res bool :=
  if p =? 0 then Ok false else n ← rb_get s p; Ok n.(rb_red).

(** ** Rotations *)

(** [rb_rotate_left] for [Lft], [rb_rotate_right] for [Rgt]. *)
Definition rb_rotate (d : side) (s : rb_store) (node : Z) : res rb_store :=
  n ← rb_get s node;
  let right := rb_child (opp d) n in
  let parent := n.(rb_parent) in
  r ← rb_get s right;
  let inner := rb_child d r in
  s ← rb_upd s node (with_child (opp d) inner);
  s ← (if inner =? 0 then Ok s else rb_upd s inner (with_parent node));
  s ← rb_upd s right (with_child d node);
  s ← rb_upd s node (with_parent right);
  s ← rb_upd s right (with_parent parent);
  if parent =? 0 then Ok (set_root right s)
  else
    p ← rb_get s parent;
    if rb_child d p =? node then rb_upd s parent (with_child d right)
    else rb_upd s parent (with_child (opp d) right).

Definition rb_rotate_left := rb_rotate Lft.
Definition rb_rotate_right := rb_rotate Rgt.

(** ** Insertion *)

(** The body of the loop for a red [parent] on side [d] of [gparent]; the new
    [node]. *)
Definition insert_color_side (d : side) (s : rb_store) (node parent gparent : Z)
    : res (Z * rb_store) :=
  g ← rb_get s gparent;
  let uncle := rb_child (opp d) g in
  uncle_red ← is_red s uncle;
  if uncle_red : bool then
    s ← rb_upd s uncle (with_red false);
    s ← rb_upd s parent (with_red false);
    s ← rb_upd s gparent (with_red true);
    Ok (gparent, s)
  else
    p ← rb_get s parent;
    '(node, parent, s) ← (if rb_child (opp d) p =? node then
                            s ← rb_rotate d s parent; Ok (parent, node, s)
                          else Ok (node, parent, s));
    s ← rb_upd s parent (with_red false);
    s ← rb_upd s gparent (with_red true);
    s ← rb_rotate (opp d) s gparent;
    Ok (node, s).

Definition insert_color_step (st : Z * rb_store) : res ((Z * rb_store) + rb_store) :=
  let '(node, s) := st in
  n ← rb_get s node;
  let parent := n.(rb_parent) in
  parent_red ← is_red s parent;
  if parent_red : bool then
    p ← rb_get s parent;
    let gparent := p.(rb_parent) in
    g ← rb_get s gparent;
    r ← insert_color_side (if parent =? g.(rb_left) then Lft else Rgt) s node parent gparent;
    Ok (inl r)
  else Ok (inr s).

(** [void rb_insert_color(struct rb_node *node, struct rb_root *root)] *)
Definition rb_insert_color (s : rb_store) (node : Z) : res rb_store :=
  s ← iter (S (size s.(rb_nodes))) insert_color_step (node, s);
  rb_upd s s.(rb_root) (with_red false).

(** ** Removal *)

(** The start of the body of the loop at [color_fixup], for a child on side [d]
    of [parent]: the sibling, made black. *)
Definition erase_sibling (d : side) (s : rb_store) (parent : Z) : res (Z * rb_store) :=
  p ← rb_get s parent;
  let sibling := rb_child (opp d) p in
  sib ← rb_get s sibling;
  if sib.(rb_red) : bool then
    s ← rb_upd s sibling (with_red false);
    s ← rb_upd s parent (with_red true);
    s ← rb_rotate d s parent;
    p ← rb_get s parent; Ok (rb_child (opp d) p, s)
  else Ok (sibling, s).

(** The rest of the body; the new [child] and [parent]. *)
Definition erase_black (d : side) (s : rb_store) (parent sibling : Z) : res (Z * Z * rb_store) :=
  n ← rb_get s sibling;
  left_red ← is_red s n.(rb_left);
  any_red ← (if left_red : bool then Ok true else is_red s n.(rb_right));
  if negb any_red then
    s ← rb_upd s sibling (with_red true);
    p ← rb_get s parent;
    Ok (parent, p.(rb_parent), s)
  else
    outer_red ← is_red s (rb_child (opp d) n);
    '(sibling, s) ← (if negb outer_red then
                       s ← (if rb_child d n =? 0 then Ok s
                            else rb_upd s (rb_child d n) (with_red false));
                       s ← rb_upd s sibling (with_red true);
                       s ← rb_rotate (opp d) s sibling;
                       p ← rb_get s parent; Ok (rb_child (opp d) p, s)
                     else Ok (sibling, s));
    p ← rb_get s parent;
    s ← rb_upd s sibling (with_red p.(rb_red));
    s ← rb_upd s parent (with_red false);
    n ← rb_get s sibling;
    s ← (if rb_child (opp d) n =? 0 then Ok s
         else rb_upd s (rb_child (opp d) n) (with_red false));
    s ← rb_rotate d s parent;
    Ok (s.(rb_root), parent, s).

Definition erase_color_step (st : Z * Z * rb_store) : res ((Z * Z * rb_store) + (Z * rb_store)) :=
  let '(child, parent, s) := st in
  child_red ← is_red s child;
  if negb (child =? s.(rb_root)) && negb child_red then
    p ← rb_get s parent;
    let d := if p.(rb_left) =? child then Lft else Rgt in
    '(sibling, s) ← erase_sibling d s parent;
    r ← erase_black d s parent sibling;
    Ok (inl r)
  else Ok (inr (child, s)).

(** What follows [color_fixup:]. *)
Definition erase_color (s : rb_store) (child parent : Z) (color : bool) : res rb_store :=
  if negb color then
    '(child, s) ← iter (S (S (size s.(rb_nodes)))) erase_color_step (child, parent, s);
    if child =? 0 then Ok s else rb_upd s child (with_red false)
  else Ok s.

(** [while ((left = node->rb_left) != NULL) node = left;] *)
Definition leftmost (s : rb_store) (node : Z) : res Z :=
  iter (S (size s.(rb_nodes)))
    (λ node, n ← rb_get s node;
             Ok (if n.(rb_left) =? 0 then inr node else inl n.(rb_left))) node.

(** The removal of a node with at most one [child]. *)
Definition erase_one (s : rb_store) (node child : Z) : res rb_store :=
  n ← rb_get s node;
  let parent := n.(rb_parent) in
  let color := n.(rb_red) in
  s ← (if child =? 0 then Ok s else rb_upd s child (with_parent parent));
  s ← (if parent =? 0 then Ok (set_root child s)
       else p ← rb_get s parent;
            if p.(rb_left) =? node then rb_upd s parent (with_child Lft child)
            else rb_upd s parent (with_child Rgt child));
  erase_color s child parent color.

(** The successor [node] of [old] leaves its place, with [old]'s right subtree
    as its own; the parent of the place it left. *)
Definition take_successor (s : rb_store) (old node : Z) : res (Z * rb_store) :=
  n ← rb_get s node;
  let child := n.(rb_right) in
  let parent := n.(rb_parent) in
  if parent =? old then Ok (node, s)
  else
    s ← (if child =? 0 then Ok s else rb_upd s child (with_parent parent));
    s ← rb_upd s parent (with_child Lft child);
    o ← rb_get s old;
    s ← rb_upd s node (with_child Rgt o.(rb_right));
    s ← rb_upd s o.(rb_right) (with_parent node);
    Ok (parent, s).

(** The removal of a node [old] with two children: its successor takes its
    place. *)
Definition erase_two (s : rb_store) (old : Z) : res rb_store :=
  o ← rb_get s old;
  node ← leftmost s o.(rb_right);
  s ← (if o.(rb_parent) =? 0 then Ok (set_root node s)
       else op ← rb_get s o.(rb_parent);
            if op.(rb_left) =? old then rb_upd s o.(rb_parent) (with_child Lft node)
            else rb_upd s o.(rb_parent) (with_child Rgt node));
  n ← rb_get s node;
  '(parent, s) ← take_successor s old node;
  o ← rb_get s old;
  s ← rb_upd s node (with_parent o.(rb_parent));
  s ← rb_upd s node (with_red o.(rb_red));
  s ← rb_upd s node (with_child Lft o.(rb_left));
  s ← rb_upd s o.(rb_left) (with_parent node);
  erase_color s n.(rb_right) parent n.(rb_red).

(** [void rb_erase(struct rb_node *node, struct rb_root *root)] *)
Definition rb_erase (s : rb_store) (node : Z) : res rb_store :=
  n ← rb_get s node;
  if n.(rb_left) =? 0 then erase_one s node n.(rb_right)
  else if n.(rb_right) =? 0 then erase_one s node n.(rb_left)
  else erase_two s node.

(** ** Linking and the first node ([rbtree.h]) *)

(** [struct rb_node **link] *)
Inductive rb_link := RootLink | ChildLink (p : Z) (d : side).

Definition rb_follow (s : rb_store) (link : rb_link) : res Z :=
  match link with
  | RootLink => Ok s.(rb_root)
  | ChildLink p d => n ← rb_get s p; Ok (rb_child d n)
  end.

(** [rb_link_node(node, parent, link)] *)
Definition rb_link_node (s : rb_store) (node parent : Z) (link : rb_link) : res rb_store :=
  s ← rb_upd s node (λ _, RbNode 0 0 parent true);
  match link with
  | RootLink => Ok (set_root node s)
  | ChildLink p d => rb_upd s p (with_child d node)
  end.

(** [rb_first(root)] *)
Definition rb_first (s : rb_store) : res Z :=
  if s.(rb_root) =? 0 then Ok 0 else leftmost s s.(rb_root).

(** ** The queue of the fair scheduler *)

Section cfs.
(** [vruntime] of the PCB that a node belongs to ([rb_entry]). *)
Context (vruntime : Z → Z).

(** The search of [cfs_enqueue]; the state is [link] and [parent]. *)
Definition cfs_search_step (s : rb_store) (p : Z) (st : rb_link * Z)
    : res ((rb_link * Z) + (rb_link * Z)) :=
  let '(link, parent) := st in
  q ← rb_follow s link;
  Ok (if q =? 0 then inr (link, parent)
      else inl (ChildLink q (if vruntime p <? vruntime q then Lft else Rgt), q)).

(** [static void cfs_enqueue(PCB *p)] *)
Definition cfs_enqueue (s : rb_store) (p : Z) : res rb_store :=
  '(link, parent) ← iter (S (S (size s.(rb_nodes)))) (cfs_search_step s p) (RootLink, 0);
  s ← rb_link_node s p parent link;
  rb_insert_color s p.
End cfs.

(** [static PCB* cfs_dequeue_min(void)] *)
Definition cfs_dequeue_min (s : rb_store) : res (Z * rb_store) :=
  n ← rb_first s;
  if n =? 0 then Ok (0, s) else s ← rb_erase s n; Ok (n, s).
