(* ===== verification/RbSpec.v ===== *)
(** * Trees in memory

    [tree] is a tree of node addresses.  [zip s t P rest] says that the store
    holds the subtree [t] at the end of the path [P] from the root, and the nodes
    [rest] besides. *)
From S2P Require Import Prelude RbTree.

Inductive tree :=
| E
| T (red : bool) (l : tree) (x : Z) (r : tree).

Definition addr (t : tree) : Z := match t with E => 0 | T _ _ x _ => x end.
Definition tred (t : tree) : bool := match t with E => false | T c _ _ _ => c end.

Fixpoint inorder (t : tree) : list Z :=
  match t with E => [] | T _ l x r => inorder l ++ x :: inorder r end.

(** A tree whose subtree on side [d] is [t1]. *)
Definition bt (d : side) (c : bool) (t1 : tree) (x : Z) (t2 : tree) : tree :=
  match d with Lft => T c t1 x t2 | Rgt => T c t2 x t1 end.

(** A node whose child on side [d] is [a]. *)
Definition mknode (d : side) (a b par : Z) (c : bool) : rb_node :=
  match d with Lft => RbNode a b par c | Rgt => RbNode b a par c end.

Notation entry := (Z * rb_node)%type.

(** The nodes of a tree below [par]. *)
Fixpoint entries (t : tree) (par : Z) : list entry :=
  match t with
  | E => []
  | T c l x r => (x, RbNode (addr l) (addr r) par c) :: entries l x ++ entries r x
  end.

(** A path from a subtree up to the root: at each node the side the subtree is
    on, the colour, the node and the other subtree. *)
Record frame := Frame { fr_side : side; fr_red : bool; fr_node : Z; fr_sib : tree }.
Notation path := (list frame).

Definition paddr (P : path) : Z := match P with [] => 0 | f :: _ => f.(fr_node) end.

Fixpoint pentries (P : path) (a : Z) : list entry :=
  match P with
  | [] => []
  | Frame d c x sib :: P =>
      (x, mknode d a (addr sib) (paddr P) c) :: entries sib x ++ pentries P x
  end.

Fixpoint plug (t : tree) (P : path) : tree :=
  match P with [] => t | Frame d c x sib :: P => plug (bt d c t x sib) P end.

Fixpoint proot (P : path) (a : Z) : Z :=
  match P with [] => a | f :: P => proot P f.(fr_node) end.

(** ** Nodes in the store *)

Record sat (m : gmap Z rb_node) (es : list entry) : Prop := {
  sat_nodup : NoDup es.*1;
  sat_lookup : ∀ x n, (x, n) ∈ es → m !! x = Some n;
  sat_null : 0 ∉ es.*1;
}.

Lemma sat_perm m es es' : es ≡ₚ es' → sat m es → sat m es'.
Proof.
  intros HP [H1 H2 H3]. split.
  - by rewrite <-HP.
  - intros x n. rewrite <-HP. apply H2.
  - by rewrite <-HP.
Qed.

#[export] Instance sat_proper m : Proper ((≡ₚ) ==> iff) (sat m).
Proof. intros es es' HP. split; apply sat_perm; [done|by symmetry]. Qed.

Lemma sat_ne m x n es : sat m ((x, n) :: es) → x ≠ 0 ∧ x ∉ es.*1.
Proof.
  intros [H1 _ H3]. simpl in *. apply NoDup_cons in H1 as [H1 _].
  apply not_elem_of_cons in H3 as [H3 _]. split; [congruence|done].
Qed.

Lemma sat_get s es x n :
  sat s.(rb_nodes) es → (x, n) ∈ es → rb_get s x = Ok n.
Proof.
  intros [H1 H2 H3] Hx. unfold rb_get. rewrite (proj2 (Z.eqb_neq x 0)), (H2 x n Hx); [done|].
  intros ->. apply H3. by apply (list_elem_of_fmap_2 fst es (0, n)).
Qed.

Lemma sat_upd s es es' x n f :
  sat s.(rb_nodes) es → es ≡ₚ (x, n) :: es' →
  ∃ s', rb_upd s x f = Ok s' ∧ s'.(rb_root) = s.(rb_root) ∧
    sat s'.(rb_nodes) ((x, f n) :: es') ∧ size s'.(rb_nodes) = size s.(rb_nodes).
Proof.
  intros Hs HP. rewrite HP in Hs. unfold rb_upd.
  rewrite (sat_get s _ x n Hs) by (by left). rewrite bind_ok. eexists. split; [done|].
  split; [done|]. destruct Hs as [H1 H2 H3]. split; [split|].
  - exact H1.
  - intros y k [H|H]%elem_of_cons.
    + injection H as -> ->. apply lookup_insert_eq.
    + simpl. rewrite lookup_insert_ne; [apply H2; by right|]. intros ->.
      apply NoDup_cons in H1 as [H1 _]. apply H1.
      by apply (list_elem_of_fmap_2 fst es' (y, k)).
  - exact H3.
  - simpl. apply map_size_insert_Some. exists n. apply H2. by left.
Qed.

Lemma sat_size m es : sat m es → (length es ≤ size m)%nat.
Proof.
  intros [H1 H2 _]. rewrite <-(length_fmap fst es), <-(size_list_to_set (C := gset Z)) by done.
  rewrite <-size_dom. apply subseteq_size. intros x Hx.
  apply elem_of_list_to_set, list_elem_of_fmap in Hx as ([y n] & -> & Hx).
  apply elem_of_dom. exists n. by apply H2.
Qed.

(** ** Permutations of nodes *)

Lemma perm_here {A} (a : list A) x : a ++ x ≡ₚ a ++ x.
Proof. done. Qed.

Lemma perm_there {A} (a b x y : list A) : x ≡ₚ a ++ y → b ++ x ≡ₚ a ++ (b ++ y).
Proof. intros ->. rewrite !(assoc_L (++)). by rewrite (Permutation_app_comm b a). Qed.

Lemma perm_cancel {A} (a x r y : list A) : r ≡ₚ a ++ y → x ≡ₚ y → a ++ x ≡ₚ r.
Proof. intros -> ->. done. Qed.

Lemma cons_one {A} (x : A) l : x :: l = [x] ++ (l ++ []).
Proof. by rewrite app_nil_r. Qed.

Lemma app_nil_end {A} (l : list A) : l = l ++ [].
Proof. by rewrite app_nil_r. Qed.

(** [perm_norm] writes both sides as [a1 ++ (a2 ++ ... ++ [])] with one-element
    lists; [perm] cancels what is on both sides. *)
Ltac perm_flat l k :=
  lazymatch l with
  | ?a ++ ?b => let r := perm_flat b k in perm_flat a r
  | [] => k
  | [?a] => constr:([a] ++ k)
  | ?a :: ?b => let r := perm_flat b k in constr:([a] ++ r)
  | ?a => constr:(a ++ k)
  end.

Ltac perm_find :=
  first [apply perm_here | apply perm_there; perm_find].

Ltac perm :=
  lazymatch goal with
  | |- ?l ≡ₚ ?r =>
      let A := lazymatch type of l with list ?A => A end in
      let l' := perm_flat l (@nil A) in let r' := perm_flat r (@nil A) in
      let H := fresh in
      assert (l' ≡ₚ r') as H
        by (repeat (eapply perm_cancel; [perm_find|]); reflexivity);
      repeat rewrite <-?(assoc_L (++)) in H; simpl in H;
      rewrite <-?(assoc_L (++)); simpl; rewrite ?app_nil_r in *; 
      rewrite <-?(assoc_L (++)) in *; exact H
  end.

Lemma perm_test (a b c : entry) l1 l2 l3 : a :: (l1 ++ b :: l2) ++ c :: l3 ≡ₚ (c :: l2) ++ b :: a :: l3 ++ l1.
Proof. perm. Qed.

(** ** Zippers in memory *)

Record zip (s : rb_store) (t : tree) (P : path) (rest : list entry) : Prop := {
  zip_sat : sat s.(rb_nodes) (entries t (paddr P) ++ pentries P (addr t) ++ rest);
  zip_root : s.(rb_root) = proot P (addr t);
}.

Lemma addr_bt d c t1 x t2 : addr (bt d c t1 x t2) = x.
Proof. by destruct d. Qed.
Lemma tred_bt d c t1 x t2 : tred (bt d c t1 x t2) = c.
Proof. by destruct d. Qed.

Lemma entries_bt d c t1 x t2 par :
  entries (bt d c t1 x t2) par ≡ₚ
    (x, mknode d (addr t1) (addr t2) par c) :: entries t1 x ++ entries t2 x.
Proof. destruct d; [done|]. simpl. by rewrite (Permutation_app_comm (entries t2 x)). Qed.

(** Going up and down. *)
Lemma zip_up s t d c x sib P rest :
  zip s t (Frame d c x sib :: P) rest ↔ zip s (bt d c t x sib) P rest.
Proof.
  split; intros [H1 H2]; (split; [|by rewrite addr_bt in *]);
    (eapply sat_perm; [|exact H1]); rewrite addr_bt, entries_bt; simpl; perm.
Qed.

Lemma zip_go_up s t d c x sib P rest :
  zip s t (Frame d c x sib :: P) rest → zip s (bt d c t x sib) P rest.
Proof. apply zip_up. Qed.

Lemma zip_go_down s t d c x sib P rest :
  zip s (bt d c t x sib) P rest → zip s t (Frame d c x sib :: P) rest.
Proof. apply zip_up. Qed.

Lemma zip_plug s t P rest : zip s t P rest ↔ zip s (plug t P) [] rest.
Proof.
  revert t. induction P as [|[d c x sib] P IH]; intros t; [done|]. simpl.
  by rewrite zip_up, IH.
Qed.

Lemma zip_plugged s t P rest : zip s t P rest → zip s (plug t P) [] rest.
Proof. apply zip_plug. Qed.

Lemma plug_nonempty t P : t ≠ E → plug t P ≠ E.
Proof.
  revert t. induction P as [|[d c x sib] P IH]; intros t Ht; [done|]. apply IH. by destruct d.
Qed.

(** The focus in full. *)
Lemma zip_node s d c t1 x t2 P rest :
  zip s (bt d c t1 x t2) P rest →
  sat s.(rb_nodes) ((x, mknode d (addr t1) (addr t2) (paddr P) c) ::
    entries t1 x ++ entries t2 x ++ pentries P x ++ rest) ∧ s.(rb_root) = proot P x.
Proof.
  intros [H1 H2]. rewrite addr_bt in *. split; [|done]. rewrite entries_bt in H1.
  eapply sat_perm; [|exact H1]. perm.
Qed.

Lemma node_zip s d c t1 x t2 P rest :
  sat s.(rb_nodes) ((x, mknode d (addr t1) (addr t2) (paddr P) c) ::
    entries t1 x ++ entries t2 x ++ pentries P x ++ rest) → s.(rb_root) = proot P x →
  zip s (bt d c t1 x t2) P rest.
Proof.
  intros H1 H2. split; rewrite addr_bt; [|done]. rewrite entries_bt.
  eapply sat_perm; [|exact H1]. perm.
Qed.

Lemma zip_get s d c t1 x t2 P rest :
  zip s (bt d c t1 x t2) P rest → rb_get s x = Ok (mknode d (addr t1) (addr t2) (paddr P) c).
Proof. intros [H _]%zip_node. eapply sat_get; [exact H|by left]. Qed.

Lemma zip_nonnull s d c t1 x t2 P rest : zip s (bt d c t1 x t2) P rest → x ≠ 0.
Proof. intros [H _]%zip_node. by apply sat_ne in H as [? _]. Qed.

Lemma mknode_child d a b par c : rb_child d (mknode d a b par c) = a.
Proof. by destruct d. Qed.
Lemma mknode_other d a b par c : rb_child (opp d) (mknode d a b par c) = b.
Proof. by destruct d. Qed.
Lemma mknode_parent d a b par c : rb_parent (mknode d a b par c) = par.
Proof. by destruct d. Qed.
Lemma mknode_red d a b par c : rb_red (mknode d a b par c) = c.
Proof. by destruct d. Qed.
Lemma with_child_mk d v a b par c : with_child d v (mknode d a b par c) = mknode d v b par c.
Proof. by destruct d. Qed.
Lemma with_other_mk d v a b par c : with_child (opp d) v (mknode d a b par c) = mknode d a v par c.
Proof. by destruct d. Qed.
Lemma with_parent_mk d v a b par c : with_parent v (mknode d a b par c) = mknode d a b v c.
Proof. by destruct d. Qed.
Lemma with_red_mk d v a b par c : with_red v (mknode d a b par c) = mknode d a b par v.
Proof. by destruct d. Qed.
Lemma mknode_opp d a b par c : mknode (opp d) a b par c = mknode d b a par c.
Proof. by destruct d. Qed.
Lemma bt_opp d c t1 x t2 : bt (opp d) c t1 x t2 = bt d c t2 x t1.
Proof. by destruct d. Qed.
Lemma opp_opp d : opp (opp d) = d.
Proof. by destruct d. Qed.

Lemma tree_case d t : t = E ∨ ∃ c t1 x t2, t = bt d c t1 x t2.
Proof. destruct t as [|c l x r]; [by left|right]. destruct d; simpl; eauto. Qed.

(** A colour is changed. *)
Lemma zip_set_red s d c c' t1 x t2 P rest :
  zip s (bt d c t1 x t2) P rest →
  ∃ s', rb_upd s x (with_red c') = Ok s' ∧ zip s' (bt d c' t1 x t2) P rest ∧
    size s'.(rb_nodes) = size s.(rb_nodes).
Proof.
  intros [H1 H2]%zip_node.
  destruct (sat_upd s _ _ x _ (with_red c') H1 (reflexivity _)) as (s' & -> & Hr & Hs & Hz).
  exists s'. split; [done|]. split; [|done]. rewrite with_red_mk in Hs.
  apply node_zip; [done|congruence].
Qed.

(** [t && t->rb_red] *)
Lemma zip_is_red s t P rest : zip s t P rest → is_red s (addr t) = Ok (tred t).
Proof.
  intros Hz. unfold is_red. destruct (tree_case Lft t) as [->|(c & t1 & x & t2 & ->)]; [done|].
  rewrite addr_bt, tred_bt, (proj2 (Z.eqb_neq x 0)) by (by eapply zip_nonnull).
  by rewrite (zip_get _ _ _ _ _ _ _ _ Hz), bind_ok, mknode_red.
Qed.

(** The parent of a subtree is changed. *)
Lemma sat_set_parent s t par v es :
  sat s.(rb_nodes) (entries t par ++ es) →
  ∃ s', (if addr t =? 0 then Ok s else rb_upd s (addr t) (with_parent v)) = Ok s' ∧
    s'.(rb_root) = s.(rb_root) ∧ sat s'.(rb_nodes) (entries t v ++ es) ∧
    size s'.(rb_nodes) = size s.(rb_nodes).
Proof.
  intros Hs. destruct t as [|c l x r]; [by exists s|]. simpl in *.
  rewrite (proj2 (Z.eqb_neq x 0)) by (by apply sat_ne in Hs as [? _]).
  destruct (sat_upd s _ _ x _ (with_parent v) Hs (reflexivity _)) as (s' & -> & Hr & Hs' & Hz).
  by exists s'.
Qed.

(** The pointer from above is changed: [P] holds the new address. *)
Lemma sat_set_above s P a b es :
  sat s.(rb_nodes) (pentries P a ++ es) → s.(rb_root) = proot P a → a ≠ 0 → a ∉ (pentries P a).*1 →
  ∃ s', (∀ d, (if paddr P =? 0 then Ok (set_root b s)
         else p ← rb_get s (paddr P);
              if rb_child d p =? a then rb_upd s (paddr P) (with_child d b)
              else rb_upd s (paddr P) (with_child (opp d) b)) = Ok s') ∧
    s'.(rb_root) = proot P b ∧ sat s'.(rb_nodes) (pentries P b ++ es) ∧
    size s'.(rb_nodes) = size s.(rb_nodes).
Proof.
  intros Hs Hr Ha Hn. destruct P as [|[d0 c x sib] P]; simpl in *.
  { exists (set_root b s). by split_and!. }
  pose proof (sat_ne _ _ _ _ Hs) as [Hx _]. rewrite (proj2 (Z.eqb_neq x 0)) by done.
  rewrite (sat_get s _ x _ Hs) by (by left).
  destruct (sat_upd s _ _ x _ (with_child d0 b) Hs (reflexivity _)) as (s' & Hu & Hr' & Hs' & Hz).
  exists s'. split; [|split; [congruence|split; [|done]]].
  2:{ by rewrite with_child_mk in Hs'. }
  intros d. rewrite bind_ok. destruct (decide (d = d0)) as [->|Hd].
  - by rewrite mknode_child, Z.eqb_refl.
  - assert (d = opp d0) as -> by (destruct d, d0; done).
    rewrite mknode_other, opp_opp. rewrite (proj2 (Z.eqb_neq _ _)); [done|].
    intros E. apply not_elem_of_cons in Hn as [_ Hn]. apply Hn.
    destruct sib as [|c' l y r]; simpl in E; [congruence|]. subst y. simpl. by left.
Qed.

(** ** Rotations *)

Lemma rotate_ok s d c x t1 c2 a y b P rest :
  zip s (bt d c t1 x (bt d c2 a y b)) P rest →
  ∃ s', rb_rotate d s x = Ok s' ∧ zip s' (bt d c2 (bt d c t1 x a) y b) P rest ∧
    size s'.(rb_nodes) = size s.(rb_nodes).
Proof.
  intros Hz. pose proof (zip_nonnull _ _ _ _ _ _ _ _ Hz) as Hx0.
  apply zip_node in Hz as [H Hroot]. rewrite addr_bt in H. rewrite entries_bt in H.
  unfold rb_rotate. rewrite (sat_get s _ x _ H), bind_ok by (by left).
  rewrite mknode_other, mknode_parent.
  assert (rb_get s y = Ok (mknode d (addr a) (addr b) x c2)) as ->.
  { eapply sat_get; [exact H|]. rewrite !elem_of_cons, !elem_of_app, !elem_of_cons. tauto. }
  rewrite bind_ok, mknode_child.
  set (par := paddr P) in *.
  assert (y ≠ 0) as Hy0.
  { intros ->. apply (sat_null _ _ H). rewrite !fmap_cons, !fmap_app, !fmap_cons. set_solver. }
  assert (x ∉ (pentries P x).*1) as HxP.
  { pose proof (sat_ne _ _ _ _ H) as [_ H']. rewrite !fmap_app in H'. set_solver. }
  destruct (sat_upd s _ _ x _ (with_child (opp d) (addr a)) H (reflexivity _))
    as (s1 & -> & R1 & H1 & Z1). rewrite with_other_mk in H1. rewrite bind_ok.
  destruct (sat_set_parent s1 a y x ((x, mknode d (addr t1) (addr a) par c) ::
    (y, mknode d (addr a) (addr b) x c2) :: entries t1 x ++ entries b y ++ pentries P x ++ rest))
    as (s2 & -> & R2 & H2 & Z2); [eapply sat_perm; [|exact H1]; perm|]. rewrite bind_ok.
  destruct (sat_upd s2 _ ((x, mknode d (addr t1) (addr a) par c) :: entries t1 x ++ entries a x ++
    entries b y ++ pentries P x ++ rest) y (mknode d (addr a) (addr b) x c2)
    (with_child d x) H2)
    as (s3 & -> & R3 & H3 & Z3); [perm|]. rewrite with_child_mk in H3. rewrite bind_ok.
  destruct (sat_upd s3 _ ((y, mknode d x (addr b) x c2) :: entries t1 x ++ entries a x ++
    entries b y ++ pentries P x ++ rest) x (mknode d (addr t1) (addr a) par c)
    (with_parent y) H3)
    as (s4 & -> & R4 & H4 & Z4); [perm|]. rewrite with_parent_mk in H4. rewrite bind_ok.
  destruct (sat_upd s4 _ ((x, mknode d (addr t1) (addr a) y c) :: entries t1 x ++ entries a x ++
    entries b y ++ pentries P x ++ rest) y (mknode d x (addr b) x c2)
    (with_parent par) H4)
    as (s5 & -> & R5 & H5 & Z5); [perm|]. rewrite with_parent_mk in H5. rewrite bind_ok.
  destruct (sat_set_above s5 P x y ((y, mknode d x (addr b) par c2) ::
    (x, mknode d (addr t1) (addr a) y c) :: entries t1 x ++ entries a x ++ entries b y ++ rest))
    as (s6 & E6 & R6 & H6 & Z6); [eapply sat_perm; [|exact H5]; perm|congruence|done|done|].
  fold par in E6. rewrite E6. exists s6. split; [done|]. split; [|congruence].
  apply node_zip; [|done]. rewrite addr_bt, entries_bt. eapply sat_perm; [|exact H6]. perm.
Qed.

(** ** More moves *)

Lemma zip_across s t d c x sib P rest :
  zip s t (Frame d c x sib :: P) rest ↔ zip s sib (Frame (opp d) c x t :: P) rest.
Proof. by rewrite !zip_up, bt_opp. Qed.

Lemma zip_cross s t d c x sib P rest :
  zip s t (Frame d c x sib :: P) rest → zip s sib (Frame (opp d) c x t :: P) rest.
Proof. apply zip_across. Qed.

(** A subtree and its sibling have different roots. *)
Lemma zip_sib s t d c x sib P rest :
  zip s t (Frame d c x sib :: P) rest → addr t ≠ 0 → addr sib ≠ addr t.
Proof.
  intros [H _] Ht E. destruct t as [|c1 l y r]; [done|]. simpl in E, Ht.
  destruct sib as [|c2 l2 y2 r2]; simpl in E; [congruence|]. subst y2.
  simpl in H. apply sat_ne in H as [_ H]. apply H. rewrite !fmap_app. simpl.
  rewrite !elem_of_app, !elem_of_cons. tauto.
Qed.

(** [parent == gparent->rb_left] *)
Lemma zip_side s t d c x sib P rest par c' :
  zip s t (Frame d c x sib :: P) rest → addr t ≠ 0 →
  (if addr t =? rb_left (mknode d (addr t) (addr sib) par c') then Lft else Rgt) = d ∧
  (if rb_left (mknode d (addr t) (addr sib) par c') =? addr t then Lft else Rgt) = d.
Proof.
  intros Hz Ht. pose proof (zip_sib _ _ _ _ _ _ _ _ Hz Ht) as Hne.
  rewrite (Z.eqb_sym (rb_left _)). destruct d; simpl; [by rewrite Z.eqb_refl|].
  by rewrite (proj2 (Z.eqb_neq (addr t) (addr sib))) by congruence.
Qed.

Lemma zip_parent s t d c x sib P rest :
  zip s t (Frame d c x sib :: P) rest → rb_get s x = Ok (mknode d (addr t) (addr sib) (paddr P) c) ∧ x ≠ 0.
Proof. intros Hz%zip_up. split; [by eapply zip_get|by eapply zip_nonnull]. Qed.

Lemma zip_path_size s t P rest : zip s t P rest → (length P ≤ size s.(rb_nodes))%nat.
Proof.
  intros [H _]. apply sat_size in H. rewrite !length_app in H.
  assert (∀ P a, (length P ≤ length (pentries P a))%nat) as HP.
  { clear. induction P as [|[d c x sib] P IH]; intros a; [done|]. simpl. rewrite length_app.
    specialize (IH x). lia. }
  specialize (HP P (addr t)). lia.
Qed.

Lemma inorder_rotate d c t1 x c2 a y b c' c2' :
  inorder (bt d c t1 x (bt d c2 a y b)) = inorder (bt d c2' (bt d c' t1 x a) y b).
Proof. destruct d; simpl; by rewrite <-!(assoc_L (++)). Qed.

Lemma inorder_red d c c' t1 x t2 : inorder (bt d c t1 x t2) = inorder (bt d c' t1 x t2).
Proof. by destruct d. Qed.

Lemma inorder_bt d c t1 t1' x t2 t2' :
  inorder t1 = inorder t1' → inorder t2 = inorder t2' →
  inorder (bt d c t1 x t2) = inorder (bt d c t1' x t2').
Proof. intros H1 H2. destruct d; simpl; by rewrite H1, H2. Qed.

Lemma inorder_plug t t' P : inorder t = inorder t' → inorder (plug t P) = inorder (plug t' P).
Proof.
  revert t t'. induction P as [|[d c x sib] P IH]; intros t t' H; [done|].
  apply IH. by apply inorder_bt.
Qed.

(** ** Balance *)

(** [t] has [n] black nodes on every way down and no red node with a red
    child. *)
Fixpoint bal (t : tree) (n : nat) : Prop :=
  match t with
  | E => n = O
  | T true l _ r => tred l = false ∧ tred r = false ∧ bal l n ∧ bal r n
  | T false l _ r => match n with O => False | S k => bal l k ∧ bal r k end
  end.

(** The colour of the parent. *)
Definition pred (P : path) : bool := match P with [] => false | f :: _ => f.(fr_red) end.

(** [P] fits a subtree of [n] black nodes; the root is black. *)
Fixpoint pbal (P : path) (n : nat) : Prop :=
  match P with
  | [] => True
  | Frame _ c _ sib :: P =>
      bal sib n ∧
      if c then tred sib = false ∧ P ≠ [] ∧ pred P = false ∧ pbal P n else pbal P (S n)
  end.

Definition rb_tree (t : tree) : Prop := tred t = false ∧ ∃ n, bal t n.

Lemma bal_red d t1 x t2 n :
  bal (bt d true t1 x t2) n ↔ tred t1 = false ∧ tred t2 = false ∧ bal t1 n ∧ bal t2 n.
Proof. destruct d; simpl; tauto. Qed.

Lemma bal_black d t1 x t2 n : bal (bt d false t1 x t2) (S n) ↔ bal t1 n ∧ bal t2 n.
Proof. destruct d; simpl; tauto. Qed.

Lemma bal_black_0 d t1 x t2 : ¬ bal (bt d false t1 x t2) 0.
Proof. destruct d; simpl; tauto. Qed.

Lemma bal_plug t P n :
  bal t n → pbal P n → (tred t = true → pred P = false) → ∃ m, bal (plug t P) m.
Proof.
  revert t n. induction P as [|[d c x sib] P IH]; intros t n Ht HP Hr; [by exists n|].
  simpl in *. destruct c.
  - destruct HP as (Hs & Hsb & _ & Hp & HP). apply (IH _ n); [|done|by rewrite tred_bt].
    apply bal_red. split; [|done]. destruct (tred t); [by specialize (Hr eq_refl)|done].
  - destruct HP as (Hs & HP). apply (IH _ (S n)); [by apply bal_black|done|by rewrite tred_bt].
Qed.

Lemma tred_plug t P n : pbal P n → (P = [] → tred t = false) → tred (plug t P) = false.
Proof.
  revert t n. induction P as [|[d c x sib] P IH]; intros t n HP Ht; [by apply Ht|].
  simpl in *. destruct c.
  - destruct HP as (_ & _ & Hne & _ & HP). by apply (IH _ n).
  - destruct HP as (_ & HP). apply (IH _ (S n)); [done|]. by rewrite tred_bt.
Qed.

(** A balanced tree with a root that is made black. *)
Lemma blacken s t rest m :
  zip s t [] rest → t ≠ E → bal t m →
  ∃ s' t', rb_upd s (addr t) (with_red false) = Ok s' ∧ zip s' t' [] rest ∧ rb_tree t' ∧
    inorder t' = inorder t ∧ addr t' = addr t ∧ size s'.(rb_nodes) = size s.(rb_nodes).
Proof.
  intros Hz Ht Hb. destruct (tree_case Lft t) as [->|(c & t1 & x & t2 & ->)]; [done|].
  rewrite addr_bt in *. destruct (zip_set_red s Lft c false t1 x t2 [] rest Hz) as (s' & -> & Hz' & Hsz).
  exists s', (bt Lft false t1 x t2). split; [done|]. split; [done|]. split; [|by rewrite addr_bt].
  split; [done|]. destruct c.
  - exists (S m). by apply bal_red in Hb as (_ & _ & H).
  - by exists m.
Qed.
