(* ===== verification/RbInsert.v ===== *)
(** * Insertion into a red-black tree

    [rb_insert_color] restores the balance after a red node was linked, and
    keeps the order of the nodes. *)
From S2P Require Import Prelude RbTree RbSpec.

(** A red node whose parent is black ends the loop. *)
Lemma insert_stop s t P rest :
  zip s t P rest → t ≠ E → pred P = false → insert_color_step (addr t, s) = Ok (inr s).
Proof.
  intros Hz Ht HP. destruct (tree_case Lft t) as [->|(c & t1 & x & t2 & ->)]; [done|].
  unfold insert_color_step. rewrite addr_bt, (zip_get _ _ _ _ _ _ _ _ Hz), bind_ok, mknode_parent.
  assert (is_red s (paddr P) = Ok false) as ->; [|done].
  destruct P as [|[d c' y sib] P]; [done|]. simpl in *. subst c'.
  apply zip_go_up in Hz. pose proof (zip_is_red _ _ _ _ Hz) as H. by rewrite addr_bt, tred_bt in H.
Qed.

(** The last rotation: [X] is a red child on the outer side of a red [p]. *)
Lemma insert_outer (node : Z) s d X p sib g unc P rest :
  zip s X (Frame d true p sib :: Frame d false g unc :: P) rest →
  ∃ s', (s ← rb_upd s p (with_red false);
         s ← rb_upd s g (with_red true);
         s ← rb_rotate (opp d) s g; Ok (node, s)) = Ok (node, s') ∧
    zip s' X (Frame d false p (bt d true sib g unc) :: P) rest ∧
    size s'.(rb_nodes) = size s.(rb_nodes).
Proof.
  intros Hz%zip_go_up.
  destruct (zip_set_red _ _ _ false _ _ _ _ _ Hz) as (s1 & -> & Hz1 & S1). rewrite bind_ok.
  apply zip_go_down, zip_go_up, zip_go_up in Hz1.
  destruct (zip_set_red _ _ _ true _ _ _ _ _ Hz1) as (s2 & -> & Hz2 & S2). rewrite bind_ok.
  rewrite <-bt_opp, <-(bt_opp d false sib p X) in Hz2.
  destruct (rotate_ok _ _ _ _ _ _ _ _ _ _ _ Hz2) as (s3 & -> & Hz3 & S3).
  exists s3. split; [done|]. split; [|congruence]. apply zip_go_down.
  by rewrite !bt_opp in Hz3.
Qed.

(** The step when the uncle is black: one or two rotations. *)
Lemma insert_rotate s d d2 x t1 t2 p sib g unc P rest k :
  let t := bt d true t1 x t2 in
  zip s t (Frame d true p sib :: Frame d2 false g unc :: P) rest →
  bal t k → bal sib k → tred sib = false → bal unc k → tred unc = false →
  ∃ s' t' p' w, insert_color_side d2 s x p g = Ok (addr t', s') ∧ t' ≠ E ∧
    zip s' t' (Frame d2 false p' w :: P) rest ∧
    bal (bt d2 false t' p' w) (S k) ∧
    inorder (bt d2 false t' p' w) = inorder (bt d2 false (bt d true t p sib) g unc) ∧
    size s'.(rb_nodes) = size s.(rb_nodes).
Proof.
  intros t Hz Ht Hsib Rsib Hunc Runc. unfold insert_color_side.
  pose proof (zip_go_up _ _ _ _ _ _ _ _ Hz) as Hzp.
  destruct (zip_parent _ _ _ _ _ _ _ _ Hzp) as [-> _]. rewrite bind_ok, mknode_other.
  pose proof (zip_cross _ _ _ _ _ _ _ _ Hzp) as Hzu.
  rewrite (zip_is_red _ _ _ _ Hzu), bind_ok, Runc.
  rewrite (zip_get _ _ _ _ _ _ _ _ Hzp), bind_ok.
  assert (addr t = x) as Hax by apply addr_bt.
  assert (x ≠ 0) as Hx0 by (by eapply zip_nonnull).
  destruct (decide (d = d2)) as [->|Hd].
  - rewrite mknode_other, (proj2 (Z.eqb_neq _ _)), bind_ok
      by (rewrite <-Hax; eapply zip_sib; [exact Hz|by rewrite Hax]).
    destruct (insert_outer x _ _ _ _ _ _ _ _ _ Hz) as (s' & Hs' & Hz' & S').
    exists s', t, p, (bt d2 true sib g unc). rewrite Hax.
    rewrite Hs'.
    split; [done|]. split; [by destruct d2|]. split; [done|]. split; [|split; [|done]].
    + apply bal_black. split; [done|]. by apply bal_red.
    + destruct d2; simpl; by rewrite <-!(assoc_L (++)).
  - assert (d = opp d2) as -> by (destruct d, d2; done).
    rewrite mknode_child, (proj2 (Z.eqb_eq _ _) Hax).
    assert (∃ a b, t = bt d2 true a x b) as (a & b & Et).
    { unfold t. destruct d2; simpl; eauto. }
    clearbody t. subst t. rewrite bt_opp in Hzp. apply bal_red in Ht as (Ra & Rb & Ba & Bb).
    destruct (rotate_ok _ _ _ _ _ _ _ _ _ _ _ Hzp) as (s1 & -> & Hz1 & S1).
    rewrite !bind_ok. apply zip_go_down in Hz1.
    destruct (insert_outer p _ _ _ _ _ _ _ _ _ Hz1) as (s' & Hs' & Hz' & S').
    exists s', (bt d2 true sib p a), x, (bt d2 true b g unc). rewrite addr_bt, Hs'.
    split; [done|]. split; [by destruct d2|]. split; [done|]. split; [|split; [|congruence]].
    + apply bal_black. by rewrite !bal_red.
    + destruct d2; simpl; by rewrite <-?(assoc_L (++)); simpl; rewrite <-?(assoc_L (++)).
Qed.

(** The step when the uncle is red: the parent, the uncle and the grandparent
    change colour. *)
Lemma insert_recolor s d d2 node t p sib g unc P rest k :
  zip s t (Frame d true p sib :: Frame d2 false g unc :: P) rest →
  bal t k → bal sib k → bal unc k → tred unc = true →
  ∃ s' t', insert_color_side d2 s node p g = Ok (addr t', s') ∧ t' ≠ E ∧
    zip s' t' P rest ∧ tred t' = true ∧ bal t' (S k) ∧
    inorder t' = inorder (bt d2 false (bt d true t p sib) g unc) ∧
    size s'.(rb_nodes) = size s.(rb_nodes).
Proof.
  intros Hz%zip_go_up Ht Hsib Hunc Runc. unfold insert_color_side.
  destruct (zip_parent _ _ _ _ _ _ _ _ Hz) as [-> _]. rewrite bind_ok, mknode_other.
  apply zip_cross in Hz. rewrite (zip_is_red _ _ _ _ Hz), bind_ok, Runc.
  destruct (tree_case d2 unc) as [->|(c & u1 & u & u2 & ->)]; [done|].
  rewrite tred_bt in Runc. subst c. rewrite addr_bt.
  apply bal_red in Hunc as (_ & _ & B1 & B2).
  destruct (zip_set_red _ _ _ false _ _ _ _ _ Hz) as (s1 & -> & Hz1 & S1). rewrite bind_ok.
  apply zip_cross in Hz1. rewrite opp_opp in Hz1.
  destruct (zip_set_red _ _ _ false _ _ _ _ _ Hz1) as (s2 & -> & Hz2 & S2). rewrite bind_ok.
  apply zip_go_up in Hz2.
  destruct (zip_set_red _ _ _ true _ _ _ _ _ Hz2) as (s3 & -> & Hz3 & S3). rewrite bind_ok.
  exists s3, (bt d2 true (bt d false t p sib) g (bt d2 false u1 u u2)).
  split; [by rewrite addr_bt|]. split; [by destruct d2|]. split; [exact Hz3|].
  split; [by rewrite tred_bt|]. split; [|split; [|congruence]].
  - apply bal_red. rewrite !tred_bt. split; [done|]. split; [done|]. by rewrite !bal_black.
  - destruct d2, d; done.
Qed.

(** The whole loop. *)
Lemma insert_loop fuel s t P rest k :
  (length P < fuel)%nat → zip s t P rest → t ≠ E → tred t = true → bal t k → pbal P k →
  ∃ s' t' n, iter fuel insert_color_step (addr t, s) = Ok s' ∧ zip s' t' [] rest ∧ bal t' n ∧
    t' ≠ E ∧ inorder t' = inorder (plug t P) ∧ size s'.(rb_nodes) = size s.(rb_nodes).
Proof.
  revert s t P k. induction (lt_wf fuel) as [fuel _ IH]. intros s t P k Hf Hz Ht Rt Bt HP.
  destruct fuel as [|fuel]; [lia|].
  pose proof (plug_nonempty t P Ht) as Hne.
  destruct P as [|[d c p sib] P].
  { rewrite iter_S, (insert_stop _ _ _ _ Hz Ht eq_refl), bind_ok. by exists s, t, k. }
  destruct c.
  2:{ rewrite iter_S, (insert_stop _ _ _ _ Hz Ht eq_refl), bind_ok.
      destruct (bal_plug t (Frame d false p sib :: P) k Bt HP ltac:(done)) as [m Hm].
      exists s, (plug t (Frame d false p sib :: P)), m. split; [done|].
      split; [by apply (zip_plug s t (Frame d false p sib :: P))|]. done. }
  destruct P as [|[d2 c2 g unc] P]; [by destruct HP as (_ & _ & ? & _)|].
  destruct HP as (Bsib & Rsib & _ & Hc2 & HP). simpl in Hc2. subst c2. destruct HP as [Bunc HP].
  destruct (tree_case d t) as [->|(c & t1 & x & t2 & ->)]; [done|].
  rewrite tred_bt in Rt. subst c. rewrite addr_bt, iter_S.
  assert (insert_color_step (x, s) = (r ← insert_color_side d2 s x p g; Ok (inl r))) as ->.
  { unfold insert_color_step. rewrite (zip_get _ _ _ _ _ _ _ _ Hz), bind_ok, mknode_parent.
    pose proof (zip_go_up _ _ _ _ _ _ _ _ Hz) as Hzp. pose proof (zip_is_red _ _ _ _ Hzp) as Hr.
    rewrite addr_bt, tred_bt in Hr. simpl paddr. rewrite Hr, bind_ok.
    rewrite (zip_get _ _ _ _ _ _ _ _ Hzp), bind_ok, mknode_parent. simpl paddr.
    destruct (zip_parent _ _ _ _ _ _ _ _ Hzp) as [-> _]. rewrite bind_ok.
    assert (addr (bt d true (bt d true t1 x t2) p sib) ≠ 0) as Hp0
      by (rewrite addr_bt; by eapply zip_nonnull).
    destruct (zip_side _ _ _ _ _ _ _ _ (paddr P) false Hzp Hp0) as [Hs _].
    rewrite addr_bt in Hs |- *. by rewrite Hs. }
  simpl in Hf. destruct (tred unc) eqn:Runc.
  - destruct (insert_recolor s d d2 x _ p sib g unc P rest k Hz Bt Bsib Bunc Runc)
      as (s1 & t' & -> & Ht' & Hz1 & Rt' & Bt' & Hi & S1). rewrite !bind_ok.
    destruct (IH fuel ltac:(lia) s1 t' P (S k) ltac:(lia) Hz1 Ht' Rt' Bt' HP)
      as (s' & w & n & -> & Hzw & Bw & Hw & Hiw & Sw).
    exists s', w, n. split; [done|]. split; [done|]. split; [done|]. split; [done|].
    split; [|congruence]. rewrite Hiw. simpl. by apply inorder_plug.
  - destruct (insert_rotate s d d2 x t1 t2 p sib g unc P rest k Hz Bt Bsib Rsib Bunc Runc)
      as (s1 & t' & p' & w & -> & Ht' & Hz1 & Bw & Hi & S1). rewrite !bind_ok.
    destruct fuel as [|fuel]; [lia|]. rewrite iter_S, (insert_stop _ _ _ _ Hz1 Ht' eq_refl), bind_ok.
    destruct (bal_plug _ P (S k) Bw HP) as [m Hm]; [by rewrite tred_bt|].
    exists s1, (plug (bt d2 false t' p' w) P), m. split; [done|].
    split; [by apply zip_plugged, zip_go_up|]. split; [done|]. split; [|split; [|done]].
    + apply plug_nonempty. by destruct d2.
    + simpl. by apply inorder_plug.
Qed.

(** [rb_insert_color] after [node] was linked as a red leaf. *)
Lemma insert_color_ok s t P rest k :
  zip s t P rest → t ≠ E → tred t = true → bal t k → pbal P k →
  ∃ s' t', rb_insert_color s (addr t) = Ok s' ∧ zip s' t' [] rest ∧ rb_tree t' ∧
    inorder t' = inorder (plug t P) ∧ size s'.(rb_nodes) = size s.(rb_nodes).
Proof.
  intros Hz Ht Rt Bt HP. unfold rb_insert_color. pose proof (zip_path_size _ _ _ _ Hz).
  destruct (insert_loop (S (size s.(rb_nodes))) s t P rest k ltac:(lia) Hz Ht Rt Bt HP)
    as (s1 & w & n & -> & Hz1 & Bw & Hw & Hi & S1).
  rewrite bind_ok, (zip_root _ _ _ _ Hz1). simpl.
  destruct (blacken s1 w rest n Hz1 Hw Bw) as (s2 & t' & -> & Hz2 & Ht' & Hi' & _ & S2).
  exists s2, t'. split; [done|]. split; [done|]. split; [done|]. split; congruence.
Qed.
