(* ===== verification/RbErase.v ===== *)
(** * Removal from a red-black tree

    [erase_color] restores the balance when the subtree at the end of a path
    lacks a black node; [rb_erase] takes a node out and calls it. *)
From S2P Require Import Prelude RbTree RbSpec.

(** [t] is balanced with [n] black nodes once its root is black, where [S n]
    count a red root that is made black. *)
Definition short (t : tree) (n : nat) : Prop :=
  match t with T true l _ r => bal l n ∧ bal r n | _ => bal t n end.

Lemma short_red d t1 x t2 n : short (bt d true t1 x t2) n ↔ bal t1 n ∧ bal t2 n.
Proof. destruct d; simpl; tauto. Qed.

Lemma short_black t n : tred t = false → short t n ↔ bal t n.
Proof. by destruct t as [|[] ? ? ?]. Qed.

Lemma bal_black_case d t n :
  tred t = false → bal t (S n) → ∃ a y b, t = bt d false a y b ∧ bal a n ∧ bal b n.
Proof.
  intros Ht Hb. destruct (tree_case d t) as [->|(c & a & y & b & ->)]; [done|].
  rewrite tred_bt in Ht. subst c. apply bal_black in Hb as [H1 H2]. eauto 6.
Qed.

(** A black sibling with a red outer child: one rotation ends it. *)
Lemma erase_outer s d c t p a y o1 z o2 P rest :
  zip s t (Frame d c p (bt d false a y (bt d true o1 z o2)) :: P) rest →
  ∃ s', (p' ← rb_get s p;
         s ← rb_upd s y (with_red p'.(rb_red));
         s ← rb_upd s p (with_red false);
         n ← rb_get s y;
         s ← (if rb_child (opp d) n =? 0 then Ok s
              else rb_upd s (rb_child (opp d) n) (with_red false));
         s ← rb_rotate d s p;
         Ok (s.(rb_root), p, s)) = Ok (s'.(rb_root), p, s') ∧
    zip s' (bt d c (bt d false t p a) y (bt d false o1 z o2)) P rest ∧
    size s'.(rb_nodes) = size s.(rb_nodes).
Proof.
  intros Hz. destruct (zip_parent _ _ _ _ _ _ _ _ Hz) as [-> _]. rewrite bind_ok, mknode_red.
  apply zip_cross in Hz.
  destruct (zip_set_red _ _ _ c _ _ _ _ _ Hz) as (s1 & -> & Hz1 & S1). rewrite bind_ok.
  apply zip_cross, zip_go_up in Hz1. rewrite opp_opp in Hz1.
  destruct (zip_set_red _ _ _ false _ _ _ _ _ Hz1) as (s2 & -> & Hz2 & S2). rewrite bind_ok.
  apply zip_go_down, zip_cross in Hz2.
  rewrite (zip_get _ _ _ _ _ _ _ _ Hz2), bind_ok, mknode_other, addr_bt.
  apply zip_go_down, zip_cross in Hz2.
  rewrite (proj2 (Z.eqb_neq z 0)) by (by eapply zip_nonnull).
  destruct (zip_set_red _ _ _ false _ _ _ _ _ Hz2) as (s3 & -> & Hz3 & S3). rewrite bind_ok.
  apply zip_cross, zip_go_up, zip_cross, zip_go_up in Hz3. rewrite !opp_opp in Hz3.
  destruct (rotate_ok _ _ _ _ _ _ _ _ _ _ _ Hz3) as (s4 & -> & Hz4 & S4). rewrite bind_ok.
  exists s4. split; [done|]. split; [done|congruence].
Qed.

(** A black sibling whose inner child is red. *)
Lemma erase_inner s d c t p a1 z a2 y b P rest :
  zip s t (Frame d c p (bt d false (bt d true a1 z a2) y b) :: P) rest →
  ∃ s', (s ← (if z =? 0 then Ok s else rb_upd s z (with_red false));
         s ← rb_upd s y (with_red true);
         s ← rb_rotate (opp d) s y;
         p ← rb_get s p; Ok (rb_child (opp d) p, s)) = Ok (z, s') ∧
    zip s' t (Frame d c p (bt d false a1 z (bt d true a2 y b)) :: P) rest ∧
    size s'.(rb_nodes) = size s.(rb_nodes).
Proof.
  intros Hz. apply zip_cross, zip_go_down in Hz.
  rewrite (proj2 (Z.eqb_neq z 0)) by (by eapply zip_nonnull).
  destruct (zip_set_red _ _ _ false _ _ _ _ _ Hz) as (s1 & -> & Hz1 & S1). rewrite bind_ok.
  apply zip_go_up in Hz1.
  destruct (zip_set_red _ _ _ true _ _ _ _ _ Hz1) as (s2 & -> & Hz2 & S2). rewrite bind_ok.
  rewrite <-bt_opp, <-(bt_opp d false a2) in Hz2.
  destruct (rotate_ok _ _ _ _ _ _ _ _ _ _ _ Hz2) as (s3 & -> & Hz3 & S3). rewrite bind_ok.
  rewrite !bt_opp in Hz3. apply zip_cross in Hz3. rewrite opp_opp in Hz3.
  destruct (zip_parent _ _ _ _ _ _ _ _ Hz3) as [-> _]. rewrite bind_ok, mknode_other, addr_bt.
  exists s3. split; [done|]. split; [done|congruence].
Qed.

(** A red sibling: after one rotation the sibling is black. *)
Lemma erase_red_sibling s d t p a y b P rest :
  zip s t (Frame d false p (bt d true a y b) :: P) rest →
  ∃ s', (s ← rb_upd s y (with_red false);
         s ← rb_upd s p (with_red true);
         s ← rb_rotate d s p;
         p ← rb_get s p; Ok (rb_child (opp d) p, s)) = Ok (addr a, s') ∧
    zip s' t (Frame d true p a :: Frame d false y b :: P) rest ∧
    size s'.(rb_nodes) = size s.(rb_nodes).
Proof.
  intros Hz%zip_cross.
  destruct (zip_set_red _ _ _ false _ _ _ _ _ Hz) as (s1 & -> & Hz1 & S1). rewrite bind_ok.
  apply zip_cross, zip_go_up in Hz1. rewrite opp_opp in Hz1.
  destruct (zip_set_red _ _ _ true _ _ _ _ _ Hz1) as (s2 & -> & Hz2 & S2). rewrite bind_ok.
  destruct (rotate_ok _ _ _ _ _ _ _ _ _ _ _ Hz2) as (s3 & -> & Hz3 & S3). rewrite bind_ok.
  apply zip_go_down in Hz3. rewrite (zip_get _ _ _ _ _ _ _ _ Hz3), bind_ok, mknode_other.
  apply zip_go_down in Hz3. exists s3. split; [done|]. split; [done|congruence].
Qed.

Lemma erase_sibling_ok s d c t p sib P rest n :
  zip s t (Frame d c p sib :: P) rest → pbal (Frame d c p sib :: P) (S n) →
  ∃ s' c' sib' P', erase_sibling d s p = Ok (addr sib', s') ∧
    zip s' t (Frame d c' p sib' :: P') rest ∧ pbal (Frame d c' p sib' :: P') (S n) ∧
    tred sib' = false ∧ sib' ≠ E ∧
    (P' = P ∨ c' = true ∧ length P' = S (length P)) ∧
    inorder (plug t (Frame d c' p sib' :: P')) = inorder (plug t (Frame d c p sib :: P)) ∧
    size s'.(rb_nodes) = size s.(rb_nodes).
Proof.
  intros Hz HP. unfold erase_sibling.
  destruct (zip_parent _ _ _ _ _ _ _ _ Hz) as [-> _]. rewrite bind_ok, mknode_other.
  destruct (tree_case d sib) as [->|(c1 & a & y & b & ->)]; [by destruct HP|]. rewrite addr_bt.
  rewrite (zip_get _ _ _ _ _ _ _ _ (zip_cross _ _ _ _ _ _ _ _ Hz)), bind_ok, mknode_red.
  destruct c1.
  - destruct c; [by destruct HP as (_ & H%eq_sym & _); rewrite tred_bt in H|].
    destruct HP as [(Ra & Rb & Ba & Bb)%bal_red HP].
    destruct (erase_red_sibling _ _ _ _ _ _ _ _ _ Hz) as (s' & -> & Hz' & S').
    exists s', true, a, (Frame d false y b :: P). split; [done|]. split; [done|].
    split; [by split_and!|]. split; [done|]. split; [by destruct a|]. split; [by right|].
    split; [|done]. simpl. apply inorder_plug. symmetry. apply inorder_rotate.
  - exists s, c, (bt d false a y b), P. rewrite addr_bt, tred_bt. split; [done|].
    split; [done|]. split; [done|]. split; [done|]. split; [by destruct d|]. split; [by left|done].
Qed.

(** Both children of the sibling are black: it becomes red, and the parent is
    the next child. *)
Lemma erase_recolor s d c t p a y b P rest n :
  let sib := bt d false a y b in
  zip s t (Frame d c p sib :: P) rest → tred t = false → bal t n → bal sib (S n) →
  tred a = false → tred b = false →
  ∃ s', (s ← rb_upd s y (with_red true);
         p' ← rb_get s p; Ok (p, p'.(rb_parent), s)) = Ok (p, paddr P, s') ∧
    zip s' (bt d c t p (bt d true a y b)) P rest ∧
    short (bt d c t p (bt d true a y b)) (if c then n else S n) ∧
    size s'.(rb_nodes) = size s.(rb_nodes).
Proof.
  intros sib Hz Rt Bt [Ba Bb]%bal_black Ra Rb. apply zip_cross in Hz.
  destruct (zip_set_red _ _ _ true _ _ _ _ _ Hz) as (s1 & -> & Hz1 & S1). rewrite bind_ok.
  apply zip_cross, zip_go_up in Hz1. rewrite opp_opp in Hz1.
  rewrite (zip_get _ _ _ _ _ _ _ _ Hz1), bind_ok, mknode_parent.
  exists s1. split; [done|]. split; [done|]. split; [|done].
  assert (bal (bt d true a y b) n) by by apply bal_red.
  destruct c; [by apply short_red|]. apply short_black; [by rewrite tred_bt|]. by apply bal_black.
Qed.

Lemma is_red_children {B} s d a y b c P rest (k : bool → res B) :
  zip s (bt d c a y b) P rest →
  (l ← is_red s (rb_left (mknode d (addr a) (addr b) (paddr P) c));
   any ← (if l : bool then Ok true
          else is_red s (rb_right (mknode d (addr a) (addr b) (paddr P) c))); k any) =
    k (tred a || tred b).
Proof.
  intros Hz%zip_go_down. pose proof (zip_is_red _ _ _ _ Hz) as Ha.
  apply zip_cross in Hz. pose proof (zip_is_red _ _ _ _ Hz) as Hb.
  destruct d; simpl; rewrite ?Ha, ?Hb, bind_ok; by destruct (tred a), (tred b); rewrite ?Ha, ?Hb, bind_ok.
Qed.

(** The last two cases: the balance is restored below [P]. *)
Lemma erase_turn s d c t p a y b P rest n :
  let sib := bt d false a y b in
  zip s t (Frame d c p sib :: P) rest → tred t = false → bal t n → bal sib (S n) →
  tred a || tred b = true →
  ∃ s' w, (outer_red ← is_red s (addr b);
      '(sibling, s) ← (if negb outer_red then
                         s ← (if addr a =? 0 then Ok s
                              else rb_upd s (addr a) (with_red false));
                         s ← rb_upd s y (with_red true);
                         s ← rb_rotate (opp d) s y;
                         p ← rb_get s p; Ok (rb_child (opp d) p, s)
                       else Ok (y, s));
      p' ← rb_get s p;
      s ← rb_upd s sibling (with_red p'.(rb_red));
      s ← rb_upd s p (with_red false);
      n ← rb_get s sibling;
      s ← (if rb_child (opp d) n =? 0 then Ok s
           else rb_upd s (rb_child (opp d) n) (with_red false));
      s ← rb_rotate d s p;
      Ok (s.(rb_root), p, s)) = Ok (s'.(rb_root), p, s') ∧
    zip s' w P rest ∧ w ≠ E ∧ tred w = c ∧ bal w (if c then S n else S (S n)) ∧
    inorder w = inorder (bt d c t p sib) ∧ size s'.(rb_nodes) = size s.(rb_nodes).
Proof.
  intros sib Hz Rt Bt [Ba Bb]%bal_black Rab. subst sib.
  assert (is_red s (addr b) = Ok (tred b)) as ->
    by (eapply zip_is_red, zip_cross, zip_go_down, zip_cross, Hz).
  rewrite bind_ok. assert (∃ s1 a' y' b1 z b2,
    (if negb (tred b) then
       s ← (if addr a =? 0 then Ok s else rb_upd s (addr a) (with_red false));
       s ← rb_upd s y (with_red true);
       s ← rb_rotate (opp d) s y;
       p ← rb_get s p; Ok (rb_child (opp d) p, s)
     else Ok (y, s)) = Ok (y', s1) ∧
    zip s1 t (Frame d c p (bt d false a' y' (bt d true b1 z b2)) :: P) rest ∧
    bal a' n ∧ bal b1 n ∧ bal b2 n ∧
    inorder (bt d false a' y' (bt d true b1 z b2)) = inorder (bt d false a y b) ∧
    size s1.(rb_nodes) = size s.(rb_nodes))
    as (s1 & a' & y' & b1 & z & b2 & -> & Hz1 & B1 & B2 & B3 & Hi & S1).
  { destruct (tred b) eqn:Rb.
    - destruct (tree_case d b) as [->|(cb & b1 & z & b2 & ->)]; [done|].
      rewrite tred_bt in Rb. subst cb. apply bal_red in Bb as (_ & _ & ? & ?).
      by exists s, a, y, b1, z, b2.
    - destruct (tree_case d a) as [->|(ca & a1 & z & a2 & ->)]; [done|].
      rewrite tred_bt, orb_false_r in Rab. subst ca. apply bal_red in Ba as (_ & _ & ? & ?).
      rewrite addr_bt. destruct (erase_inner _ _ _ _ _ _ _ _ _ _ _ _ Hz) as (s' & Hs' & Hz' & S').
      exists s', a1, z, a2, y, b. split; [exact Hs'|]. split; [done|]. split_and!; try done.
      destruct d; simpl; by rewrite <-?(assoc_L (++)). }
  rewrite bind_ok. destruct (erase_outer _ _ _ _ _ _ _ _ _ _ _ _ Hz1) as (s' & Hs' & Hz' & S').
  exists s', (bt d c (bt d false t p a') y' (bt d false b1 z b2)). split; [exact Hs'|].
  split; [done|]. split; [by destruct d|]. split; [by rewrite tred_bt|].
  split; [|split; [|congruence]].
  - destruct c; rewrite ?bal_red, ?tred_bt, !bal_black; tauto.
  - rewrite (inorder_bt d c t t p _ _ eq_refl (eq_sym Hi)).
    destruct d; simpl; by rewrite <-?(assoc_L (++)); simpl; rewrite <-?(assoc_L (++)).
Qed.

Lemma erase_black_ok s d c t p sib P rest n :
  zip s t (Frame d c p sib :: P) rest → pbal (Frame d c p sib :: P) (S n) →
  tred t = false → bal t n → tred sib = false → sib ≠ E →
  ∃ s' w q P' n', erase_black d s p (addr sib) = Ok (addr w, q, s') ∧
    zip s' w P' rest ∧ w ≠ E ∧ short w n' ∧ pbal P' (S n') ∧ (P' ≠ [] → q = paddr P') ∧
    (P' = [] ∨ P' = P ∧ tred w = c) ∧
    inorder (plug w P') = inorder (plug t (Frame d c p sib :: P)) ∧
    size s'.(rb_nodes) = size s.(rb_nodes).
Proof.
  intros Hz HP Rt Bt Rs Hne. destruct (bal_black_case d sib n Rs (proj1 HP)) as (a & y & b & -> & Ba & Bb).
  unfold erase_black. rewrite addr_bt. pose proof (zip_cross _ _ _ _ _ _ _ _ Hz) as Hzs.
  rewrite (zip_get _ _ _ _ _ _ _ _ Hzs), bind_ok.
  rewrite (is_red_children _ _ _ _ _ _ _ _ _ Hzs).
  rewrite mknode_child, mknode_other.
  destruct (tred a || tred b) eqn:Rab; cbn [negb].
  - destruct (erase_turn _ _ _ _ _ _ _ _ _ _ _ Hz Rt Bt (proj1 HP) Rab)
      as (s' & w & -> & Hz' & Hw & Rw & Bw & Hi & S').
    destruct (bal_plug w P _ Bw) as [m Hm].
    { destruct c; apply HP. }
    { intros Hr. rewrite Rw in Hr. rewrite Hr in HP. apply HP. }
    assert (tred (plug w P) = false) as Rpl.
    { destruct c; [apply (tred_plug w P (S n)); [apply HP|]|apply (tred_plug w P (S (S n))); [apply HP|done]].
      intros ->. by destruct HP as (_ & _ & ? & _). }
    exists s', (plug w P), p, [], m. apply zip_plugged in Hz'. split; [by rewrite (zip_root _ _ _ _ Hz')|].
    split; [done|]. split; [by apply plug_nonempty|]. split; [by apply short_black|].
    split; [done|]. split; [done|]. split; [by left|]. split; [|done]. exact (inorder_plug _ _ P Hi).
  - apply orb_false_iff in Rab as [Ra Rb].
    destruct (erase_recolor _ _ _ _ _ _ _ _ _ _ _ Hz Rt Bt (proj1 HP) Ra Rb) as (s' & -> & Hz' & Sw & S').
    exists s', (bt d c t p (bt d true a y b)), (paddr P), P, (if c then n else S n).
    rewrite addr_bt, tred_bt. split; [done|]. split; [done|]. split; [by destruct d|].
    split; [done|]. split; [destruct c; apply HP|]. split; [done|].
    split; [by right|]. split; [|done]. simpl. apply inorder_plug, inorder_bt; [done|apply inorder_red].
Qed.

(** The child is not the root while there is a node above it. *)
Lemma proot_in f P a : proot (f :: P) a ∈ (pentries (f :: P) a).*1.
Proof.
  revert f a. induction P as [|g P IH]; intros [d c x sib] a; [by left|].
  change (proot (g :: P) x ∈ x :: (entries sib x ++ pentries (g :: P) x).*1).
  right. rewrite fmap_app, elem_of_app. right. apply IH.
Qed.

Lemma zip_not_root s t f P rest : zip s t (f :: P) rest → addr t ≠ s.(rb_root).
Proof.
  intros [[H1 _ H3] ->]. pose proof (proot_in f P (addr t)) as Hin. intros Ha.
  rewrite <-Ha in Hin. clear Ha. rewrite !fmap_app in *. destruct t as [|c l x r].
  - apply H3. rewrite !elem_of_app. by right; left.
  - apply NoDup_app in H1 as (_ & H1 & _). apply (H1 x); [by left|].
    rewrite elem_of_app. by left.
Qed.

Lemma erase_color_step_eq s d c t p sib P rest :
  zip s t (Frame d c p sib :: P) rest → tred t = false → sib ≠ E →
  erase_color_step (addr t, p, s) =
    ('(sibling, s) ← erase_sibling d s p; r ← erase_black d s p sibling; Ok (inl r)).
Proof.
  intros Hz Rt Hs. unfold erase_color_step. rewrite (zip_is_red _ _ _ _ Hz), bind_ok, Rt.
  rewrite (proj2 (Z.eqb_neq _ _)) by (by eapply zip_not_root). cbn [negb andb].
  destruct (zip_parent _ _ _ _ _ _ _ _ Hz) as [-> _]. rewrite bind_ok.
  destruct (decide (addr t = 0)) as [E|Ht].
  - rewrite E. assert (addr sib ≠ 0).
    { destruct (tree_case d sib) as [->|(c' & a & y & b & ->)]; [done|]. rewrite addr_bt.
      eapply zip_nonnull, zip_cross, Hz. }
    destruct d; simpl; [done|]. by rewrite (proj2 (Z.eqb_neq _ _)).
  - destruct (zip_side _ _ _ _ _ _ _ _ (paddr P) c Hz Ht) as [_ ->]. done.
Qed.

(** The loop of [color_fixup]: it ends at the root or at a red node. *)
Lemma erase_loop fuel s t P rest n q :
  (S (length P) < fuel)%nat ∨ (0 < fuel)%nat ∧ tred t = true →
  zip s t P rest → short t n → pbal P (S n) → (P ≠ [] → q = paddr P) →
  ∃ s' t' P' n', iter fuel erase_color_step (addr t, q, s) = Ok (addr t', s') ∧
    zip s' t' P' rest ∧ short t' n' ∧ pbal P' (S n') ∧ (P' = [] ∨ tred t' = true) ∧
    inorder (plug t' P') = inorder (plug t P) ∧ size s'.(rb_nodes) = size s.(rb_nodes).
Proof.
  revert s t P n q. induction fuel as [|fuel IH]; intros s t P n q Hf Hz Ht HP Hq; [lia|].
  assert ((P = [] ∨ tred t = true) ∨ (P ≠ [] ∧ tred t = false)) as [Hstop|[HPn Rt]]
    by (destruct P, (tred t); auto).
  { assert (erase_color_step (addr t, q, s) = Ok (inr (addr t, s))) as Es.
    { unfold erase_color_step. rewrite (zip_is_red _ _ _ _ Hz), bind_ok.
      destruct Hstop as [->| ->]; [|by rewrite andb_false_r].
      rewrite (zip_root _ _ _ _ Hz). simpl. by rewrite Z.eqb_refl. }
    rewrite iter_S, Es, bind_ok. by exists s, t, P, n. }
  destruct P as [|[d c p sib] P]; [done|]. rewrite (Hq HPn). simpl paddr.
  assert (sib ≠ E) as Hs by (intros ->; by destruct HP).
  rewrite iter_S, (erase_color_step_eq _ _ _ _ _ _ _ _ Hz Rt Hs).
  destruct (erase_sibling_ok _ _ _ _ _ _ _ _ _ Hz HP)
    as (s1 & c1 & sib1 & P1 & -> & Hz1 & HP1 & Rs1 & Hs1 & Hl & Hi1 & S1). rewrite bind_ok.
  destruct (erase_black_ok _ _ _ _ _ _ _ _ _ Hz1 HP1 Rt (proj1 (short_black _ _ Rt) Ht) Rs1 Hs1)
    as (s2 & w & q2 & P2 & n2 & -> & Hz2 & Hw & Sw & HP2 & Hq2 & Hl2 & Hi2 & S2). rewrite !bind_ok.
  destruct (IH s2 w P2 n2 q2) as (s3 & t3 & P3 & n3 & -> & H3); try done.
  - destruct Hf as [Hf|[_ Hf]]; [|congruence]. simpl in Hf.
    destruct Hl2 as [->|[-> Rw]]; [left; simpl; lia|].
    destruct Hl as [->|[-> Hl]]; [left; lia|right; split; [lia|done]].
  - exists s3, t3, P3, n3. split; [done|]. destruct H3 as (? & ? & ? & ? & ? & ?).
    split_and!; try done; congruence.
Qed.

(** [color_fixup] after a node of colour [color] was removed above [t]. *)
Lemma erase_color_ok s t P rest n q (color : bool) :
  zip s t P rest → (P ≠ [] → q = paddr P) →
  (if color then bal t n ∧ pbal P n ∧ tred t = false else short t n ∧ pbal P (S n)) →
  ∃ s' t', erase_color s (addr t) q color = Ok s' ∧ zip s' t' [] rest ∧ rb_tree t' ∧
    inorder t' = inorder (plug t P) ∧ size s'.(rb_nodes) = size s.(rb_nodes).
Proof.
  intros Hz Hq Hb. unfold erase_color. destruct color; cbn [negb].
  { destruct Hb as (Bt & HP & Rt). destruct (bal_plug t P n Bt HP) as [m Hm]; [congruence|].
    exists s, (plug t P). split; [done|]. split; [by apply zip_plugged|].
    split; [|done]. split; [|by exists m]. by apply (tred_plug t P n). }
  destruct Hb as [Ht HP].
  destruct (erase_loop (S (S (size s.(rb_nodes)))) s t P rest n q)
    as (s1 & w & P1 & n1 & -> & Hz1 & Sw & HP1 & Hstop & Hi & S1); try done.
  { left. apply zip_path_size in Hz. lia. }
  rewrite bind_ok. destruct (tree_case Lft w) as [->|(c & a & x & b & ->)].
  { destruct Hstop as [->|]; [|done]. simpl in Sw. exists s1, E. split; [done|].
    split; [done|]. split; [|done]. split; [done|]. by exists n1. }
  rewrite addr_bt, (proj2 (Z.eqb_neq x 0)) by (by eapply zip_nonnull).
  destruct (zip_set_red _ _ _ false _ _ _ _ _ Hz1) as (s2 & -> & Hz2 & S2).
  exists s2, (plug (bt Lft false a x b) P1). split; [done|]. split; [by apply zip_plugged|].
  assert (∃ k, bal (bt Lft false a x b) k ∧ pbal P1 k) as (k & Bk & Pk).
  { destruct c; [exists (S n1); split; [by apply bal_black|done]|].
    destruct Hstop as [->|]; [by exists n1|done]. }
  split; [|split; [|congruence]].
  - destruct (bal_plug _ P1 k Bk Pk) as [m Hm]; [done|]. split; [|by exists m].
    by apply (tred_plug _ P1 k).
  - rewrite <-Hi. by apply inorder_plug.
Qed.
