(* ===== verification/RbRemove.v ===== *)
(** * Taking a node out of a red-black tree

    [rb_erase]: a node with at most one child is replaced by the child; of a
    node with two children the successor takes the place. *)
From S2P Require Import Prelude RbTree RbSpec RbErase.

(** The nodes before and after a subtree. *)
Lemma inorder_around P : ∃ A B, ∀ t, inorder (plug t P) = A ++ inorder t ++ B.
Proof.
  induction P as [|[d c x sib] P (A & B & IH)].
  - exists [], []. intros t. by rewrite app_nil_r.
  - destruct d.
    + exists A, (x :: inorder sib ++ B). intros t. simpl. rewrite IH. simpl.
      by rewrite <-(assoc_L (++)).
    + exists (A ++ inorder sib ++ [x]), B. intros t. simpl. rewrite IH. simpl.
      by rewrite <-!(assoc_L (++)).
Qed.

Lemma plug_app t P Q : plug t (P ++ Q) = plug (plug t P) Q.
Proof. revert t. induction P as [|[d c x sib] P IH]; intros t; [done|apply IH]. Qed.

Lemma zip_plug_app s t P Q rest : zip s t (P ++ Q) rest ↔ zip s (plug t P) Q rest.
Proof. by rewrite zip_plug, (zip_plug _ _ Q), plug_app. Qed.

(** The balance of a subtree and of its path, from that of the whole tree. *)
Lemma bal_unplug t P Q m :
  bal (plug t P) m → pbal Q m → (tred (plug t P) = true → Q ≠ [] ∧ pred Q = false) →
  ∃ n, bal t n ∧ pbal (P ++ Q) n ∧ (tred t = true → P ++ Q ≠ [] ∧ pred (P ++ Q) = false).
Proof.
  revert t. induction P as [|[d c x sib] P IH]; intros t Hb HQ Hr; [by exists m|].
  destruct (IH _ Hb HQ Hr) as (n & Bn & HP & Hn). rewrite tred_bt in Hn. destruct c.
  - apply bal_red in Bn as (R1 & R2 & B1 & B2). destruct (Hn eq_refl) as [Hne Hp].
    exists n. split; [done|]. split; [|intros; congruence]. simpl. by split_and!.
  - destruct n as [|n]; [by apply bal_black_0 in Bn|]. apply bal_black in Bn as [B1 B2].
    exists n. split; [done|]. split; [by split|]. done.
Qed.

Lemma rb_tree_unplug t P :
  rb_tree (plug t P) →
  ∃ n, bal t n ∧ pbal P n ∧ (tred t = true → P ≠ [] ∧ pred P = false).
Proof.
  intros [Hr [m Hm]]. destruct (bal_unplug t P [] m Hm I) as (n & H1 & H2 & H3); [congruence|].
  rewrite app_nil_r in *. by exists n.
Qed.

(** ** A node with at most one child *)

(** The balance once a node without a child on one side gives its place to
    the other child. *)
Lemma bal_splice d c t x P n :
  bal (bt d c E x t) n → pbal P n →
  if c then bal t 0 ∧ pbal P 0 ∧ tred t = false else short t 0 ∧ pbal P 1.
Proof.
  intros Hb HP. destruct c.
  - apply bal_red in Hb as (_ & Rt & B0 & Bt). simpl in B0. by subst n.
  - destruct n as [|n]; [by apply bal_black_0 in Hb|]. apply bal_black in Hb as [B0 Bt].
    simpl in B0. subst n. split; [|done]. destruct t as [|[] l y r]; try done.
    by destruct Bt as (_ & _ & ? & ?).
Qed.

Lemma erase_one_ok s d c t x P rest n :
  zip s (bt d c E x t) P rest → bal (bt d c E x t) n → pbal P n →
  ∃ s' t' nx, erase_one s x (addr t) = Ok s' ∧ zip s' t' [] ((x, nx) :: rest) ∧ rb_tree t' ∧
    inorder t' = inorder (plug t P) ∧ size s'.(rb_nodes) = size s.(rb_nodes).
Proof.
  intros Hz Hb HP. unfold erase_one. rewrite (zip_get _ _ _ _ _ _ _ _ Hz), bind_ok.
  rewrite mknode_parent, mknode_red. pose proof (zip_nonnull _ _ _ _ _ _ _ _ Hz) as Hx0.
  apply zip_node in Hz as [H Hroot]. simpl entries in H. simpl app in H.
  pose proof (sat_ne _ _ _ _ H) as [_ HxP]. rewrite !fmap_app in HxP.
  destruct (sat_set_parent s t x (paddr P) ((x, mknode d (addr E) (addr t) (paddr P) c) ::
    pentries P x ++ rest)) as (s1 & -> & R1 & H1 & Z1); [eapply sat_perm; [|exact H]; perm|].
  rewrite bind_ok. destruct (sat_set_above s1 P x (addr t) (entries t (paddr P) ++
    (x, mknode d (addr E) (addr t) (paddr P) c) :: rest)) as (s2 & E2 & R2 & H2 & Z2).
  { eapply sat_perm; [|exact H1]; perm. }
  { congruence. }
  { done. }
  { set_solver. }
  specialize (E2 Lft). cbn [rb_child opp] in E2. rewrite E2, bind_ok.
  destruct (erase_color_ok s2 t P ((x, mknode d (addr E) (addr t) (paddr P) c) :: rest) 0 (paddr P) c)
    as (s3 & t' & -> & Hz3 & Ht' & Hi & S3).
  - split; [|done]. eapply sat_perm; [|exact H2]; perm.
  - done.
  - by eapply bal_splice.
  - exists s3, t', (mknode d (addr E) (addr t) (paddr P) c). split; [done|].
    split_and!; try done. congruence.
Qed.

(** ** The leftmost node *)

(** The tree without its leftmost node. *)
Fixpoint delmin (t : tree) : tree :=
  match t with
  | E => E
  | T c E x r => r
  | T c l x r => T c (delmin l) x r
  end.

(** The leftmost node: the path to it and the node. *)
Lemma leftmost_path t :
  t ≠ E → ∃ Q c y r, t = plug (T c E y r) Q ∧ delmin t = plug r Q ∧
    ∀ P, (paddr (Q ++ P) = match Q with [] => paddr P | f :: _ => f.(fr_node) end) ∧
         Forall (λ f, f.(fr_side) = Lft) Q.
Proof.
  induction t as [|c l IH x r _]; intros Ht; [done|]. destruct l as [|cl ll xl rl] eqn:El.
  { exists [], c, x, r. by split_and!. }
  destruct IH as (Q & c' & y & r' & H1 & H2 & H3); [done|].
  exists (Q ++ [Frame Lft c x r]), c', y, r'. rewrite !plug_app. rewrite H1.
  split; [done|]. split.
  - rewrite <-H1. change (delmin (T c (T cl ll xl rl) x r)) with (T c (delmin (T cl ll xl rl)) x r).
    by rewrite H2.
  - intros P. split; [by destruct Q|]. rewrite Forall_app. split; [apply (H3 [])|]. by constructor.
Qed.

Lemma leftmost_fuel s t P rest fuel :
  zip s t P rest → t ≠ E → ∀ Q c y r, t = plug (T c E y r) Q → Forall (λ f, f.(fr_side) = Lft) Q →
  (length Q < fuel)%nat →
  iter fuel (λ node, n ← rb_get s node;
             Ok (if n.(rb_left) =? 0 then inr node else inl n.(rb_left))) (addr t) = Ok y.
Proof.
  intros Hz Ht Q. revert s t P rest fuel Hz Ht.
  induction Q as [|[d c x sib] Q IH] using rev_ind; intros s t P rest fuel Hz Ht c1 y r1 Et HQ Hf.
  - simpl in Et. subst t. destruct fuel as [|fuel]; [lia|]. rewrite iter_S. simpl addr.
    rewrite (zip_get s Lft c1 E y r1 _ _ Hz), !bind_ok. done.
  - rewrite plug_app in Et. simpl in Et. apply Forall_app in HQ as [HQ Hd%Forall_inv].
    simpl in Hd. subst d t. rewrite length_app in Hf. simpl in Hf.
    destruct fuel as [|fuel]; [lia|]. rewrite iter_S. simpl addr.
    rewrite (zip_get s Lft c (plug (T c1 E y r1) Q) x sib _ _ Hz), !bind_ok. simpl rb_left.
    apply (zip_go_down s _ Lft) in Hz.
    assert (plug (T c1 E y r1) Q ≠ E) as Hne by by apply plug_nonempty.
    destruct (tree_case Lft (plug (T c1 E y r1) Q)) as [?|(c2 & a & z & b & E2)]; [done|].
    rewrite E2 in Hz |- *. rewrite addr_bt, (proj2 (Z.eqb_neq z 0)) by (by eapply zip_nonnull).
    cbv beta iota. rewrite <-E2 in Hz. replace z with (addr (plug (T c1 E y r1) Q)).
    + eapply IH; [exact Hz|done|done|done|lia].
    + by rewrite E2, addr_bt.
Qed.

Lemma inorder_leftmost Q c y r :
  Forall (λ f, f.(fr_side) = Lft) Q → inorder (plug (T c E y r) Q) = y :: inorder (plug r Q).
Proof.
  intros HQ. induction Q as [|[d c1 x sib] Q IH] using rev_ind; [done|].
  apply Forall_app in HQ as [HQ Hd%Forall_inv]. simpl in Hd. subst d.
  rewrite !plug_app. simpl. by rewrite IH.
Qed.

(** ** A node with two children *)

(** The nodes of a path inside a subtree below [base]. *)
Definition qaddr (Q : path) (base : Z) : Z := match Q with [] => base | f :: _ => f.(fr_node) end.

Fixpoint qentries (Q : path) (a base : Z) : list entry :=
  match Q with
  | [] => []
  | Frame d c x sib :: Q =>
      (x, mknode d a (addr sib) (qaddr Q base) c) :: entries sib x ++ qentries Q x base
  end.

Lemma entries_plug t Q base :
  entries (plug t Q) base ≡ₚ entries t (qaddr Q base) ++ qentries Q (addr t) base.
Proof.
  revert t. induction Q as [|[d c x sib] Q IH]; intros t; [by rewrite app_nil_r|].
  simpl. rewrite IH, entries_bt, addr_bt. simpl. perm.
Qed.

(** The successor [y] of [old] leaves its place below [z]. *)
Lemma unlink_successor s c2 y t2 d c z zs Q base es :
  sat s.(rb_nodes) (entries (plug (T c2 E y t2) (Frame d c z zs :: Q)) base ++ es) →
  d = Lft →
  ∃ s', (s ← (if addr t2 =? 0 then Ok s else rb_upd s (addr t2) (with_parent z));
         rb_upd s z (with_child Lft (addr t2))) = Ok s' ∧
    s'.(rb_root) = s.(rb_root) ∧
    sat s'.(rb_nodes) (entries (plug t2 (Frame d c z zs :: Q)) base ++
      (y, RbNode 0 (addr t2) z c2) :: es) ∧
    size s'.(rb_nodes) = size s.(rb_nodes).
Proof.
  intros H ->. rewrite entries_plug in H. simpl in H.
  destruct (sat_set_parent s t2 y z ((y, RbNode 0 (addr t2) z c2) ::
    (z, RbNode y (addr zs) (qaddr Q base) c) :: entries zs z ++ qentries Q z base ++ es))
    as (s1 & -> & R1 & H1 & Z1); [eapply sat_perm; [|exact H]; perm|]. rewrite bind_ok.
  destruct (sat_upd s1 _ (entries t2 z ++ (y, RbNode 0 (addr t2) z c2) :: entries zs z ++
    qentries Q z base ++ es) z (RbNode y (addr zs) (qaddr Q base) c)
    (with_child Lft (addr t2)) H1) as (s2 & -> & R2 & H2 & Z2); [perm|].
  exists s2. split; [done|]. split; [congruence|]. split; [|congruence].
  rewrite entries_plug. simpl. eapply sat_perm; [|exact H2]. simpl. perm.
Qed.

(** [y] takes the place of [old], whose right subtree is now [r]. *)
Lemma replace_old s x l r y q (c c2 : bool) yl P rr rest :
  let xn := RbNode (addr l) rr (paddr P) c in
  sat s.(rb_nodes) ((y, RbNode yl (addr r) q c2) :: entries r y ++ (x, xn) :: entries l x ++
    pentries P y ++ rest) → s.(rb_root) = proot P y → l ≠ E →
  ∃ s', (∀ B (k : rb_store → res B),
        (o ← rb_get s x;
         s ← rb_upd s y (with_parent o.(rb_parent));
         s ← rb_upd s y (with_red o.(rb_red));
         s ← rb_upd s y (with_child Lft o.(rb_left));
         s ← rb_upd s o.(rb_left) (with_parent y); k s) = k s') ∧
    zip s' r (Frame Rgt c y l :: P) ((x, xn) :: rest) ∧
    size s'.(rb_nodes) = size s.(rb_nodes).
Proof.
  intros xn H Hr Hl. assert (rb_get s x = Ok xn) as Ex.
  { eapply sat_get; [exact H|]. rewrite !elem_of_cons, !elem_of_app, !elem_of_cons. tauto. }
  set (es := entries r y ++ (x, xn) :: entries l x ++ pentries P y ++ rest) in H.
  destruct (sat_upd s _ _ y _ (with_parent (paddr P)) H (reflexivity _)) as (s1 & E1 & R1 & H1 & Z1).
  destruct (sat_upd s1 _ _ y _ (with_red c) H1 (reflexivity _)) as (s2 & E2 & R2 & H2 & Z2).
  destruct (sat_upd s2 _ _ y _ (with_child Lft (addr l)) H2 (reflexivity _)) as (s3 & E3 & R3 & H3 & Z3).
  cbn in H3. subst es.
  destruct (sat_set_parent s3 l x y ((y, RbNode (addr l) (addr r) (paddr P) c) :: entries r y ++
    (x, xn) :: pentries P y ++ rest)) as (s4 & E4 & R4 & H4 & Z4);
    [eapply sat_perm; [|exact H3]; perm|].
  assert (addr l ≠ 0) as Hl0.
  { destruct l as [|cl a w b]; [done|]. simpl in *. intros ->. apply (sat_null _ _ H4).
    set_solver. }
  rewrite (proj2 (Z.eqb_neq _ _) Hl0) in E4.
  exists s4. split; [|split; [|congruence]].
  - intros B k. rewrite Ex, bind_ok. cbn [rb_parent rb_red rb_left xn].
    rewrite E1, bind_ok, E2, bind_ok, E3, bind_ok. by rewrite E4, bind_ok.
  - apply (zip_go_down s4 r Rgt), (node_zip s4 Rgt); [|congruence].
    eapply sat_perm; [|exact H4]. simpl. perm.
Qed.

Lemma sat_addr m t par es : t ≠ E → sat m (entries t par ++ es) → addr t ≠ 0.
Proof. destruct t as [|c l x r]; [done|]. intros _ H. by apply sat_ne in H as [? _]. Qed.

Lemma addr_plug_ne t t' f Q : addr (plug t (f :: Q)) = addr (plug t' (f :: Q)).
Proof.
  revert t t' f. induction Q as [|g Q IH]; intros t t' [d c x sib]; simpl; [by rewrite !addr_bt|].
  apply IH.
Qed.

(** The successor of [x] leaves its place. *)
Lemma take_successor_ok s x l Q c2 y t2 P (c : bool) rest :
  let r := plug (T c2 E y t2) Q in
  let xn := RbNode (addr l) (addr r) (paddr P) c in
  sat s.(rb_nodes) ((x, xn) :: entries l x ++ entries r x ++ pentries P y ++ rest) →
  Forall (λ f, f.(fr_side) = Lft) Q →
  ∃ s' q p, rb_get s y = Ok (RbNode 0 (addr t2) p c2) ∧
    take_successor s x y = Ok (qaddr Q y, s') ∧ s'.(rb_root) = s.(rb_root) ∧
    sat s'.(rb_nodes) ((y, RbNode 0 (addr (plug t2 Q)) q c2) :: entries (plug t2 Q) y ++
      (x, xn) :: entries l x ++ pentries P y ++ rest) ∧
    size s'.(rb_nodes) = size s.(rb_nodes).
Proof.
  intros r xn H HQ. unfold take_successor.
  assert (∀ p es, sat s.(rb_nodes) ((y, RbNode 0 (addr t2) p c2) :: es) →
    rb_get s y = Ok (RbNode 0 (addr t2) p c2)) as Ey by (intros; eapply sat_get; [done|by left]).
  destruct Q as [|[d3 c3 z zs] Q].
  { exists s, x, x. simpl in *. assert (sat s.(rb_nodes) ((y, RbNode 0 (addr t2) x c2) ::
      entries t2 y ++ (x, xn) :: entries l x ++ pentries P y ++ rest)) as H'
      by (eapply sat_perm; [|exact H]; perm).
    rewrite (Ey _ _ H'), bind_ok. simpl. by rewrite Z.eqb_refl. }
  apply Forall_cons in HQ as [Hd HQ]. simpl in Hd. subst d3. set (Q1 := Frame Lft c3 z zs :: Q) in *.
  assert (sat s.(rb_nodes) ((y, RbNode 0 (addr t2) z c2) :: (x, xn) ::
    (z, RbNode y (addr zs) (qaddr Q x) c3) :: entries t2 y ++ entries zs z ++ qentries Q z x ++
    pentries P y ++ entries l x ++ rest)) as H'.
  { clearbody xn. unfold r, Q1 in H. rewrite entries_plug in H.
    cbn [entries addr qaddr qentries fr_node mknode app] in H.
    eapply sat_perm; [|exact H]; perm. }
  rewrite (Ey _ _ H'), bind_ok. cbn [rb_right rb_parent].
  assert (z ≠ x) as Hzx.
  { assert (x ∉ z :: (entries t2 y ++ entries zs z ++ qentries Q z x ++ pentries P y ++
      entries l x ++ rest).*1) as Hs.
    { destruct H' as [[_ Hn]%NoDup_cons _ _]. by apply NoDup_cons in Hn as [Hn _]. }
    intros ->. apply Hs. by left. }
  rewrite (proj2 (Z.eqb_neq z x) Hzx).
  destruct (unlink_successor s c2 y t2 Lft c3 z zs Q x ((x, xn) :: entries l x ++ pentries P y ++ rest))
    as (s2 & E2 & R2 & H2 & Z2); [|done|].
  { eapply sat_perm; [|exact H]. fold Q1 r. perm. }
  fold Q1 in H2. set (r' := plug t2 Q1) in *.
  apply bind_ok_inv in E2 as (sa & -> & E2). rewrite bind_ok, E2, bind_ok.
  assert (rb_get s2 x = Ok xn) as ->.
  { eapply sat_get; [exact H2|]. rewrite !elem_of_app, !elem_of_cons. tauto. }
  rewrite bind_ok. cbn [rb_right xn]. assert (addr r = addr r') as -> by apply addr_plug_ne.
  destruct (sat_upd s2 _ (entries r' x ++ (x, xn) :: entries l x ++ pentries P y ++ rest) y
    (RbNode 0 (addr t2) z c2) (with_child Rgt (addr r')) H2) as (s3 & -> & R3 & H3 & Z3); [perm|].
  rewrite bind_ok. cbn [with_child rb_left rb_parent rb_red] in H3.
  destruct (sat_set_parent s3 r' x y ((y, RbNode 0 (addr r') z c2) :: (x, xn) :: entries l x ++
    pentries P y ++ rest)) as (s4 & E4 & R4 & H4 & Z4); [eapply sat_perm; [|exact H3]; perm|].
  rewrite (proj2 (Z.eqb_neq _ _)) in E4.
  2:{ unfold r', Q1. rewrite (addr_plug_ne _ (T c2 E y t2)). fold Q1 r.
      eapply (sat_addr s.(rb_nodes) r x ((x, xn) :: entries l x ++ pentries P y ++ rest));
        [by apply plug_nonempty|]. eapply sat_perm; [|exact H]. perm. }
  rewrite E4, bind_ok. exists s4, z, z. split; [done|]. split; [done|]. split; [congruence|].
  split; [|congruence]. eapply sat_perm; [|exact H4]. perm.
Qed.

(** The pointers of [erase_two] before [color_fixup]. *)
Lemma erase_two_fixup s c l x Q c2 y t2 P rest :
  zip s (T c l x (plug (T c2 E y t2) Q)) P rest → l ≠ E → Forall (λ f, f.(fr_side) = Lft) Q →
  ∃ s' xn, erase_two s x = erase_color s' (addr t2) (paddr (Q ++ Frame Rgt c y l :: P)) c2 ∧
    zip s' t2 (Q ++ Frame Rgt c y l :: P) ((x, xn) :: rest) ∧
    size s'.(rb_nodes) = size s.(rb_nodes).
Proof.
  set (r := plug (T c2 E y t2) Q). intros Hz Hl HQ.
  assert (r ≠ E) as Hr by by apply plug_nonempty.
  unfold erase_two. rewrite (zip_get s Lft c l x r _ _ Hz), bind_ok. cbn [mknode rb_right rb_parent].
  pose proof (zip_go_down s r Rgt c x l P rest Hz) as Hzr.
  assert ((length Q < S (size s.(rb_nodes)))%nat) as HQl.
  { unfold r in Hzr. apply zip_plug_app, zip_path_size in Hzr. rewrite length_app in Hzr. lia. }
  unfold leftmost. rewrite (leftmost_fuel s r _ _ _ Hzr Hr Q c2 y t2 eq_refl HQ HQl), bind_ok.
  pose proof (zip_nonnull s Lft c l x r _ _ Hz) as Hx0.
  apply (zip_node s Lft) in Hz as [H Hroot]. cbn [mknode] in H.
  pose proof (sat_ne _ _ _ _ H) as [_ HxP]. rewrite !fmap_app, !not_elem_of_app in HxP.
  destruct (sat_set_above s P x y ((x, RbNode (addr l) (addr r) (paddr P) c) ::
    entries l x ++ entries r x ++ rest)) as (s1 & E1 & R1 & H1 & Z1); [|done|done|tauto|].
  { eapply sat_perm; [|exact H]; perm. }
  specialize (E1 Lft). cbn [rb_child opp] in E1. rewrite E1, bind_ok. clear E1.
  destruct (take_successor_ok s1 x l Q c2 y t2 P c rest) as (s2 & q & p & -> & -> & R2 & H2 & Z2);
    [|done|]. { fold r. eapply sat_perm; [|exact H1]. perm. }
  rewrite !bind_ok. cbn [rb_right rb_red]. fold r in H2. set (r' := plug t2 Q) in *.
  destruct (replace_old s2 x l r' y q c c2 0 P (addr r) rest) as (s3 & E3 & Hz3 & Z3);
    [done|congruence|done|].
  rewrite (E3 _ (λ s, erase_color s (addr t2) (qaddr Q y) c2)).
  exists s3, (RbNode (addr l) (addr r) (paddr P) c). split; [by destruct Q as [|[] ?]|].
  split; [by apply zip_plug_app|congruence].
Qed.

(** The result of a removal. *)
Definition removed (s : rb_store) (t : tree) (x : Z) (rest : list entry) (r : res rb_store) : Prop :=
  ∃ s' t' nx A B, r = Ok s' ∧ zip s' t' [] ((x, nx) :: rest) ∧ rb_tree t' ∧
    inorder t = A ++ x :: B ∧ inorder t' = A ++ B ∧ size s'.(rb_nodes) = size s.(rb_nodes).

Lemma erase_two_ok s c l x r P rest :
  zip s (T c l x r) P rest → rb_tree (plug (T c l x r) P) → l ≠ E → r ≠ E →
  removed s (plug (T c l x r) P) x rest (erase_two s x).
Proof.
  intros Hz Ht Hl Hr. destruct (leftmost_path r Hr) as (Q & c2 & y & t2 & -> & _ & HQ).
  destruct (HQ []) as [_ HL]. clear HQ Hr. set (Q' := Q ++ Frame Rgt c y l :: P).
  destruct (erase_two_fixup _ _ _ _ _ _ _ _ _ _ Hz Hl HL) as (s1 & xn & E1 & Hz1 & S1).
  destruct (rb_tree_unplug _ _ Ht) as (n & Bn & HP & Hred).
  assert (∃ m, bal (plug (T c2 E y t2) Q) m ∧ pbal (Frame Rgt c y l :: P) m ∧
    (tred (plug (T c2 E y t2) Q) = true → c = false)) as (m & Bm & HPm & Hc).
  { destruct c.
    - apply (bal_red Lft) in Bn as (Rl & Rr & Bl & Br). destruct (Hred eq_refl).
      exists n. split; [done|]. split; [by split_and!|congruence].
    - destruct n as [|n]; [by apply (bal_black_0 Lft) in Bn|].
      apply (bal_black Lft) in Bn as [Bl Br]. by exists n. }
  destruct (bal_unplug _ Q _ m Bm HPm) as (k & Bk & HPk & _); [by intros ?%Hc|].
  destruct (erase_color_ok s1 t2 Q' ((x, xn) :: rest) 0 (paddr Q') c2 Hz1) as
    (s2 & t' & E2 & Hz2 & Ht' & Hi & S2); [done|by apply (bal_splice Lft c2 t2 y Q' k)|].
  destruct (inorder_around P) as (A & B & HAB).
  exists s2, t', xn, (A ++ inorder l), (y :: inorder (plug t2 Q) ++ B).
  rewrite E1. split; [done|]. split; [done|]. split; [done|]. split; [|split; [|congruence]].
  - rewrite HAB. simpl. rewrite inorder_leftmost by done. by rewrite <-!(assoc_L (++)).
  - rewrite Hi. unfold Q'. rewrite plug_app. simpl. rewrite HAB. simpl. by rewrite <-!(assoc_L (++)).
Qed.

Lemma rb_erase_ok s c l x r P rest :
  zip s (T c l x r) P rest → rb_tree (plug (T c l x r) P) →
  removed s (plug (T c l x r) P) x rest (rb_erase s x).
Proof.
  intros Hz Ht. unfold rb_erase. rewrite (zip_get s Lft c l x r _ _ Hz), bind_ok. cbn [mknode rb_left rb_right].
  destruct (rb_tree_unplug _ _ Ht) as (n & Bn & HP & _).
  destruct (inorder_around P) as (A & B & HAB).
  destruct (addr l =? 0) eqn:El.
  { assert (l = E) as ->.
    { destruct l as [|cl a z b]; [done|]. apply (zip_go_down s _ Lft) in Hz.
      apply Z.eqb_eq in El. simpl in El. subst z. by apply (zip_nonnull s Lft) in Hz. }
    destruct (erase_one_ok s Lft c r x P rest n Hz Bn HP) as (s' & t' & nx & E1 & Hz' & Ht' & Hi & S').
    exists s', t', nx, A, (inorder r ++ B). split; [done|]. split; [done|]. split; [done|].
    rewrite Hi, !HAB. done. }
  destruct (addr r =? 0) eqn:Er.
  { assert (r = E) as ->.
    { destruct r as [|cl a z b]; [done|]. apply (zip_go_down s _ Rgt) in Hz.
      apply Z.eqb_eq in Er. simpl in Er. subst z. by apply (zip_nonnull s Lft) in Hz. }
    destruct (erase_one_ok s Rgt c l x P rest n Hz Bn HP) as (s' & t' & nx & E1 & Hz' & Ht' & Hi & S').
    exists s', t', nx, (A ++ inorder l), B. split; [done|]. split; [done|]. split; [done|].
    rewrite Hi, !HAB. simpl. by rewrite <-!(assoc_L (++)). }
  apply erase_two_ok; [done|done| |]; intros ->; done.
Qed.
