(* ===== verification/Cfs.v ===== *)
(** * The queue of the fair scheduler

    [cfs_rep s l free] says that the red-black tree of [s] holds the PCBs [l] in
    order and that the nodes [free] are outside of it.  Insertion refines
    [insert_by], removal takes the head, and the search is logarithmic. *)
From S2P Require Import Prelude QueueSpec QueueProps RbTree RbSpec RbInsert RbErase RbRemove.

Definition cfs_rep (s : rb_store) (l : list Z) (free : list entry) : Prop :=
  ∃ t, zip s t [] free ∧ rb_tree t ∧ inorder t = l.

(** ** Heights *)

Fixpoint height (t : tree) : nat :=
  match t with E => O | T _ l _ r => S (max (height l) (height r)) end.

Lemma height_bal t n : bal t n → (height t ≤ 2 * n + if tred t then 1 else 0)%nat.
Proof.
  revert n. induction t as [|c l IHl x r IHr]; intros n Hb; [simpl; lia|]. destruct c.
  - apply (bal_red Lft) in Hb as (Rl & Rr & Bl & Br).
    specialize (IHl n Bl). specialize (IHr n Br). rewrite Rl in IHl. rewrite Rr in IHr. simpl. lia.
  - destruct n as [|n]; [by apply (bal_black_0 Lft) in Hb|]. apply (bal_black Lft) in Hb as [Bl Br].
    specialize (IHl n Bl). specialize (IHr n Br). simpl. destruct (tred l), (tred r); lia.
Qed.

Lemma bal_size t n : bal t n → (2 ^ n ≤ S (length (inorder t)))%nat.
Proof.
  revert n. induction t as [|c l IHl x r IHr]; intros n Hb; [by simpl in Hb; subst n|].
  simpl. rewrite length_app. simpl. destruct c.
  - apply (bal_red Lft) in Hb as (_ & _ & Bl & _). specialize (IHl n Bl). lia.
  - destruct n as [|n]; [by apply (bal_black_0 Lft) in Hb|]. apply (bal_black Lft) in Hb as [Bl Br].
    specialize (IHl n Bl). specialize (IHr n Br). simpl. lia.
Qed.

Lemma height_log t :
  rb_tree t → (height t ≤ 2 * Nat.log2 (S (length (inorder t))))%nat.
Proof.
  intros [Hr [n Hn]]. pose proof (height_bal t n Hn) as Hh. rewrite Hr in Hh.
  pose proof (bal_size t n Hn) as Hs. apply Nat.log2_le_mono in Hs.
  rewrite Nat.log2_pow2 in Hs by lia. lia.
Qed.

Lemma height_inorder t : (height t ≤ length (inorder t))%nat.
Proof. induction t as [|c l IHl x r IHr]; [done|]. simpl. rewrite length_app. simpl. lia. Qed.

Lemma zip_length s t free : zip s t [] free → (length (inorder t) ≤ size s.(rb_nodes))%nat.
Proof.
  intros [H _]. apply sat_size in H. rewrite length_app in H.
  assert (∀ t par, length (entries t par) = length (inorder t)) as He.
  { clear. induction t as [|c l IHl x r IHr]; intros par; [done|]. simpl.
    rewrite !length_app, IHl, IHr. simpl. lia. }
  rewrite He in H. lia.
Qed.

(** ** Insertion *)

(** The pointer at the end of a path. *)
Definition plink (P : path) : rb_link :=
  match P with [] => RootLink | f :: _ => ChildLink f.(fr_node) f.(fr_side) end.

Lemma follow_plink s t P rest : zip s t P rest → rb_follow s (plink P) = Ok (addr t).
Proof.
  intros Hz. destruct P as [|[d c x sib] P]; simpl.
  - f_equal. apply (zip_root _ _ _ _ Hz).
  - destruct (zip_parent _ _ _ _ _ _ _ _ Hz) as [-> _]. by rewrite bind_ok, mknode_child.
Qed.

Section cfs_spec.
Context (vruntime : Z → Z).

Lemma key_sorted_app l1 x l2 :
  key_sorted vruntime (l1 ++ x :: l2) →
  (∀ y, y ∈ l1 → vruntime y ≤ vruntime x) ∧ (∀ y, y ∈ l2 → vruntime x ≤ vruntime y) ∧
  key_sorted vruntime l1 ∧ key_sorted vruntime l2.
Proof.
  induction l1 as [|z l1 IH]; simpl.
  - intros [H1 H2]%key_sorted_cons. split; [by intros y ?%not_elem_of_nil|].
    split; [done|]. split; [by intros [|]|done].
  - intros [H1 H2]%key_sorted_cons. destruct (IH H2) as (I1 & I2 & I3 & I4).
    split; [intros y [->|Hy]%elem_of_cons; [apply H1; set_solver|by apply I1]|].
    split; [done|]. split; [|done]. apply key_sorted_cons. split; [|done].
    intros y Hy. apply H1. set_solver.
Qed.

Lemma insert_by_at p l1 l2 :
  (∀ x, x ∈ l1 → vruntime x ≤ vruntime p) → (∀ x, x ∈ l2 → vruntime p < vruntime x) →
  insert_by vruntime p (l1 ++ l2) = l1 ++ p :: l2.
Proof.
  intros H1 H2. induction l1 as [|x l1 IH]; simpl.
  - destruct l2 as [|x l2]; [done|]. simpl. specialize (H2 x ltac:(by left)).
    by rewrite (proj2 (Z.leb_gt _ _) H2).
  - rewrite (proj2 (Z.leb_le _ _) (H1 x ltac:(by left))). rewrite IH; [done|].
    intros y Hy. apply H1. by right.
Qed.

Lemma cfs_search_step_eq s p t P rest :
  zip s t P rest →
  cfs_search_step vruntime s p (plink P, paddr P) =
    Ok (if addr t =? 0 then inr (plink P, paddr P)
        else inl (ChildLink (addr t) (if vruntime p <? vruntime (addr t) then Lft else Rgt), addr t)).
Proof. intros Hz. unfold cfs_search_step. by rewrite (follow_plink _ _ _ _ Hz), bind_ok. Qed.

(** The search ends at the place of [p]. *)
Lemma cfs_search_ok fuel s p t P rest A B :
  (height t < fuel)%nat → zip s t P rest → key_sorted vruntime (inorder t) →
  (∀ u, inorder (plug u P) = A ++ inorder u ++ B) →
  (∀ x, x ∈ A → vruntime x ≤ vruntime p) → (∀ x, x ∈ B → vruntime p < vruntime x) →
  ∃ P', iter fuel (cfs_search_step vruntime s p) (plink P, paddr P) = Ok (plink P', paddr P') ∧
    zip s E P' rest ∧ plug E P' = plug t P ∧
    ∀ u, inorder u = [p] → inorder (plug u P') = insert_by vruntime p (inorder (plug t P)).
Proof.
  revert t P A B. induction fuel as [|fuel IH]; intros t P A B Hf Hz Hs HAB HA HB; [lia|].
  rewrite iter_S, (cfs_search_step_eq _ _ _ _ _ Hz), bind_ok.
  destruct t as [|c l x r]; simpl addr.
  { exists P. split; [done|]. split; [done|]. split; [done|]. intros u Hu.
    rewrite !HAB, Hu. simpl. by rewrite insert_by_at. }
  rewrite (proj2 (Z.eqb_neq x 0)) by (by apply (zip_nonnull s Lft) in Hz).
  simpl in Hs, Hf. apply key_sorted_app in Hs as (K1 & K2 & K3 & K4).
  destruct (Z.ltb_spec (vruntime p) (vruntime x)) as [Hlt|Hge].
  - apply (zip_go_down s l Lft) in Hz.
    destruct (IH l (Frame Lft c x r :: P) A (x :: inorder r ++ B)) as (P' & H1 & H2 & H3 & H4);
      [lia|done|done| |done| |by exists P'].
    + intros u. simpl. rewrite HAB. simpl. by rewrite <-(assoc_L (++)).
    + intros y [->|[Hy|Hy]%elem_of_app]%elem_of_cons; [done| |by apply HB].
      specialize (K2 y Hy). lia.
  - apply (zip_go_down s r Rgt) in Hz.
    destruct (IH r (Frame Rgt c x l :: P) (A ++ inorder l ++ [x]) B) as (P' & H1 & H2 & H3 & H4);
      [lia|done|done| | |done|by exists P'].
    + intros u. simpl. rewrite HAB. simpl. by rewrite <-!(assoc_L (++)).
    + intros y [Hy|[Hy|Hy%list_elem_of_singleton]%elem_of_app]%elem_of_app.
      * by apply HA.
      * specialize (K1 y Hy). lia.
      * by subst y.
Qed.

Lemma rb_link_node_ok s p n P rest :
  zip s E P ((p, n) :: rest) →
  ∃ s', rb_link_node s p (paddr P) (plink P) = Ok s' ∧ zip s' (T true E p E) P rest ∧
    size s'.(rb_nodes) = size s.(rb_nodes).
Proof.
  intros [H Hr]. unfold rb_link_node. simpl in H.
  destruct (sat_upd s _ (pentries P 0 ++ rest) p n (λ _, RbNode 0 0 (paddr P) true) H)
    as (s1 & -> & R1 & H1 & Z1); [perm|]. rewrite bind_ok.
  destruct P as [|[d c x sib] P]; simpl.
  - exists (set_root p s1). by split_and!.
  - destruct (sat_upd s1 _ ((p, RbNode 0 0 x true) :: entries sib x ++ pentries P x ++ rest) x
      (mknode d 0 (addr sib) (paddr P) c) (with_child d p) H1) as (s2 & -> & R2 & H2 & Z2).
    { simpl. perm. }
    rewrite with_child_mk in H2. exists s2. split; [done|]. split; [|congruence].
    split; [|simpl in *; congruence]. simpl. eapply sat_perm; [|exact H2]. perm.
Qed.

(** [cfs_enqueue] refines the stable insertion. *)
Lemma cfs_enqueue_ok s l p n free :
  cfs_rep s l ((p, n) :: free) → key_sorted vruntime l →
  ∃ s', cfs_enqueue vruntime s p = Ok s' ∧ cfs_rep s' (insert_by vruntime p l) free.
Proof.
  intros (t & Hz & Ht & <-) Hs. unfold cfs_enqueue.
  pose proof (height_inorder t). pose proof (zip_length _ _ _ Hz).
  destruct (cfs_search_ok (S (S (size s.(rb_nodes)))) s p t [] ((p, n) :: free) [] [])
    as (P & E1 & Hz1 & Hp & Hi); try done;
    [lia|intros u; by rewrite app_nil_r|by intros x ?%not_elem_of_nil..|].
  simpl plink in E1. simpl paddr in E1. rewrite E1, bind_ok. simpl in Hp, Hi.
  destruct (rb_link_node_ok _ _ _ _ _ Hz1) as (s1 & -> & Hz2 & _). rewrite bind_ok.
  rewrite <-Hp in Ht. destruct (rb_tree_unplug _ _ Ht) as (k & Bk & HP & _). simpl in Bk. subst k.
  destruct (insert_color_ok s1 (T true E p E) P free 0 Hz2) as (s2 & t' & E2 & Hz3 & Ht' & Hi' & _);
    try done. change (rb_insert_color s1 p = Ok s2) in E2. rewrite E2.
  exists s2. split; [done|]. exists t'. split; [done|]. split; [done|]. rewrite Hi'. by apply Hi.
Qed.
End cfs_spec.

(** ** Removal *)

Lemma inorder_split t x : x ∈ inorder t → ∃ P c l r, t = plug (T c l x r) P.
Proof.
  assert (∀ t, x ∈ inorder t → ∀ Q, ∃ P c l r, plug t Q = plug (T c l x r) P) as H.
  { clear. induction t as [|c l IHl y r IHr]; intros Hx Q; [by apply not_elem_of_nil in Hx|].
    simpl in Hx. apply elem_of_app in Hx as [Hx|[->|Hx]%elem_of_cons].
    - apply (IHl Hx (Frame Lft c y r :: Q)).
    - by exists Q, c, l, r.
    - apply (IHr Hx (Frame Rgt c y l :: Q)). }
  intros Hx. apply (H t Hx []).
Qed.

Lemma rb_erase_removes s l x free :
  cfs_rep s l free → x ∈ l →
  ∃ s' n l1 l2, rb_erase s x = Ok s' ∧ l = l1 ++ x :: l2 ∧ cfs_rep s' (l1 ++ l2) ((x, n) :: free).
Proof.
  intros (t & Hz & Ht & <-) Hx. destruct (inorder_split t x Hx) as (P & c & u & v & ->).
  apply zip_plug in Hz. destruct (rb_erase_ok s c u x v P free Hz Ht)
    as (s' & t' & n & A & B & -> & Hz' & Ht' & HA & HB & _).
  exists s', n, A, B. split; [done|]. split; [done|]. by exists t'.
Qed.

Lemma rb_first_ok s t free :
  zip s t [] free → rb_first s = Ok (default 0 (head (inorder t))).
Proof.
  intros Hz. unfold rb_first. pose proof (zip_root _ _ _ _ Hz) as Hr. simpl in Hr. rewrite Hr.
  assert (t = E ∨ t ≠ E) as [->|Ht] by (destruct t; auto); [done|].
  destruct (leftmost_path t Ht) as (Q & c & y & r & Et & _ & HQ). destruct (HQ []) as [_ HL].
  rewrite (proj2 (Z.eqb_neq (addr t) 0)).
  2:{ destruct Hz as [Hz _]. by apply sat_addr in Hz. }
  assert ((length Q < S (size s.(rb_nodes)))%nat) as HQl.
  { rewrite Et in Hz. apply zip_plug, zip_path_size in Hz. lia. }
  unfold leftmost. rewrite (leftmost_fuel s t [] free _ Hz Ht Q c y r Et HL HQl).
  by rewrite Et, inorder_leftmost.
Qed.

(** [cfs_dequeue_min] takes the head. *)
Lemma cfs_dequeue_ok s x l free :
  NoDup (x :: l) → cfs_rep s (x :: l) free →
  ∃ s' n, cfs_dequeue_min s = Ok (x, s') ∧ cfs_rep s' l ((x, n) :: free).
Proof.
  intros Hnd Hrep. unfold cfs_dequeue_min. pose proof Hrep as (t & Hz & Ht & Hi).
  rewrite (rb_first_ok _ _ _ Hz), Hi, bind_ok. simpl default.
  destruct (rb_erase_removes s (x :: l) x free Hrep) as (s' & n & l1 & l2 & E1 & El & Hrep');
    [by left|].
  assert (x ≠ 0) as Hx0.
  { destruct Hz as [[_ _ H0] _]. intros ->. apply H0. rewrite fmap_app, elem_of_app. left.
    assert (∀ t par, (entries t par).*1 ≡ₚ inorder t) as He.
    { clear. induction t as [|c l IHl x r IHr]; intros par; [done|]. simpl.
      rewrite fmap_app, IHl, IHr. apply Permutation_middle. }
    rewrite He, Hi. by left. }
  rewrite (proj2 (Z.eqb_neq x 0) Hx0), E1, bind_ok.
  destruct l1 as [|y l1]; simpl in El.
  - injection El as ->. by exists s', n.
  - injection El as <- ->. apply NoDup_cons in Hnd as [Hnd _]. exfalso. apply Hnd. rewrite elem_of_app. right. by left.
Qed.

Lemma cfs_dequeue_empty s free : cfs_rep s [] free → cfs_dequeue_min s = Ok (0, s).
Proof.
  intros (t & Hz & _ & Hi). unfold cfs_dequeue_min.
  by rewrite (rb_first_ok _ _ _ Hz), Hi, bind_ok.
Qed.

(** ** Runs *)

Section cfs_runs.
Context (vruntime : Z → Z).

Fixpoint cfs_enqueue_all (s : rb_store) (ps : list Z) : res rb_store :=
  match ps with
  | [] => Ok s
  | p :: ps => s ← cfs_enqueue vruntime s p; cfs_enqueue_all s ps
  end.

Fixpoint cfs_dequeue_all (n : nat) (s : rb_store) : res (list Z * rb_store) :=
  match n with
  | O => Ok ([], s)
  | S n =>
      '(p, s) ← cfs_dequeue_min s;
      '(ps, s) ← cfs_dequeue_all n s; Ok (p :: ps, s)
  end.

Lemma cfs_enqueue_all_ok s l (es free : list entry) :
  cfs_rep s l (es ++ free) → key_sorted vruntime l →
  ∃ s' l', cfs_enqueue_all s es.*1 = Ok s' ∧ cfs_rep s' l' free ∧
    l' ≡ₚ l ++ es.*1 ∧ key_sorted vruntime l' ∧
    ∀ k, filter (λ x, vruntime x = k) l' = filter (λ x, vruntime x = k) (l ++ es.*1).
Proof.
  revert s l. induction es as [|[p n] es IH]; intros s l Hrep Hs.
  { exists s, l. rewrite app_nil_r. by split_and!. }
  destruct (cfs_enqueue_ok vruntime s l p n (es ++ free) Hrep Hs) as (s1 & E1 & Hrep1).
  destruct (IH s1 _ Hrep1 (insert_by_sorted _ p _ Hs)) as (s2 & l2 & E2 & Hrep2 & HP & Hs2 & Hf).
  exists s2, l2. simpl. rewrite E1, bind_ok. split; [done|]. split; [done|]. split.
  { rewrite HP, insert_by_perm. simpl. by rewrite Permutation_middle. }
  split; [done|]. intros k. rewrite Hf, filter_app, insert_by_stable by done.
  by rewrite <-filter_app, <-(assoc_L (++)).
Qed.

Lemma cfs_dequeue_all_ok s l free :
  NoDup l → cfs_rep s l free →
  ∃ s' free', cfs_dequeue_all (length l) s = Ok (l, s') ∧ cfs_rep s' [] free'.
Proof.
  revert s free. induction l as [|p l IH]; intros s free Hnd Hrep; [by exists s, free|].
  destruct (cfs_dequeue_ok s p l free Hnd Hrep) as (s1 & n & E1 & Hrep1).
  apply NoDup_cons in Hnd as [_ Hnd].
  destruct (IH s1 _ Hnd Hrep1) as (s2 & free2 & E2 & Hrep2). exists s2, free2. simpl.
  by rewrite E1, bind_ok, E2.
Qed.

(** An empty queue, and nodes outside of it. *)
Lemma cfs_rep_empty s ps :
  s.(rb_root) = 0 → NoDup ps → 0 ∉ ps → (∀ p, p ∈ ps → is_Some (s.(rb_nodes) !! p)) →
  ∃ es, es.*1 = ps ∧ cfs_rep s [] es.
Proof.
  intros Hr Hnd H0 Hin. set (f := λ p, (p, default (RbNode 0 0 0 false) (s.(rb_nodes) !! p))).
  assert ((f <$> ps).*1 = ps) as Hf.
  { rewrite <-list_fmap_compose. by rewrite (list_fmap_ext _ id), list_fmap_id. }
  exists (f <$> ps). split; [done|]. exists E. split; [|split; [split; [done|by exists O]|done]].
  split; [|done]. simpl. split; rewrite ?Hf; try done.
  intros x n (p & [= -> ->] & Hp)%list_elem_of_fmap. destruct (Hin p Hp) as [k Hk].
  by rewrite Hk.
Qed.

(** C20: the tree of the fair scheduler is a stable priority queue.  Enqueue
    distinct PCBs into an empty queue with [cfs_enqueue], then empty it with
    [cfs_dequeue_min]: no call dereferences a bad pointer, every PCB comes out
    once, by ascending [vruntime], equal ones in the order they went in, and a
    further call returns [NULL]. *)
Theorem cfs_stable_sort s ps :
  s.(rb_root) = 0 → NoDup ps → 0 ∉ ps → (∀ p, p ∈ ps → is_Some (s.(rb_nodes) !! p)) →
  ∃ s1 l s2, cfs_enqueue_all s ps = Ok s1 ∧ cfs_dequeue_all (length ps) s1 = Ok (l, s2) ∧
    l ≡ₚ ps ∧ key_sorted vruntime l ∧
    (∀ k, filter (λ p, vruntime p = k) l = filter (λ p, vruntime p = k) ps) ∧
    cfs_dequeue_min s2 = Ok (0, s2).
Proof.
  intros Hr Hnd H0 Hin. destruct (cfs_rep_empty s ps Hr Hnd H0 Hin) as (es & <- & Hrep).
  rewrite <-(app_nil_r es) in Hrep.
  destruct (cfs_enqueue_all_ok s [] es [] Hrep) as (s1 & l & E1 & Hrep1 & HP & Hs & Hf);
    [by intros [|]|]. simpl in HP.
  destruct (cfs_dequeue_all_ok s1 l [] ) as (s2 & free & E2 & Hrep2); [by rewrite HP|done|].
  exists s1, l, s2. rewrite <-(Permutation_length HP). split; [done|]. split; [done|].
  split; [done|]. split; [done|]. split; [done|]. by eapply cfs_dequeue_empty.
Qed.

(** C22: the search of [cfs_enqueue] is logarithmic: in a tree of [n] nodes it
    reaches the [NULL] pointer where [p] is linked within [2 log2 (n + 1) + 1]
    steps, and the pointer's place is that of the stable insertion. *)
Theorem cfs_search_logarithmic s p t free :
  zip s t [] free → rb_tree t → key_sorted vruntime (inorder t) →
  ∃ P, iter (2 * Nat.log2 (S (length (inorder t))) + 1) (cfs_search_step vruntime s p)
         (RootLink, 0) = Ok (plink P, paddr P) ∧
    rb_follow s (plink P) = Ok 0 ∧ plug E P = t ∧
    inorder (plug (T true E p E) P) = insert_by vruntime p (inorder t).
Proof.
  intros Hz Ht Hs. pose proof (height_log t Ht) as Hh.
  destruct (cfs_search_ok vruntime (2 * Nat.log2 (S (length (inorder t))) + 1) s p t [] free [] [])
    as (P & E1 & Hz1 & Hp & Hi); try done;
    [lia|intros u; by rewrite app_nil_r|by intros x ?%not_elem_of_nil..|].
  exists P. split; [done|]. split; [by apply (follow_plink s E P free)|]. split; [done|]. by apply Hi.
Qed.
End cfs_runs.

(** C21: [rb_erase] takes any node of a red-black tree out of it: the other nodes
    keep their order, the tree is red-black again (no red node has a red child,
    every way down has as many black nodes, the root is black), and the parent
    pointers and the root pointer are right. *)
Theorem rb_erase_keeps_tree s t x free :
  zip s t [] free → rb_tree t → x ∈ inorder t →
  ∃ s' t' n l1 l2, rb_erase s x = Ok s' ∧ zip s' t' [] ((x, n) :: free) ∧ rb_tree t' ∧
    inorder t = l1 ++ x :: l2 ∧ inorder t' = l1 ++ l2.
Proof.
  intros Hz Ht Hx. destruct (rb_erase_removes s (inorder t) x free) as
    (s' & n & l1 & l2 & E1 & El & t' & Hz' & Ht' & Hi); [by exists t|done|].
  by exists s', t', n, l1, l2.
Qed.

(** ** Witnesses *)

(** Ten nodes; the virtual runtime of [p] is [p mod 4]. *)
Definition demo_nodes : list Z := [16; 9; 23; 4; 11; 30; 2; 8; 13; 27].
Definition demo_store : rb_store :=
  RbStore (list_to_map ((λ p, (p, RbNode 0 0 0 false)) <$> demo_nodes)) 0.
Definition demo_vruntime (p : Z) : Z := p mod 4.

Lemma cfs_stable_sort_witness :
  ∃ s1 l s2, cfs_enqueue_all demo_vruntime demo_store demo_nodes = Ok s1 ∧
    cfs_dequeue_all (length demo_nodes) s1 = Ok (l, s2) ∧
    l ≡ₚ demo_nodes ∧ key_sorted demo_vruntime l ∧
    (∀ k, filter (λ p, demo_vruntime p = k) l = filter (λ p, demo_vruntime p = k) demo_nodes) ∧
    cfs_dequeue_min s2 = Ok (0, s2).
Proof.
  apply (cfs_stable_sort demo_vruntime demo_store demo_nodes); [done| | |].
  - apply (bool_decide_unpack _). by vm_compute.
  - apply (bool_decide_unpack _). by vm_compute.
  - intros p Hp. assert (Forall (λ p, is_Some (demo_store.(rb_nodes) !! p)) demo_nodes) as H.
    { repeat constructor; eexists; by vm_compute. }
    rewrite Forall_forall in H. by apply H.
Defined.

Example demo_order :
  (s ← cfs_enqueue_all demo_vruntime demo_store demo_nodes;
   '(l, _) ← cfs_dequeue_all 10 s; Ok l) = Ok [16; 4; 8; 9; 13; 30; 2; 23; 11; 27].
Proof. vm_compute. reflexivity. Qed.

(** A tree of three nodes. *)
Definition small_tree : tree := T false (T true E 8 E) 16 (T true E 24 E).
Definition small_store : rb_store :=
  RbStore (list_to_map (entries small_tree 0 ++ [(32, RbNode 0 0 0 true)])) 16.

Lemma small_zip : zip small_store small_tree [] [(32, RbNode 0 0 0 true)].
Proof.
  split; [split|done].
  - apply (bool_decide_unpack _). by vm_compute.
  - intros x n Hx.
    repeat (apply elem_of_cons in Hx as [[= -> ->]|Hx]; [by vm_compute|]).
    by apply not_elem_of_nil in Hx.
  - apply (bool_decide_unpack _). by vm_compute.
Qed.

Lemma small_rb : rb_tree small_tree.
Proof. split; [done|]. exists 1%nat. by split_and!. Qed.

Lemma cfs_search_logarithmic_witness :
  ∃ P, iter 5 (cfs_search_step id small_store 20) (RootLink, 0) = Ok (plink P, paddr P) ∧
    rb_follow small_store (plink P) = Ok 0 ∧ plug E P = small_tree ∧
    inorder (plug (T true E 20 E) P) = insert_by id 20 (inorder small_tree).
Proof.
  apply (cfs_search_logarithmic id small_store 20 small_tree [(32, RbNode 0 0 0 true)]);
    [apply small_zip|apply small_rb|].
  intros i j x y Hij Hx Hy.
  destruct i as [|[|[|i]]], j as [|[|[|j]]]; simpl in *; simplify_eq; unfold id; lia.
Defined.

Lemma rb_erase_keeps_tree_witness :
  ∃ s' t' n l1 l2, rb_erase small_store 16 = Ok s' ∧
    zip s' t' [] [(16, n); (32, RbNode 0 0 0 true)] ∧ rb_tree t' ∧
    inorder small_tree = l1 ++ 16 :: l2 ∧ inorder t' = l1 ++ l2.
Proof.
  apply (rb_erase_keeps_tree small_store small_tree 16 [(32, RbNode 0 0 0 true)]);
    [apply small_zip|apply small_rb|by vm_compute; right; left].
Defined.
