(* ===== verification/Cli.v ===== *)
(** * The command line ([cli_loop] of [kernel.c])

    [shell] holds what the loop works on: the file system, the scheduler, the
    keyboard, the screen, and the local [input] buffer with [strtok]'s static
    pointer into it.  The bytes of the local [buffer[128]] are indeterminate
    until [read_file] writes them; they are the argument [scratch].  The
    addresses of the programs that can be started are arguments. *)
From S2P Require Import Prelude CString Strtok Filesystem Process Convert Vga Keyboard.

Notation MAX_INPUT_LENGTH := 128.

Record shell := MkShell {
  sh_fs : fs;
  sh_kernel : kstate;
  sh_keyboard : keyboard;
  sh_screen : vga;
  sh_tokens : strtok_state;
}.

Definition set_fs (f : fs) (s : shell) : shell :=
  MkShell f s.(sh_kernel) s.(sh_keyboard) s.(sh_screen) s.(sh_tokens).
Definition set_kernel (k : kstate) (s : shell) : shell :=
  MkShell s.(sh_fs) k s.(sh_keyboard) s.(sh_screen) s.(sh_tokens).
Definition set_screen (v : vga) (s : shell) : shell :=
  MkShell s.(sh_fs) s.(sh_kernel) s.(sh_keyboard) v s.(sh_tokens).
Definition set_tokens (t : strtok_state) (s : shell) : shell :=
  MkShell s.(sh_fs) s.(sh_kernel) s.(sh_keyboard) s.(sh_screen) t.

(** How an iteration of the loop ends. *)
Inductive cli_result :=
| Continue
| Exit
| Waiting
| Scheduled (o : outcome).

(** [print_to_screen] of a literal, and of a literal that ends in a newline. *)
Definition print (s : shell) (message : list Z) : res shell :=
  screen ← print_to_screen s.(sh_screen) message; Ok (set_screen screen s).
Definition say (s : shell) (message : string) : res shell :=
  print s (c_string (chars message ++ [10])).

Definition blanks : list Z := [32; 9].
Definition newline : list Z := [10].

(** [strtok(str, delim)] *)
Definition token (s : shell) (str : option Z) (delim : list Z) : res (option Z * shell) :=
  '(t, toks) ← strtok s.(sh_tokens) str (c_string delim); Ok (t, set_tokens toks s).
Definition next_token (s : shell) (delim : list Z) := token s None delim.

(** The characters at a token. *)
Definition text (s : shell) (p : Z) : list Z := drop (Z.to_nat p) s.(sh_tokens).(str_buf).

(** [strcmp(token, name) == 0], and [token && strcmp(token, name) == 0]. *)
Definition token_is (s : shell) (p : Z) (name : string) : res bool :=
  r ← strcmp (text s p) (c_string (chars name)); Ok (r =? 0).
Definition maybe_is (s : shell) (t : option Z) (name : string) : res bool :=
  match t with Some p => token_is s p name | None => Ok false end.

(** [if (token) priority = atoi(token);] *)
Definition priority_of (s : shell) (t : option Z) (priority : Z) : res Z :=
  match t with Some p => atoi (text s p) | None => Ok priority end.

Section cli.
Context (base : Z).
Context (dummy_process_1 dummy_process_2 dummy_process_3 syscall_test process_test : Z).

Definition process_commands : list (string * Z) :=
  [("dummy1"%string, dummy_process_1); ("dummy2"%string, dummy_process_2);
   ("dummy3"%string, dummy_process_3)].

(** [create_process(get_new_pid(), entry_point, priority, 1, 2);] *)
Definition queue_process (s : shell) (entry_point priority : Z) : res shell :=
  let '(pid, k) := get_new_pid s.(sh_kernel) in
  '(_, k) ← create_process base k pid entry_point priority 1 2;
  Ok (set_kernel k s).

(** The loop over [process_commands]. *)
Fixpoint queue_command (s : shell) (token2 priority : Z) (commands : list (string * Z))
    : res shell :=
  match commands with
  | [] => say s "Error: Unknown process name."
  | (name, func) :: commands =>
      same ← token_is s token2 name;
      if same : bool then
        s ← say s "Queueing process..."; queue_process s func priority
      else queue_command s token2 priority commands
  end.

(** The command [process]; [esp] is the stack pointer [schedule] saves. *)
Definition cli_process (s : shell) (esp : Z) : res (cli_result * shell) :=
  '(token2, s) ← next_token s blanks;
  match token2 with
  | None =>
      s ← say s "Usage: process <dummy1|dummy2|dummy3|syscall test|process test|start> [priority]";
      Ok (Continue, s)
  | Some token2 =>
      is_start ← token_is s token2 "start";
      if is_start : bool then
        s ← say s "Starting scheduled processes...";
        '(o, k) ← schedule base s.(sh_kernel) esp; Ok (Scheduled o, set_kernel k s)
      else
        '(token3, s) ← next_token s blanks;
        '(token4, s) ← next_token s blanks;
        is_syscall ← token_is s token2 "syscall";
        is_test ← (if is_syscall : bool then maybe_is s token3 "test" else Ok false);
        if is_test : bool then
          priority ← priority_of s token4 1;
          s ← say s "Queueing syscall_test process...";
          s ← queue_process s syscall_test priority; Ok (Continue, s)
        else
          is_process ← token_is s token2 "process";
          is_test ← (if is_process : bool then maybe_is s token3 "test" else Ok false);
          if is_test : bool then
            priority ← priority_of s token4 1;
            s ← say s "Queueing process_test process...";
            s ← queue_process s process_test priority; Ok (Continue, s)
          else
            priority ← priority_of s token3 1;
            s ← queue_command s token2 priority process_commands; Ok (Continue, s)
  end.

(** The result of a file operation is reported. *)
Definition report (s : shell) (r : Z) (failure success : string) : res (cli_result * shell) :=
  s ← say s (if r =? -1 then failure else success); Ok (Continue, s).

Definition cli_make (s : shell) : res (cli_result * shell) :=
  '(filename, s) ← next_token s blanks;
  match filename with
  | None => s ← say s "Usage: file make <filename>"; Ok (Continue, s)
  | Some filename =>
      '(r, f) ← create_file s.(sh_fs) (text s filename);
      report (set_fs f s) r "Error: Failed to create file." "File created successfully."
  end.

Definition cli_read (s : shell) (scratch : list Z) : res (cli_result * shell) :=
  '(filename, s) ← next_token s blanks;
  match filename with
  | None => s ← say s "Usage: file read <filename>"; Ok (Continue, s)
  | Some filename =>
      '(bytes_read, buffer) ← read_file s.(sh_fs) (text s filename) scratch 128;
      if bytes_read =? -1 then
        s ← say s "Error: Failed to read file."; Ok (Continue, s)
      else
        buffer ← aset buffer bytes_read 0;
        s ← print s (c_string (chars "File content: "));
        s ← print s buffer;
        s ← print s (c_string newline);
        Ok (Continue, s)
  end.

(** [write] and [append]. *)
Definition cli_store (operation : fs → list Z → list Z → Z → res (Z * fs))
    (usage failure success : string) (s : shell) : res (cli_result * shell) :=
  '(filename, s) ← next_token s blanks;
  '(data, s) ← next_token s newline;
  match filename, data with
  | Some filename, Some data =>
      n ← strlen (text s data);
      '(r, f) ← operation s.(sh_fs) (text s filename) (text s data) n;
      report (set_fs f s) r failure success
  | _, _ => s ← say s usage; Ok (Continue, s)
  end.

Definition cli_write := cli_store write_file "Usage: file write <filename> <data>"
  "Error: Failed to write to file." "Data written to file successfully.".
Definition cli_append := cli_store append_to_file "Usage: file append <filename> <data>"
  "Error: Failed to append to file." "Data appended to file successfully.".

Definition cli_remove (s : shell) : res (cli_result * shell) :=
  '(filename, s) ← next_token s blanks;
  match filename with
  | None => s ← say s "Usage: file rm <filename>"; Ok (Continue, s)
  | Some filename =>
      '(r, f) ← delete_file s.(sh_fs) (text s filename);
      report (set_fs f s) r "Error: Failed to delete file." "File deleted successfully."
  end.

Definition cli_list (s : shell) : res (cli_result * shell) :=
  out ← list_files s.(sh_fs); s ← print s (c_string out); Ok (Continue, s).

Definition cli_chmod (s : shell) : res (cli_result * shell) :=
  '(filename, s) ← next_token s blanks;
  '(perm_str, s) ← next_token s blanks;
  match filename, perm_str with
  | Some filename, Some perm_str =>
      permissions ← atoi (text s perm_str);
      '(r, f) ← chmod_file s.(sh_fs) (text s filename) (u16 permissions);
      report (set_fs f s) r "Error: Failed to change file permissions."
        "File permissions changed successfully."
  | _, _ => s ← say s "Usage: file chmod <filename> <permissions>"; Ok (Continue, s)
  end.

(** The first of the handlers whose name is the token. *)
Fixpoint dispatch {A} (s : shell) (t : Z) (handlers : list (string * (shell → res A)))
    (otherwise : shell → res A) : res A :=
  match handlers with
  | [] => otherwise s
  | (name, handler) :: handlers =>
      same ← token_is s t name;
      if same : bool then handler s else dispatch s t handlers otherwise
  end.

Definition cli_file (s : shell) (scratch : list Z) : res (cli_result * shell) :=
  '(operation, s) ← next_token s blanks;
  match operation with
  | None => s ← say s "Usage: file <operation> <filename> [args]"; Ok (Continue, s)
  | Some operation =>
      dispatch s operation
        [("make"%string, cli_make); ("read"%string, λ s, cli_read s scratch);
         ("write"%string, cli_write); ("append"%string, cli_append); ("rm"%string, cli_remove);
         ("ls"%string, cli_list); ("chmod"%string, cli_chmod)]
        (λ s, s ← say s "Unknown file operation. Use 'make', 'read', 'write', 'append', 'rm', or 'ls'.";
              Ok (Continue, s))
  end.

(** The body of the loop once [input] holds a line. *)
Definition cli_line (s : shell) (esp : Z) (scratch : list Z) : res (cli_result * shell) :=
  '(token1, s) ← token s (Some 0) blanks;
  match token1 with
  | None => Ok (Continue, s)
  | Some token1 =>
      dispatch s token1
        [("exit"%string, λ s, s ← say s "Exiting kernel CLI..."; Ok (Exit, s));
         ("process"%string, λ s, cli_process s esp);
         ("file"%string, λ s, cli_file s scratch);
         ("ls"%string, cli_list)]
        (λ s, s ← say s "Unknown command. Use 'process', 'file', 'ls', or 'exit'.";
              Ok (Continue, s))
  end.

(** From [read_line] on; [Waiting] while no line has been entered. *)
Definition cli_await (s : shell) (esp : Z) (scratch : list Z) : res (cli_result * shell) :=
  r ← read_line s.(sh_keyboard) s.(sh_tokens).(str_buf) MAX_INPUT_LENGTH;
  match r with
  | None => Ok (Waiting, s)
  | Some (k, input) =>
      cli_line (MkShell s.(sh_fs) s.(sh_kernel) k s.(sh_screen)
                  (MkStrtok input s.(sh_tokens).(static_str))) esp scratch
  end.

(** One iteration of [cli_loop]. *)
Definition cli_iteration (s : shell) (esp : Z) (scratch : list Z) : res (cli_result * shell) :=
  s ← print s (c_string (chars "CLI> "));
  cli_await s esp scratch.
End cli.
