(* ===== verification/CliSpec.v ===== *)
(** * What the command line promises

    [parse] reads a command off the words of a line; [execute] runs it on the
    abstract file system, the terminal and the scheduler.  [meets] says that
    the code does the same. *)
From S2P Require Import Prelude CString Strtok Filesystem FsWf FsSpec FsRefine FsProps FsTheorems Process Convert Vga Keyboard Cli.

Record console := MkConsole {
  c_fs : afs;
  c_kernel : kstate;
  c_editor : editor;
  c_term : term;
}.

Definition c_set_fs (a : afs) (c : console) : console :=
  MkConsole a c.(c_kernel) c.(c_editor) c.(c_term).
Definition c_set_kernel (k : kstate) (c : console) : console :=
  MkConsole c.(c_fs) k c.(c_editor) c.(c_term).
Definition c_print (m : list Z) (c : console) : console :=
  MkConsole c.(c_fs) c.(c_kernel) c.(c_editor) (t_print c.(c_term) m).
Definition c_say (m : string) : console → console := c_print (chars m ++ [10]).

(** ** Commands *)

Inductive command :=
| NoCommand
| ExitCli
| Complain (message : string)
| StartProcesses
| QueueProcess (message : string) (entry_point priority : Z)
| MakeFile (name : list Z)
| ReadFile (name : list Z)
| WriteFile (name data : list Z)
| AppendFile (name data : list Z)
| RemoveFile (name : list Z)
| ListFiles
| ChmodFile (name : list Z) (permissions : Z).

(** The next word, and what follows it. *)
Definition word (o : option (list Z * list Z)) : option (list Z) := fst <$> o.
Definition after (o : option (list Z * list Z)) : list Z := from_option snd [] o.

(** The number a word starts with. *)
Definition number (w : list Z) : Z := match atoi (w ++ [0]) with Ok n => n | Err _ => 0 end.

(** The entry of a word in a table. *)
Fixpoint choose {A} (w : list Z) (table : list (string * A)) (otherwise : A) : A :=
  match table with
  | [] => otherwise
  | (name, a) :: table => if decide (w = chars name) then a else choose w table otherwise
  end.

Section parse.
Context (dummy_process_1 dummy_process_2 dummy_process_3 syscall_test process_test : Z).

Definition parse_process (x : list Z) : command :=
  match next_word blanks x with
  | None => Complain "Usage: process <dummy1|dummy2|dummy3|syscall test|process test|start> [priority]"
  | Some (w2, x) =>
      if decide (w2 = chars "start") then StartProcesses
      else
        let t3 := next_word blanks x in
        let t4 := next_word blanks (after t3) in
        let is_test := bool_decide (word t3 = Some (chars "test")) in
        let priority t := from_option number 1 (word t) in
        if bool_decide (w2 = chars "syscall") && is_test then
          QueueProcess "Queueing syscall_test process..." syscall_test (priority t4)
        else if bool_decide (w2 = chars "process") && is_test then
          QueueProcess "Queueing process_test process..." process_test (priority t4)
        else
          let queue entry_point := QueueProcess "Queueing process..." entry_point (priority t3) in
          choose w2
            [("dummy1"%string, queue dummy_process_1); ("dummy2"%string, queue dummy_process_2);
             ("dummy3"%string, queue dummy_process_3)] (Complain "Error: Unknown process name.")
  end.

(** A file name; a file name and the rest of the line; two words. *)
Definition parse_name (usage : string) (make : list Z → command) (x : list Z) : command :=
  match next_word blanks x with Some (f, _) => make f | None => Complain usage end.
Definition parse_data (usage : string) (make : list Z → list Z → command) (d x : list Z) : command :=
  let t := next_word blanks x in
  match word t, word (next_word d (after t)) with
  | Some f, Some data => make f data
  | _, _ => Complain usage
  end.

Definition parse_file (x : list Z) : command :=
  match next_word blanks x with
  | None => Complain "Usage: file <operation> <filename> [args]"
  | Some (w, x) =>
      choose w
        [("make"%string, parse_name "Usage: file make <filename>" MakeFile x);
         ("read"%string, parse_name "Usage: file read <filename>" ReadFile x);
         ("write"%string, parse_data "Usage: file write <filename> <data>" WriteFile newline x);
         ("append"%string, parse_data "Usage: file append <filename> <data>" AppendFile newline x);
         ("rm"%string, parse_name "Usage: file rm <filename>" RemoveFile x);
         ("ls"%string, ListFiles);
         ("chmod"%string, parse_data "Usage: file chmod <filename> <permissions>"
           (λ f p, ChmodFile f (u16 (number p))) blanks x)]
        (Complain "Unknown file operation. Use 'make', 'read', 'write', 'append', 'rm', or 'ls'.")
  end.

Definition parse (x : list Z) : command :=
  match next_word blanks x with
  | None => NoCommand
  | Some (w, x) =>
      choose w
        [("exit"%string, ExitCli); ("process"%string, parse_process x);
         ("file"%string, parse_file x); ("ls"%string, ListFiles)]
        (Complain "Unknown command. Use 'process', 'file', 'ls', or 'exit'.")
  end.
End parse.

(** ** Their effect *)

Definition c_report (r : Z * afs) (failure success : string) (c : console) : cli_result * console :=
  (Continue, c_say (if r.1 =? -1 then failure else success) (c_set_fs r.2 c)).

Definition execute (base esp : Z) (scratch : list Z) (c : console) (cmd : command)
    : res (cli_result * console) :=
  match cmd with
  | NoCommand => Ok (Continue, c)
  | ExitCli => Ok (Exit, c_say "Exiting kernel CLI..." c)
  | Complain m => Ok (Continue, c_say m c)
  | StartProcesses =>
      '(o, k) ← schedule base c.(c_kernel) esp;
      Ok (Scheduled o, c_set_kernel k (c_say "Starting scheduled processes..." c))
  | QueueProcess m entry_point priority =>
      let '(pid, k) := get_new_pid c.(c_kernel) in
      '(_, k) ← create_process base k pid entry_point priority 1 2;
      Ok (Continue, c_set_kernel k (c_say m c))
  | MakeFile f =>
      Ok (c_report (spec_create c.(c_fs) f)
            "Error: Failed to create file." "File created successfully." c)
  | ReadFile f =>
      let '(r, buffer) := spec_read c.(c_fs) f scratch 128 in
      if r =? -1 then Ok (Continue, c_say "Error: Failed to read file." c)
      else
        buffer ← aset buffer r 0;
        Ok (Continue, c_print (chars "File content: " ++ name_of buffer ++ [10]) c)
  | WriteFile f data =>
      Ok (c_report (spec_write c.(c_fs) f data (Z.of_nat (length data)))
            "Error: Failed to write to file." "Data written to file successfully." c)
  | AppendFile f data =>
      Ok (c_report (spec_append c.(c_fs) f data (Z.of_nat (length data)))
            "Error: Failed to append to file." "Data appended to file successfully." c)
  | RemoveFile f =>
      Ok (c_report (spec_delete c.(c_fs) f)
            "Error: Failed to delete file." "File deleted successfully." c)
  | ListFiles => Ok (Continue, c_print (spec_list c.(c_fs)) c)
  | ChmodFile f p =>
      Ok (c_report (spec_chmod c.(c_fs) f p)
            "Error: Failed to change file permissions." "File permissions changed successfully." c)
  end.

(** ** The relation *)

Record models (s : shell) (c : console) : Prop := {
  md_wf : fs_wf s.(sh_fs);
  md_fs : fs_abs s.(sh_fs) = c.(c_fs);
  md_kernel : s.(sh_kernel) = c.(c_kernel);
  md_editor : edits s.(sh_keyboard) c.(c_editor);
  md_screen : shows s.(sh_screen) c.(c_term);
  md_input : length s.(sh_tokens).(str_buf) = 128%nat;
}.

(** The code returns what is specified, the error included. *)
Definition meets (r : res (cli_result * shell)) (spec : res (cli_result * console)) : Prop :=
  match spec with
  | Ok (o, c) => ∃ s, r = Ok (o, s) ∧ models s c
  | Err e => r = Err e
  end.

(** ** Tokens *)

(** [strtok] is at [x]; later calls keep the words [ws] at their pointers. *)
Definition tokens_at (t : strtok_state) (x : list Z) (ws : list (Z * list Z)) : Prop :=
  ∃ pre post, strtok_at t pre x post ∧
    ∀ q w, (q, w) ∈ ws → ∀ t', keeps t t' pre x → token_text t' q = Some w.

Lemma keeps_refl t pre x post : strtok_at t pre x post → keeps t t pre x.
Proof. intros [H _]. by exists (x ++ 0 :: post). Qed.

Lemma tokens_text t x ws q w : tokens_at t x ws → (q, w) ∈ ws → token_text t q = Some w.
Proof. intros (pre & post & Hat & H) Hq. eapply H; [done|by eapply keeps_refl]. Qed.

Lemma strtok_next t x ws d delim :
  tokens_at t x ws → cstr delim = Some d →
  match next_word d x with
  | None => ∃ t', strtok t None delim = Ok (None, t') ∧ tokens_at t' [] ws ∧
              length t'.(str_buf) = length t.(str_buf)
  | Some (w, r) => ∃ t' q, strtok t None delim = Ok (Some q, t') ∧
              tokens_at t' r ((q, w) :: ws) ∧ length t'.(str_buf) = length t.(str_buf)
  end.
Proof.
  intros (pre & post & (Hb & Hp & Hx) & Hws) Hd.
  pose proof (strtok_spec t None delim d pre x post Hb Hx Hd ltac:(by right)) as Hs.
  destruct (next_word d x) as [[w r]|] eqn:Ew.
  - destruct Hs as (t' & q & pre' & -> & Hat & [y Hy] & Hl & Hq). exists t', (Z.of_nat q).
    split; [done|]. split; [|done]. exists pre', post. split; [done|].
    apply next_word_nil in Ew as [_ Hlt].
    intros q' w' [[= -> ->]|Hq']%elem_of_cons t2 Hk.
    + unfold token_text. rewrite Nat2Z.id. by apply Hq.
    + apply (Hws q' w' Hq'). destruct Hk as (u & Hu & Hk). exists (y ++ u).
      split; [by rewrite Hu, Hy, (assoc_L (++))|]. intros ->. simpl in Hlt. lia.
  - destruct Hs as (t' & pre' & -> & Hb' & Hat). exists t'. split; [done|]. split; [|by rewrite Hb'].
    exists pre', post. split; [done|]. intros q w Hq t2 (u & Hu & Hk). apply (Hws q w Hq).
    exists (x ++ 0 :: post). rewrite (Hk eq_refl), Hb'. by split; [rewrite Hb|].
Qed.
