(* ===== verification/CliRefine.v ===== *)
(** * The command line keeps its promise

    Every handler of [cli_loop] meets the command that [parse] reads off the
    line. *)
From S2P Require Import Prelude CString Strtok Filesystem FsWf FsSpec FsRefine FsProps FsTheorems Process Convert Vga Keyboard Cli CliSpec.

(** ** Steps of the code *)

Lemma print_meets s c m x k spec :
  models s c → cstr m = Some x →
  (∀ s', models s' (c_print x c) → s'.(sh_tokens) = s.(sh_tokens) → meets (k s') spec) →
  meets (s ← print s m; k s) spec.
Proof.
  intros Hs (Hx & rest & ->)%cstr_inv Hk. unfold print.
  destruct (print_cstr s.(sh_screen) c.(c_term) x rest (md_screen _ _ Hs) Hx) as (v & -> & Hv).
  rewrite !bind_ok. apply Hk; [|done]. by destruct Hs.
Qed.

Lemma c_print_app x y c : c_print y (c_print x c) = c_print (x ++ y) c.
Proof. unfold c_print, t_print. simpl. by rewrite foldl_app. Qed.

Lemma say_meets s c m k spec :
  models s c → bool_decide (0 ∉ chars m) = true →
  (∀ s', models s' (c_say m c) → s'.(sh_tokens) = s.(sh_tokens) → meets (k s') spec) →
  meets (s ← say s m; k s) spec.
Proof.
  intros Hs Hm. apply print_meets; [done|]. apply cstr_c_string.
  apply bool_decide_eq_true_1 in Hm. intros [?|H%list_elem_of_singleton]%elem_of_app; done.
Qed.

Lemma say_done s c m o :
  models s c → bool_decide (0 ∉ chars m) = true →
  meets (s ← say s m; Ok (o, s)) (Ok (o, c_say m c)).
Proof. intros Hs Hm. eapply say_meets; [done|done|]. intros s' Hs' _. by exists s'. Qed.

(** [report] after a file operation that refines its specification. *)
Lemma report_meets s c r (sp : Z * afs) failure success :
  models s c → refines r sp →
  bool_decide (0 ∉ chars failure) = true → bool_decide (0 ∉ chars success) = true →
  meets ('(r, f) ← r; report (set_fs f s) r failure success)
    (Ok (c_report sp failure success c)).
Proof.
  intros [] (f & -> & Hwf & Ha) Hf Hu. rewrite bind_ok. unfold report, c_report.
  apply say_done; [by split|]. by destruct (sp.1 =? -1).
Qed.

Lemma next_token_ok s c x ws d :
  models s c → tokens_at s.(sh_tokens) x ws → bool_decide (0 ∉ d) = true →
  match next_word d x with
  | None => ∃ s', next_token s d = Ok (None, s') ∧ models s' c ∧ tokens_at s'.(sh_tokens) [] ws
  | Some (w, r) => ∃ s' q, next_token s d = Ok (Some q, s') ∧ models s' c ∧
                     tokens_at s'.(sh_tokens) r ((q, w) :: ws)
  end.
Proof.
  intros [] Ht Hd%bool_decide_eq_true_1. unfold next_token, token.
  pose proof (strtok_next _ _ _ d (c_string d) Ht (cstr_c_string d Hd)) as H.
  destruct (next_word d x) as [[w r]|].
  - destruct H as (t & q & -> & Hq & Hl). rewrite bind_ok. eexists _, q. split; [done|].
    split; [|done]. split; try done. simpl. by rewrite Hl.
  - destruct H as (t & -> & Hq & Hl). rewrite bind_ok. eexists. split; [done|].
    split; [|done]. split; try done. simpl. by rewrite Hl.
Qed.

Lemma token_is_ok s p w name :
  token_text s.(sh_tokens) p = Some w → bool_decide (0 ∉ chars name) = true →
  token_is s p name = Ok (bool_decide (w = chars name)).
Proof.
  intros Hw Hn%bool_decide_eq_true_1. unfold token_is.
  destruct (strcmp_spec (text s p) (c_string (chars name)) w (chars name) Hw) as (r & -> & Hr);
    [by apply cstr_c_string|]. rewrite bind_ok. f_equal.
  destruct (Z.eqb_spec r 0); symmetry; [apply bool_decide_eq_true_2|apply bool_decide_eq_false_2];
    by rewrite <-Hr.
Qed.

Lemma maybe_is_ok s o w name :
  (match o with Some p => token_text s.(sh_tokens) p = w ∧ is_Some w | None => w = None end) →
  bool_decide (0 ∉ chars name) = true →
  maybe_is s o name = Ok (bool_decide (w = Some (chars name))).
Proof.
  intros Hw Hn. destruct o as [p|]; [|by subst w]. destruct Hw as [Hw [v ->]]. simpl.
  rewrite (token_is_ok s p v) by done. f_equal. apply bool_decide_ext. naive_solver.
Qed.

(** [atoi] only looks at the C string. *)
Lemma atoi_digits_total s w num :
  cstr s = Some w → ∃ n, atoi_digits s num = Ok n ∧ atoi_digits (w ++ [0]) num = Ok n.
Proof.
  revert w num. induction s as [|c s IH]; intros w num Hw; [done|]. simpl in *.
  destruct (Z.eqb_spec c 0).
  - injection Hw as <-. by exists num.
  - destruct (cstr s) as [v|]; [|done]. injection Hw as <-. simpl.
    rewrite (proj2 (Z.eqb_neq c 0)) by done.
    destruct ((48 <=? c) && (c <=? 57)); [by apply IH|by exists num].
Qed.

Lemma atoi_number s w : cstr s = Some w → atoi s = Ok (number w).
Proof.
  intros Hw. unfold number. destruct s as [|c s]; [done|].
  assert (∃ t, w ++ [0] = c :: t ∧ (c = 45 → ∃ v, cstr s = Some v ∧ t = v ++ [0])) as (t & Ht & Hv).
  { simpl in Hw. destruct (Z.eqb_spec c 0) as [->|Hc].
    - injection Hw as <-. by exists [].
    - destruct (cstr s) as [v|]; [|done]. injection Hw as <-. exists (v ++ [0]). eauto. }
  destruct (atoi_digits_total _ w 0 Hw) as (n & E1 & E2). unfold atoi.
  rewrite Ht in E2 |- *. simpl deref. rewrite !bind_ok. destruct (Z.eqb_spec c 45) as [E|E].
  - destruct (Hv E) as (v & Ev & ->). simpl tail.
    destruct (atoi_digits_total s v 0 Ev) as (m & -> & ->). by rewrite !bind_ok.
  - by rewrite E1, E2, !bind_ok.
Qed.

Lemma priority_ok s o w :
  (match o with Some p => token_text s.(sh_tokens) p = w ∧ is_Some w | None => w = None end) →
  priority_of s o 1 = Ok (from_option number 1 w).
Proof. intros Hw. destruct o as [p|]; [|by subst w]. destruct Hw as [Hw [v ->]]. by apply atoi_number. Qed.

(** The chain of comparisons. *)
Lemma dispatch_meets {A} (f : A → res (cli_result * console)) s p w
    (handlers : list (string * (shell → res (cli_result * shell)))) (table : list (string * A)) o1 o2 :
  token_text s.(sh_tokens) p = Some w →
  Forall2 (λ h e, h.1 = e.1 ∧ bool_decide (0 ∉ chars h.1) = true ∧ meets (h.2 s) (f e.2))
    handlers table →
  meets (o1 s) (f o2) → meets (dispatch s p handlers o1) (f (choose w table o2)).
Proof.
  intros Hw Hall Ho. induction Hall as [|[name h] [name' a] hs es (En & Hz & Hm) _ IH]; [done|].
  simpl in *. subst name'. rewrite (token_is_ok s p w name Hw Hz), bind_ok.
  destruct (decide (w = chars name)) as [E|E].
  - by rewrite bool_decide_eq_true_2.
  - by rewrite bool_decide_eq_false_2.
Qed.

(** ** Files *)

(** A write only looks at the bytes it is given. *)
Lemma spec_write_take s f x b b' n :
  fs_wf s → cstr f = Some x → 0 ≤ n → take (Z.to_nat n) b = take (Z.to_nat n) b' →
  spec_write (fs_abs s) x b n = spec_write (fs_abs s) x b' n.
Proof.
  intros Hwf Hx Hn Hb. unfold spec_write.
  destruct (lookup_name (fs_abs s) x) as [[i af]|] eqn:El; [|done].
  destruct (check_permissions _ _); [|done].
  destruct (lookup_name_file s f x i af Hwf Hx El) as [H1 H2].
  pose proof (spec_write_size_bounds af n H1 H2 Hn) as H3.
  apply (f_equal (take (Z.to_nat (spec_write_size af n)))) in Hb.
  rewrite !take_take, !Nat.min_l in Hb by lia. cbv zeta. by rewrite Hb.
Qed.

Lemma spec_append_take s f x b b' n :
  fs_wf s → cstr f = Some x → 0 ≤ n → take (Z.to_nat n) b = take (Z.to_nat n) b' →
  spec_append (fs_abs s) x b n = spec_append (fs_abs s) x b' n.
Proof.
  intros Hwf Hx Hn Hb. unfold spec_append.
  destruct (lookup_name (fs_abs s) x) as [[i af]|] eqn:El; [|done].
  destruct (check_permissions _ _); [|done]. case_bool_decide as Hfull; [done|].
  destruct (lookup_name_file s f x i af Hwf Hx El) as [H1 H2].
  pose proof (spec_append_size_bounds af n H1 H2 Hn ltac:(lia)) as [H3 _].
  apply (f_equal (take (Z.to_nat (spec_append_size af n)))) in Hb.
  rewrite !take_take, !Nat.min_l in Hb by lia. cbv zeta. by rewrite Hb.
Qed.

(** [parse_name]: a handler that takes one file name. *)
Lemma name_meets base esp scratch s c x ws usage make k :
  models s c → tokens_at s.(sh_tokens) x ws → bool_decide (0 ∉ chars usage) = true →
  (∀ s' f w, models s' c → cstr (text s' f) = Some w → (length w < 128)%nat →
     meets (k f s') (execute base esp scratch c (make w))) →
  meets ('(filename, s) ← next_token s blanks;
         match filename with
         | None => s ← say s usage; Ok (Continue, s)
         | Some f => k f s
         end)
    (execute base esp scratch c (parse_name usage make x)).
Proof.
  intros Hs Ht Hu Hk. pose proof (next_token_ok s c x ws blanks Hs Ht eq_refl) as Hn.
  unfold parse_name. destruct (next_word blanks x) as [[w r]|].
  - destruct Hn as (s' & q & -> & Hs' & Ht'). rewrite bind_ok.
    pose proof (tokens_text _ _ _ q w Ht' ltac:(by left)) as Hw. apply Hk; [done|done|].
    apply cstr_length in Hw. rewrite length_drop, (md_input _ _ Hs') in Hw. lia.
  - destruct Hn as (s' & -> & Hs' & _). rewrite bind_ok. by apply say_done.
Qed.

(** [parse_data]: a handler that takes two arguments. *)
Lemma data_meets base esp scratch s c x ws usage make d k :
  models s c → tokens_at s.(sh_tokens) x ws → bool_decide (0 ∉ chars usage) = true →
  bool_decide (0 ∉ d) = true →
  (∀ s' f p w v, models s' c → cstr (text s' f) = Some w → cstr (text s' p) = Some v →
     meets (k f p s') (execute base esp scratch c (make w v))) →
  meets ('(filename, s) ← next_token s blanks;
         '(data, s) ← next_token s d;
         match filename, data with
         | Some f, Some p => k f p s
         | _, _ => s ← say s usage; Ok (Continue, s)
         end)
    (execute base esp scratch c (parse_data usage make d x)).
Proof.
  intros Hs Ht Hu Hd Hk. pose proof (next_token_ok s c x ws blanks Hs Ht eq_refl) as Hn.
  unfold parse_data. destruct (next_word blanks x) as [[w r]|].
  - destruct Hn as (s1 & q & -> & Hs1 & Ht1). rewrite bind_ok. simpl after.
    pose proof (next_token_ok s1 c r _ d Hs1 Ht1 Hd) as Hn.
    destruct (next_word d r) as [[v r']|].
    + destruct Hn as (s2 & p & -> & Hs2 & Ht2). rewrite bind_ok.
      apply Hk; [done| |]; eapply tokens_text; [exact Ht2|by right; left|exact Ht2|by left].
    + destruct Hn as (s2 & -> & Hs2 & _). rewrite bind_ok. by apply say_done.
  - destruct Hn as (s1 & -> & Hs1 & Ht1). rewrite bind_ok. simpl.
    pose proof (next_token_ok s1 c [] _ d Hs1 Ht1 Hd) as Hn. simpl in Hn.
    destruct Hn as (s2 & -> & Hs2 & _). rewrite bind_ok. by apply say_done.
Qed.

Section files.
Context (base esp : Z) (scratch : list Z) (Hscratch : length scratch = 128%nat).
Context (s : shell) (c : console) (x : list Z) (ws : list (Z * list Z)).
Context (Hs : models s c) (Ht : tokens_at s.(sh_tokens) x ws).

Lemma make_meets :
  meets (cli_make s) (execute base esp scratch c (parse_name "Usage: file make <filename>" MakeFile x)).
Proof.
  eapply name_meets; [exact Hs|exact Ht|reflexivity|].
  intros s' f w Hs' Hw Hl. cbn [execute]. rewrite <-(md_fs _ _ Hs').
  apply report_meets; [done| |done|done].
  apply create_refines; [apply (md_wf _ _ Hs')|done|]. lia.
Qed.

Lemma remove_meets :
  meets (cli_remove s) (execute base esp scratch c (parse_name "Usage: file rm <filename>" RemoveFile x)).
Proof.
  eapply name_meets; [exact Hs|exact Ht|reflexivity|].
  intros s' f w Hs' Hw Hl. cbn [execute]. rewrite <-(md_fs _ _ Hs').
  apply report_meets; [done| |done|done]. by apply delete_refines; [apply (md_wf _ _ Hs')|].
Qed.

Lemma read_meets :
  meets (cli_read s scratch)
    (execute base esp scratch c (parse_name "Usage: file read <filename>" ReadFile x)).
Proof.
  eapply name_meets; [exact Hs|exact Ht|reflexivity|].
  intros s' f w Hs' Hw Hl. cbn [execute]. rewrite <-(md_fs _ _ Hs').
  rewrite (read_refines _ _ w) by (exact (md_wf _ _ Hs') || done || lia). rewrite bind_ok.
  destruct (spec_read _ w scratch 128) as [r b] eqn:Er.
  destruct (r =? -1); [by apply say_done|]. destruct (aset b r 0) as [b'|e] eqn:Eb; [|done].
  rewrite !bind_ok. assert (∃ y, cstr b' = Some y) as [y Hy].
  { apply aset_inv in Eb as [Hr ->]. apply cstr_has_zero.
    apply (list_elem_of_lookup_2 _ (Z.to_nat r)), list_lookup_insert_eq. lia. }
  assert (name_of b' = y) as -> by (unfold name_of; by rewrite Hy).
  eapply print_meets; [done|by apply cstr_c_string, (bool_decide_eq_true_1 _)|].
  intros s1 Hs1 _. eapply print_meets; [done|done|].
  intros s2 Hs2 _. eapply print_meets; [done|by apply cstr_c_string, (bool_decide_eq_true_1 _)|].
  intros s3 Hs3 _. exists s3. split; [done|]. by rewrite !c_print_app in Hs3.
Qed.

Lemma strlen_meets s' p v :
  cstr (text s' p) = Some v → strlen (text s' p) = Ok (Z.of_nat (length v)) ∧
    take (length v) (text s' p) = v ∧ (length v ≤ length (text s' p))%nat.
Proof.
  intros Hv. split; [by apply strlen_spec|]. apply cstr_inv in Hv as (_ & rest & ->).
  rewrite take_app_length, length_app. split; [done|lia].
Qed.

Lemma write_meets :
  meets (cli_write s) (execute base esp scratch c
    (parse_data "Usage: file write <filename> <data>" WriteFile newline x)).
Proof.
  eapply data_meets; [exact Hs|exact Ht|reflexivity|reflexivity|].
  intros s' f p w v Hs' Hw Hv. destruct (strlen_meets s' p v Hv) as (-> & Htk & Hl).
  rewrite bind_ok. cbn [execute]. rewrite <-(md_fs _ _ Hs'). pose proof (md_wf _ _ Hs') as Hwf.
  apply report_meets; [done| |done|done].
  assert ((length (text s' p) ≤ 128)%nat) by (unfold text; rewrite length_drop, (md_input _ _ Hs'); lia).
  rewrite (spec_write_take _ (text s' f) w v (text s' p)); [|done|done|lia|].
  - apply write_refines; try done; lia.
  - rewrite Nat2Z.id, Htk. by rewrite take_ge.
Qed.

Lemma append_meets :
  meets (cli_append s) (execute base esp scratch c
    (parse_data "Usage: file append <filename> <data>" AppendFile newline x)).
Proof.
  eapply data_meets; [exact Hs|exact Ht|reflexivity|reflexivity|].
  intros s' f p w v Hs' Hw Hv. destruct (strlen_meets s' p v Hv) as (-> & Htk & Hl).
  rewrite bind_ok. cbn [execute]. rewrite <-(md_fs _ _ Hs'). pose proof (md_wf _ _ Hs') as Hwf.
  apply report_meets; [done| |done|done].
  assert ((length (text s' p) ≤ 128)%nat) by (unfold text; rewrite length_drop, (md_input _ _ Hs'); lia).
  rewrite (spec_append_take _ (text s' f) w v (text s' p)); [|done|done|lia|].
  - apply append_refines; try done; lia.
  - rewrite Nat2Z.id, Htk. by rewrite take_ge.
Qed.

Lemma chmod_meets :
  meets (cli_chmod s) (execute base esp scratch c
    (parse_data "Usage: file chmod <filename> <permissions>"
       (λ f p, ChmodFile f (u16 (number p))) blanks x)).
Proof.
  eapply data_meets; [exact Hs|exact Ht|reflexivity|reflexivity|].
  intros s' f p w v Hs' Hw Hv. rewrite (atoi_number _ v Hv), bind_ok. cbn [execute].
  rewrite <-(md_fs _ _ Hs'). apply report_meets; [done| |done|done].
  by apply chmod_refines; [apply (md_wf _ _ Hs')|].
Qed.

Lemma list_meets : meets (cli_list s) (execute base esp scratch c ListFiles).
Proof.
  unfold cli_list. rewrite (list_files_ok _ (md_wf _ _ Hs)), bind_ok. cbn [execute].
  rewrite <-(md_fs _ _ Hs). eapply print_meets; [done|apply cstr_c_string, spec_list_zero_free|].
  intros s' Hs' _. by exists s'.
Qed.
End files.

(** ** Processes *)

Section processes.
Context (base dummy_process_1 dummy_process_2 dummy_process_3 syscall_test process_test esp : Z).
Context (scratch : list Z).

Lemma queue_meets s c m entry_point priority :
  models s c → bool_decide (0 ∉ chars m) = true →
  meets (s ← say s m; s ← queue_process base s entry_point priority; Ok (Continue, s))
    (execute base esp scratch c (QueueProcess m entry_point priority)).
Proof.
  intros Hs Hm. eapply say_meets; [done|done|]. intros s' Hs' _. unfold queue_process.
  rewrite (md_kernel _ _ Hs'). cbn [execute c_say c_print c_kernel].
  destruct (get_new_pid c.(c_kernel)) as [pid k].
  destruct (create_process base k pid entry_point priority 1 2) as [[p k']|e]; [|done].
  rewrite !bind_ok. eexists. split; [done|]. by destruct Hs'; split.
Qed.

Lemma queue_command_meets s c p w priority commands :
  models s c → token_text s.(sh_tokens) p = Some w →
  forallb (λ e, bool_decide (0 ∉ chars e.1)) commands = true →
  meets (s ← queue_command base s p priority commands; Ok (Continue, s))
    (execute base esp scratch c (choose w
       ((λ e, (e.1, QueueProcess "Queueing process..." e.2 priority)) <$> commands)
       (Complain "Error: Unknown process name."))).
Proof.
  intros Hs Hw. induction commands as [|[name func] commands IH]; intros Hz; [by apply say_done|].
  apply andb_true_iff in Hz as [Hz Hzs]. simpl in Hz. cbn [queue_command].
  rewrite (token_is_ok s p w name Hw Hz), bind_ok. rewrite fmap_cons. cbn [choose fst snd].
  destruct (decide (w = chars name)) as [E|E].
  - rewrite bool_decide_eq_true_2 by done.
    pose proof (queue_meets s c "Queueing process..." func priority Hs eq_refl) as H.
    by destruct (say s "Queueing process...").
  - rewrite bool_decide_eq_false_2 by done. by apply IH.
Qed.

(** A token that may be missing, with its word. *)
Definition maybe_token (t : strtok_state) (o : option Z) (w : option (list Z)) : Prop :=
  match o with Some p => token_text t p = w ∧ is_Some w | None => w = None end.

Lemma next_maybe s c x ws :
  models s c → tokens_at s.(sh_tokens) x ws →
  ∃ s' o ws', next_token s blanks = Ok (o, s') ∧ models s' c ∧
    tokens_at s'.(sh_tokens) (after (next_word blanks x)) ws' ∧
    (∀ e, e ∈ ws → e ∈ ws') ∧
    match o with
    | Some p => ∃ w, word (next_word blanks x) = Some w ∧ (p, w) ∈ ws'
    | None => word (next_word blanks x) = None
    end.
Proof.
  intros Hs Ht. pose proof (next_token_ok s c x ws blanks Hs Ht eq_refl) as Hn.
  destruct (next_word blanks x) as [[w r]|].
  - destruct Hn as (s' & q & H1 & H2 & H3). exists s', (Some q), ((q, w) :: ws).
    split; [done|]. split; [done|]. split; [done|]. split; [by right|]. exists w. split; [done|by left].
  - destruct Hn as (s' & H1 & H2 & H3). exists s', None, ws. by split_and!.
Qed.

Lemma maybe_later t x (ws ws' : list (Z * list Z)) (o : option Z) w :
  tokens_at t x ws' → (∀ e, e ∈ ws → e ∈ ws') →
  match o with Some p => ∃ v, w = Some v ∧ (p, v) ∈ ws | None => w = None end →
  maybe_token t o w.
Proof.
  intros Ht Hsub Ho. destruct o as [p|]; [|done]. destruct Ho as (v & -> & Hv).
  split; [|done]. by eapply tokens_text; [|apply Hsub].
Qed.

Lemma process_meets s c x ws :
  models s c → tokens_at s.(sh_tokens) x ws →
  meets (cli_process base dummy_process_1 dummy_process_2 dummy_process_3 syscall_test process_test s esp)
    (execute base esp scratch c (parse_process dummy_process_1 dummy_process_2 dummy_process_3
       syscall_test process_test x)).
Proof.
  intros Hs Ht. unfold cli_process, parse_process.
  pose proof (next_token_ok s c x ws blanks Hs Ht eq_refl) as Hn.
  destruct (next_word blanks x) as [[w2 r]|].
  2:{ destruct Hn as (s' & -> & Hs' & _). rewrite bind_ok. by apply say_done. }
  destruct Hn as (s1 & q2 & -> & Hs1 & Ht1). rewrite bind_ok.
  rewrite (token_is_ok s1 q2 w2 "start" (tokens_text _ _ _ q2 w2 Ht1 ltac:(by left)) eq_refl).
  rewrite bind_ok. destruct (decide (w2 = chars "start")) as [E|E].
  { rewrite bool_decide_eq_true_2 by done. eapply say_meets; [done|done|]. intros s2 Hs2 _.
    rewrite (md_kernel _ _ Hs2). cbn [execute c_say c_print c_kernel].
    destruct (schedule base c.(c_kernel) esp) as [[o k]|e]; [|done]. rewrite !bind_ok.
    eexists. split; [done|]. by destruct Hs2; split. }
  rewrite bool_decide_eq_false_2 by done.
  destruct (next_maybe s1 c r _ Hs1 Ht1) as (s2 & o3 & ws3 & -> & Hs2 & Ht2 & Hsub2 & Ho3). rewrite bind_ok.
  destruct (next_maybe s2 c _ _ Hs2 Ht2) as (s3 & o4 & ws4 & -> & Hs3 & Ht3 & Hsub3 & Ho4). rewrite bind_ok.
  set (t3 := next_word blanks r) in *. set (t4 := next_word blanks (after t3)) in *. cbv zeta.
  assert (token_text s3.(sh_tokens) q2 = Some w2) as Hw2.
  { eapply tokens_text; [exact Ht3|]. apply Hsub3, Hsub2. by left. }
  pose proof (maybe_later _ _ _ _ _ _ Ht3 Hsub3 Ho3) as H3.
  pose proof (maybe_later _ _ _ _ _ _ Ht3 (λ e H, H) Ho4) as H4.
  rewrite (token_is_ok s3 q2 w2 "syscall" Hw2 eq_refl), (token_is_ok s3 q2 w2 "process" Hw2 eq_refl).
  rewrite (maybe_is_ok s3 o3 (word t3) "test" H3 eq_refl), (priority_ok s3 o4 _ H4), (priority_ok s3 o3 _ H3).
  rewrite !bind_ok. destruct (bool_decide (w2 = chars "syscall")) eqn:E1; rewrite bind_ok; cbn [andb];
    [destruct (bool_decide (word t3 = Some (chars "test"))) eqn:E2; [by apply queue_meets|]|].
  - assert (bool_decide (w2 = chars "process") = false) as ->.
    { apply bool_decide_eq_true_1 in E1. subst w2. by vm_compute. }
    cbn [andb]. rewrite !bind_ok.
    apply (queue_command_meets s3 c q2 w2 _ (process_commands dummy_process_1 dummy_process_2 dummy_process_3) Hs3 Hw2 eq_refl).
  - destruct (bool_decide (w2 = chars "process")); cbn [andb];
      [destruct (bool_decide (word t3 = Some (chars "test"))); [by apply queue_meets|]|];
      rewrite ?bind_ok;
      apply (queue_command_meets s3 c q2 w2 _ (process_commands dummy_process_1 dummy_process_2 dummy_process_3) Hs3 Hw2 eq_refl).
Qed.
End processes.

(** ** A line *)

Section lines.
Context (base dummy_process_1 dummy_process_2 dummy_process_3 syscall_test process_test esp : Z).
Context (scratch : list Z) (Hscratch : length scratch = 128%nat).

Lemma file_meets s c x ws :
  models s c → tokens_at s.(sh_tokens) x ws →
  meets (cli_file s scratch) (execute base esp scratch c (parse_file x)).
Proof.
  intros Hs Ht. unfold cli_file, parse_file.
  pose proof (next_token_ok s c x ws blanks Hs Ht eq_refl) as Hn.
  destruct (next_word blanks x) as [[w r]|].
  2:{ destruct Hn as (s' & -> & Hs' & _). rewrite bind_ok. by apply say_done. }
  destruct Hn as (s1 & q & -> & Hs1 & Ht1). rewrite bind_ok.
  apply (dispatch_meets (execute base esp scratch c) s1 q w);
    [by eapply tokens_text; [exact Ht1|left]| |by apply say_done].
  repeat (apply Forall2_cons; split; [split; [reflexivity|split; [reflexivity|]]|]);
    [..|by apply Forall2_nil].
  - by eapply make_meets.
  - by eapply read_meets.
  - by eapply write_meets.
  - by eapply append_meets.
  - by eapply remove_meets.
  - by apply list_meets.
  - by eapply chmod_meets.
Qed.

Notation parse_line := (parse dummy_process_1 dummy_process_2 dummy_process_3 syscall_test process_test).

Lemma line_meets s c x post :
  models s c → s.(sh_tokens).(str_buf) = x ++ 0 :: post → 0 ∉ x →
  meets (cli_line base dummy_process_1 dummy_process_2 dummy_process_3 syscall_test process_test
      s esp scratch) (execute base esp scratch c (parse_line x)).
Proof.
  intros Hs Hb Hx. unfold cli_line, parse, token.
  pose proof (strtok_spec s.(sh_tokens) (Some 0) (c_string blanks) blanks [] x post Hb Hx eq_refl
    ltac:(by left)) as Hn.
  destruct (next_word blanks x) as [[w r]|].
  2:{ destruct Hn as (t & pre & -> & Hb' & _). rewrite !bind_ok. eexists. split; [done|].
      destruct Hs; split; try done. simpl. by rewrite Hb'. }
  destruct Hn as (t & q & pre & -> & Hat & _ & Hl & Hq). rewrite !bind_ok.
  set (s1 := set_tokens t s). assert (models s1 c) as Hs1.
  { destruct Hs; split; try done. simpl. by rewrite Hl. }
  assert (tokens_at s1.(sh_tokens) r [(Z.of_nat q, w)]) as Ht1.
  { exists pre, post. split; [done|]. intros q' w' [= -> ->]%list_elem_of_singleton t' Hk.
    unfold token_text. rewrite Nat2Z.id. by apply Hq. }
  apply (dispatch_meets (execute base esp scratch c) s1 (Z.of_nat q) w);
    [by eapply tokens_text; [exact Ht1|left]| |by apply say_done].
  repeat (apply Forall2_cons; split; [split; [reflexivity|split; [reflexivity|]]|]);
    [..|by apply Forall2_nil].
  - by apply say_done.
  - by eapply process_meets.
  - by eapply file_meets.
  - by apply list_meets.
Qed.

(** The line [read_line] leaves in [input]. *)
Definition entered (line : list Z) : list Z := take 127 line.

Definition no_line (e : editor) : editor := MkEditor e.(ed_text) None e.(ed_shift) e.(ed_caps).
Definition c_no_line (c : console) : console :=
  MkConsole c.(c_fs) c.(c_kernel) (no_line c.(c_editor)) c.(c_term).

Lemma await_meets s c :
  models s c →
  meets (cli_await base dummy_process_1 dummy_process_2 dummy_process_3 syscall_test process_test
      s esp scratch)
    (match c.(c_editor).(ed_line) with
     | None => Ok (Waiting, c)
     | Some line => execute base esp scratch (c_no_line c) (parse_line (entered line))
     end).
Proof.
  intros Hs. unfold cli_await. destruct (ed_line (c_editor c)) as [line|] eqn:El.
  - pose proof (md_input _ _ Hs) as Hin.
    destruct (read_line_ok _ _ s.(sh_tokens).(str_buf) MAX_INPUT_LENGTH line (md_editor _ _ Hs) El)
      as (k & -> & Hk); [lia|]. rewrite bind_ok.
    change (Z.to_nat (128 - 1)) with 127%nat. fold (entered line).
    assert (length (entered line ++ [0%Z]) ≤ 128)%nat as Hl.
    { unfold entered. rewrite length_app, length_take. change (length [0%Z]) with 1%nat. lia. }
    apply (line_meets _ (c_no_line c) _ (drop (length (entered line ++ [0])) s.(sh_tokens).(str_buf))).
    + destruct Hs; split; try done. simpl. by rewrite length_splice by lia.
    + simpl. unfold splice. simpl. by rewrite <-(assoc_L (++)).
    + pose proof (es_line _ _ (md_editor _ _ Hs) line El) as [Hz _]%cstr_inv.
      unfold entered. rewrite <-(take_drop 127 line) in Hz. set_solver.
  - unfold read_line. rewrite (es_ready _ _ (md_editor _ _ Hs)), El.
    by exists s.
Qed.

(** One iteration: the prompt, and then what the line says. *)
Lemma iteration_meets s c :
  models s c →
  meets (cli_iteration base dummy_process_1 dummy_process_2 dummy_process_3 syscall_test process_test
      s esp scratch)
    (let c := c_print (chars "CLI> ") c in
     match c.(c_editor).(ed_line) with
     | None => Ok (Waiting, c)
     | Some line => execute base esp scratch (c_no_line c) (parse_line (entered line))
     end).
Proof.
  intros Hs. unfold cli_iteration.
  eapply print_meets; [done|by apply cstr_c_string, (bool_decide_eq_true_1 _)|].
  intros s' Hs' _. by apply await_meets.
Qed.
End lines.
