(* ===== verification/Boot.v ===== *)
(** * The kernel as a whole ([kernel_main])

    [machine] joins the state of all parts.  [kernel_boot] is [kernel_main] up
    to [cli_loop]; [session] is [cli_loop] with keyboard interrupts while it
    waits for a line.  Debug output on the serial line is left out. *)
From S2P Require Import Prelude CString Strtok Memory ProcQueue Filesystem Process Convert Vga Keyboard Interrupts Cli.

Record machine := MkMachine {
  m_shell : shell;
  m_gdt : list gdt_entry;
  m_gp : Z * Z;
  m_idt : list idt_entry;
  m_idtp : Z * Z;
  m_handlers : handler_table (S := kbd_machine);
  m_ports : list (Z * Z);
  m_if : bool;
}.

Definition with_shell (s : shell) (m : machine) : machine :=
  MkMachine s m.(m_gdt) m.(m_gp) m.(m_idt) m.(m_idtp) m.(m_handlers) m.(m_ports) m.(m_if).

(** The loop of [kernel_main] that prints 30 lines; [temp] is the local array of
    [int_to_str], [num] that of the loop. *)
Definition debug_lines (temp num : list Z) (s : shell) : res shell :=
  for_loop 30 1
    (λ i s,
      s ← print s (c_string (chars "Debug: line "));
      num ← int_to_str temp i num;
      s ← print s num;
      print s (c_string [10])) s.

(** What the linker and the controllers fix. *)
Record platform := MkPlatform {
  gdt_address : Z;
  idt_address : Z;
  isr_stub_address : Z;
  irq_stub_addresses : list Z;
  mask_1 : Z;
  mask_2 : Z;
}.

(** [void kernel_main(uint32_t multiboot_info)] up to [cli_loop()] *)
Definition kernel_boot (p : platform) (temp num : list Z) (m : machine) : res machine :=
  s ← debug_lines temp num m.(m_shell);
  let k := s.(sh_kernel) in
  let s := set_kernel (set_mem (memory_init k.(mem)) k) s in
  f ← create_file_system s.(sh_fs);
  let s := set_fs f s in
  '(gdt, gp) ← gdt_install p.(gdt_address) m.(m_gdt);
  s ← say s "DEBUG: GDT installed.";
  let ports := m.(m_ports) ++ pic_remap p.(mask_1) p.(mask_2) in
  '(idt, idtp) ← idt_install p.(isr_stub_address) p.(idt_address) m.(m_idt);
  idt ← irq_install idt 32 p.(irq_stub_addresses);
  s ← say s "DEBUG: IDT and IRQ handlers installed.";
  '(handlers, screen) ← init_keyboard m.(m_handlers) s.(sh_screen);
  s ← say (set_screen screen s) "DEBUG: Keyboard initialized. Press keys!";
  let s := set_kernel (init_process_management s.(sh_kernel)) s in
  Ok (MkMachine s gdt gp idt idtp handlers ports true).

(** A key event: an interrupt on line 1 with a byte at the data port. *)
Definition key_interrupt (m : machine) (data : Z) : res machine :=
  let s := m.(m_shell) in
  '(k, screen, _, out) ← common_irq_handler m.(m_handlers) 1 (s.(sh_keyboard), s.(sh_screen), data);
  Ok (MkMachine (MkShell s.(sh_fs) s.(sh_kernel) k screen s.(sh_tokens))
        m.(m_gdt) m.(m_gp) m.(m_idt) m.(m_idtp) m.(m_handlers) (m.(m_ports) ++ out) m.(m_if)).

Fixpoint key_interrupts (m : machine) (codes : list Z) : res machine :=
  match codes with
  | [] => Ok m
  | c :: codes => m ← key_interrupt m c; key_interrupts m codes
  end.

(** What happens while the loop waits for a line: bytes from the keyboard; the
    stack pointer and the contents of [buffer] that the command finds. *)
Record turn := MkTurn { t_codes : list Z; t_esp : Z; t_scratch : list Z }.

Section session.
Context (base : Z).
Context (dummy_process_1 dummy_process_2 dummy_process_3 syscall_test process_test : Z).

(** [cli_loop], and the rest of [kernel_main] once it is left.  While no line
    has been entered the loop stays in [read_line] ([prompted]). *)
Fixpoint session (prompted : bool) (m : machine) (turns : list turn)
    : res (list cli_result * machine) :=
  match turns with
  | [] => Ok ([], m)
  | t :: turns =>
      s ← (if prompted then Ok m.(m_shell) else print m.(m_shell) (c_string (chars "CLI> ")));
      m ← key_interrupts (with_shell s m) t.(t_codes);
      '(r, s) ← cli_await base dummy_process_1 dummy_process_2 dummy_process_3 syscall_test
                  process_test m.(m_shell) t.(t_esp) t.(t_scratch);
      let m := with_shell s m in
      match r with
      | Continue => '(rs, m) ← session false m turns; Ok (r :: rs, m)
      | Waiting => '(rs, m) ← session true m turns; Ok (r :: rs, m)
      | Exit =>
          s ← say s "Kernel execution terminated.";
          Ok ([r], MkMachine s m.(m_gdt) m.(m_gp) m.(m_idt) m.(m_idtp) m.(m_handlers)
                     m.(m_ports) false)
      | Scheduled _ => Ok ([r], m)
      end
  end.
End session.
