(* ===== verification/System.v ===== *)
(** * The kernel does what it promises

    Boot reaches a state in which every component is well formed, and from
    there the keyboard, the screen, the command line, the file system and the
    scheduler together behave as the abstract console. *)
From S2P Require Import Prelude CString Strtok Memory ProcQueue Filesystem FsWf FsSpec FsRefine FsProps FsTheorems Process Convert Vga Keyboard Interrupts Cli CliSpec CliRefine Boot.

Definition c_keys (codes : list Z) (c : console) : console :=
  let '(e, echo) := edit_run c.(c_editor) codes in
  MkConsole c.(c_fs) c.(c_kernel) e (t_print c.(c_term) echo).

Section system.
Context (base : Z).
Context (dummy_process_1 dummy_process_2 dummy_process_3 syscall_test process_test : Z).

Notation parse_line := (parse dummy_process_1 dummy_process_2 dummy_process_3 syscall_test process_test).
Notation session := (session base dummy_process_1 dummy_process_2 dummy_process_3 syscall_test process_test).

Fixpoint spec_session (prompted : bool) (c : console) (turns : list turn)
    : res (list cli_result * console) :=
  match turns with
  | [] => Ok ([], c)
  | t :: turns =>
      let c := c_keys t.(t_codes) (if prompted then c else c_print (chars "CLI> ") c) in
      match c.(c_editor).(ed_line) with
      | None => '(rs, c) ← spec_session true c turns; Ok (Waiting :: rs, c)
      | Some line =>
          '(r, c) ← execute base t.(t_esp) t.(t_scratch) (c_no_line c) (parse_line (entered line));
          match r with
          | Continue => '(rs, c) ← spec_session false c turns; Ok (r :: rs, c)
          | Waiting => '(rs, c) ← spec_session true c turns; Ok (r :: rs, c)
          | Exit => Ok ([r], c_say "Kernel execution terminated." c)
          | Scheduled _ => Ok ([r], c)
          end
      end
  end.

Definition turn_ok (t : turn) : Prop :=
  Forall (λ c, 0 ≤ c < 256) t.(t_codes) ∧ length t.(t_scratch) = 128%nat.

(** The machine stands for the console, and line 1 is the keyboard's. *)
Record stands (m : machine) (c : console) : Prop := {
  st_shell : models m.(m_shell) c;
  st_handler : m.(m_handlers) !! 33%nat = Some (Some keyboard_interrupt);
}.

Lemma key_interrupts_ok m c codes :
  stands m c → Forall (λ c, 0 ≤ c < 256) codes →
  ∃ m', key_interrupts m codes = Ok m' ∧ stands m' (c_keys codes c).
Proof.
  intros Hm Hc. revert m c Hm. induction Hc as [|d codes Hd _ IH]; intros m c [Hs Hh].
  { exists m. split; [done|]. by destruct Hs; split. }
  cbn [key_interrupts]. unfold key_interrupt. rewrite keyboard_line by done.
  destruct (handler_ok _ _ _ _ d (md_editor _ _ Hs) (md_screen _ _ Hs) Hd) as (k & v & -> & He & Hv).
  rewrite !bind_ok. unfold c_keys. cbn [edit_run].
  destruct (edit (c_editor c) (decode (c_editor c) d)) as [e1 echo1] eqn:E1. cbn [fst snd] in *.
  match goal with |- context [key_interrupts ?m1 codes] =>
    destruct (IH m1 (MkConsole c.(c_fs) c.(c_kernel) e1 (t_print c.(c_term) echo1)))
      as (m' & -> & Hm') end.
  { split; [|done]. by destruct Hs; split. }
  exists m'. split; [done|]. unfold c_keys in Hm'. cbn [c_editor c_fs c_kernel c_term] in Hm'.
  destruct (edit_run e1 codes) as [e2 echo2]. unfold t_print in *. by rewrite foldl_app.
Qed.

Lemma session_ok turns prompted m c :
  stands m c → Forall turn_ok turns →
  match spec_session prompted c turns with
  | Ok (rs, c') => ∃ m', session prompted m turns = Ok (rs, m') ∧ models m'.(m_shell) c'
  | Err e => session prompted m turns = Err e
  end.
Proof.
  intros Hm Ht. revert prompted m c Hm. induction Ht as [|t turns [Hcodes Hscr] _ IH]; intros prompted m c Hm.
  { exists m. split; [done|]. apply (st_shell _ _ Hm). }
  cbn [spec_session Boot.session].
  set (c1 := if prompted then c else c_print (chars "CLI> ") c).
  assert (∃ s1, (if prompted then Ok m.(m_shell) else print m.(m_shell) (c_string (chars "CLI> "))) =
    Ok s1 ∧ models s1 c1) as (s1 & -> & Hs1).
  { subst c1. destruct prompted; [eexists; split; [done|apply (st_shell _ _ Hm)]|].
    pose proof (print_meets m.(m_shell) c (c_string (chars "CLI> ")) (chars "CLI> ")
      (λ s, Ok (Continue, s)) (Ok (Continue, c_print (chars "CLI> ") c)) (st_shell _ _ Hm)
      ltac:(by apply cstr_c_string, (bool_decide_eq_true_1 _)) ltac:(intros s' Hs' _; by exists s'))
      as (s' & E & Hs'). apply bind_ok_inv in E as (s2 & E & [= <-]). by exists s2. }
  rewrite bind_ok. clearbody c1.
  destruct (key_interrupts_ok (with_shell s1 m) c1 t.(t_codes)) as (m2 & -> & Hm2);
    [by split; [|apply (st_handler _ _ Hm)]|done|]. rewrite bind_ok.
  set (c2 := c_keys (t_codes t) c1) in *. cbv zeta.
  pose proof (await_meets base dummy_process_1 dummy_process_2 dummy_process_3 syscall_test process_test
    t.(t_esp) t.(t_scratch) Hscr m2.(m_shell) c2 (st_shell _ _ Hm2)) as Ha.
  destruct (ed_line (c_editor c2)) as [line|].
  - destruct (execute _ _ _ _ _) as [[r c3]|e]; cbn [meets] in Ha; [|by rewrite Ha].
    destruct Ha as (s3 & -> & Hs3). rewrite !bind_ok.
    assert (stands (with_shell s3 m2) c3) as Hm3 by (split; [done|apply (st_handler _ _ Hm2)]).
    destruct r.
    + specialize (IH false _ _ Hm3). destruct (spec_session false c3 turns) as [[rs c4]|e].
      * destruct IH as (m4 & -> & H4). rewrite !bind_ok. by exists m4.
      * by rewrite IH.
    + destruct (say_done s3 c3 "Kernel execution terminated." Exit Hs3 eq_refl) as (s4 & E & Hs4).
      apply bind_ok_inv in E as (s5 & -> & [= <-]). rewrite bind_ok. by eexists.
    + specialize (IH true _ _ Hm3). destruct (spec_session true c3 turns) as [[rs c4]|e].
      * destruct IH as (m4 & -> & H4). rewrite !bind_ok. by exists m4.
      * by rewrite IH.
    + by eexists.
  - cbn [meets] in Ha. destruct Ha as (s3 & -> & Hs3). rewrite !bind_ok.
    assert (stands (with_shell s3 m2) c2) as Hm3 by (split; [done|apply (st_handler _ _ Hm2)]).
    specialize (IH true _ _ Hm3). destruct (spec_session true c2 turns) as [[rs c4]|e].
    + destruct IH as (m4 & -> & H4). rewrite !bind_ok. by exists m4.
    + by rewrite IH.
Qed.
End system.

(** ** Boot *)

(** The numbers of the boot messages fit into [num]. *)
Lemma boot_number temp num i :
  length temp = 10%nat → length num = 10%nat → 1 ≤ i < 31 →
  ∃ num', int_to_str temp i num = Ok num' ∧ cstr num' = Some (decimal i).
Proof.
  intros Ht Hn Hi.
  assert (Forall (λ i, ∃ num', int_to_str temp i num = Ok num' ∧ cstr num' = Some (decimal i))
    (seqZ 1 30)) as H.
  { do 11 (destruct temp as [|? temp]; try done). do 11 (destruct num as [|? num]; try done).
    change (seqZ 1 30) with (Z.of_nat <$> seq 1 30). simpl.
    repeat (apply Forall_cons; split; [eexists; split; vm_compute; reflexivity|]). apply Forall_nil, I. }
  rewrite Forall_forall in H. apply H, elem_of_seqZ. lia.
Qed.

Definition debug_line (i : Z) : list Z := chars "Debug: line " ++ decimal i ++ [10].

(** What [kernel_main] prints before the command line. *)
Definition boot_text : list Z :=
  (seqZ 1 30 ≫= debug_line) ++
  chars "DEBUG: GDT installed." ++ [10] ++
  chars "DEBUG: IDT and IRQ handlers installed." ++ [10] ++
  keyboard_message ++ [10] ++
  chars "DEBUG: Keyboard initialized. Press keys!" ++ [10].

Lemma print_shows s t m x :
  shows s.(sh_screen) t → cstr m = Some x →
  ∃ v, print s m = Ok (set_screen v s) ∧ shows v (t_print t x).
Proof.
  intros Hs (Hx & rest & ->)%cstr_inv. unfold print.
  destruct (print_cstr _ _ x rest Hs Hx) as (v & -> & Hv). by exists v.
Qed.

Lemma say_shows s t m :
  shows s.(sh_screen) t → bool_decide (0 ∉ chars m) = true →
  ∃ v, say s m = Ok (set_screen v s) ∧ shows v (t_print t (chars m ++ [10])).
Proof.
  intros Hs Hm%bool_decide_eq_true_1. apply print_shows; [done|]. apply cstr_c_string.
  intros [?|H%list_elem_of_singleton]%elem_of_app; done.
Qed.

Lemma t_print_app t x y : t_print (t_print t x) y = t_print t (x ++ y).
Proof. unfold t_print. by rewrite foldl_app. Qed.

Lemma debug_lines_ok temp num s t :
  length temp = 10%nat → length num = 10%nat → shows s.(sh_screen) t →
  ∃ v, debug_lines temp num s = Ok (set_screen v s) ∧
    shows v (t_print t (seqZ 1 30 ≫= debug_line)).
Proof.
  intros Ht Hn Hs. unfold debug_lines. match goal with |- context [for_loop 30 1 ?b s] =>
    destruct (for_loop_inv (λ i s', ∃ v, s' = set_screen v s ∧
      shows v (t_print t (seqZ 1 (i - 1) ≫= debug_line))) 30 1 b s) as (s' & -> & v & -> & Hv) end.
  - exists s.(sh_screen). split; [by destruct s|done].
  - intros i s1 Hi (v & -> & Hv).
    destruct (print_shows (set_screen v s) _ (c_string (chars "Debug: line ")) (chars "Debug: line ") Hv)
      as (v1 & -> & H1); [by apply cstr_c_string, (bool_decide_eq_true_1 _)|]. rewrite bind_ok.
    destruct (boot_number temp num i Ht Hn ltac:(lia)) as (num' & -> & Hnum). rewrite bind_ok.
    destruct (print_shows (set_screen v1 (set_screen v s)) _ _ _ H1 Hnum) as (v2 & -> & H2). rewrite bind_ok.
    destruct (print_shows (set_screen v2 (set_screen v1 (set_screen v s))) _ (c_string [10]) [10] H2)
      as (v3 & -> & H3); [done|]. eexists. split; [done|]. exists v3. split; [done|].
    rewrite !t_print_app in H3. replace (i + 1 - 1) with (i - 1 + 1) by lia.
    rewrite seqZ_app by lia. replace (1 + (i - 1)) with i by lia. rewrite bind_app.
    assert (seqZ i 1 ≫= debug_line = debug_line i) as ->.
    { rewrite seqZ_cons by lia. simpl. by rewrite app_nil_r. }
    exact H3.
  - exists v. split; [done|]. exact Hv.
Qed.

(** What [kernel_main] starts from: memory as the linker lays it out, with
    whatever the objects hold, and an empty keyboard buffer. *)
Record loaded (m : machine) (e : editor) (t : term) : Prop := {
  ld_fs : fs_shape m.(m_shell).(sh_fs);
  ld_keyboard : edits m.(m_shell).(sh_keyboard) e;
  ld_screen : shows m.(m_shell).(sh_screen) t;
  ld_input : length m.(m_shell).(sh_tokens).(str_buf) = 128%nat;
  ld_gdt : length m.(m_gdt) = 3%nat;
  ld_idt : length m.(m_idt) = 256%nat;
  ld_handlers : length m.(m_handlers) = 256%nat;
}.

Definition platform_ok (p : platform) : Prop :=
  0 ≤ p.(idt_address) < 2 ^ 32 ∧ 0 ≤ p.(isr_stub_address) < 2 ^ 32 ∧
  length p.(irq_stub_addresses) = 16%nat ∧ Forall (λ a, 0 ≤ a < 2 ^ 32) p.(irq_stub_addresses).

(** The console after boot. *)
Definition boot_console (m : machine) (e : editor) (t : term) : console :=
  let k := m.(m_shell).(sh_kernel) in
  MkConsole (replicate (Z.to_nat MAX_FILES) None)
    (init_process_management (set_mem (memory_init k.(mem)) k)) e (t_print t boot_text).

Lemma boot_ok p temp num m e t :
  loaded m e t → platform_ok p → length temp = 10%nat → length num = 10%nat →
  ∃ m', kernel_boot p temp num m = Ok m' ∧ stands m' (boot_console m e t).
Proof.
  intros [] (Hia & Hisr & Hst & Hsts) Ht Hn. unfold kernel_boot.
  destruct (debug_lines_ok temp num _ _ Ht Hn ld_screen0) as (v & -> & Hv). rewrite bind_ok. cbv zeta.
  destruct (format_disk_wf _ ld_fs0) as (f & Hf & Hwf & Hfa).
  cbn [sh_fs set_screen set_kernel sh_kernel]. unfold create_file_system. rewrite Hf, bind_ok.
  destruct (gdt_install_ok _ p.(gdt_address) ld_gdt0) as (gdt & gp & -> & _). rewrite bind_ok.
  match goal with |- context [say ?s1 "DEBUG: GDT installed."] =>
    destruct (say_shows s1 _ "DEBUG: GDT installed." Hv eq_refl) as (v1 & -> & H1) end. rewrite bind_ok.
  destruct (idt_install_ok _ _ _ ld_idt0 Hisr Hia) as (idt & -> & Hl & _ & _). rewrite bind_ok.
  destruct (irq_install_ok p.(irq_stub_addresses) idt 32 Hl ltac:(lia) ltac:(lia) Hsts)
    as (idt2 & -> & _). rewrite bind_ok.
  match goal with |- context [say ?s1 "DEBUG: IDT and IRQ handlers installed."] =>
    destruct (say_shows s1 _ "DEBUG: IDT and IRQ handlers installed." H1 eq_refl) as (v2 & -> & H2) end.
  rewrite bind_ok.
  destruct (init_keyboard_ok _ v2 _ ld_handlers0 H2) as (v3 & E3 & H3).
  cbn [sh_screen set_screen]. rewrite E3, bind_ok.
  match goal with |- context [say ?s1 "DEBUG: Keyboard initialized. Press keys!"] =>
    destruct (say_shows s1 _ "DEBUG: Keyboard initialized. Press keys!" H3 eq_refl) as (v4 & -> & H4) end.
  rewrite bind_ok. eexists. split; [done|]. split; [|cbn [m_handlers]; apply list_lookup_insert_eq; lia].
  split; cbn [m_shell sh_fs sh_kernel sh_keyboard sh_screen sh_tokens set_screen set_kernel set_fs boot_console c_fs c_kernel c_editor c_term]; [done..| |done].
  rewrite !t_print_app, <-!(assoc_L (++)) in H4. exact H4.
Qed.
