(* ===== verification/SystemProps.v ===== *)
(** * Properties of the whole kernel

    From boot to the command line: refinement of the abstract console, files
    that are written and read by typing, and what a long file does to the
    local buffer of the command line. *)
From S2P Require Import Prelude CString Strtok Memory ProcQueue Filesystem FsWf FsSpec FsRefine FsProps FsTheorems Process Convert Vga Keyboard Interrupts Cli CliSpec CliRefine Boot System.

(** ** Lines and their words *)

Lemma beyond_clean d w x :
  (∀ c, c ∈ w → c ∉ d) → w ≠ [] → beyond true d (w ++ x) = w ++ x.
Proof.
  intros Hw Hne. destruct w as [|c w]; [done|]. simpl.
  by rewrite bool_decide_eq_false_2 by (apply Hw; by left).
Qed.

Lemma word_clean d w x :
  (∀ c, c ∈ w → c ∉ d) → (x = [] ∨ ∃ c t, x = c :: t ∧ c ∈ d) →
  prefix false d (w ++ x) = w ∧ beyond false d (w ++ x) = x.
Proof.
  intros Hw Hx. induction w as [|c w IH]; simpl.
  - destruct Hx as [->|(c & t & -> & Hc)]; [done|]. simpl. by rewrite bool_decide_eq_true_2.
  - rewrite bool_decide_eq_false_2 by (apply Hw; by left). simpl.
    destruct IH as [-> ->]; [|done]. intros y Hy. apply Hw. by right.
Qed.

(** A word that a delimiter or the end of the line follows. *)
Lemma next_word_app d w x :
  (∀ c, c ∈ w → c ∉ d) → w ≠ [] → (x = [] ∨ ∃ c t, x = c :: t ∧ c ∈ d) →
  next_word d (w ++ x) = Some (w, tail x).
Proof.
  intros Hw Hne Hx. unfold next_word. rewrite beyond_clean by done.
  destruct (w ++ x) as [|c t] eqn:E; [by destruct w|]. rewrite <-E.
  by destruct (word_clean d w x Hw Hx) as [-> ->].
Qed.

Lemma next_word_last d w : (∀ c, c ∈ w → c ∉ d) → w ≠ [] → next_word d w = Some (w, []).
Proof.
  intros Hw Hne. pose proof (next_word_app d w [] Hw Hne ltac:(by left)) as H.
  by rewrite app_nil_r in H.
Qed.

(** A name that can be typed as a word. *)
Definition name_ok (f : list Z) : Prop := f ≠ [] ∧ ∀ c, c ∈ f → c ∉ blanks.

Lemma next_literal (m : string) x :
  bool_decide (chars m ≠ [] ∧ Forall (λ c, c ∉ blanks) (chars m)) = true →
  next_word blanks (chars m ++ 32 :: x) = Some (chars m, x).
Proof.
  intros [Hne Hc]%bool_decide_eq_true_1. rewrite Forall_forall in Hc.
  apply (next_word_app blanks (chars m) (32 :: x)); [done|done|right].
  exists 32, x. split; [done|by left].
Qed.

Section parse_lines.
Context (d1 d2 d3 t1 t2 : Z).
Notation parse := (parse d1 d2 d3 t1 t2).

(** What is typed for the commands. *)
Definition make_line (f : list Z) : list Z := chars "file" ++ 32 :: chars "make" ++ 32 :: f.
Definition read_line_of (f : list Z) : list Z := chars "file" ++ 32 :: chars "read" ++ 32 :: f.
Definition write_line (f data : list Z) : list Z :=
  chars "file" ++ 32 :: chars "write" ++ 32 :: f ++ 32 :: data.

Lemma parse_file_line x : parse (chars "file" ++ 32 :: x) = parse_file x.
Proof. unfold CliSpec.parse. by rewrite next_literal. Qed.

Lemma parse_make f : name_ok f → parse (make_line f) = MakeFile f.
Proof.
  intros [Hne Hf]. unfold make_line. rewrite parse_file_line. unfold parse_file.
  rewrite next_literal by done. cbn [choose]. rewrite decide_True by done.
  unfold parse_name. by rewrite next_word_last.
Qed.

Lemma parse_read f : name_ok f → parse (read_line_of f) = ReadFile f.
Proof.
  intros [Hne Hf]. unfold read_line_of. rewrite parse_file_line. unfold parse_file.
  rewrite next_literal by done. cbn [choose].
  rewrite decide_False, decide_True by done. unfold parse_name. by rewrite next_word_last.
Qed.

Lemma parse_write f data :
  name_ok f → data ≠ [] → 10 ∉ data → parse (write_line f data) = WriteFile f data.
Proof.
  intros [Hne Hf] Hd Hn. unfold write_line. rewrite parse_file_line. unfold parse_file.
  rewrite next_literal by done. cbn [choose].
  rewrite decide_False, decide_False, decide_True by done. unfold parse_data.
  rewrite (next_word_app blanks f (32 :: data)); [|done|done|right; exists 32, data; split; [done|by left]].
  cbn [word fmap option_fmap option_map fst after from_option snd tail].
  rewrite next_word_last; [done| |done]. intros c Hc ->%list_elem_of_singleton. done.
Qed.
End parse_lines.

(** ** Typing commands *)

Definition ready : editor := MkEditor [] None false false.

(** A line that is typed, and Enter. *)
Definition typed (line : list Z) (esp : Z) (scratch : list Z) : turn :=
  MkTurn ((scancode_of <$> line) ++ [28]) esp scratch.

Lemma typed_ok line esp scratch :
  Forall typeable line → length scratch = 128%nat → turn_ok (typed line esp scratch).
Proof.
  intros Hl Hs. split; [|done]. apply Forall_app. split; [|by repeat constructor].
  apply Forall_fmap. eapply Forall_impl; [exact Hl|]. intros c Hc. apply (typeable_decode [] None c Hc).
Qed.

(** The effect of commands is a matter of the file system and the terminal. *)
Lemma spec_write_small a f i data :
  lookup_name a f = Some (i, AFile f 7 1 []) → data ≠ [] → (length data ≤ 4096)%nat →
  spec_write a f data (Z.of_nat (length data)) =
    (Z.of_nat (length data), <[i := Some (AFile f 7 1 data)]> a).
Proof.
  intros Hl Hne Hd. unfold spec_write. rewrite Hl. cbn [af_perm af_name af_blocks].
  change (check_permissions 7 1) with true. cbv iota zeta.
  assert (0 < length data)%nat by (destruct data; [done|simpl; lia]).
  assert (spec_write_need (AFile f 7 1 []) (Z.of_nat (length data)) = 0) as Hn.
  { unfold spec_write_need, blocks_of. simpl length. Z.to_euclidean_division_equations. lia. }
  unfold spec_write_size. cbv zeta. rewrite !Hn. cbn [af_blocks]. change (granted 1 0) with 0.
  rewrite bool_decide_eq_false_2 by lia. rewrite Z.min_l by lia.
  rewrite Nat2Z.id, take_ge by lia. done.
Qed.

Lemma spec_read_small a f i data scratch :
  lookup_name a f = Some (i, AFile f 7 1 data) → (length data < 128)%nat →
  length scratch = 128%nat → 0 ∉ data →
  ∃ b b', spec_read a f scratch 128 = (Z.of_nat (length data), b) ∧
    aset b (Z.of_nat (length data)) 0 = Ok b' ∧ name_of b' = data.
Proof.
  intros Hl Hd Hs H0. unfold spec_read. rewrite Hl. cbn [af_perm af_data].
  change (check_permissions 7 0) with true. cbv iota zeta.
  change (Z.to_nat 128) with 128%nat. rewrite take_ge by lia.
  eexists _, _. split; [done|]. rewrite aset_ok by (rewrite length_splice; lia). split; [done|].
  rewrite Nat2Z.id, splice_snoc_0 by lia. unfold name_of. by rewrite cstr_splice.
Qed.

Section typing_commands.
Context (base d1 d2 d3 t1 t2 : Z).
Notation spec_session := (spec_session base d1 d2 d3 t1 t2).
Notation session := (session base d1 d2 d3 t1 t2).
Notation parse := (parse d1 d2 d3 t1 t2).

Lemma typed_turn c line esp scratch turns :
  c.(c_editor) = ready → Forall typeable line → (length line ≤ 127)%nat →
  spec_session false c (typed line esp scratch :: turns) =
    ('(r, c) ← execute base esp scratch (c_print (chars "CLI> " ++ line ++ [10]) c) (parse line);
     match r with
     | Continue => '(rs, c) ← spec_session false c turns; Ok (r :: rs, c)
     | Waiting => '(rs, c) ← spec_session true c turns; Ok (r :: rs, c)
     | Exit => Ok ([r], c_say "Kernel execution terminated." c)
     | Scheduled _ => Ok ([r], c)
     end).
Proof.
  intros He Hl Hn. cbn [System.spec_session]. unfold c_keys.
  cbn [c_print c_editor t_codes typed t_esp t_scratch c_fs c_kernel c_term]. rewrite He. unfold ready.
  rewrite (typing_echo [] None line Hl) by (simpl; lia). cbn [app ed_line c_editor].
  unfold entered, c_no_line, no_line. rewrite take_ge by lia.
  cbn [c_fs c_kernel c_term c_editor ed_text ed_shift ed_caps].
  unfold c_print. rewrite t_print_app, He. done.
Qed.

(** The lines of the round trip, and what the screen shows. *)
Definition file_transcript (f data : list Z) : list Z :=
  chars "CLI> " ++ make_line f ++ [10] ++ chars "File created successfully." ++ [10] ++
  chars "CLI> " ++ write_line f data ++ [10] ++ chars "Data written to file successfully." ++ [10] ++
  chars "CLI> " ++ read_line_of f ++ [10] ++ chars "File content: " ++ data ++ [10].

Lemma file_lines_typeable f data :
  Forall typeable f → Forall typeable data →
  Forall typeable (make_line f) ∧ Forall typeable (write_line f data) ∧ Forall typeable (read_line_of f).
Proof.
  intros Tf Td.
  assert (∀ x : string, bool_decide (Forall typeable (chars x)) = true → Forall typeable (chars x))
    as Hlit by (intros x H; by apply bool_decide_eq_true_1 in H).
  assert (typeable 32) as T32 by (apply (bool_decide_eq_true_1 _); by vm_compute).
  assert (∀ w x, Forall typeable w → Forall typeable x → Forall typeable (w ++ 32 :: x)) as Tapp.
  { intros w x Hw Hx. apply Forall_app. split; [done|]. by constructor. }
  unfold make_line, read_line_of, write_line. split_and!; repeat apply Tapp; try done; by apply Hlit.
Qed.

Lemma file_session_spec c f data e1 e2 e3 b1 b2 b3 :
  c.(c_editor) = ready → name_ok f → Forall typeable f → Forall typeable data → data ≠ [] →
  (length f + length data ≤ 114)%nat → lookup_name c.(c_fs) f = None → None ∈ c.(c_fs) →
  length b3 = 128%nat →
  ∃ c', spec_session false c
      [typed (make_line f) e1 b1; typed (write_line f data) e2 b2; typed (read_line_of f) e3 b3] =
    Ok ([Continue; Continue; Continue], c') ∧
    c'.(c_term) = t_print c.(c_term) (file_transcript f data).
Proof.
  intros He Hf Tf Td Hd Hlen Hnone Hfree Hb3.
  assert (10 ∉ data ∧ 0 ∉ data) as [H10 H0].
  { rewrite Forall_forall in Td. split; intros [_ H]%Td; apply H; [by right; right; left|by left]. }
  destruct (file_lines_typeable f data Tf Td) as (T1 & T2 & T3).
  assert (length (make_line f) = 10 + length f ∧ length (read_line_of f) = 10 + length f ∧
    length (write_line f data) = 12 + length f + length data)%nat as (L1 & L3 & L2).
  { unfold make_line, read_line_of, write_line. rewrite !length_app. simpl.
    rewrite ?length_app. simpl. lia. }
  destruct (list_find (λ o : option afile, o = None) c.(c_fs)) as [[i o]|] eqn:Efree.
  2:{ apply list_find_None in Efree. rewrite Forall_forall in Efree. by apply Efree in Hfree. }
  pose proof Efree as (Hi & -> & _)%list_find_Some.
  set (a1 := <[i := Some (AFile f 7 1 [])]> c.(c_fs)).
  assert (lookup_name a1 f = Some (i, AFile f 7 1 [])) as Ha1 by by apply lookup_name_new.
  set (a2 := <[i := Some (AFile f 7 1 data)]> a1).
  assert (lookup_name a2 f = Some (i, AFile f 7 1 data)) as Ha2 by (by eapply lookup_name_insert_eq).
  rewrite typed_turn by (done || lia). rewrite parse_make by done. cbn [execute].
  unfold spec_create, c_report. cbn [c_print c_fs]. rewrite Efree. fold a1. rewrite bind_ok. cbn [fst snd].
  rewrite (proj2 (Z.eqb_neq (Z.of_nat i) (-1))) by lia.
  rewrite typed_turn by (done || lia). rewrite parse_write by done. cbn [execute].
  unfold c_report. cbn [c_print c_say c_set_fs c_fs].
  rewrite (spec_write_small a1 f i data Ha1 Hd) by lia. rewrite bind_ok. cbn [fst snd].
  rewrite (proj2 (Z.eqb_neq (Z.of_nat (length data)) (-1))) by lia. fold a2.
  rewrite typed_turn by (done || lia). rewrite parse_read by done. cbn [execute].
  cbn [c_print c_say c_set_fs c_fs].
  destruct (spec_read_small a2 f i data b3 Ha2 ltac:(lia) Hb3 H0) as (b & b' & -> & Hset & Hname).
  rewrite (proj2 (Z.eqb_neq (Z.of_nat (length data)) (-1))) by lia. rewrite Hset, !bind_ok, Hname.
  cbn [System.spec_session]. rewrite !bind_ok. eexists. split; [done|].
  cbn [c_term c_print c_say c_set_fs]. rewrite !t_print_app. unfold file_transcript.
  by rewrite <-!(assoc_L (++)).
Qed.
End typing_commands.

(** ** The properties *)

Section theorems.
Context (base d1 d2 d3 t1 t2 : Z).

(** C1: the kernel refines the abstract console.  [kernel_main] boots without
    error from any contents of its objects.  From then on, whatever bytes the
    keyboard sends and whatever lines are entered, the command line runs as
    specified: the file system, the processes that are queued, the line editor
    and every character on the screen are those of the specification, each
    iteration ends the way it says, and the code stops in an error exactly when
    the specification does. *)
Theorem kernel_session_refines p temp num m e t turns :
  loaded m e t → platform_ok p → length temp = 10%nat → length num = 10%nat →
  Forall turn_ok turns →
  ∃ m0, kernel_boot p temp num m = Ok m0 ∧
    match spec_session base d1 d2 d3 t1 t2 false (boot_console m e t) turns with
    | Ok (rs, c) => ∃ m', session base d1 d2 d3 t1 t2 false m0 turns = Ok (rs, m') ∧
                      models m'.(m_shell) c
    | Err e => session base d1 d2 d3 t1 t2 false m0 turns = Err e
    end.
Proof.
  intros Hm Hp Ht Hn Hturns. destruct (boot_ok p temp num m e t Hm Hp Ht Hn) as (m0 & Hb & Hs).
  exists m0. split; [done|]. by apply session_ok.
Qed.

(** C2: a file survives from the keyboard to the screen.  Typing [file make f],
    [file write f data] and [file read f], with a new name and a free slot, makes
    three iterations that end normally, and the screen shows the prompts, the
    echo, the two messages and at the end [File content: ] followed by exactly
    the data. *)
Theorem typed_file_roundtrip m c f data e1 e2 e3 b1 b2 b3 :
  stands m c → c.(c_editor) = ready → name_ok f → Forall typeable f → Forall typeable data →
  data ≠ [] → (length f + length data ≤ 114)%nat →
  lookup_name c.(c_fs) f = None → None ∈ c.(c_fs) →
  length b1 = 128%nat → length b2 = 128%nat → length b3 = 128%nat →
  ∃ m', session base d1 d2 d3 t1 t2 false m
      [typed (make_line f) e1 b1; typed (write_line f data) e2 b2; typed (read_line_of f) e3 b3] =
    Ok ([Continue; Continue; Continue], m') ∧
    shows m'.(m_shell).(sh_screen) (t_print c.(c_term) (file_transcript f data)).
Proof.
  intros Hm He Hf Tf Td Hd Hlen Hnone Hfree H1 H2 H3.
  destruct (file_session_spec base d1 d2 d3 t1 t2 c f data e1 e2 e3 b1 b2 b3)
    as (c' & Hspec & Hterm); try done.
  destruct (file_lines_typeable f data Tf Td) as (T1 & T2 & T3).
  pose proof (session_ok base d1 d2 d3 t1 t2
    [typed (make_line f) e1 b1; typed (write_line f data) e2 b2; typed (read_line_of f) e3 b3]
    false m c Hm) as H. rewrite Hspec in H.
  destruct H as (m' & Hrun & Hm'); [do 3 (apply Forall_cons; split; [by apply typed_ok|]); apply Forall_nil_2|].
  exists m'. split; [done|]. rewrite <-Hterm. apply (md_screen _ _ Hm').
Qed.

(** C37: a long file overruns the command line's buffer.  [file read] on a
    readable file of 128 bytes or more stores the terminator one byte behind
    [buffer[128]]. *)
Theorem cli_read_overflow s c f i af esp scratch :
  models s c → c.(c_editor).(ed_line) = Some (read_line_of f) → name_ok f →
  (length f ≤ 117)%nat → lookup_name c.(c_fs) f = Some (i, af) →
  check_permissions af.(af_perm) 0 = true → (128 ≤ length af.(af_data))%nat →
  length scratch = 128%nat →
  cli_iteration base d1 d2 d3 t1 t2 s esp scratch = Err OutOfBounds.
Proof.
  intros Hs Hline Hf Hlen Hl Hp Hd Hscr.
  pose proof (iteration_meets base d1 d2 d3 t1 t2 esp scratch Hscr s c Hs) as H.
  cbn [c_print c_editor] in H. rewrite Hline in H. unfold entered in H.
  rewrite take_ge in H.
  2:{ unfold read_line_of. rewrite length_app. simpl. lia. }
  rewrite parse_read in H by done. cbn [execute c_no_line c_fs c_print] in H.
  unfold spec_read in H. rewrite Hl, Hp in H. change (Z.to_nat 128) with 128%nat in H.
  rewrite length_take, Nat.min_l in H by lia. cbn [Z.eqb Z.of_nat] in H.
  rewrite (proj2 (Z.eqb_neq _ _)) in H by done. rewrite aset_err in H; [exact H|].
  rewrite length_splice by (rewrite length_take; lia). lia.
Qed.
End theorems.

(** ** Witnesses *)

(** A machine as it is loaded: objects of zeros, [kernel_memory] at one
    megabyte. *)
Definition demo_machine : machine :=
  MkMachine
    (MkShell boot_fs (MkKstate (Memory ∅ [] 0) 0 (MkQueue 0 0) 0 1) boot_keyboard boot_screen
       (MkStrtok (replicate 128 0) None))
    (replicate 3 (GdtEntry 0 0 0 0 0 0)) (0, 0) (replicate 256 (IdtEntry 0 0 0 0 0)) (0, 0)
    (replicate 256 None) [] false.

Definition demo_platform : platform :=
  MkPlatform 1060000 1070000 1049000 ((λ i, 1050000 + 16 * i) <$> seqZ 0 16) 255 255.

Definition demo_scratch : list Z := replicate 128 7.

Lemma demo_loaded : loaded demo_machine ready (boot_term (replicate 4000 0)).
Proof.
  split; [apply boot_fs_shape|apply boot_edits|apply boot_screen_shows|..]; reflexivity.
Qed.

Lemma demo_platform_ok : platform_ok demo_platform.
Proof.
  split; [simpl; lia|]. split; [simpl; lia|]. split; [reflexivity|].
  apply (bool_decide_eq_true_1 _). vm_compute. reflexivity.
Qed.

(** [ls], [process dummy1 3], half a line, [exit]. *)
Definition demo_turns : list turn :=
  [typed (chars "ls") 0 demo_scratch; typed (chars "process dummy1 3") 0 demo_scratch;
   MkTurn [18; 45] 0 demo_scratch; MkTurn [23; 20; 28] 0 demo_scratch].

Lemma kernel_session_refines_witness :
  ∃ m0, kernel_boot demo_platform (replicate 10 0) (replicate 10 0) demo_machine = Ok m0 ∧
    match spec_session 1048576 2000000 2000100 2000200 2000300 2000400 false
            (boot_console demo_machine ready (boot_term (replicate 4000 0))) demo_turns with
    | Ok (rs, c) => ∃ m', session 1048576 2000000 2000100 2000200 2000300 2000400 false m0 demo_turns =
                      Ok (rs, m') ∧ models m'.(m_shell) c
    | Err e => session 1048576 2000000 2000100 2000200 2000300 2000400 false m0 demo_turns = Err e
    end.
Proof.
  apply (kernel_session_refines 1048576 2000000 2000100 2000200 2000300 2000400 demo_platform
    (replicate 10 0) (replicate 10 0) demo_machine ready (boot_term (replicate 4000 0)) demo_turns);
    [apply demo_loaded|apply demo_platform_ok|reflexivity|reflexivity|].
  repeat (apply Forall_cons; split; [split; [apply (bool_decide_eq_true_1 _); by vm_compute|reflexivity]|]).
  apply Forall_nil_2.
Defined.

(** What the specification says about it. *)
Example demo_turns_results :
  match spec_session 1048576 2000000 2000100 2000200 2000300 2000400 false
          (boot_console demo_machine ready (MkTerm [blank_row] 0 0)) demo_turns with
  | Ok (rs, _) => rs = [Continue; Continue; Waiting; Exit]
  | Err _ => False
  end.
Proof. vm_compute. reflexivity. Qed.

Lemma typed_file_roundtrip_witness :
  let f := chars "a" in let data := chars "hi there" in
  ∃ m0 m', kernel_boot demo_platform (replicate 10 0) (replicate 10 0) demo_machine = Ok m0 ∧
    session 1048576 2000000 2000100 2000200 2000300 2000400 false m0
      [typed (make_line f) 0 demo_scratch; typed (write_line f data) 0 demo_scratch;
       typed (read_line_of f) 0 demo_scratch] = Ok ([Continue; Continue; Continue], m') ∧
    shows m'.(m_shell).(sh_screen)
      (t_print (boot_console demo_machine ready (boot_term (replicate 4000 0))).(c_term)
         (file_transcript f data)).
Proof.
  intros f data. destruct (boot_ok demo_platform (replicate 10 0) (replicate 10 0) demo_machine ready
    (boot_term (replicate 4000 0)) demo_loaded demo_platform_ok eq_refl eq_refl) as (m0 & Hb & Hs).
  destruct (typed_file_roundtrip 1048576 2000000 2000100 2000200 2000300 2000400 m0 _ f data 0 0 0
    demo_scratch demo_scratch demo_scratch Hs) as (m' & H1 & H2);
    [reflexivity| | | |discriminate|apply Nat.leb_le; by vm_compute|by vm_compute| |reflexivity..|].
  - split; [discriminate|]. intros c ->%list_elem_of_singleton.
    apply (bool_decide_eq_true_1 _). by vm_compute.
  - apply (bool_decide_eq_true_1 _). by vm_compute.
  - apply (bool_decide_eq_true_1 _). by vm_compute.
  - apply (list_elem_of_lookup_2 _ 0%nat). by vm_compute.
  - exists m0, m'. split; [exact Hb|]. split; [exact H1|exact H2].
Defined.

(** A file of 128 bytes, and a line that reads it. *)
Definition long_cmds : list fs_cmd := [Create name_a; Write name_a (replicate 128 65) 128].
Definition long_line : list Z := read_line_of [97].
Definition long_shell : shell :=
  MkShell (demo long_cmds) (MkKstate (Memory ∅ [] 0) 0 (MkQueue 0 0) 0 1)
    (MkKeyboard (replicate 256 0) true (long_line ++ replicate 245 0) 0 false false) boot_screen
    (MkStrtok (replicate 128 0) None).
Definition long_console : console :=
  MkConsole (demo_abs long_cmds) (MkKstate (Memory ∅ [] 0) 0 (MkQueue 0 0) 0 1)
    (MkEditor [] (Some long_line) false false) (boot_term (replicate 4000 0)).

Lemma long_models : models long_shell long_console.
Proof.
  destruct (demo_ok long_cmds ltac:(cmds_ok)) as [Hwf Ha].
  split; [done|done|done| |apply boot_screen_shows|reflexivity].
  split; try reflexivity.
  - simpl. lia.
  - apply not_elem_of_nil.
  - by intros line [= <-].
Qed.

Lemma cli_read_overflow_witness :
  cli_iteration 1048576 2000000 2000100 2000200 2000300 2000400 long_shell 0 demo_scratch =
    Err OutOfBounds.
Proof.
  apply (cli_read_overflow 1048576 2000000 2000100 2000200 2000300 2000400 long_shell long_console
    [97] 0 (AFile [97] 7 1 (replicate 128 65)) 0 demo_scratch long_models);
    [reflexivity| |simpl; lia|by vm_compute|reflexivity|simpl; lia|reflexivity].
  split; [done|]. intros c ->%list_elem_of_singleton. apply (bool_decide_eq_true_1 _). by vm_compute.
Defined.
